(* ===== verification/_CoqProject ===== *)
-Q . S2P
Prelude.v
Vectors.v
Sha256.v
Script.v
ScriptFacts.v
SwapContract.v
SwapTheorems.v
BigEndian.v
Base58.v
Ripemd160.v
Decimal.v
Float.v
Address.v
AddressTheorems.v
Wire.v
WireTheorems.v
Fees.v
FeesTheorems.v
Engine.v
EngineFacts.v
EngineTheorems.v
P2shTheorems.v
Cli.v
BtcSwap.v
BtcCommands.v
BtcFacts.v
BtcTheorems.v
BtcSim.v
Json.v
Rpc.v
RpcClient.v
RpcClientTheorems.v
RpcTheorems.v
Flags.v
BtcCli.v
BtcCliTheorems.v
EthAmount.v
EthContract.v
EthContractTheorems.v
Keccak.v
EthAbi.v
EthTx.v
EthBinding.v
EthEvents.v
EthSwap.v
EthAbiTheorems.v
EthCommands.v
EthTheorems.v
EthBindingTheorems.v
EthEventsTheorems.v
EthCommandTheorems.v
EthCli.v
EthCliTheorems.v
Strkey.v
Base64.v
Xdr.v
StellarXdr.v
TxnBuild.v
StellarSwap.v
StellarCommands.v
StellarCli.v
StrkeyTheorems.v
Base64Theorems.v
StellarXdrTheorems.v
TxnBuildTheorems.v
XdrTyped.v
StellarTheorems.v
StellarRedeem.v
StellarRuns.v
StellarSim.v
StellarCliTheorems.v
CrossChain.v
BtcLeg.v
EthLeg.v
StellarLeg.v
AtomicSwap.v
