(* ===== verification/Prelude.v ===== *)
(** * Atomic swap tools: verification development

    The repository holds three command line tools with which two parties swap
    coins of different block chains: [btcatomicswap] (a Bitcoin script, over the
    Electrum wallet), [ethatomicswap] (a Solidity contract, over an Ethereum
    node) and [stellaratomicswap] (an account with special signers, over
    Horizon). In each, a contract pays the counterparty against a secret
    whose SHA-256 hash is known, or its author after a lock time; the
    commands initiate, participate, redeem, refund, extractsecret and
    auditcontract build, spend and check such contracts. This library models
    the tools, the Solidity contract, and the vendored code that decides what
    a contract is and what is accepted, and proves what a user of the tools
    relies on.

    ** Shared parts

    - [Prelude]: Go errors and outcomes (a value, an error, a panic), machine
      integers with their wrap-around, byte lists, the inversion tactic
      [go_inv]. [Vectors]: values published in
      src/cmd/stellaratomicswap/walkthrough.md.
    - [Sha256], [Ripemd160], [Keccak]: executable hash functions. [BigEndian],
      [Decimal], [Float], [Base58], [Base64]: numbers and texts.
    - [Cli]: the monad of commands (print, prompt, clock, calls of a node) with
      promptPublishTx and lock times; [Flags]: package flag,
      checkCmdArgLength and the exit status of the three main functions.

    ** The Bitcoin tool (src/cmd/btcatomicswap)

    - [Script] (txscript: opcodes, script numbers, ScriptBuilder, parser),
      [SwapContract] (atomicSwapContract, redeemP2SHContract,
      refundP2SHContract of main.go, ExtractAtomicSwapDataPushes), [Engine]
      (the script engine on the opcodes of the contract), [Wire]
      (transactions), [Fees] (sizeest.go, txrules), [Address] (btcutil).
    - [BtcSwap] and [BtcCommands]: the functions and commands of main.go over
      the interfaces [BtcWallet] and [Secp256k1]; [Json], [Rpc], [RpcClient]:
      package rpcclient, which implements [BtcWallet] over a server, with the
      queue and the goroutine as a step relation; [BtcCli]: run and main.
    - [SwapTheorems], [EngineTheorems], [P2shTheorems]: the recogniser accepts
      the contract and nothing else; every accepted spend of a contract is
      a redemption with the secret or a refund after the lock time, and the
      scripts of the tool are accepted. [WireTheorems], [FeesTheorems],
      [AddressTheorems]: round trips, types, worst-case sizes. [BtcTheorems]:
      what the audit shows is the contract, the refund of a lock time that fits
      a transaction is built and accepted unless it is dust, redeeming needs the
      secret. [RpcClientTheorems], [RpcTheorems]: every
      call is answered once with the reply to its own request, the goroutine
      comes to an end, one call at a time is a function call; and what goes
      wrong after Shutdown and on the test network. [BtcCliTheorems]: what a
      run of the process publishes. [BtcFacts] holds lemmas, [BtcSim] a wallet
      that satisfies the assumptions.

    ** The Ethereum tool (src/cmd/ethatomicswap)

    - [EthContract]: contract/src/contracts/AtomicSwap.sol as functions on a
      world of balances, storage and log, with the steps of the chain.
    - [EthAbi], [EthTx]: ABI calls, events and RLP transactions of go-ethereum;
      [EthBinding], [EthEvents]: contract/atomicswap.go over BoundContract of
      go-ethereum, the second its filters, iterators and watchers of events, with
      their goroutines as step relations; [EthAmount]: amounts of ether;
      [EthSwap], [EthCommands]: the transactor and the commands of main.go over
      [EthNode]; [EthCli]: run and main.
    - [EthContractTheorems]: each function against its guard and effect, the
      life of every swap in reachable states, solvency, and that a swap can
      always be settled. [EthAbiTheorems], [EthTheorems]: calls are read back,
      the tool sees exactly the stored swap, what passes its checks succeeds
      on chain (a refund exactly after the deadline), the lock time shown is never
      too late. [EthBindingTheorems]: the tool's transactor agrees with the
      binding's when it has a key of its own. [EthEventsTheorems]:
      an iterator refines a walk over the logs, whatever the interleaving, and
      over a chain shows the contract's events in order; a watcher forwards what
      the node sends. [EthCommandTheorems],
      [EthCliTheorems]: at most one transaction is sent, shown before and with
      consent.

    ** The Stellar tool (src/cmd/stellaratomicswap)

    - [Strkey] (strkey, keypair), [Xdr] (go-xdr/xdr3 as codecs over a reader),
      [StellarXdr] (the generated types of a transaction), [TxnBuild]
      (amount, txnbuild), [StellarSwap] (stellar/stellar.go and the builders of
      main.go over [HorizonClient]), [StellarCommands] (the commands),
      [StellarCli] (run and main).
    - [StrkeyTheorems], [Base64Theorems], [StellarXdrTheorems],
      [TxnBuildTheorems], [XdrTyped]: keys and transactions round trip, and
      whatever is read is well formed. [StellarTheorems]: the audit accepts
      exactly the contracts of the swap, the contracts of the tool pass it, and
      a passed audit means that the funds move only with the refund transaction
      or with the recipient and the secret. [StellarRedeem]: a redemption shows
      the secret and extractsecret finds it. [StellarRuns],
      [StellarCliTheorems]: what a run submits, in which order, and prints.
      [StellarSim]: a Horizon on which the theorems are applied.

    ** Swaps between the tools

    - [CrossChain]: the class [SwapLeg], what a contract on one chain is to the other
      side of a swap: what it shows when it is taken, and which secret takes it.
      [BtcLeg], [EthLeg], [StellarLeg]: the contracts of the three tools are
      instances, by the theorems above; [AtomicSwap]: with bitcoin against ether a
      contract that is taken pays the other one; lumens against either are
      atomic for secrets of 32 bytes, and for those only.

    ** Bounds and fuel

    Every loop of the code that is not structural has a measure that is
    proved or evident: the parser and the text decoders take the length
    of their input, [Execute] three steps for each opcode a script can have,
    digit loops the logarithm of the number, regrouping of bits eight rounds
    for each digit, ParseDuration the length of the text, the streaming
    base 64 decoder the bytes asked for. The goroutines of rpcclient need no
    fuel: [RpcClientTheorems.client_runs_end] shows that they end, and
    [EthEventsTheorems.filter_refines_walk] that the iterators do, over their channel
    of 128 logs. Integers have the width of the code: int64 amounts and lock times wrap, the
    contract computes modulo 2^256.

    ** Assumptions, all of them named

    [SigningLaws] (ECDSA signatures exist, verify, and are strict DER),
    [Ed25519Sizes], [HonestWallet] and [WalletTyped] (a wallet that answers
    about its own keys), [WalletReadsKeep], [ServerReadsKeep], [ReadsKeep] and
    [HorizonLog] (reading does not send), [ServesChain], [ServesLogs] and
    [DaemonSigns] (a node that shows the contract and its events and signs what it
    is given), [StellarNetwork] (which signatures count for a signer), [Stipend] (2300
    gas cannot write), [shows_options] (what Horizon shows after set options).
    Each has an instance in a simulation, on which the witnesses run. Hash
    functions are never assumed injective: statements name the collision.

    ** Not modelled

    Curve arithmetic (a parameter); the text of JSON and HTTP; rendering of
    formats and usage texts (a printed line keeps its format and arguments);
    opcodes outside the contract and witness programs (an explicit value
    [unmodelled]); contexts and timeouts, which only show as errors of a node;
    http.NewRequest, whose errors cannot occur on the addresses built;
    hexadecimal floats; log.go of rpcclient; of Stellar the nine operations the
    tool does not build, beyond their XDR. What is left of the implementation is usage texts, the dialling of
    servers, and declarations: behind the interfaces named above. *)

From stdpp Require Export base list list_numbers strings gmap.
From Stdlib Require Export ZArith Lia.
From Stdlib Require Ascii String SpecFloat.

#[global] Open Scope Z_scope.

(** ** Notations, hint databases *)

Declare Scope swap_scope.
Delimit Scope swap_scope with swap.
#[global] Open Scope swap_scope.

Create HintDb swap discriminated.
Create Rewrite HintDb swap_len.

(** ** Errors and outcomes of Go functions *)

(** A Go [error]: built by [errors.New] or by [fmt.Errorf] with the format
    string and the arguments kept (rendering the text is not modelled). *)
Inductive error : Type :=
  | ErrNew (msg : string)
  | Errorf (format : string) (args : list farg)
with farg : Type :=
  | FStr (s : string)
  | FInt (z : Z)
  | FBytes (b : list Z)
  | FFloat (f : SpecFloat.spec_float)
  | FErr (e : error).

(** What a Go call with an error result gives: a value, a non-nil error, or
    a run-time panic. *)
Inductive outcome (A : Type) : Type :=
  | Ret (a : A)
  | Fail (e : error)
  | Panic (e : error).
Arguments Ret {A} _.
Arguments Fail {A} _.
Arguments Panic {A} _.

#[global] Instance outcome_ret : MRet outcome := fun A a => Ret a.
#[global] Instance outcome_bind : MBind outcome := fun A B f m =>
  match m with Ret a => f a | Fail e => Fail e | Panic e => Panic e end.

(** [mapErr f m] wraps the error of [m], as [fmt.Errorf("...: %v", err)]. *)
Definition mapErr {A} (f : error -> error) (m : outcome A) : outcome A :=
  match m with Ret a => Ret a | Fail e => Fail (f e) | Panic e => Panic e end.

(** [guard_err b e] is [if b { return e }]. *)
Definition guard_err (b : bool) (e : error) : outcome unit :=
  if b then Fail e else Ret tt.

Definition of_option {A} (e : error) (o : option A) : outcome A :=
  match o with Some a => Ret a | None => Fail e end.

Section Outcome.
Context {A B C : Type}.
Implicit Types (m : outcome A) (f : A -> outcome B).

Lemma bind_Ret m f (b : B) :
  m ≫= f = Ret b <-> exists a, m = Ret a /\ f a = Ret b.
Proof. destruct m as [x|e|e]; simpl; split; [eauto|intros (?&[=]&?); by subst|done|intros (?&[=]&?)|done|intros (?&[=]&?)]. Qed.

Lemma guard_err_Ret b e u : guard_err b e = Ret u <-> b = false.
Proof. destruct b, u; simpl; split; congruence. Qed.

Lemma of_option_Ret e (o : option A) a : of_option e o = Ret a <-> o = Some a.
Proof. destruct o; simpl; split; congruence. Qed.

Lemma mapErr_Ret g m a : mapErr g m = Ret a <-> m = Ret a.
Proof. destruct m; simpl; split; congruence. Qed.
End Outcome.

(** [go_inv H] unfolds a hypothesis [m >>= f = Ret b] into the results of the
    calls it is made of. *)
Ltac go_inv_step H :=
  lazymatch type of H with
  | mbind _ _ = Ret _ =>
      apply bind_Ret in H;
      let a := fresh "a" in let H1 := fresh "Hr" in
      destruct H as (a & H1 & H); go_inv_step H1; go_inv_step H
  | guard_err _ _ = Ret _ => apply guard_err_Ret in H
  | of_option _ _ = Ret _ => apply of_option_Ret in H
  | mapErr _ _ = Ret _ => apply mapErr_Ret in H; go_inv_step H
  | _ => idtac
  end.
Ltac go_inv H := go_inv_step H; simplify_eq/=.

(** ** Bytes and machine integers *)

Abbreviation bytes := (list Z).

Definition is_byte (z : Z) : Prop := 0 <= z < 256.
#[global] Instance is_byte_dec z : Decision (is_byte z).
Proof. unfold is_byte. apply _. Defined.

(** Every element of a byte slice is a byte. *)
Abbreviation bytes_ok := (Forall is_byte).

(** [zlen l] is Go's [len(l)]. *)
Definition zlen {A} (l : list A) : Z := Z.of_nat (length l).

(** Conversions to fixed-width integers, with Go's wrap-around. *)
Definition to_uint (w z : Z) : Z := z mod 2 ^ w.
Definition to_int (w z : Z) : Z := (z + 2 ^ (w - 1)) mod 2 ^ w - 2 ^ (w - 1).

Definition is_uint (w z : Z) : Prop := 0 <= z < 2 ^ w.
Definition is_int (w z : Z) : Prop := - 2 ^ (w - 1) <= z < 2 ^ (w - 1).

Lemma to_uint_id w z : is_uint w z -> to_uint w z = z.
Proof. intros H. apply Z.mod_small, H. Qed.

Lemma to_uint_range w z : 0 <= w -> is_uint w (to_uint w z).
Proof. intros H. apply Z.mod_pos_bound. lia. Qed.

Lemma pow2_half w : 0 < w -> 2 ^ w = 2 * 2 ^ (w - 1).
Proof. intros H. replace w with (1 + (w - 1)) at 1 by lia. by rewrite Z.pow_add_r by lia. Qed.

Lemma to_int_id w z : 0 < w -> is_int w z -> to_int w z = z.
Proof.
  unfold to_int, is_int. intros Hw H. pose proof (pow2_half w Hw).
  rewrite Z.mod_small by lia. lia.
Qed.

Lemma to_int_range w z : 0 < w -> is_int w (to_int w z).
Proof.
  unfold to_int, is_int. intros Hw. pose proof (pow2_half w Hw).
  assert (0 < 2 ^ (w - 1)) by lia.
  pose proof (Z.mod_pos_bound (z + 2 ^ (w - 1)) (2 ^ w)). lia.
Qed.

(** The signed reading of [z] differs from [z] by a multiple of [2^w]. *)
Lemma to_int_eqm w z : 0 < w -> exists k, to_int w z = z + k * 2 ^ w.
Proof.
  intros Hw. unfold to_int. exists (- ((z + 2 ^ (w - 1)) / 2 ^ w)).
  pose proof (Z.div_mod (z + 2 ^ (w - 1)) (2 ^ w)). nia.
Qed.

Lemma to_int_idem w z : 0 < w -> to_int w (to_int w z) = to_int w z.
Proof. intros Hw. by apply to_int_id, to_int_range. Qed.

(** A sum may be reduced before a number is added. *)
Lemma to_int_add_l w a b : 0 < w -> to_int w (to_int w a + b) = to_int w (a + b).
Proof.
  intros Hw. destruct (to_int_eqm w a Hw) as [k ->]. unfold to_int. f_equal.
  replace (a + k * 2 ^ w + b + 2 ^ (w - 1)) with (a + b + 2 ^ (w - 1) + k * 2 ^ w) by lia.
  apply Z_mod_plus_full.
Qed.

#[export] Hint Resolve to_uint_range to_int_range : swap.

(** ** Lists *)

Lemma zlen_nil {A} : zlen (@nil A) = 0. Proof. done. Qed.
Lemma zlen_cons {A} (x : A) l : zlen (x :: l) = 1 + zlen l.
Proof. unfold zlen. simpl length. lia. Qed.
Lemma zlen_app {A} (l1 l2 : list A) : zlen (l1 ++ l2) = zlen l1 + zlen l2.
Proof. unfold zlen. rewrite length_app. lia. Qed.
Lemma zlen_nonneg {A} (l : list A) : 0 <= zlen l.
Proof. unfold zlen. lia. Qed.
Lemma zlen_0 {A} (l : list A) : zlen l = 0 -> l = [].
Proof. destruct l; unfold zlen; simpl; [done|lia]. Qed.

Lemma take_zlen_app {A} (b r : list A) : take (Z.to_nat (zlen b)) (b ++ r) = b.
Proof. unfold zlen. rewrite Nat2Z.id. apply take_app_length. Qed.
Lemma drop_zlen_app {A} (b r : list A) : drop (Z.to_nat (zlen b)) (b ++ r) = r.
Proof. unfold zlen. rewrite Nat2Z.id. apply drop_app_length. Qed.

#[export] Hint Rewrite @zlen_nil @zlen_cons @zlen_app : swap_len.

(** [zlen_lia] proves linear facts about lengths of concatenations. *)
Ltac zlen_lia :=
  autorewrite with swap_len in *;
  repeat match goal with
    | |- context [zlen ?l] =>
        lazymatch goal with
        | _ : 0 <= zlen l |- _ => fail
        | _ => pose proof (zlen_nonneg l)
        end
    | _ : context [zlen ?l] |- _ =>
        lazymatch goal with
        | _ : 0 <= zlen l |- _ => fail
        | _ => pose proof (zlen_nonneg l)
        end
    end; lia.

(** ** Strings and hexadecimal *)

Definition code (c : Ascii.ascii) : Z := Z.of_nat (Ascii.nat_of_ascii c).

(** A Go string as its bytes, and back. *)
Definition bytes_of_string (s : string) : bytes := map code (String.list_ascii_of_string s).
Definition string_of_bytes (b : bytes) : string :=
  String.string_of_list_ascii (map (fun z => Ascii.ascii_of_nat (Z.to_nat z)) b).

(** [fromHexChar] of [encoding/hex]. *)
Definition fromHexChar (c : Z) : option Z :=
  if (48 <=? c) && (c <=? 57) then Some (c - 48)
  else if (97 <=? c) && (c <=? 102) then Some (c - 97 + 10)
  else if (65 <=? c) && (c <=? 70) then Some (c - 65 + 10)
  else None.

Fixpoint hex_decode (l : bytes) : outcome bytes :=
  match l with
  | [] => Ret []
  | [c] => match fromHexChar c with
           | None => Fail (Errorf "encoding/hex: invalid byte" [FInt c])
           | Some _ => Fail (ErrNew "encoding/hex: odd length hex string")
           end
  | c1 :: c2 :: l' =>
      match fromHexChar c1 with
      | None => Fail (Errorf "encoding/hex: invalid byte" [FInt c1])
      | Some a =>
          match fromHexChar c2 with
          | None => Fail (Errorf "encoding/hex: invalid byte" [FInt c2])
          | Some b => r ← hex_decode l'; Ret (16 * a + b :: r)
          end
      end
  end.

(** [hex.DecodeString] *)
Definition hex_DecodeString (s : string) : outcome bytes := hex_decode (bytes_of_string s).

(** [hex.EncodeToString] *)
Definition hex_digit (d : Z) : Z := if d <? 10 then 48 + d else 87 + d.
Definition hex_encode (b : bytes) : bytes := flat_map (fun c => [hex_digit (c / 16); hex_digit (c mod 16)]) b.

(** A byte string written in hexadecimal, for concrete values. *)
Definition hexb (s : string) : bytes := match hex_DecodeString s with Ret b => b | _ => [] end.

(** [strings.ToLower] on ASCII letters; no other character lowers to one of
    the letters that the code looks for. *)
Definition ToLower (l : bytes) : bytes :=
  map (fun c => if (65 <=? c) && (c <=? 90) then c + 32 else c) l.

(** [decided] proves a closed decidable proposition by evaluation. *)
Ltac decided := apply (bool_decide_unpack _); vm_compute; exact I.

(** [solve_bytes] proves [bytes_ok] of concatenations. *)
Ltac solve_bytes :=
  repeat match goal with
    | |- Forall _ [] => constructor
    | |- Forall _ (_ ++ _) => apply Forall_app_2
    | |- Forall _ (_ :: _) => constructor
    | |- is_byte _ => unfold is_byte; lia
    | |- _ => assumption
    end.
