(* ===== verification/Vectors.v ===== *)
(** * Concrete values

    The transcript of a swap published in [cmd/stellaratomicswap/walkthrough.md],
    on which the witnesses and examples of the development run. *)

From S2P Require Import Prelude.

(** The swap of [cmd/stellaratomicswap/walkthrough.md]: contract, secret and
    the redemption's signature and public key. *)
Module Walkthrough.
Definition pkh := hexb "c98094d0f6bbb95e6729539af1642f65d9110999".
Definition secretHash := hexb "6c3b8ae32bfca727821486a0f79ff1d26800df9df1763099ea188098cfdc241e".
Definition locktime : Z := 1571489801. (* 2019-10-19 12:56:41 UTC *)
Definition contract := hexb "6382012088a8206c3b8ae32bfca727821486a0f79ff1d26800df9df1763099ea188098cfdc241e8876a914c98094d0f6bbb95e6729539af1642f65d911099967040908ab5db17576a914c98094d0f6bbb95e6729539af1642f65d91109996888ac".
Definition secret := hexb "b0d91a0814934a16f8dafc62e75ae03c18cc74489628b0bacf6252f5701024c2".
Definition sig := hexb "3044022036026cc579cc8e3c7143eb6213c2a971ff36c31fb01b805ef4d248bb52170c0102205c029a2af93b7c54f4e1b29b5764164782986da525f7d1ba675a3a791efc26f001".
Definition pubkey := hexb "020e0081ab8cfaee35f6080403efd17e377f493eec93b6a44181279419a913962a".
Definition sigScript := hexb "473044022036026cc579cc8e3c7143eb6213c2a971ff36c31fb01b805ef4d248bb52170c0102205c029a2af93b7c54f4e1b29b5764164782986da525f7d1ba675a3a791efc26f00121020e0081ab8cfaee35f6080403efd17e377f493eec93b6a44181279419a913962a20b0d91a0814934a16f8dafc62e75ae03c18cc74489628b0bacf6252f5701024c2514c616382012088a8206c3b8ae32bfca727821486a0f79ff1d26800df9df1763099ea188098cfdc241e8876a914c98094d0f6bbb95e6729539af1642f65d911099967040908ab5db17576a914c98094d0f6bbb95e6729539af1642f65d91109996888ac".
Definition contractTxBytes := hexb "0200000002d54a32316af9cf1fd2ccf94a9421519184467f8f1e8f4d030ad3fac911b8b00a000000006b4830450221008aceca8f93247644045590d72d3836cd7cc454c4ad9676b71ea545ce205cf61102205c1471209528df179cbaea2eef31739a52543a6b392c57a7b16de9131cefc51e0121035ceaa55c2bfb92c9c3266da89097fa4173d1561bd7b07c91d70b6ac1e01f0f94fdffffff71c5c5b8f1b28dd103d13197aaa961515ded308e52eebbf9df48e3714a08d623000000006b4830450221008b2e155816e217d29cc11a224c2bdfe394490a266f6c5b5b5cacb85062910c8f022011f844cf6ae5ef39f939bdc4d25993c83cb6d80b224605c8be36ec40848eed240121030b658c35df930aa8c17c94e8439e4a6daa3c025713997687eb481103aa3baa5dfdffffff024b069100000000001976a914dee4c7011fcf37ef36e91b76618dcf7f1e92488788ac1f4bbc000000000017a9140dad8d75de0448ba757e5337b3bea2b90f7e2acc8757281800".
Definition redeemTxBytes := hexb "02000000010a78f18a3b18157e4b2aa0423a6748c97fd22222bc537755bed09734c475b18401000000ef473044022036026cc579cc8e3c7143eb6213c2a971ff36c31fb01b805ef4d248bb52170c0102205c029a2af93b7c54f4e1b29b5764164782986da525f7d1ba675a3a791efc26f00121020e0081ab8cfaee35f6080403efd17e377f493eec93b6a44181279419a913962a20b0d91a0814934a16f8dafc62e75ae03c18cc74489628b0bacf6252f5701024c2514c616382012088a8206c3b8ae32bfca727821486a0f79ff1d26800df9df1763099ea188098cfdc241e8876a914c98094d0f6bbb95e6729539af1642f65d911099967040908ab5db17576a914c98094d0f6bbb95e6729539af1642f65d91109996888acffffffff01d549bc00000000001976a914c98094d0f6bbb95e6729539af1642f65d911099988ac0908ab5d".
Definition refundTxBytes := hexb "02000000010a78f18a3b18157e4b2aa0423a6748c97fd22222bc537755bed09734c475b18401000000ce47304402201299d3b185d0342cdc8ebf04bffc8f7caa88fc0212739e59220155db56bb0c9302202e24382efd388455e3e8f566889eb1cebfdc5e0258a5e894fd09516b3099fa510121020e0081ab8cfaee35f6080403efd17e377f493eec93b6a44181279419a913962a004c616382012088a8206c3b8ae32bfca727821486a0f79ff1d26800df9df1763099ea188098cfdc241e8876a914c98094d0f6bbb95e6729539af1642f65d911099967040908ab5db17576a914c98094d0f6bbb95e6729539af1642f65d91109996888ac0000000001f649bc00000000001976a914c98094d0f6bbb95e6729539af1642f65d911099988ac0908ab5d".
End Walkthrough.
