(* ===== verification/Sha256.v ===== *)
(** * SHA-256

    [sha256.Sum256] of Go's [crypto/sha256] (FIPS 180-4), on byte lists.  It
    is the hash that locks every contract of the three tools ([sha256Hash] in
    each [main.go], [sha256] in the Solidity contract). *)

From S2P Require Import Prelude.

Definition mask32 (x : Z) : Z := Z.land x 0xffffffff.
Definition add32 (x y : Z) : Z := mask32 (x + y).
Definition rotr32 (n x : Z) : Z :=
  Z.lor (Z.shiftr x n) (mask32 (Z.shiftl x (32 - n))).
Definition not32 (x : Z) : Z := Z.lxor x 0xffffffff.

Definition sha_ch (x y z : Z) : Z := Z.lxor (Z.land x y) (Z.land (not32 x) z).
Definition sha_maj (x y z : Z) : Z :=
  Z.lxor (Z.lxor (Z.land x y) (Z.land x z)) (Z.land y z).
Definition sha_bsig0 (x : Z) : Z := Z.lxor (Z.lxor (rotr32 2 x) (rotr32 13 x)) (rotr32 22 x).
Definition sha_bsig1 (x : Z) : Z := Z.lxor (Z.lxor (rotr32 6 x) (rotr32 11 x)) (rotr32 25 x).
Definition sha_ssig0 (x : Z) : Z := Z.lxor (Z.lxor (rotr32 7 x) (rotr32 18 x)) (Z.shiftr x 3).
Definition sha_ssig1 (x : Z) : Z := Z.lxor (Z.lxor (rotr32 17 x) (rotr32 19 x)) (Z.shiftr x 10).

(** Big-endian words: the [n] bytes of [z], and the word four bytes make. *)
Fixpoint be_put (n : nat) (z : Z) : bytes :=
  match n with
  | O => []
  | S n' => Z.land (Z.shiftr z (8 * Z.of_nat n')) 0xff :: be_put n' z
  end.

Fixpoint be_words (l : bytes) : list Z :=
  match l with
  | a :: b :: c :: d :: l' =>
      Z.lor (Z.shiftl a 24) (Z.lor (Z.shiftl b 16) (Z.lor (Z.shiftl c 8) d)) :: be_words l'
  | _ => []
  end.

(** The round constants and the initial state: the first 32 bits of the
    fractional parts of cube roots and square roots of primes. *)
Definition sha_k : list Z := Eval vm_compute in be_words (hexb
  "428a2f9871374491b5c0fbcfe9b5dba53956c25b59f111f1923f82a4ab1c5ed5d807aa9812835b01243185be550c7dc372be5d7480deb1fe9bdc06a7c19bf174e49b69c1efbe47860fc19dc6240ca1cc2de92c6f4a7484aa5cb0a9dc76f988da983e5152a831c66db00327c8bf597fc7c6e00bf3d5a7914706ca63511429296727b70a852e1b21384d2c6dfc53380d13650a7354766a0abb81c2c92e92722c85a2bfe8a1a81a664bc24b8b70c76c51a3d192e819d6990624f40e3585106aa07019a4c1161e376c082748774c34b0bcb5391c0cb34ed8aa4a5b9cca4f682e6ff3748f82ee78a5636f84c878148cc7020890befffaa4506cebbef9a3f7c67178f2").

Definition sha_init : list Z := Eval vm_compute in be_words (hexb
  "6a09e667bb67ae853c6ef372a54ff53a510e527f9b05688c1f83d9ab5be0cd19").

(** The message padded to a multiple of 64 bytes. *)
Definition sha_pad (msg : bytes) : bytes :=
  let n := length msg in
  let zeros := (63 - ((n + 8) mod 64))%nat in
  msg ++ [0x80] ++ replicate zeros 0 ++ be_put 8 (8 * Z.of_nat n).

(** The message schedule; [w] is kept latest word first. *)
Fixpoint sha_extend (n : nat) (w : list Z) : list Z :=
  match n with
  | O => w
  | S n' =>
      let at_ i := default 0 (w !! (i - 1)%nat) in
      sha_extend n'
        (add32 (add32 (sha_ssig1 (at_ 2%nat)) (at_ 7%nat))
               (add32 (sha_ssig0 (at_ 15%nat)) (at_ 16%nat)) :: w)
  end.

Definition sha_round (st : list Z) (kw : Z * Z) : list Z :=
  match st with
  | [a; b; c; d; e; f; g; h] =>
      let t1 := add32 (add32 (add32 h (sha_bsig1 e)) (sha_ch e f g)) (add32 kw.1 kw.2) in
      let t2 := add32 (sha_bsig0 a) (sha_maj a b c) in
      [add32 t1 t2; a; b; c; add32 d t1; e; f; g]
  | _ => st
  end.

Definition sha_block (st : list Z) (block : list Z) : list Z :=
  let w := rev (sha_extend 48 (rev block)) in
  zip_with add32 st (fold_left sha_round (zip sha_k w) st).

(** Blocks of 16 words; a message of [n] words needs at most [n] rounds. *)
Fixpoint sha_blocks (fuel : nat) (st : list Z) (ws : list Z) : list Z :=
  match fuel, ws with
  | S f, _ :: _ => sha_blocks f (sha_block st (take 16 ws)) (drop 16 ws)
  | _, _ => st
  end.

Definition sha256 (msg : bytes) : bytes :=
  let ws := be_words (sha_pad msg) in
  concat (map (be_put 4) (sha_blocks (length ws) sha_init ws)).

(** ** Shape of the digest *)

Lemma be_put_length n z : length (be_put n z) = n.
Proof. induction n; simpl; congruence. Qed.

Lemma be_put_ok n z : bytes_ok (be_put n z).
Proof.
  induction n; simpl; constructor; [|done].
  unfold is_byte. change 0xff with (Z.ones 8). rewrite Z.land_ones by lia.
  apply Z.mod_pos_bound. lia.
Qed.

Lemma sha_round_length st kw : length st = 8%nat -> length (sha_round st kw) = 8%nat.
Proof. intros H. do 8 (destruct st as [|? st]; [done|]). by destruct st. Qed.

Lemma sha_rounds_length l st : length st = 8%nat -> length (fold_left sha_round l st) = 8%nat.
Proof. revert st. induction l; intros st H; simpl; auto using sha_round_length. Qed.

Lemma sha_blocks_length f st ws : length st = 8%nat -> length (sha_blocks f st ws) = 8%nat.
Proof.
  revert st ws. induction f as [|f IH]; intros st [|w ws] H; simpl; try done.
  apply IH. unfold sha_block. rewrite length_zip_with, sha_rounds_length by done. lia.
Qed.

Lemma sha256_length msg : zlen (sha256 msg) = 32.
Proof.
  unfold sha256, zlen. set (l := sha_blocks _ _ _).
  assert (length l = 8%nat) as Hl by by apply sha_blocks_length.
  do 8 (destruct l as [|? l]; [done|]). by destruct l.
Qed.

Lemma sha256_ok msg : bytes_ok (sha256 msg).
Proof.
  unfold sha256. generalize (sha_blocks (length (be_words (sha_pad msg))) sha_init (be_words (sha_pad msg))).
  intros l. induction l as [|w l IH]; cbn [map concat]; [constructor|].
  apply Forall_app. split; [apply be_put_ok|done].
Qed.

#[global] Arguments sha256 : simpl never.
#[export] Hint Resolve sha256_ok : swap.

(** FIPS 180-4 test vectors: the empty message and "abc". *)
Example sha256_empty :
  sha256 [] = [0xe3;0xb0;0xc4;0x42;0x98;0xfc;0x1c;0x14;0x9a;0xfb;0xf4;0xc8;0x99;0x6f;0xb9;0x24;
               0x27;0xae;0x41;0xe4;0x64;0x9b;0x93;0x4c;0xa4;0x95;0x99;0x1b;0x78;0x52;0xb8;0x55].
Proof. vm_compute. reflexivity. Qed.

Example sha256_abc :
  sha256 [97; 98; 99] =
    [0xba;0x78;0x16;0xbf;0x8f;0x01;0xcf;0xea;0x41;0x41;0x40;0xde;0x5d;0xae;0x22;0x23;
     0xb0;0x03;0x61;0xa3;0x96;0x17;0x7a;0x9c;0xb4;0x10;0xff;0x61;0xf2;0x00;0x15;0xad].
Proof. vm_compute. reflexivity. Qed.
