(* ===== verification/Script.v ===== *)
(** * Bitcoin scripts: opcodes, script numbers, builder and parser

    The part of the vendored package [btcsuite/btcd/txscript] the Bitcoin
    tool is built on: the opcode table ([opcode.go]), script numbers
    ([scriptnum.go]), [ScriptBuilder] ([scriptbuilder.go]), the script parser
    and its inverse, and the script classes used to recognise outputs
    ([script.go], [standard.go]).  Bytes are [Z], byte slices are lists; a
    slice whose nil-ness the code tests is an [option]. *)

From S2P Require Import Prelude.

(** ** Opcodes *)

Definition OP_0 : Z := 0x00.
Definition OP_DATA_1 : Z := 0x01.
Definition OP_DATA_20 : Z := 0x14.
Definition OP_DATA_32 : Z := 0x20.
Definition OP_PUSHDATA1 : Z := 0x4c.
Definition OP_PUSHDATA2 : Z := 0x4d.
Definition OP_PUSHDATA4 : Z := 0x4e.
Definition OP_1NEGATE : Z := 0x4f.
Definition OP_1 : Z := 0x51.
Definition OP_16 : Z := 0x60.
Definition OP_IF : Z := 0x63.
Definition OP_ELSE : Z := 0x67.
Definition OP_ENDIF : Z := 0x68.
Definition OP_RETURN : Z := 0x6a.
Definition OP_DROP : Z := 0x75.
Definition OP_DUP : Z := 0x76.
Definition OP_SIZE : Z := 0x82.
Definition OP_EQUAL : Z := 0x87.
Definition OP_EQUALVERIFY : Z := 0x88.
Definition OP_SHA256 : Z := 0xa8.
Definition OP_HASH160 : Z := 0xa9.
Definition OP_CHECKSIG : Z := 0xac.
Definition OP_CHECKMULTISIG : Z := 0xae.
Definition OP_CHECKLOCKTIMEVERIFY : Z := 0xb1.

(** The [length] column of [opcodeArray]: 1 for an opcode without data,
    [n + 1] for [OP_DATA_n], and [-1], [-2], [-4] for the pushes with an
    explicit length. *)
Definition opcode_length (v : Z) : Z :=
  if (OP_DATA_1 <=? v) && (v <? OP_PUSHDATA1) then v + 1
  else if v =? OP_PUSHDATA1 then -1
  else if v =? OP_PUSHDATA2 then -2
  else if v =? OP_PUSHDATA4 then -4
  else 1.

(** A parsed opcode: its value (which determines its row of [opcodeArray])
    and the data slice, [None] for nil. *)
Record parsedOpcode := mkPop { pop_value : Z; pop_data : option bytes }.

(** [len(pop.data)]; the length of a nil slice is 0. *)
Definition data_len (p : parsedOpcode) : Z :=
  match pop_data p with Some d => zlen d | None => 0 end.

Definition isSmallInt (v : Z) : bool :=
  (v =? OP_0) || ((OP_1 <=? v) && (v <=? OP_16)).

Definition asSmallInt (v : Z) : Z :=
  if v =? OP_0 then 0 else to_uint 8 (v - (OP_1 - 1)).

(** ** Little-endian numbers *)

(** The number a little-endian byte slice stands for, as the shifts and ors
    of the Go code build it. *)
Fixpoint le_uint (l : bytes) : Z :=
  match l with
  | [] => 0
  | b :: l' => Z.lor b (Z.shiftl (le_uint l') 8)
  end.

(** [binary.LittleEndian.PutUintN]: the [n] low bytes of [z]. *)
Fixpoint le_put (n : nat) (z : Z) : bytes :=
  match n with
  | O => []
  | S n' => Z.land z 0xff :: le_put n' (Z.shiftr z 8)
  end.

(** ** Script numbers *)

(** The loop of [scriptNum.Bytes]: [for n > 0 { append(byte(n&0xff)); n >>= 8 }].
    An [int64] has at most 8 such bytes, so 8 rounds of fuel are enough. *)
Fixpoint snum_loop (fuel : nat) (n : Z) : bytes :=
  match fuel with
  | O => []
  | S f => if 0 <? n then Z.land n 0xff :: snum_loop f (Z.shiftr n 8) else []
  end.

(** [scriptNum.Bytes]; it panics on the least [int64], whose negation is
    itself. *)
Definition scriptNum_Bytes (n : Z) : outcome bytes :=
  if n =? 0 then Ret []
  else
    let isNegative := n <? 0 in
    let n := if isNegative then to_int 64 (- n) else n in
    let result := snum_loop 8 n in
    match last result with
    | None => Panic (ErrNew "index out of range")
    | Some top =>
        if negb (Z.land top 0x80 =? 0) then
          Ret (result ++ [if isNegative then 0x80 else 0x00])
        else if isNegative then
          Ret (take (length result - 1) result ++ [Z.lor top 0x80])
        else Ret result
    end.

Definition checkMinimalDataEncoding (v : bytes) : outcome unit :=
  match last v with
  | None => Ret tt
  | Some top =>
      if Z.land top 0x7f =? 0 then
        if (zlen v =? 1) || (Z.land (default 0 (v !! (length v - 2)%nat)) 0x80 =? 0)
        then Fail (ErrNew "ErrMinimalData")
        else Ret tt
      else Ret tt
  end.

(** [for i, val := range v { result |= int64(val) << uint8(8*i) }] *)
Fixpoint snum_decode_loop (i : Z) (v : bytes) (result : Z) : Z :=
  match v with
  | [] => result
  | val :: v' =>
      snum_decode_loop (i + 1) v'
        (Z.lor result (to_int 64 (Z.shiftl val (to_uint 8 (8 * i)))))
  end.

Definition makeScriptNum (v : bytes) (requireMinimal : bool) (scriptNumLen : Z) : outcome Z :=
  if scriptNumLen <? zlen v then Fail (ErrNew "ErrNumberTooBig")
  else
    _ ← (if requireMinimal then checkMinimalDataEncoding v else Ret tt);
    match last v with
    | None => Ret 0
    | Some top =>
        let result := snum_decode_loop 0 v 0 in
        if negb (Z.land top 0x80 =? 0) then
          Ret (to_int 64 (- Z.land result
                (Z.lnot (to_int 64 (Z.shiftl 0x80 (to_uint 8 (8 * (zlen v - 1))))))))
        else Ret result
    end.

(** ** The script builder *)

Definition MaxScriptSize : Z := 10000.
Definition MaxScriptElementSize : Z := 520.

Record ScriptBuilder := mkBuilder { b_script : bytes; b_err : option error }.

Definition NewScriptBuilder : ScriptBuilder := mkBuilder [] None.

Definition ErrScriptNotCanonical : error := ErrNew "ErrScriptNotCanonical".

Definition AddOp (opcode : Z) (b : ScriptBuilder) : ScriptBuilder :=
  match b_err b with
  | Some _ => b
  | None =>
      if MaxScriptSize <? zlen (b_script b) + 1
      then mkBuilder (b_script b) (Some ErrScriptNotCanonical)
      else mkBuilder (b_script b ++ [opcode]) None
  end.

Definition canonicalDataSize (data : bytes) : Z :=
  let dataLen := zlen data in
  let d0 := default 0 (data !! 0%nat) in
  if dataLen =? 0 then 1
  else if (dataLen =? 1) && (d0 <=? 16) then 1
  else if (dataLen =? 1) && (d0 =? 0x81) then 1
  else if dataLen <? OP_PUSHDATA1 then 1 + dataLen
  else if dataLen <=? 0xff then 2 + dataLen
  else if dataLen <=? 0xffff then 3 + dataLen
  else 5 + dataLen.

(** The bytes the internal [addData] appends for [data]. *)
Definition addData_chunk (data : bytes) : bytes :=
  let dataLen := zlen data in
  let d0 := default 0 (data !! 0%nat) in
  if (dataLen =? 0) || ((dataLen =? 1) && (d0 =? 0)) then [OP_0]
  else if (dataLen =? 1) && (d0 <=? 16) then [to_uint 8 (OP_1 - 1 + d0)]
  else if (dataLen =? 1) && (d0 =? 0x81) then [OP_1NEGATE]
  else
    (if dataLen <? OP_PUSHDATA1 then [OP_DATA_1 - 1 + dataLen]
     else if dataLen <=? 0xff then [OP_PUSHDATA1; dataLen]
     else if dataLen <=? 0xffff then OP_PUSHDATA2 :: le_put 2 dataLen
     else OP_PUSHDATA4 :: le_put 4 dataLen) ++ data.

Definition AddData (data : bytes) (b : ScriptBuilder) : ScriptBuilder :=
  match b_err b with
  | Some _ => b
  | None =>
      if MaxScriptSize <? zlen (b_script b) + canonicalDataSize data
      then mkBuilder (b_script b) (Some ErrScriptNotCanonical)
      else if MaxScriptElementSize <? zlen data
      then mkBuilder (b_script b) (Some ErrScriptNotCanonical)
      else mkBuilder (b_script b ++ addData_chunk data) None
  end.

(** [AddInt64]; the panic of [scriptNum.Bytes] is the only one. *)
Definition AddInt64 (val : Z) (b : ScriptBuilder) : outcome ScriptBuilder :=
  match b_err b with
  | Some _ => Ret b
  | None =>
      if MaxScriptSize <? zlen (b_script b) + 1
      then Ret (mkBuilder (b_script b) (Some ErrScriptNotCanonical))
      else if val =? 0 then Ret (mkBuilder (b_script b ++ [OP_0]) None)
      else if (val =? -1) || ((1 <=? val) && (val <=? 16))
      then Ret (mkBuilder (b_script b ++ [to_uint 8 (OP_1 - 1 + val)]) None)
      else v ← scriptNum_Bytes val; Ret (AddData v b)
  end.

(** [Script]: the script and the error are returned together; callers use
    the script only when the error is nil. *)
Definition BuilderScript (b : ScriptBuilder) : outcome bytes :=
  match b_err b with Some e => Fail e | None => Ret (b_script b) end.

(** ** Parsing *)

Definition ErrMalformedPush : error := ErrNew "ErrMalformedPush".

(** One round of the loop of [parseScriptTemplate] at opcode [instr], with
    [rest] the bytes after it: the parsed opcode and the bytes left. *)
Definition parse_one (instr : Z) (rest : bytes) : outcome (parsedOpcode * bytes) :=
  let len := opcode_length instr in
  if len =? 1 then Ret (mkPop instr None, rest)
  else if 1 <? len then
    if 1 + zlen rest <? len then Fail ErrMalformedPush
    else
      let n := Z.to_nat (len - 1) in
      Ret (mkPop instr (Some (take n rest)), drop n rest)
  else
    let k := Z.to_nat (- len) in
    if zlen rest <? - len then Fail ErrMalformedPush
    else
      let l := le_uint (take k rest) in
      let rest' := drop k rest in
      if (zlen rest' <? to_int 64 l) || (to_int 64 l <? 0) then Fail ErrMalformedPush
      else Ret (mkPop instr (Some (take (Z.to_nat l) rest')), drop (Z.to_nat l) rest').

(** The loop of [parseScriptTemplate].  Every round consumes at least one
    byte, so [length script] rounds of fuel are enough (parse_total). *)
Fixpoint parse_loop (fuel : nat) (script : bytes) : outcome (list parsedOpcode) :=
  match script with
  | [] => Ret []
  | instr :: rest =>
      match fuel with
      | O => Panic (ErrNew "out of fuel")
      | S f =>
          '(pop, script') ← parse_one instr rest;
          pops ← parse_loop f script';
          Ret (pop :: pops)
      end
  end.

Definition parseScript (script : bytes) : outcome (list parsedOpcode) :=
  parse_loop (length script) script.

Definition ErrInternal : error := ErrNew "ErrInternal".

(** [parsedOpcode.bytes] *)
Definition pop_bytes (p : parsedOpcode) : outcome bytes :=
  let len := opcode_length (pop_value p) in
  let d := default [] (pop_data p) in
  if len =? 1 then
    if negb (data_len p =? 0) then Fail ErrInternal else Ret [pop_value p]
  else
    let head :=
      if 0 <? len then [pop_value p]
      else pop_value p :: le_put (Z.to_nat (- len)) (zlen d) in
    let nbytes :=
      if 0 <? len then len else le_uint (drop 1 head) + zlen head in
    let ret := head ++ d in
    if negb (zlen ret =? nbytes) then Fail ErrInternal else Ret ret.

Fixpoint unparseScript (pops : list parsedOpcode) : outcome bytes :=
  match pops with
  | [] => Ret []
  | p :: ps => b ← pop_bytes p; bs ← unparseScript ps; Ret (b ++ bs)
  end.

(** [canonicalPush] *)
Definition canonicalPush (p : parsedOpcode) : bool :=
  let opcode := pop_value p in
  let data := default [] (pop_data p) in
  let dataLen := zlen data in
  if OP_16 <? opcode then true
  else if (opcode <? OP_PUSHDATA1) && (OP_0 <? opcode) &&
          ((dataLen =? 1) && (default 0 (data !! 0%nat) <=? 16)) then false
  else if (opcode =? OP_PUSHDATA1) && (dataLen <? OP_PUSHDATA1) then false
  else if (opcode =? OP_PUSHDATA2) && (dataLen <=? 0xff) then false
  else if (opcode =? OP_PUSHDATA4) && (dataLen <=? 0xffff) then false
  else true.

(** [PushedData]: the pushed data of a script, [OP_0] included, the small
    integers not. *)
Fixpoint pushed_of (pops : list parsedOpcode) : list bytes :=
  match pops with
  | [] => []
  | p :: ps =>
      match pop_data p with
      | Some d => d :: pushed_of ps
      | None => if pop_value p =? OP_0 then [] :: pushed_of ps else pushed_of ps
      end
  end.

Definition PushedData (script : bytes) : outcome (list bytes) :=
  pops ← parseScript script; Ret (pushed_of pops).

(** ** Script classes *)

Inductive ScriptClass : Set :=
  | NonStandardTy | PubKeyTy | PubKeyHashTy | WitnessV0PubKeyHashTy
  | ScriptHashTy | WitnessV0ScriptHashTy | MultiSigTy | NullDataTy.

#[global] Instance ScriptClass_eq_dec : EqDecision ScriptClass.
Proof. solve_decision. Defined.

(** [values pops] is the list of the opcode values of a parsed script. *)
Definition values (pops : list parsedOpcode) : list Z := map pop_value pops.

Definition isPubkey (pops : list parsedOpcode) : bool :=
  match pops with
  | [p0; p1] =>
      ((data_len p0 =? 33) || (data_len p0 =? 65)) && (pop_value p1 =? OP_CHECKSIG)
  | _ => false
  end.

Definition isPubkeyHash (pops : list parsedOpcode) : bool :=
  bool_decide (values pops = [OP_DUP; OP_HASH160; OP_DATA_20; OP_EQUALVERIFY; OP_CHECKSIG]).

Definition isScriptHash (pops : list parsedOpcode) : bool :=
  bool_decide (values pops = [OP_HASH160; OP_DATA_20; OP_EQUAL]).

Definition isWitnessScriptHash (pops : list parsedOpcode) : bool :=
  bool_decide (values pops = [OP_0; OP_DATA_32]).

Definition isWitnessPubKeyHash (pops : list parsedOpcode) : bool :=
  bool_decide (values pops = [OP_0; OP_DATA_20]).

Definition isMultiSig (pops : list parsedOpcode) : bool :=
  let l := length pops in
  if (l <? 4)%nat then false
  else
    match pops !! 0%nat, pops !! (l - 2)%nat, pops !! (l - 1)%nat with
    | Some p0, Some pn, Some pl =>
        isSmallInt (pop_value p0) && isSmallInt (pop_value pn) &&
        (pop_value pl =? OP_CHECKMULTISIG) &&
        (Z.of_nat l - 2 - 1 =? asSmallInt (pop_value pn)) &&
        forallb (fun p => (data_len p =? 33) || (data_len p =? 65))
          (take (l - 3) (drop 1 pops))
    | _, _, _ => false
    end.

Definition MaxDataCarrierSize : Z := 80.

Definition isNullData (pops : list parsedOpcode) : bool :=
  match pops with
  | [p0] => pop_value p0 =? OP_RETURN
  | [p0; p1] =>
      (pop_value p0 =? OP_RETURN) &&
      (isSmallInt (pop_value p1) || (pop_value p1 <=? OP_PUSHDATA4)) &&
      (data_len p1 <=? MaxDataCarrierSize)
  | _ => false
  end.

Definition typeOfScript (pops : list parsedOpcode) : ScriptClass :=
  if isPubkey pops then PubKeyTy
  else if isPubkeyHash pops then PubKeyHashTy
  else if isWitnessPubKeyHash pops then WitnessV0PubKeyHashTy
  else if isScriptHash pops then ScriptHashTy
  else if isWitnessScriptHash pops then WitnessV0ScriptHashTy
  else if isMultiSig pops then MultiSigTy
  else if isNullData pops then NullDataTy
  else NonStandardTy.

Definition GetScriptClass (script : bytes) : ScriptClass :=
  match parseScript script with
  | Ret pops => typeOfScript pops
  | _ => NonStandardTy
  end.

Definition IsUnspendable (pkScript : bytes) : bool :=
  match parseScript pkScript with
  | Ret pops => match pops with p :: _ => pop_value p =? OP_RETURN | [] => false end
  | _ => true
  end.

(** [payToPubKeyHashScript], [payToScriptHashScript] *)
Definition payToPubKeyHashScript (pubKeyHash : bytes) : outcome bytes :=
  BuilderScript (AddOp OP_CHECKSIG (AddOp OP_EQUALVERIFY (AddData pubKeyHash
    (AddOp OP_HASH160 (AddOp OP_DUP NewScriptBuilder))))).

Definition payToScriptHashScript (scriptHash : bytes) : outcome bytes :=
  BuilderScript (AddOp OP_EQUAL (AddData scriptHash (AddOp OP_HASH160 NewScriptBuilder))).
