(* ===== verification/ScriptFacts.v ===== *)
(** * Facts about script numbers, the script builder and the parser *)

From S2P Require Import Prelude Script.

(** ** Specification of script numbers and pushes *)

(** What a sign-and-magnitude little-endian encoding stands for. *)
Definition snum_value (init : bytes) (top : Z) : Z :=
  if top <? 128 then le_uint init + 256 ^ zlen init * top
  else - (le_uint init + 256 ^ zlen init * (top - 128)).

(** The magnitude of an encoded number. *)
Definition snum_mag (init : bytes) (top : Z) : Z := le_uint init + 256 ^ zlen init * (top mod 128).

(** A minimal encoding, split before its last byte. *)
Definition minimal_enc (init : bytes) (top : Z) : Prop :=
  top mod 128 <> 0 \/ exists init' b, init = init' ++ [b] /\ 128 <= b.

(** The digits of the magnitude: the encoding without its sign. *)
Definition snum_digits (init : bytes) (top : Z) : bytes :=
  if top mod 128 =? 0 then init else init ++ [top mod 128].

(** The opcode the chunk appended by [addData] parses to. *)
Definition push_pop (d : bytes) : parsedOpcode :=
  match addData_chunk d with
  | [v] => mkPop v None
  | v :: _ => mkPop v (Some d)
  | [] => mkPop 0 None
  end.

(** A parsed opcode has data exactly when its table row says so. *)
Definition pop_wf (p : parsedOpcode) : Prop :=
  match pop_data p with
  | None => opcode_length (pop_value p) = 1
  | Some d => bytes_ok d /\
      (opcode_length (pop_value p) = 1 + zlen d /\ 1 <= zlen d \/ opcode_length (pop_value p) < 0)
  end.

(** ** Little-endian numbers *)

Lemma lor_shift8 b z : is_byte b -> Z.lor b (Z.shiftl z 8) = b + 256 * z.
Proof.
  intros Hb. rewrite Z.shiftl_mul_pow2 by lia. change (2 ^ 8) with 256.
  replace (b + 256 * z) with (b + z * 256) by lia.
  rewrite Z.lor_comm. apply Z.bits_inj'. intros n Hn.
  rewrite Z.lor_spec. rewrite (Z.add_comm b).
  change 256 with (2 ^ 8) at 1 2.
  rewrite <- (Z.shiftl_mul_pow2 z 8) by lia.
  rewrite <- Z.add_lor_land, <- Z.lor_spec.
  assert (Z.land (Z.shiftl z 8) b = 0) as ->; [|by rewrite Z.add_0_r].
  apply Z.bits_inj'. intros k Hk. rewrite Z.land_spec, Z.bits_0.
  destruct (decide (k < 8)).
  - by rewrite Z.shiftl_spec_low.
  - rewrite (Z.bits_above_log2 b k); [by rewrite andb_false_r|unfold is_byte in *; lia|].
    unfold is_byte in Hb. destruct (decide (b = 0)) as [->|]; [simpl; lia|].
    apply Z.log2_lt_pow2; [lia|]. 
    apply Z.lt_le_trans with (2 ^ 8); [lia|]. apply Z.pow_le_mono_r; lia.
Qed.

Lemma le_uint_cons b l : is_byte b -> le_uint (b :: l) = b + 256 * le_uint l.
Proof. intros Hb. simpl. by apply lor_shift8. Qed.

Lemma le_uint_bound l : bytes_ok l -> 0 <= le_uint l < 256 ^ zlen l.
Proof.
  induction 1 as [|b l Hb Hl IH]; [simpl; unfold zlen; simpl; lia|].
  rewrite le_uint_cons, zlen_cons by done.
  rewrite Z.pow_add_r by (pose proof (zlen_nonneg l); lia).
  unfold is_byte in Hb. lia.
Qed.

Lemma le_put_length n z : length (le_put n z) = n.
Proof. revert z. induction n; intros; simpl; [done|]. by rewrite IHn. Qed.

Lemma le_put_ok n z : bytes_ok (le_put n z).
Proof.
  revert z. induction n as [|n IH]; intros; simpl; constructor; [|apply IH].
  unfold is_byte. change 0xff with (Z.ones 8). rewrite Z.land_ones by lia.
  apply Z.mod_pos_bound. lia.
Qed.

Lemma le_uint_put n z : 0 <= z < 256 ^ Z.of_nat n -> le_uint (le_put n z) = z.
Proof.
  revert z. induction n as [|n IH]; intros z Hz; [simpl in *; lia|].
  simpl le_put. rewrite le_uint_cons.
  2:{ unfold is_byte. change 0xff with (Z.ones 8). rewrite Z.land_ones by lia.
      apply Z.mod_pos_bound. lia. }
  rewrite Nat2Z.inj_succ, Z.pow_succ_r in Hz by lia.
  change 0xff with (Z.ones 8). rewrite Z.land_ones, Z.shiftr_div_pow2 by lia.
  change (2 ^ 8) with 256. rewrite IH; [pose proof (Z.div_mod z 256); lia|].
  split; [apply Z.div_pos; lia|apply Z.div_lt_upper_bound; lia].
Qed.

Lemma le_uint_app l1 l2 :
  bytes_ok l1 -> bytes_ok l2 -> le_uint (l1 ++ l2) = le_uint l1 + 256 ^ zlen l1 * le_uint l2.
Proof.
  intros H1 H2. induction H1 as [|b l Hb Hl IH]; [unfold zlen; simpl; lia|].
  rewrite <- app_comm_cons, !le_uint_cons, IH, zlen_cons by done.
  rewrite Z.pow_add_r by (pose proof (zlen_nonneg l); lia). lia.
Qed.

Lemma le_uint_snoc l b : bytes_ok l -> is_byte b -> le_uint (l ++ [b]) = le_uint l + 256 ^ zlen l * b.
Proof. intros. rewrite le_uint_app by (try constructor; auto). simpl. by rewrite Z.lor_0_r. Qed.

(** ** Facts about single bytes, by enumeration *)

Lemma byte_cases (P : Z -> bool) :
  forallb P (seqZ 0 256) = true -> forall b, is_byte b -> P b = true.
Proof.
  intros H b Hb. rewrite forallb_forall in H. apply H, list_elem_of_In, elem_of_seqZ.
  unfold is_byte in Hb. lia.
Qed.

Lemma byte_sign b : is_byte b -> (Z.land b 0x80 =? 0) = (b <? 128).
Proof.
  intros Hb. apply eqb_prop.
  by apply (byte_cases (fun b => eqb (Z.land b 0x80 =? 0) (b <? 128))).
Qed.

Lemma byte_mag b : is_byte b -> Z.land b 0x7f = b mod 128.
Proof.
  intros Hb. apply Z.eqb_eq.
  by apply (byte_cases (fun b => Z.land b 0x7f =? b mod 128)).
Qed.

Lemma byte_lor_sign b : is_byte b -> b < 128 -> Z.lor b 0x80 = b + 128.
Proof.
  intros Hb Hlt. assert ((128 <=? b) || (Z.lor b 0x80 =? b + 128) = true) as H%orb_true_iff.
  { by apply (byte_cases (fun b => (128 <=? b) || (Z.lor b 0x80 =? b + 128))). }
  lia.
Qed.

(** ** Script numbers *)

Lemma snum_loop_ok f n : bytes_ok (snum_loop f n).
Proof.
  revert n. induction f as [|f IH]; intros n; simpl; [constructor|].
  destruct (0 <? n); constructor; [|apply IH].
  unfold is_byte. change 0xff with (Z.ones 8). rewrite Z.land_ones by lia.
  apply Z.mod_pos_bound. lia.
Qed.

Lemma snum_loop_step f n :
  0 < n -> snum_loop (S f) n = n mod 256 :: snum_loop f (n / 256).
Proof.
  intros Hn. cbn [snum_loop]. destruct (Z.ltb_spec 0 n); [|lia].
  change 0xff with (Z.ones 8). by rewrite Z.land_ones, Z.shiftr_div_pow2 by lia.
Qed.

Lemma snum_loop_zero f n : n <= 0 -> snum_loop f n = [].
Proof. destruct f; simpl; [done|]. by destruct (Z.ltb_spec 0 n); [lia|]. Qed.

(** The digits of [le_uint l] are [l] again when [l] has no leading zero. *)
Lemma snum_loop_le_uint f l :
  bytes_ok l -> (length l <= f)%nat -> last l <> Some 0 -> snum_loop f (le_uint l) = l.
Proof.
  intros Hl. revert f. induction Hl as [|b l Hb Hl IH]; intros f Hf Hlast.
  { apply snum_loop_zero. simpl. lia. }
  destruct f as [|f]; simpl in Hf; [lia|].
  rewrite le_uint_cons by done. pose proof (le_uint_bound l Hl) as Hb'.
  unfold is_byte in Hb.
  assert (0 < b + 256 * le_uint l) as Hpos.
  { destruct l as [|b' l'] using rev_ind; [simpl in *; destruct (decide (b = 0)); [congruence|lia]|].
    clear IHl'. rewrite app_comm_cons, last_snoc in Hlast.
    apply Forall_app in Hl as [Hl1 Hl2]. inversion_clear Hl2.
    rewrite le_uint_snoc by done. pose proof (le_uint_bound _ Hl1).
    assert (b' <> 0) by congruence. unfold is_byte in *.
    assert (0 < 256 ^ zlen l') by (apply Z.pow_pos_nonneg; unfold zlen; lia). nia. }
  rewrite snum_loop_step by done. f_equal.
  - rewrite (Z.mul_comm 256), Z.mod_add, Z.mod_small; lia.
  - rewrite (Z.mul_comm 256), Z.div_add, Z.div_small, Z.add_0_l by lia.
    apply IH; [lia|]. destruct l; [done|]. by simpl in *.
Qed.

(** The loop of [scriptNum.Bytes] gives the digits of [n]. *)
Lemma snum_loop_spec f n :
  0 <= n < 256 ^ Z.of_nat f ->
  le_uint (snum_loop f n) = n /\ (length (snum_loop f n) <= f)%nat /\
  last (snum_loop f n) <> Some 0.
Proof.
  revert n. induction f as [|f IH]; intros n Hn; [simpl in *; split_and!; [lia|lia|done]|].
  destruct (decide (n = 0)) as [->|Hn0]; [rewrite snum_loop_zero by lia; simpl; split_and!; [lia|lia|done]|].
  rewrite Nat2Z.inj_succ, Z.pow_succ_r in Hn by lia.
  destruct (IH (n / 256)) as (He & Hlen & Hlast).
  { split; [apply Z.div_pos; lia|apply Z.div_lt_upper_bound; lia]. }
  rewrite snum_loop_step by lia. pose proof (Z.mod_pos_bound n 256).
  rewrite le_uint_cons, He by (unfold is_byte; lia).
  split_and!; [pose proof (Z.div_mod n 256); lia|simpl; lia|].
  destruct (decide (n / 256 = 0)) as [Hz|Hz].
  - rewrite Hz, snum_loop_zero by lia. simpl. pose proof (Z.div_mod n 256). intros [=]. lia.
  - destruct (snum_loop f (n / 256)) eqn:E; [simpl in He; congruence|]. exact Hlast.
Qed.

Lemma snum_decode_loop_spec v i r :
  bytes_ok v -> 0 <= i -> i + zlen v <= 7 ->
  snum_decode_loop i v r = Z.lor r (Z.shiftl (le_uint v) (8 * i)).
Proof.
  intros Hv. revert i r. induction Hv as [|b v Hb Hv IH]; intros i r Hi Hlen.
  { simpl. by rewrite Z.shiftl_0_l, Z.lor_0_r. }
  rewrite zlen_cons in Hlen. pose proof (zlen_nonneg v). cbn [snum_decode_loop].
  rewrite IH by lia. rewrite (to_uint_id 8) by (unfold is_uint; lia).
  rewrite to_int_id; [|lia|].
  2:{ unfold is_byte in Hb. unfold is_int. rewrite Z.shiftl_mul_pow2 by lia.
      assert (2 ^ (8 * i) <= 2 ^ 48) by (apply Z.pow_le_mono_r; lia).
      assert (0 < 2 ^ (8 * i)) by (apply Z.pow_pos_nonneg; lia).
      change (2 ^ (64 - 1)) with (2 ^ 15 * 2 ^ 48). nia. }
  simpl le_uint. rewrite Z.shiftl_lor, Z.shiftl_shiftl, Z.lor_assoc by lia.
  do 2 f_equal. lia.
Qed.

Lemma pow256 n : 0 <= n -> 256 ^ n = 2 ^ (8 * n).
Proof. intros. change 256 with (2 ^ 8). by rewrite <- Z.pow_mul_r by lia. Qed.

Lemma clear_top r m :
  0 <= m -> 2 ^ m <= r < 2 * 2 ^ m -> Z.land r (Z.lnot (2 ^ m)) = r - 2 ^ m.
Proof.
  intros Hm Hr. rewrite <- Z.ldiff_land. symmetry. apply Z.sub_nocarry_ldiff.
  apply Z.bits_inj'. intros k Hk. rewrite Z.ldiff_spec, Z.bits_0.
  rewrite Z.pow2_bits_eqb by lia. destruct (Z.eqb_spec m k) as [<-|]; [|done].
  assert (Z.testbit r m = true) as ->; [|done]. apply Z.testbit_true; [done|].
  assert (r / 2 ^ m = 1) as ->; [|done].
  symmetry. apply (Z.div_unique r (2 ^ m) 1 (r - 2 ^ m)); lia.
Qed.

Lemma makeScriptNum_decode init top minimal k :
  bytes_ok init -> is_byte top -> zlen init < k -> k <= 7 ->
  (minimal = true -> checkMinimalDataEncoding (init ++ [top]) = Ret tt) ->
  makeScriptNum (init ++ [top]) minimal k = Ret (snum_value init top).
Proof.
  intros Hi Ht Hk Hk7 Hmin. pose proof (zlen_nonneg init) as Hn.
  unfold makeScriptNum, snum_value.
  destruct (Z.ltb_spec k (zlen (init ++ [top]))) as [Hlt|_]; [zlen_lia|].
  assert ((if minimal then checkMinimalDataEncoding (init ++ [top]) else Ret tt) = Ret tt) as ->
    by (destruct minimal; auto).
  simpl. rewrite last_snoc, byte_sign by done.
  assert (bytes_ok (init ++ [top])) as Hok by (apply Forall_app; auto).
  rewrite snum_decode_loop_spec by (zlen_lia || done).
  rewrite Z.mul_0_r, Z.shiftl_0_r, Z.lor_0_l, le_uint_snoc by done.
  pose proof (le_uint_bound init Hi) as Hb. unfold is_byte in Ht.
  destruct (Z.ltb_spec top 128); simpl; [done|]. f_equal.
  rewrite zlen_app. change (zlen [top]) with 1.
  replace (zlen init + 1 - 1) with (zlen init) by lia.
  rewrite (to_uint_id 8) by (unfold is_uint; lia).
  set (P := 256 ^ zlen init) in *.
  assert (0 < P <= 256 ^ 6) as HP.
  { split; [by apply Z.pow_pos_nonneg|]. apply Z.pow_le_mono_r; lia. }
  assert (Z.shiftl 128 (8 * zlen init) = 2 ^ (8 * zlen init + 7)) as ->.
  { rewrite Z.shiftl_mul_pow2 by lia. rewrite Z.pow_add_r by lia. lia. }
  assert (2 ^ (8 * zlen init + 7) = 128 * P) as HE.
  { rewrite Z.pow_add_r by lia. unfold P. rewrite pow256; lia. }
  change (256 ^ 6) with 281474976710656 in HP.
  assert (Hbig : 2 ^ (64 - 1) = 9223372036854775808) by done.
  rewrite (to_int_id 64 (2 ^ _)) by (unfold is_int; nia).
  rewrite clear_top by (rewrite ?HE; nia). rewrite HE.
  rewrite to_int_id by (unfold is_int; nia). lia.
Qed.

Lemma checkMinimal_snoc init top :
  bytes_ok init -> is_byte top ->
  checkMinimalDataEncoding (init ++ [top]) = Ret tt <->
  top mod 128 <> 0 \/ exists init' b, init = init' ++ [b] /\ 128 <= b.
Proof.
  intros Hi Ht. unfold checkMinimalDataEncoding. rewrite last_snoc, byte_mag by done.
  destruct (Z.eqb_spec (top mod 128) 0) as [Hz|Hz]; [|split; auto].
  destruct init as [|b init' _] using rev_ind.
  { simpl. split; [done|]. intros [?|(?&?&?&?)]; [done|]. by destruct x. }
  assert (is_byte b) as Hb by (apply Forall_app in Hi as [_ Hi]; by inversion_clear Hi).
  rewrite !length_app, !zlen_app. change (zlen [b]) with 1. change (zlen [top]) with 1.
  replace (length init' + length [b] + length [top] - 2)%nat with (length init') by (simpl; lia).
  rewrite <- app_assoc, lookup_app_r, Nat.sub_diag by done. simpl.
  rewrite byte_sign by done. pose proof (zlen_nonneg init').
  destruct (Z.eqb_spec (zlen init' + 1 + 1) 1); [lia|]. simpl.
  destruct (Z.ltb_spec b 128); split; try done.
  - intros [?|(i&b'&Heq&?)]; [done|]. apply app_inj_tail in Heq as [-> ->]. lia.
  - intros _. right. eauto.
Qed.

Lemma snum_value_mag init top :
  is_byte top ->
  snum_value init top = if top <? 128 then snum_mag init top else - snum_mag init top.
Proof.
  unfold snum_value, snum_mag, is_byte. intros Ht. destruct (Z.ltb_spec top 128).
  - by rewrite Z.mod_small by lia.
  - replace (top mod 128) with (top - 128); [done|].
    apply (Z.mod_unique_pos top 128 1); lia.
Qed.

Lemma snum_mag_bound init top :
  bytes_ok init -> is_byte top -> 0 <= snum_mag init top < 128 * 256 ^ zlen init.
Proof.
  intros Hi Ht. unfold snum_mag. pose proof (le_uint_bound init Hi).
  pose proof (Z.mod_pos_bound top 128). nia.
Qed.

Lemma snum_mag_pos init top :
  bytes_ok init -> is_byte top -> minimal_enc init top -> 0 < snum_mag init top.
Proof.
  intros Hi Ht Hm. unfold snum_mag. pose proof (le_uint_bound init Hi).
  pose proof (Z.mod_pos_bound top 128).
  assert (0 < 256 ^ zlen init) by (apply Z.pow_pos_nonneg; pose proof (zlen_nonneg init); lia).
  destruct Hm as [Hm|(i&b&->&Hb)]; [nia|].
  apply Forall_app in Hi as [Hi1 Hi2]. inversion_clear Hi2.
  rewrite le_uint_snoc by done. pose proof (le_uint_bound i Hi1).
  assert (0 < 256 ^ zlen i) by (apply Z.pow_pos_nonneg; pose proof (zlen_nonneg i); lia).
  nia.
Qed.

Lemma snum_loop_mag init top :
  bytes_ok init -> is_byte top -> minimal_enc init top -> (length init < 8)%nat ->
  snum_loop 8 (snum_mag init top) = snum_digits init top.
Proof.
  intros Hi Ht Hm Hlen. unfold snum_mag, snum_digits.
  assert (is_byte (top mod 128)) as Ht' by (pose proof (Z.mod_pos_bound top 128); unfold is_byte; lia).
  destruct (Z.eqb_spec (top mod 128) 0) as [Hz|Hz].
  - rewrite Hz, Z.mul_0_r, Z.add_0_r. apply snum_loop_le_uint; [done|lia|].
    destruct Hm as [|(i&b&->&Hb)]; [done|]. rewrite last_snoc. intros [=]. lia.
  - rewrite <- le_uint_snoc by done. apply snum_loop_le_uint.
    + apply Forall_app; auto.
    + rewrite length_app. simpl. lia.
    + rewrite last_snoc. congruence.
Qed.

Lemma scriptNum_Bytes_value init top :
  bytes_ok init -> is_byte top -> minimal_enc init top -> zlen init <= 6 ->
  scriptNum_Bytes (snum_value init top) = Ret (init ++ [top]).
Proof.
  intros Hi Ht Hm Hlen. pose proof (snum_mag_pos init top Hi Ht Hm) as Hpos.
  pose proof (snum_mag_bound init top Hi Ht) as Hbd.
  assert (256 ^ zlen init <= 256 ^ 6) by (apply Z.pow_le_mono_r; lia).
  change (256 ^ 6) with 281474976710656 in *.
  rewrite snum_value_mag by done. unfold scriptNum_Bytes. unfold is_byte in Ht.
  set (m := snum_mag init top) in *.
  set (n := if top <? 128 then m else - m).
  assert ((n =? 0) = false) as -> by (unfold n; destruct (top <? 128); lia).
  assert ((n <? 0) = negb (top <? 128)) as -> by (unfold n; destruct (top <? 128); simpl; lia).
  assert ((if negb (top <? 128) then to_int 64 (- n) else n) = m) as ->.
  { unfold n. destruct (top <? 128); simpl; [done|]. rewrite Z.opp_involutive.
    apply to_int_id; [lia|]. unfold is_int. change (2 ^ (64 - 1)) with 9223372036854775808. lia. }
  unfold m. rewrite snum_loop_mag by (done || (unfold zlen in Hlen; lia)).
  unfold snum_digits. destruct (Z.eqb_spec (top mod 128) 0) as [Hz|Hz].
  - destruct Hm as [|(i&b&->&Hb)]; [done|]. rewrite last_snoc.
    apply Forall_app in Hi as [_ Hi2]. inversion_clear Hi2.
    rewrite byte_sign by done. destruct (Z.ltb_spec b 128); [lia|]. simpl.
    destruct (Z.ltb_spec top 128); simpl; do 3 f_equal.
    + rewrite Z.mod_small in Hz; lia.
    + assert (top / 128 = 1) by (symmetry; apply (Z.div_unique top 128 1 (top - 128)); lia).
      pose proof (Z.div_mod top 128). lia.
  - assert (is_byte (top mod 128)) as Ht' by (pose proof (Z.mod_pos_bound top 128); unfold is_byte; lia).
    rewrite last_snoc, byte_sign by done. pose proof (Z.mod_pos_bound top 128).
    destruct (Z.ltb_spec (top mod 128) 128); [|lia]. simpl.
    destruct (Z.ltb_spec top 128); simpl.
    + by rewrite Z.mod_small by lia.
    + rewrite length_app. simpl. rewrite Nat.add_sub, take_app_length.
      rewrite byte_lor_sign by (done || lia). do 3 f_equal.
      assert (top / 128 = 1) by (symmetry; apply (Z.div_unique top 128 1 (top - 128)); lia).
      pose proof (Z.div_mod top 128). lia.
Qed.

Lemma snum_encoding_exists n j :
  n <> 0 -> 0 <= j <= 6 -> Z.abs n < 128 * 256 ^ j ->
  exists init top, bytes_ok init /\ is_byte top /\ minimal_enc init top /\
    zlen init <= j /\ snum_value init top = n.
Proof.
  intros Hn Hj Hlt. set (d := snum_loop (Z.to_nat (j + 1)) (Z.abs n)).
  assert (Hlt' : 0 <= Z.abs n < 256 ^ Z.of_nat (Z.to_nat (j + 1))).
  { rewrite Z2Nat.id, Z.pow_add_r by lia. lia. }
  destruct (snum_loop_spec _ _ Hlt') as (He & Hlen & Hlast). fold d in He, Hlen, Hlast.
  pose proof (snum_loop_ok (Z.to_nat (j + 1)) (Z.abs n)) as Hok. fold d in Hok.
  destruct d as [|t i _] eqn:Ed using rev_ind; [simpl in He; lia|]. clear Ed d.
  apply Forall_app in Hok as [Hi Ht]. inversion_clear Ht as [|?? Hb _].
  rewrite last_snoc in Hlast. assert (t <> 0) by congruence.
  rewrite length_app in Hlen. simpl in Hlen.
  assert (zlen i <= j) by (unfold zlen; lia).
  rewrite le_uint_snoc in He by done. pose proof (le_uint_bound i Hi). unfold is_byte in Hb.
  destruct (decide (t < 128)) as [Hs|Hs].
  - exists i, (if 0 <? n then t else t + 128).
    assert ((if 0 <? n then t else t + 128) mod 128 = t) as Hm.
    { destruct (0 <? n); [by rewrite Z.mod_small by lia|].
      symmetry. apply (Z.mod_unique_pos (t + 128) 128 1); lia. }
    assert (is_byte (if 0 <? n then t else t + 128)) by (unfold is_byte; destruct (0 <? n); lia).
    split_and!; try done; [left; congruence|].
    rewrite snum_value_mag by done. unfold snum_mag. rewrite Hm, He.
    destruct (Z.ltb_spec 0 n); case_match; lia.
  - exists (i ++ [t]), (if 0 <? n then 0 else 128).
    assert (is_byte (if 0 <? n then 0 else 128)) by (unfold is_byte; destruct (0 <? n); lia).
    split_and!; try done.
    + apply Forall_app; split; [done|]. constructor; [unfold is_byte; lia|constructor].
    + right. exists i, t. split; [done|lia].
    + rewrite zlen_app. change (zlen [t]) with 1.
      destruct (decide (j = zlen i)) as [->|]; [|lia]. exfalso.
      assert (0 < 256 ^ zlen i) by (apply Z.pow_pos_nonneg; lia). nia.
    + rewrite snum_value_mag by done. unfold snum_mag.
      rewrite le_uint_snoc by done.
      destruct (Z.ltb_spec 0 n); simpl; [change (0 mod 128) with 0|change (128 mod 128) with 0]; lia.
Qed.

(** Script numbers round-trip through their minimal encoding. *)
Lemma scriptNum_roundtrip n k :
  1 <= k <= 7 -> Z.abs n < 128 * 256 ^ (k - 1) ->
  exists v, scriptNum_Bytes n = Ret v /\ bytes_ok v /\ zlen v <= k /\
    (n <> 0 -> v <> []) /\ makeScriptNum v true k = Ret n.
Proof.
  intros Hk Hn. destruct (decide (n = 0)) as [->|Hn0].
  { exists []. unfold makeScriptNum. simpl. change (zlen (@nil Z)) with 0.
    destruct (Z.ltb_spec k 0); [lia|]. split_and!; auto with lia. }
  destruct (snum_encoding_exists n (k - 1)) as (i&t&Hi&Ht&Hm&Hl&<-); [done|lia|done|].
  exists (i ++ [t]). split_and!.
  - apply scriptNum_Bytes_value; auto; lia.
  - apply Forall_app; auto.
  - rewrite zlen_app. change (zlen [t]) with 1. lia.
  - intros _. by destruct i.
  - apply makeScriptNum_decode; auto; [lia|lia|]. intros _. by apply checkMinimal_snoc.
Qed.

(** Only the minimal encoding of a number is accepted. *)
Lemma makeScriptNum_minimal_unique v n k :
  k <= 7 -> bytes_ok v -> makeScriptNum v true k = Ret n -> scriptNum_Bytes n = Ret v.
Proof.
  intros Hk Hv H. destruct v as [|t i _] using rev_ind.
  { unfold makeScriptNum in H. simpl in H. case_match; [done|]. by injection H as <-. }
  apply Forall_app in Hv as [Hi Ht]. inversion_clear Ht as [|?? Hb _].
  assert (Hsz : zlen i < k).
  { unfold makeScriptNum in H. destruct (Z.ltb_spec k (zlen (i ++ [t]))); [done|].
    rewrite zlen_app in *. change (zlen [t]) with 1 in *. lia. }
  assert (Hmin : checkMinimalDataEncoding (i ++ [t]) = Ret tt).
  { unfold makeScriptNum in H. case_match; [done|].
    destruct (checkMinimalDataEncoding (i ++ [t])) as [[]| |]; done. }
  rewrite makeScriptNum_decode in H by done. injection H as <-.
  apply scriptNum_Bytes_value; auto; [by apply checkMinimal_snoc|lia].
Qed.

(** ** The parser *)

Lemma parse_one_shorter instr rest p s' :
  parse_one instr rest = Ret (p, s') -> (length s' <= length rest)%nat.
Proof.
  unfold parse_one. intros H. repeat case_match; simplify_eq; rewrite ?length_drop; lia.
Qed.

Lemma parse_one_no_panic instr rest e : parse_one instr rest <> Panic e.
Proof. unfold parse_one. intros H. by repeat case_match. Qed.

Lemma parse_loop_fuel f g s :
  (length s <= f)%nat -> (length s <= g)%nat -> parse_loop f s = parse_loop g s.
Proof.
  revert g s. induction f as [|f IH]; intros g s Hf Hg.
  { destruct s; simpl in *; [by destruct g|lia]. }
  destruct s as [|instr rest]; [by destruct g|]. destruct g as [|g]; simpl in *; [lia|].
  destruct (parse_one instr rest) as [[p s']| |] eqn:E; simpl; try done.
  apply parse_one_shorter in E. rewrite (IH g) by lia. done.
Qed.

(** One round of the parser. *)
Lemma parseScript_cons instr rest :
  parseScript (instr :: rest) =
  ('(p, s') ← parse_one instr rest; ps ← parseScript s'; Ret (p :: ps)).
Proof.
  unfold parseScript. simpl. destruct (parse_one instr rest) as [[p s']| |] eqn:E; simpl; try done.
  apply parse_one_shorter in E. by rewrite (parse_loop_fuel (length rest) (length s')) by lia.
Qed.

Lemma script_ind (P : bytes -> Prop) :
  P [] ->
  (forall instr rest, (forall s', (length s' <= length rest)%nat -> P s') -> P (instr :: rest)) ->
  forall s, P s.
Proof.
  intros H0 H1 s. remember (length s) as n eqn:Hn.
  revert s Hn. induction (lt_wf n) as [n _ IH]. intros [|i r] ->; [done|].
  apply H1. intros s' Hs'. eapply IH; [|done]. simpl. lia.
Qed.

Lemma parseScript_op v rest :
  opcode_length v = 1 ->
  parseScript (v :: rest) = (ps ← parseScript rest; Ret (mkPop v None :: ps)).
Proof. intros Hv. rewrite parseScript_cons. unfold parse_one. by rewrite Hv. Qed.

Lemma opcode_length_data v : 1 <= v <= 75 -> opcode_length v = v + 1.
Proof.
  intros Hv. unfold opcode_length, OP_DATA_1, OP_PUSHDATA1.
  by assert ((1 <=? v) && (v <? 76) = true) as -> by lia.
Qed.

(** The rows of the opcode table, by enumeration. *)
Lemma opcode_length_cases v :
  opcode_length v = 1 /\ (v <= 0 \/ 78 < v) \/
  opcode_length v = v + 1 /\ 1 <= v <= 75 \/
  opcode_length v = -1 /\ v = 76 \/ opcode_length v = -2 /\ v = 77 \/ opcode_length v = -4 /\ v = 78.
Proof.
  unfold opcode_length, OP_DATA_1, OP_PUSHDATA1, OP_PUSHDATA2, OP_PUSHDATA4.
  repeat case_match; lia.
Qed.


Lemma parseScript_data d rest :
  1 <= zlen d <= 75 ->
  parseScript (zlen d :: d ++ rest) =
  (ps ← parseScript rest; Ret (mkPop (zlen d) (Some d) :: ps)).
Proof.
  intros Hd. rewrite parseScript_cons. unfold parse_one.
  rewrite opcode_length_data by lia.
  destruct (Z.eqb_spec (zlen d + 1) 1); [lia|]. destruct (Z.ltb_spec 1 (zlen d + 1)); [|lia].
  destruct (Z.ltb_spec (1 + zlen (d ++ rest)) (zlen d + 1)); [zlen_lia|].
  rewrite Z.add_simpl_r, take_zlen_app, drop_zlen_app. done.
Qed.

(** A push with an explicit length of [k] bytes. *)
Lemma parseScript_pushdata v k d rest :
  opcode_length v = - Z.of_nat k -> (0 < k <= 4)%nat -> zlen d < 256 ^ Z.of_nat k ->
  parseScript (v :: le_put k (zlen d) ++ d ++ rest) =
  (ps ← parseScript rest; Ret (mkPop v (Some d) :: ps)).
Proof.
  intros Hv Hk Hd. pose proof (zlen_nonneg d). pose proof (zlen_nonneg rest).
  rewrite parseScript_cons. unfold parse_one. rewrite Hv.
  destruct (Z.eqb_spec (- Z.of_nat k) 1); [lia|]. destruct (Z.ltb_spec 1 (- Z.of_nat k)); [lia|].
  rewrite Z.opp_involutive, Nat2Z.id.
  assert (zlen (le_put k (zlen d)) = Z.of_nat k) as Hz by (unfold zlen at 1; by rewrite le_put_length).
  destruct (Z.ltb_spec (zlen (le_put k (zlen d) ++ d ++ rest)) (Z.of_nat k)); [zlen_lia|].
  rewrite take_app_le, take_ge by (rewrite le_put_length; lia).
  rewrite drop_app_ge, le_put_length, Nat.sub_diag by (rewrite le_put_length; lia).
  rewrite drop_0, le_uint_put by lia.
  assert (256 ^ Z.of_nat k <= 256 ^ 4) by (apply Z.pow_le_mono_r; lia).
  change (256 ^ 4) with 4294967296 in *.
  rewrite to_int_id by (unfold is_int; change (2 ^ (64 - 1)) with 9223372036854775808; lia).
  destruct (Z.ltb_spec (zlen (d ++ rest)) (zlen d)); [zlen_lia|].
  destruct (Z.ltb_spec (zlen d) 0); [lia|]. simpl.
  by rewrite take_zlen_app, drop_zlen_app.
Qed.

Lemma parseScript_total s : exists r, parseScript s = r /\ forall e, r <> Panic e.
Proof.
  exists (parseScript s). split; [done|]. revert s. apply (script_ind (fun s => forall e, _)).
  - done.
  - intros instr rest IH e. rewrite parseScript_cons.
    destruct (parse_one instr rest) as [[p s']| |] eqn:E; simpl; try done.
    + apply parse_one_shorter in E. specialize (IH s' E).
      destruct (parseScript s'); simpl; congruence.
    + by apply parse_one_no_panic in E.
Qed.

(** ** Data pushes of the builder *)

Lemma zlen_1 {A} (l : list A) : zlen l = 1 -> exists x, l = [x].
Proof. destruct l as [|x [|y l]]; unfold zlen; simpl; [lia|eauto|lia]. Qed.

#[local] Ltac push_cases :=
  split_and!; try (first [done | by auto | by (unfold is_byte, OP_0, OP_1NEGATE in *; lia)]).

Lemma addData_chunk_cases d :
  bytes_ok d -> zlen d < 256 ^ 4 ->
  (exists v, addData_chunk d = [v] /\ opcode_length v = 1 /\ is_byte v /\ zlen d <= 1 /\
     (v = OP_0 /\ (d = [] \/ d = [0]) \/ (exists x, d = [x] /\ v = 80 + x /\ 1 <= x <= 16) \/
      d = [0x81] /\ v = OP_1NEGATE)) \/
  (addData_chunk d = zlen d :: d /\ 1 <= zlen d <= 75) \/
  (exists v k, addData_chunk d = v :: le_put k (zlen d) ++ d /\
     opcode_length v = - Z.of_nat k /\ is_byte v /\ (0 < k <= 4)%nat /\ 76 <= zlen d < 256 ^ Z.of_nat k).
Proof.
  intros Hd Hlen. unfold addData_chunk.
  destruct (Z.eqb_spec (zlen d) 0) as [Hz|Hz].
  { left. exists OP_0. apply zlen_0 in Hz as ->. push_cases. }
  destruct (Z.eqb_spec (zlen d) 1) as [H1|H1]; simpl.
  - apply zlen_1 in H1 as [x ->]. inversion_clear Hd as [|?? Hb _]. simpl. unfold is_byte in Hb.
    destruct (Z.eqb_spec x 0) as [->|Hx0].
    { left. exists OP_0. push_cases. }
    destruct (Z.leb_spec x 16).
    { left. exists (80 + x). rewrite to_uint_id by (unfold is_uint, OP_1; lia).
      push_cases; [|right; left; exists x; split_and!; [done|done|lia|lia]].
      destruct (opcode_length_cases (80 + x)); lia. }
    destruct (Z.eqb_spec x 0x81) as [->|Hx81].
    { left. exists OP_1NEGATE. push_cases. }
    right. left. done.
  - pose proof (zlen_nonneg d). unfold OP_PUSHDATA1, OP_PUSHDATA2, OP_PUSHDATA4, OP_DATA_1.
    destruct (Z.ltb_spec (zlen d) 76) as [H76|H76].
    { right. left. replace (1 - 1 + zlen d) with (zlen d) by lia. split; [done|lia]. }
    right. right. destruct (Z.leb_spec (zlen d) 0xff) as [Hff|Hff].
    { exists 76, 1%nat. push_cases.
      simpl. change 255 with (Z.ones 8). rewrite Z.land_ones, Z.mod_small by lia. done. }
    destruct (Z.leb_spec (zlen d) 0xffff).
    + exists 77, 2%nat. push_cases; simpl; lia.
    + exists 78, 4%nat. push_cases; simpl; lia.
Qed.

Lemma parseScript_push d rest :
  bytes_ok d -> zlen d < 256 ^ 4 ->
  parseScript (addData_chunk d ++ rest) = (ps ← parseScript rest; Ret (push_pop d :: ps)).
Proof.
  intros Hd Hlen. unfold push_pop.
  destruct (addData_chunk_cases d Hd Hlen) as [(v&->&Hl&_)|[[-> Hl]|(v&k&->&Hv&_&Hk&Hl)]].
  - by apply parseScript_op.
  - destruct d as [|b d']; [done|]. by apply (parseScript_data (b :: d')).
  - simpl app. rewrite <- app_assoc, parseScript_pushdata by (done || lia).
    destruct (le_put k (zlen d) ++ d) eqn:E; [|done].
    apply app_nil in E as [_ ->]. unfold zlen in Hl. simpl in Hl. lia.
Qed.

Lemma canonicalDataSize_spec d : bytes_ok d -> canonicalDataSize d = zlen (addData_chunk d).
Proof.
  intros Hd. unfold canonicalDataSize, addData_chunk.
  destruct (Z.eqb_spec (zlen d) 0) as [Hz|Hz]; [done|].
  destruct (Z.eqb_spec (zlen d) 1) as [H1|H1]; simpl.
  - apply zlen_1 in H1 as [x ->]. inversion_clear Hd as [|?? Hb _]. unfold is_byte in Hb. simpl.
    destruct (Z.eqb_spec x 0) as [->|]; [done|].
    repeat case_match; try done; unfold zlen in *; simpl in *; lia.
  - unfold OP_PUSHDATA1. pose proof (zlen_nonneg d).
    repeat case_match; unfold zlen in *; simpl; rewrite ?length_app; simpl; lia.
Qed.

(** ** Builder steps that do not fail *)

Lemma AddOp_ok op s :
  zlen s + 1 <= MaxScriptSize -> AddOp op (mkBuilder s None) = mkBuilder (s ++ [op]) None.
Proof. intros H. unfold AddOp. simpl. case_match; [lia|done]. Qed.

Lemma AddData_ok d s :
  bytes_ok d -> zlen d <= MaxScriptElementSize -> zlen s + zlen (addData_chunk d) <= MaxScriptSize ->
  AddData d (mkBuilder s None) = mkBuilder (s ++ addData_chunk d) None.
Proof.
  intros Hd H1 H2. unfold AddData. simpl. rewrite canonicalDataSize_spec by done.
  repeat case_match; lia || done.
Qed.

(** ** Parsing and unparsing *)

Lemma le_put_uint l : bytes_ok l -> le_put (length l) (le_uint l) = l.
Proof.
  induction 1 as [|b l Hb Hl IH]; [done|]. simpl length. cbn [le_put].
  rewrite le_uint_cons by done. unfold is_byte in Hb. pose proof (le_uint_bound l Hl).
  change 0xff with (Z.ones 8). rewrite Z.land_ones, Z.shiftr_div_pow2 by lia.
  change (2 ^ 8) with 256.
  rewrite (Z.mul_comm 256), Z.mod_add, Z.mod_small, Z.div_add, Z.div_small, Z.add_0_l by lia.
  by rewrite IH.
Qed.

Lemma parse_one_spec instr rest p s' :
  bytes_ok rest -> parse_one instr rest = Ret (p, s') ->
  pop_value p = instr /\ pop_wf p /\ bytes_ok s' /\
  exists b, pop_bytes p = Ret b /\ b ++ s' = instr :: rest.
Proof.
  intros Hr. unfold parse_one.
  destruct (opcode_length_cases instr) as [[Hl Hv]|Hl].
  { rewrite Hl. intros [= <- <-]. split_and!; [done|done|done|].
    exists [instr]. unfold pop_bytes. simpl. by rewrite Hl. }
  destruct (Z.eqb_spec (opcode_length instr) 1); [lia|]. destruct Hl as [[Hl Hv]|Hl].
  - rewrite Hl. destruct (Z.ltb_spec 1 (instr + 1)); [|lia].
    case_match eqn:Hc; [done|]. intros [= <- <-].
    assert (zlen (take (Z.to_nat (instr + 1 - 1)) rest) = instr) as Hz.
    { unfold zlen in *. rewrite length_take. lia. }
    split_and!; [done| |by apply Forall_drop|].
    + unfold pop_wf. simpl. split; [by apply Forall_take|]. left. rewrite Hz. lia.
    + exists (instr :: take (Z.to_nat (instr + 1 - 1)) rest). split; [|simpl; by rewrite take_drop].
      unfold pop_bytes. cbn [pop_value pop_data]. rewrite Hl.
      destruct (Z.eqb_spec (instr + 1) 1); [lia|]. destruct (Z.ltb_spec 0 (instr + 1)); [|lia].
      change (default [] (Some ?x)) with x. rewrite zlen_app, Hz. change (zlen [instr]) with 1.
      destruct (Z.eqb_spec (1 + instr) (instr + 1)); [done|lia].
  - set (k := Z.to_nat (- opcode_length instr)).
    assert (opcode_length instr = - Z.of_nat k /\ (0 < k <= 4)%nat) as [Hk Hk4] by lia.
    destruct (Z.ltb_spec 1 (opcode_length instr)); [lia|].
    destruct (Z.ltb_spec (zlen rest) (- opcode_length instr)) as [|Hrl]; [done|].
    case_match eqn:Hc; [done|]. apply orb_false_iff in Hc as [Hc1 Hc2]. intros [= <- <-].
    assert (bytes_ok (take k rest)) as Htk by by apply Forall_take.
    pose proof (le_uint_bound _ Htk) as Hlb.
    assert (zlen (take k rest) = Z.of_nat k) as Hzk by (unfold zlen in *; rewrite length_take; lia).
    rewrite Hzk in Hlb.
    assert (256 ^ Z.of_nat k <= 256 ^ 4) by (apply Z.pow_le_mono_r; lia).
    change (256 ^ 4) with 4294967296 in *.
    rewrite to_int_id in Hc1 by (unfold is_int; change (2 ^ (64 - 1)) with 9223372036854775808; lia).
    set (l := le_uint (take k rest)) in *.
    assert (zlen (take (Z.to_nat l) (drop k rest)) = l) as Hz.
    { unfold zlen in *. rewrite length_take. lia. }
    split_and!; [done| |by apply Forall_drop, Forall_drop|].
    + unfold pop_wf. simpl. split; [by apply Forall_take, Forall_drop|]. right. lia.
    + exists (instr :: take k rest ++ take (Z.to_nat l) (drop k rest)).
      split; [|simpl; by rewrite <- app_assoc, !take_drop].
      unfold pop_bytes. cbn [pop_value pop_data]. fold k.
      destruct (Z.eqb_spec (opcode_length instr) 1); [lia|].
      destruct (Z.ltb_spec 0 (opcode_length instr)); [lia|].
      change (default [] (Some ?x)) with x. rewrite Hz.
      pose proof (le_put_uint _ Htk) as Hput. fold l in Hput.
      replace (length (take k rest)) with k in Hput by (unfold zlen in Hzk; lia).
      rewrite Hput. simpl drop. rewrite drop_0. fold l. rewrite zlen_app, Hz.
      destruct (Z.eqb_spec (zlen (instr :: take k rest) + l) (l + zlen (instr :: take k rest))); [done|lia].
Qed.

(** [unparseScript] inverts [parseScript], and the parsed opcodes are
    well formed. *)
Lemma parseScript_spec s pops :
  bytes_ok s -> parseScript s = Ret pops -> Forall pop_wf pops /\ unparseScript pops = Ret s.
Proof.
  revert pops. induction s as [|instr rest IH] using script_ind; intros pops Hok H.
  - injection H as <-. by split.
  - inversion_clear Hok as [|?? _ Hr].
    rewrite parseScript_cons in H.
    destruct (parse_one instr rest) as [[p s']| |] eqn:E; simpl in H; try done.
    pose proof (parse_one_shorter _ _ _ _ E) as Hs.
    apply parse_one_spec in E as (_ & Hwf & Hok' & b & Hb & Heq); [|done].
    destruct (parseScript s') as [ps| |] eqn:E'; simpl in H; try done. injection H as <-.
    destruct (IH s' Hs ps Hok' E') as [Hwfs Hu].
    split; [by constructor|]. simpl. by rewrite Hb, Hu, <- Heq.
Qed.
