(* ===== verification/SwapContract.v ===== *)
(** * The Bitcoin atomic swap contract

    [atomicSwapContract], the two signature scripts that spend it
    ([redeemP2SHContract], [refundP2SHContract]), the recogniser
    [ExtractAtomicSwapDataPushes] of the vendored [txscript], and the secret
    search of [extractsecret] over pushed data
    ([cmd/btcatomicswap/main.go]). *)

From S2P Require Import Prelude Sha256 Script ScriptFacts.

Definition secretSize : Z := 32.

Definition sha256Hash (x : bytes) : bytes := sha256 x.

(** ** Contract and signature scripts *)

Definition atomicSwapContract (pkhMe pkhThem : bytes) (locktime : Z) (secretHash : bytes)
    : outcome bytes :=
  let b := NewScriptBuilder in
  let b := AddOp OP_IF b in (* Normal redeem path *)
  let b := AddOp OP_SIZE b in
  b ← AddInt64 secretSize b;
  let b := AddOp OP_EQUALVERIFY b in
  let b := AddOp OP_SHA256 b in
  let b := AddData secretHash b in
  let b := AddOp OP_EQUALVERIFY b in
  let b := AddOp OP_DUP b in
  let b := AddOp OP_HASH160 b in
  let b := AddData pkhThem b in
  let b := AddOp OP_ELSE b in (* Refund path *)
  b ← AddInt64 locktime b;
  let b := AddOp OP_CHECKLOCKTIMEVERIFY b in
  let b := AddOp OP_DROP b in
  let b := AddOp OP_DUP b in
  let b := AddOp OP_HASH160 b in
  let b := AddData pkhMe b in
  let b := AddOp OP_ENDIF b in
  let b := AddOp OP_EQUALVERIFY b in
  let b := AddOp OP_CHECKSIG b in
  BuilderScript b.

Definition redeemP2SHContract (contract sig pubkey secret : bytes) : outcome bytes :=
  let b := NewScriptBuilder in
  let b := AddData sig b in
  let b := AddData pubkey b in
  let b := AddData secret b in
  b ← AddInt64 1 b;
  let b := AddData contract b in
  BuilderScript b.

Definition refundP2SHContract (contract sig pubkey : bytes) : outcome bytes :=
  let b := NewScriptBuilder in
  let b := AddData sig b in
  let b := AddData pubkey b in
  b ← AddInt64 0 b;
  let b := AddData contract b in
  BuilderScript b.

(** ** Recognising a contract *)

Record AtomicSwapDataPushes := mkPushes {
  RecipientHash160 : bytes;
  RefundHash160 : bytes;
  SecretHash : bytes;
  SecretSize : Z;
  LockTime : Z
}.

(** [copy(dst[:], src)] into a zeroed array of [n] bytes. *)
Definition copy_into (n : nat) (src : option bytes) : bytes :=
  let s := take n (default [] src) in s ++ replicate (n - length s) 0.

(** The number pushed at a position of the contract: script number data, a
    small integer opcode, or nothing the recogniser accepts. *)
Definition pushed_number (p : parsedOpcode) : option Z :=
  match pop_data p with
  | Some d => match makeScriptNum d true 5 with Ret n => Some n | _ => None end
  | None => if isSmallInt (pop_value p) then Some (asSmallInt (pop_value p)) else None
  end.

Definition isAtomicSwap (pops : list parsedOpcode) : bool :=
  match pops with
  | [p0; p1; p2; p3; p4; p5; p6; p7; p8; p9; p10; p11; p12; p13; p14; p15; p16; p17; p18; p19] =>
      (pop_value p0 =? OP_IF) && (pop_value p1 =? OP_SIZE) && canonicalPush p2 &&
      (pop_value p3 =? OP_EQUALVERIFY) && (pop_value p4 =? OP_SHA256) &&
      (pop_value p5 =? OP_DATA_32) && (pop_value p6 =? OP_EQUALVERIFY) &&
      (pop_value p7 =? OP_DUP) && (pop_value p8 =? OP_HASH160) &&
      (pop_value p9 =? OP_DATA_20) && (pop_value p10 =? OP_ELSE) && canonicalPush p11 &&
      (pop_value p12 =? OP_CHECKLOCKTIMEVERIFY) && (pop_value p13 =? OP_DROP) &&
      (pop_value p14 =? OP_DUP) && (pop_value p15 =? OP_HASH160) &&
      (pop_value p16 =? OP_DATA_20) && (pop_value p17 =? OP_ENDIF) &&
      (pop_value p18 =? OP_EQUALVERIFY) && (pop_value p19 =? OP_CHECKSIG)
  | _ => false
  end.

(** [ExtractAtomicSwapDataPushes]: an error for a script that does not
    parse, [None] (nil, nil) for one that is not an atomic swap contract. *)
Definition ExtractAtomicSwapDataPushes (pkScript : bytes) : outcome (option AtomicSwapDataPushes) :=
  pops ← parseScript pkScript;
  if negb (isAtomicSwap pops) then Ret None
  else
    let at_ i := default (mkPop 0 None) (pops !! i) in
    match pushed_number (at_ 2%nat), pushed_number (at_ 11%nat) with
    | Some size, Some lock =>
        Ret (Some (mkPushes (copy_into 20 (pop_data (at_ 9%nat)))
                            (copy_into 20 (pop_data (at_ 16%nat)))
                            (copy_into 32 (pop_data (at_ 5%nat))) size lock))
    | _, _ => Ret None
    end.

(** ** Searching the pushed data of a transaction for the secret *)

(** The inner loop of [extractSecretCmd.runOfflineCommand]. *)
Fixpoint find_push (secretHash : bytes) (pushes : list bytes) : option bytes :=
  match pushes with
  | [] => None
  | push :: ps =>
      if bool_decide (sha256Hash push = secretHash) then Some push else find_push secretHash ps
  end.

(** The loop over the inputs: the secret it prints, or its error. *)
Fixpoint extractSecret (sigScripts : list bytes) (secretHash : bytes) : outcome bytes :=
  match sigScripts with
  | [] => Fail (ErrNew "transaction does not contain the secret")
  | s :: ss =>
      pushes ← PushedData s;
      match find_push secretHash pushes with
      | Some push => Ret push
      | None => extractSecret ss secretHash
      end
  end.

(** ** The bytes of the contract *)

(** The bytes [AddInt64] appends for [val]. *)
Definition int_chunk (val : Z) : outcome bytes :=
  if val =? 0 then Ret [OP_0]
  else if (val =? -1) || ((1 <=? val) && (val <=? 16)) then Ret [to_uint 8 (OP_1 - 1 + val)]
  else v ← scriptNum_Bytes val; Ret (addData_chunk v).

(** The contract as a byte string, [lock] being the push of the lock time. *)
Definition contract_bytes (pkhMe pkhThem lock secretHash : bytes) : bytes :=
  [OP_IF; OP_SIZE; 1; 32; OP_EQUALVERIFY; OP_SHA256; 32] ++ secretHash ++
  [OP_EQUALVERIFY; OP_DUP; OP_HASH160; 20] ++ pkhThem ++
  [OP_ELSE] ++ lock ++ [OP_CHECKLOCKTIMEVERIFY; OP_DROP; OP_DUP; OP_HASH160; 20] ++ pkhMe ++
  [OP_ENDIF; OP_EQUALVERIFY; OP_CHECKSIG].

(** The opcode template shared by the recogniser and the builder. *)
Definition swap_template : list (option Z) :=
  [Some OP_IF; Some OP_SIZE; None; Some OP_EQUALVERIFY; Some OP_SHA256; Some OP_DATA_32;
   Some OP_EQUALVERIFY; Some OP_DUP; Some OP_HASH160; Some OP_DATA_20; Some OP_ELSE; None;
   Some OP_CHECKLOCKTIMEVERIFY; Some OP_DROP; Some OP_DUP; Some OP_HASH160; Some OP_DATA_20;
   Some OP_ENDIF; Some OP_EQUALVERIFY; Some OP_CHECKSIG].

(** ** Building the contract *)

Lemma int_chunk_spec val :
  Z.abs val < 2 ^ 39 ->
  exists c, int_chunk val = Ret c /\ bytes_ok c /\ 1 <= zlen c <= 6 /\
    ((exists v, c = [v] /\ opcode_length v = 1 /\
        (isSmallInt v = true /\ asSmallInt v = val /\ 0 <= val <= 16 \/ v = OP_1NEGATE /\ val = -1)) \/
     (exists d, c = zlen d :: d /\ 1 <= zlen d <= 5 /\ bytes_ok d /\ scriptNum_Bytes val = Ret d /\
        makeScriptNum d true 5 = Ret val /\ canonicalPush (mkPop (zlen d) (Some d)) = true /\
        (val < -1 \/ 16 < val))).
Proof.
  intros Hval. unfold int_chunk.
  destruct (Z.eqb_spec val 0) as [->|H0].
  { exists [OP_0]. split_and!; [done|by repeat constructor|done|done|].
    left. exists OP_0. split_and!; [done|done|]. left. done. }
  destruct ((val =? -1) || ((1 <=? val) && (val <=? 16))) eqn:Hs.
  { exists [to_uint 8 (OP_1 - 1 + val)]. unfold OP_1.
    rewrite to_uint_id by (unfold is_uint; lia).
    split_and!; [done|repeat constructor; lia|done|done|].
    left. exists (81 - 1 + val). split_and!; [done|destruct (opcode_length_cases (81 - 1 + val)); lia|].
    destruct (decide (val = -1)) as [->|]; [by right|left]. unfold isSmallInt, asSmallInt, OP_0, OP_1, OP_16.
    split_and!; [lia| |lia|lia]. destruct (Z.eqb_spec (81 - 1 + val) 0); [lia|].
    rewrite to_uint_id by (unfold is_uint; lia). lia. }
  destruct (snum_encoding_exists val 4) as (i&t&Hi&Ht&Hm&Hl&Hv); [done|lia|
    change (128 * 256 ^ 4) with (2 ^ 39); done|].
  set (d := i ++ [t]).
  assert (scriptNum_Bytes val = Ret d) as Hb by (rewrite <- Hv; apply scriptNum_Bytes_value; auto; lia).
  assert (bytes_ok d) as Hd by (apply Forall_app; auto).
  assert (1 <= zlen d <= 5) as Hz by (unfold d; rewrite zlen_app; change (zlen [t]) with 1;
    pose proof (zlen_nonneg i); lia).
  (* a one-byte encoding is neither a small integer nor -1 *)
  assert (zlen d = 1 -> d = [t] /\ 16 < t /\ t <> 0x81) as H1.
  { intros Hz1. assert (i = []) as ->.
    { apply zlen_0. unfold d in Hz1. rewrite zlen_app in Hz1. change (zlen [t]) with 1 in Hz1. lia. }
    split; [done|]. unfold snum_value in Hv. simpl in Hv. change (zlen (@nil Z)) with 0 in Hv.
    unfold is_byte in Ht. destruct (Z.ltb_spec t 128); lia. }
  assert (addData_chunk d = zlen d :: d) as Hc.
  { destruct (addData_chunk_cases d Hd) as [(v&_&_&_&Hle&Hcase)|[[? _]|(v&k&_&_&_&_&?)]];
      [lia| |done|lia].
    destruct (H1 ltac:(lia)) as (Hdt&?&?).
    destruct Hcase as [[_ [Hn|Hn]]|[(x&Hn&_&?)|[Hn _]]]; rewrite Hdt in Hn; simplify_eq; lia. }
  exists (zlen d :: d). rewrite Hb. simpl. rewrite Hc.
  split_and!; [done|constructor; [unfold is_byte; lia|done]|rewrite zlen_cons; lia|rewrite zlen_cons; lia|].
  right. exists d. split_and!; try done; try lia.
  - rewrite <- Hv. apply makeScriptNum_decode; auto; try lia. intros _. by apply checkMinimal_snoc.
  - unfold canonicalPush, OP_16, OP_0, OP_PUSHDATA1, OP_PUSHDATA2, OP_PUSHDATA4. simpl.
    destruct (decide (zlen d = 1)) as [Hz1|Hz1].
    + destruct (H1 Hz1) as (Hdt&?&?). rewrite Hdt. simpl.
      assert ((t <=? 16) = false) as -> by lia. done.
    + assert (zlen d = 2 \/ zlen d = 3 \/ zlen d = 4 \/ zlen d = 5) as Hz' by lia.
      destruct Hz' as [->|[->|[->| ->]]]; done.
Qed.

Lemma AddInt64_ok val s c :
  Z.abs val < 2 ^ 39 -> zlen s + 20 <= MaxScriptSize -> int_chunk val = Ret c ->
  AddInt64 val (mkBuilder s None) = Ret (mkBuilder (s ++ c) None).
Proof.
  intros Hval Hs Hc. destruct (int_chunk_spec val Hval) as (c'&Hc'&_&Hlen&Hshape).
  rewrite Hc in Hc'. injection Hc' as <-. revert Hc. unfold AddInt64, int_chunk. simpl.
  destruct (Z.ltb_spec MaxScriptSize (zlen s + 1)); [lia|].
  destruct (val =? 0) eqn:E0; [by intros [= <-]|].
  destruct ((val =? -1) || _) eqn:E1; [by intros [= <-]|].
  destruct Hshape as [(v&->&_&[(_&_&?)|[_ ?]])|(d&->&Hd&Hok&Hb&_)]; [lia|lia|].
  rewrite Hb. simpl. intros [= Hchunk]. rewrite AddData_ok; [by rewrite Hchunk|done| |].
  - unfold MaxScriptElementSize. lia.
  - rewrite Hchunk, zlen_cons. lia.
Qed.

(** A hash pushed by the builder. *)
Lemma addData_chunk_data d :
  bytes_ok d -> 2 <= zlen d <= 75 -> addData_chunk d = zlen d :: d.
Proof.
  intros Hd Hl. destruct (addData_chunk_cases d Hd) as [(v&_&_&_&?&_)|[[-> _]|(v&k&_&_&_&_&?)]];
    lia || done.
Qed.

Lemma atomicSwapContract_bytes pkhMe pkhThem locktime secretHash lock :
  bytes_ok pkhMe -> bytes_ok pkhThem -> bytes_ok secretHash ->
  zlen pkhMe = 20 -> zlen pkhThem = 20 -> zlen secretHash = 32 ->
  Z.abs locktime < 2 ^ 39 -> int_chunk locktime = Ret lock ->
  atomicSwapContract pkhMe pkhThem locktime secretHash =
    Ret (contract_bytes pkhMe pkhThem lock secretHash).
Proof.
  intros Ho1 Ho2 Ho3 H1 H2 H3 Hlt Hlock.
  destruct (int_chunk_spec locktime Hlt) as (c&Hc&_&Hcl&_). rewrite Hlock in Hc. injection Hc as <-.
  unfold atomicSwapContract, NewScriptBuilder.
  rewrite !AddOp_ok by (autorewrite with swap_len; unfold MaxScriptSize; lia).
  rewrite (AddInt64_ok secretSize _ [1; 32]) by (done || (autorewrite with swap_len; unfold MaxScriptSize; lia)).
  cbn [mbind outcome_bind].
  repeat first
    [ rewrite AddOp_ok by (autorewrite with swap_len; unfold MaxScriptSize; lia)
    | rewrite AddData_ok by (done || (rewrite ?addData_chunk_data by (done || lia);
        autorewrite with swap_len; unfold MaxScriptSize, MaxScriptElementSize; lia))
    | rewrite addData_chunk_data by (done || lia)
    | rewrite (AddInt64_ok locktime _ lock) by (done || (autorewrite with swap_len; unfold MaxScriptSize; lia));
      cbn [mbind outcome_bind] ].
  unfold BuilderScript, contract_bytes. simpl b_err. cbv iota. simpl b_script.
  rewrite H1, H2, H3. f_equal. rewrite <- !app_assoc. simpl. by rewrite <- ?app_assoc.
Qed.

(** ** Recognising the contract that was built *)

Lemma int_chunk_parse val c :
  Z.abs val < 2 ^ 39 -> int_chunk val = Ret c ->
  exists p, (forall rest, parseScript (c ++ rest) = (ps ← parseScript rest; Ret (p :: ps))) /\
    canonicalPush p = true /\
    pushed_number p = (if val =? -1 then None else Some val).
Proof.
  intros Hval Hc. destruct (int_chunk_spec val Hval) as (c'&Hc'&_&_&Hshape).
  rewrite Hc in Hc'. injection Hc' as <-.
  destruct Hshape as [(v&->&Hl&Hv)|(d&->&Hd&Hok&_&Hm&Hcan&Hn)].
  - exists (mkPop v None). split_and!.
    + intros rest. by apply parseScript_op.
    + unfold canonicalPush. simpl. rewrite ?andb_false_r. simpl.
      destruct (opcode_length_cases v) as [[_ ?]|?]; [|lia].
      unfold OP_16, OP_PUSHDATA1, OP_PUSHDATA2, OP_PUSHDATA4.
      destruct (Z.eqb_spec v 76), (Z.eqb_spec v 77), (Z.eqb_spec v 78); try lia.
      by destruct (96 <? v).
    + unfold pushed_number. simpl. destruct Hv as [(-> & -> & ?)|[-> ->]]; [|done].
      by destruct (Z.eqb_spec val (-1)); [lia|].
  - exists (mkPop (zlen d) (Some d)). split_and!; [|done|].
    + intros rest. apply parseScript_data. lia.
    + unfold pushed_number. simpl. rewrite Hm. by destruct (Z.eqb_spec val (-1)); [lia|].
Qed.

Lemma parseScript_data' v d rest :
  zlen d = v -> 1 <= v <= 75 ->
  parseScript (v :: d ++ rest) = (ps ← parseScript rest; Ret (mkPop v (Some d) :: ps)).
Proof. intros <- ?. by apply parseScript_data. Qed.

Lemma parseScript_data1 b rest :
  parseScript (1 :: b :: rest) = (ps ← parseScript rest; Ret (mkPop 1 (Some [b]) :: ps)).
Proof. by apply (parseScript_data [b]). Qed.

(** The opcodes of the contract. *)
Lemma parse_contract_bytes pkhMe pkhThem lock secretHash p :
  zlen pkhMe = 20 -> zlen pkhThem = 20 -> zlen secretHash = 32 ->
  (forall rest, parseScript (lock ++ rest) = (ps ← parseScript rest; Ret (p :: ps))) ->
  parseScript (contract_bytes pkhMe pkhThem lock secretHash) =
    Ret [mkPop OP_IF None; mkPop OP_SIZE None; mkPop 1 (Some [32]);
         mkPop OP_EQUALVERIFY None; mkPop OP_SHA256 None; mkPop 32 (Some secretHash);
         mkPop OP_EQUALVERIFY None; mkPop OP_DUP None; mkPop OP_HASH160 None;
         mkPop 20 (Some pkhThem); mkPop OP_ELSE None; p; mkPop OP_CHECKLOCKTIMEVERIFY None;
         mkPop OP_DROP None; mkPop OP_DUP None; mkPop OP_HASH160 None; mkPop 20 (Some pkhMe);
         mkPop OP_ENDIF None; mkPop OP_EQUALVERIFY None; mkPop OP_CHECKSIG None].
Proof.
  intros H1 H2 H3 Hp. unfold contract_bytes. simpl app.
  rewrite !(parseScript_op OP_IF), (parseScript_op OP_SIZE) by done.
  rewrite parseScript_data1.
  rewrite (parseScript_op OP_EQUALVERIFY), (parseScript_op OP_SHA256) by done.
  rewrite parseScript_data' by (done || lia).
  rewrite (parseScript_op OP_EQUALVERIFY), (parseScript_op OP_DUP), (parseScript_op OP_HASH160) by done.
  rewrite parseScript_data' by (done || lia).
  rewrite (parseScript_op OP_ELSE), Hp by done.
  rewrite (parseScript_op OP_CHECKLOCKTIMEVERIFY), (parseScript_op OP_DROP),
    (parseScript_op OP_DUP), (parseScript_op OP_HASH160) by done.
  by rewrite parseScript_data' by (done || lia).
Qed.

Lemma copy_into_exact n d : length d = n -> copy_into n (Some d) = d.
Proof.
  intros <-. unfold copy_into. simpl. rewrite take_ge by lia.
  by rewrite Nat.sub_diag, app_nil_r.
Qed.

(** ** Only the built contract is recognised *)

Lemma makeScriptNum_bound d n :
  bytes_ok d -> makeScriptNum d true 5 = Ret n -> Z.abs n < 2 ^ 39.
Proof.
  intros Hd Hm. destruct d as [|t i _] using rev_ind; [by injection Hm as <-|].
  apply Forall_app in Hd as [Hi Ht]. inversion_clear Ht as [|?? Htb _].
  assert (zlen i < 5).
  { unfold makeScriptNum in Hm. destruct (Z.ltb_spec 5 (zlen (i ++ [t]))); [done|].
    rewrite zlen_app in *. change (zlen [t]) with 1 in *. lia. }
  assert (Hmin : checkMinimalDataEncoding (i ++ [t]) = Ret tt).
  { unfold makeScriptNum in Hm. case_match; [done|].
    by destruct (checkMinimalDataEncoding (i ++ [t])) as [[]| |]. }
  rewrite makeScriptNum_decode in Hm by (done || lia). injection Hm as <-.
  rewrite snum_value_mag by done. pose proof (snum_mag_bound i t Hi Htb).
  assert (256 ^ zlen i <= 256 ^ 4) by (apply Z.pow_le_mono_r; lia).
  change (256 ^ 4) with 4294967296 in *. change (2 ^ 39) with 549755813888. case_match; lia.
Qed.

(** A push of a number that [canonicalPush] accepts is one [OP_DATA_n], or a
    small integer opcode. *)
Lemma canonical_number_push v d :
  pop_wf (mkPop v (Some d)) -> canonicalPush (mkPop v (Some d)) = true -> zlen d <= 5 ->
  1 <= zlen d /\ v = zlen d /\ (forall t, d = [t] -> 16 < t).
Proof.
  intros [_ Hwf] Hcan Hd5. cbn [pop_value pop_data] in Hwf.
  unfold canonicalPush, OP_16, OP_0, OP_PUSHDATA1, OP_PUSHDATA2, OP_PUSHDATA4 in Hcan.
  simpl in Hcan. destruct (opcode_length_cases v) as [?|[[? ?]|Hv]]; [lia| |].
  - assert (v = zlen d) as -> by lia. split_and!; [lia|done|].
    intros t ->. change (zlen [t]) with 1 in Hcan. simpl in Hcan.
    destruct (Z.leb_spec t 16); [done|lia].
  - destruct Hv as [[_ ->]|[[_ ->]|[_ ->]]]; simpl in Hcan; rewrite ?andb_false_r in Hcan;
      simpl in Hcan; repeat case_match; lia || done.
Qed.

Lemma scriptNum_Bytes_small n : 1 <= n <= 16 -> scriptNum_Bytes n = Ret [n].
Proof.
  intros Hn. assert (n ∈ seqZ 1 16) as Hin by (apply elem_of_seqZ; lia).
  change (seqZ 1 16) with [1;2;3;4;5;6;7;8;9;10;11;12;13;14;15;16] in Hin.
  repeat (apply elem_of_cons in Hin as [->|Hin]; [done|]). by apply elem_of_nil in Hin.
Qed.

Lemma pushed_number_chunk p n :
  pop_wf p -> canonicalPush p = true -> pushed_number p = Some n -> n <> -1 ->
  Z.abs n < 2 ^ 39 /\ exists c, int_chunk n = Ret c /\ pop_bytes p = Ret c.
Proof.
  intros Hwf Hcan Hn Hn1. unfold pushed_number in Hn. destruct p as [v [d|]]; simpl in Hn.
  2:{ destruct (isSmallInt v) eqn:Hs; [|done]. injection Hn as <-.
      unfold pop_wf in Hwf. cbn [pop_value pop_data] in Hwf.
      unfold isSmallInt, asSmallInt, OP_0, OP_1, OP_16 in *.
      assert (exists k, 0 <= k <= 16 /\ v = (if k =? 0 then 0 else 80 + k)) as (k&Hk&->).
      { destruct (Z.eqb_spec v 0); [by exists 0|]. simpl in Hs. exists (v - 80).
        destruct (Z.eqb_spec (v - 80) 0); lia. }
      destruct (decide (k = 0)) as [Hk0|Hk0]; [subst k; split; [done|by exists [0]]|].
      rewrite (proj2 (Z.eqb_neq k 0) Hk0) in *.
      destruct (Z.eqb_spec (80 + k) 0); [lia|].
      rewrite to_uint_id by (unfold is_uint; lia).
      replace (80 + k - (81 - 1)) with k by lia. split; [change (2 ^ 39) with 549755813888; lia|].
      exists [80 + k]. unfold int_chunk, pop_bytes. cbn [pop_value pop_data]. rewrite Hwf.
      destruct (Z.eqb_spec k 0); [lia|].
      assert ((k =? -1) || ((1 <=? k) && (k <=? 16)) = true) as -> by lia.
      unfold OP_1. rewrite to_uint_id by (unfold is_uint; lia).
      split; [do 2 f_equal; lia|done]. }
  destruct (makeScriptNum d true 5) as [m| |] eqn:Hm; try done. injection Hn as ->.
  pose proof Hwf as [Hd _].
  pose proof (makeScriptNum_minimal_unique d n 5 ltac:(lia) Hd Hm) as Hb.
  assert (zlen d <= 5) as Hd5.
  { unfold makeScriptNum in Hm. destruct (Z.ltb_spec 5 (zlen d)); [done|lia]. }
  destruct (canonical_number_push v d Hwf Hcan Hd5) as (Hd1 & -> & Hd16).
  split; [by eapply makeScriptNum_bound|]. exists (zlen d :: d). split.
  - unfold int_chunk. destruct (Z.eqb_spec n 0) as [->|Hn0].
    { injection Hb as <-. unfold zlen in Hd1. simpl in Hd1. lia. }
    destruct ((n =? -1) || ((1 <=? n) && (n <=? 16))) eqn:Hs.
    { rewrite scriptNum_Bytes_small in Hb by lia. injection Hb as <-.
      specialize (Hd16 n eq_refl). lia. }
    rewrite Hb. simpl. f_equal.
    destruct (addData_chunk_cases d Hd) as [(v&_&_&_&_&Hc)|[[-> _]|(v&k&_&_&_&_&?)]]; [lia| |done|lia].
    destruct Hc as [[_ [-> | ->]]|[(x&->&_&?)|[-> _]]].
    + unfold zlen in Hd1. simpl in Hd1. lia.
    + specialize (Hd16 0 eq_refl). lia.
    + specialize (Hd16 x eq_refl). lia.
    + vm_compute in Hm. congruence.
  - unfold pop_bytes. cbn [pop_value pop_data]. rewrite opcode_length_data by lia.
    destruct (Z.eqb_spec (zlen d + 1) 1); [lia|]. destruct (Z.ltb_spec 0 (zlen d + 1)); [|lia].
    change (default [] (Some d)) with d. rewrite zlen_app. change (zlen [zlen d]) with 1.
    destruct (Z.eqb_spec (1 + zlen d) (zlen d + 1)); [done|lia].
Qed.

(** Opcodes with a fixed value and what they unparse to. *)
Lemma pop_bytes_op p v :
  pop_wf p -> pop_value p = v -> opcode_length v = 1 -> pop_bytes p = Ret [v].
Proof.
  destruct p as [w [d|]]; unfold pop_wf, pop_bytes; cbn [pop_value pop_data]; intros Hwf -> Hl;
    rewrite Hl in *; [lia|done].
Qed.

Lemma pop_bytes_data p v :
  pop_wf p -> pop_value p = v -> 1 <= v <= 75 ->
  exists d, pop_data p = Some d /\ bytes_ok d /\ zlen d = v /\ pop_bytes p = Ret (v :: d).
Proof.
  destruct p as [w [d|]]; unfold pop_wf, pop_bytes; cbn [pop_value pop_data]; intros Hwf -> Hv;
    rewrite opcode_length_data in * by done; [|lia].
  destruct Hwf as [Hok [[Hl ?]|]]; [|lia]. assert (zlen d = v) as Hz by lia.
  exists d. split_and!; try done.
  destruct (Z.eqb_spec (v + 1) 1); [lia|]. destruct (Z.ltb_spec 0 (v + 1)); [|lia].
  change (default [] (Some d)) with d. rewrite zlen_app. change (zlen [v]) with 1.
  destruct (Z.eqb_spec (1 + zlen d) (v + 1)); [done|lia].
Qed.

Lemma unparse_cons_inv p ps s b :
  unparseScript (p :: ps) = Ret s -> pop_bytes p = Ret b ->
  exists s', unparseScript ps = Ret s' /\ s = b ++ s'.
Proof.
  simpl. intros H Hb. rewrite Hb in H. simpl in H.
  destruct (unparseScript ps) as [s'| |]; try done. injection H as <-. eauto.
Qed.

Lemma isAtomicSwap_spec pops :
  isAtomicSwap pops = true ->
  Forall2 (fun t p => match t with Some v => pop_value p = v | None => canonicalPush p = true end)
    swap_template pops.
Proof.
  intros H. do 20 (destruct pops as [|? pops]; [done|]). destruct pops; [|done].
  unfold isAtomicSwap in H. rewrite !andb_true_iff, !Z.eqb_eq in H.
  unfold swap_template. destruct_and?. by repeat constructor.
Qed.
