(* ===== verification/SwapTheorems.v ===== *)
(** * What the Bitcoin contract script promises

    The theorems about [SwapContract]: the recogniser accepts exactly the
    scripts the builder makes and reads back their parameters, the redemption
    script makes the secret public, and [extractsecret] finds it. *)

From S2P Require Import Prelude Sha256 Script ScriptFacts SwapContract Vectors.

(** ** Auxiliary definitions *)

(** The signature script of a redemption, as a byte string. *)
Definition redeem_bytes (contract sig pubkey secret : bytes) : bytes :=
  addData_chunk sig ++ addData_chunk pubkey ++ addData_chunk secret ++ [OP_1] ++
  addData_chunk contract.

Definition refund_bytes (contract sig pubkey : bytes) : bytes :=
  addData_chunk sig ++ addData_chunk pubkey ++ [OP_0] ++ addData_chunk contract.

(** A data push the builder accepts and does not turn into a small integer. *)
Definition push_size_ok (d : bytes) : Prop := bytes_ok d /\ 2 <= zlen d <= MaxScriptElementSize.

(** A script that parses and pushes no preimage of [h]. *)
Definition no_preimage (h s : bytes) : Prop :=
  exists l, PushedData s = Ret l /\ Forall (fun y => sha256Hash y <> h) l.

(** [x] is the first push hashing to [h] among the pushes of [scripts], the
    scripts before its own being parseable. *)
Definition first_preimage (h : bytes) (scripts : list bytes) (x : bytes) : Prop :=
  exists pre s post l1 l2, scripts = pre ++ s :: post /\ Forall (no_preimage h) pre /\
    PushedData s = Ret (l1 ++ x :: l2) /\ sha256Hash x = h /\
    Forall (fun y => sha256Hash y <> h) l1.

(** ** Signature scripts *)

Lemma chunk_bound_any d : bytes_ok d -> zlen d <= MaxScriptElementSize -> zlen (addData_chunk d) <= zlen d + 5.
Proof.
  intros Hok Hd. unfold MaxScriptElementSize in Hd. pose proof (zlen_nonneg d).
  destruct (addData_chunk_cases d Hok) as [(v&->&_)|[[-> _]|(v&k&->&_&_&Hk&_)]]; [lia| | |];
    autorewrite with swap_len; [lia|lia|]. unfold zlen at 1. rewrite le_put_length. lia.
Qed.

Lemma chunk_bound d : push_size_ok d -> zlen (addData_chunk d) <= zlen d + 5.
Proof. intros [Hok Hd]. apply chunk_bound_any; [done|lia]. Qed.

Lemma push_pop_data d : push_size_ok d -> pop_data (push_pop d) = Some d.
Proof.
  intros [Hok Hd]. unfold MaxScriptElementSize in Hd. unfold push_pop.
  destruct (addData_chunk_cases d Hok) as [(v&->&_&_&?&_)|[[-> _]|(v&k&->&_&_&Hk&_)]]; [lia|lia| |].
  - destruct d; [unfold zlen in Hd; simpl in Hd; lia|done].
  - destruct (le_put k (zlen d) ++ d) eqn:E; [|done].
    apply app_nil in E as [_ ->]. unfold zlen in Hd. simpl in Hd. lia.
Qed.

Lemma pushed_of_push d rest ps :
  push_size_ok d -> parseScript rest = Ret ps ->
  parseScript (addData_chunk d ++ rest) = Ret (push_pop d :: ps) /\
  pushed_of (push_pop d :: ps) = d :: pushed_of ps.
Proof.
  intros Hd Hr. pose proof Hd as [Hok Hl]. unfold MaxScriptElementSize in Hl.
  rewrite parseScript_push, Hr by (done || lia). split; [done|]. simpl. by rewrite push_pop_data.
Qed.

#[local] Ltac build_sig :=
  unfold NewScriptBuilder;
  repeat match goal with
    | H : push_size_ok ?d |- _ =>
        pose proof (chunk_bound d H); destruct H as [? ?]
    end;
  unfold MaxScriptElementSize in *;
  repeat first
    [ rewrite AddData_ok by (done || (autorewrite with swap_len; unfold MaxScriptSize, MaxScriptElementSize; lia))
    | rewrite (AddInt64_ok 1 _ [OP_1]) by (done || (autorewrite with swap_len; unfold MaxScriptSize; lia))
    | rewrite (AddInt64_ok 0 _ [OP_0]) by (done || (autorewrite with swap_len; unfold MaxScriptSize; lia))
    | progress cbn [mbind outcome_bind] ];
  unfold BuilderScript; simpl b_err; cbv iota; simpl b_script; f_equal; by rewrite <- !app_assoc.

Lemma redeemP2SHContract_bytes contract sig pubkey secret :
  push_size_ok contract -> push_size_ok sig -> push_size_ok pubkey -> push_size_ok secret ->
  redeemP2SHContract contract sig pubkey secret = Ret (redeem_bytes contract sig pubkey secret).
Proof. intros. unfold redeemP2SHContract, redeem_bytes. build_sig. Qed.

(** The builder refuses a secret of more than 520 bytes, and no other. *)
Lemma redeemP2SHContract_any contract sig pubkey secret :
  push_size_ok contract -> push_size_ok sig -> push_size_ok pubkey -> bytes_ok secret ->
  redeemP2SHContract contract sig pubkey secret =
    if MaxScriptElementSize <? zlen secret then Fail ErrScriptNotCanonical
    else Ret (redeem_bytes contract sig pubkey secret).
Proof.
  intros Hc Hs Hp Hok. unfold redeemP2SHContract, redeem_bytes.
  destruct (Z.ltb_spec MaxScriptElementSize (zlen secret)) as [Hl|Hl].
  - assert (AddData secret (AddData pubkey (AddData sig NewScriptBuilder)) =
      mkBuilder (addData_chunk sig ++ addData_chunk pubkey) (Some ErrScriptNotCanonical)) as ->; [|done].
    unfold NewScriptBuilder. pose proof (chunk_bound sig Hs). pose proof (chunk_bound pubkey Hp). destruct Hs, Hp.
    unfold MaxScriptElementSize in *.
    rewrite !AddData_ok by (done || (autorewrite with swap_len; unfold MaxScriptSize, MaxScriptElementSize; lia)).
    unfold AddData. cbn [b_err b_script app]. unfold MaxScriptElementSize.
    destruct (Z.ltb_spec 520 (zlen secret)); [|lia]. by case_match.
  - pose proof (chunk_bound_any secret Hok Hl). build_sig.
Qed.

Lemma refundP2SHContract_bytes contract sig pubkey :
  push_size_ok contract -> push_size_ok sig -> push_size_ok pubkey ->
  refundP2SHContract contract sig pubkey = Ret (refund_bytes contract sig pubkey).
Proof. intros. unfold refundP2SHContract, refund_bytes. build_sig. Qed.

Lemma redeem_pushes contract sig pubkey secret :
  push_size_ok contract -> push_size_ok sig -> push_size_ok pubkey -> push_size_ok secret ->
  PushedData (redeem_bytes contract sig pubkey secret) = Ret [sig; pubkey; secret; contract].
Proof.
  intros Hc Hs Hp Hx. unfold PushedData, redeem_bytes.
  destruct (pushed_of_push contract [] [] Hc eq_refl) as [Pc Dc]. rewrite app_nil_r in Pc.
  pose proof (parseScript_op OP_1 (addData_chunk contract) eq_refl) as P1. rewrite Pc in P1.
  destruct (pushed_of_push secret _ _ Hx P1) as [Px Dx].
  destruct (pushed_of_push pubkey _ _ Hp Px) as [Pp Dp].
  destruct (pushed_of_push sig _ _ Hs Pp) as [Ps Ds].
  change ([OP_1] ++ addData_chunk contract) with (OP_1 :: addData_chunk contract).
  rewrite Ps. cbn [mbind outcome_bind]. rewrite Ds, Dp, Dx.
  change (pushed_of (mkPop OP_1 None :: ?l)) with (pushed_of l). by rewrite Dc.
Qed.

(** ** The secret search *)

Lemma find_push_Some h l x :
  find_push h l = Some x ->
  exists l1 l2, l = l1 ++ x :: l2 /\ sha256Hash x = h /\ Forall (fun y => sha256Hash y <> h) l1.
Proof.
  induction l as [|y l IH]; simpl; [done|]. case_bool_decide as Hy.
  - intros [= ->]. by exists [], l.
  - intros H. destruct (IH H) as (l1&l2&->&Hx&Hl). exists (y :: l1), l2. by repeat constructor.
Qed.

Lemma find_push_None h l : find_push h l = None <-> Forall (fun y => sha256Hash y <> h) l.
Proof.
  induction l as [|y l IH]; simpl; [by split|]. rewrite Forall_cons.
  case_bool_decide as Hy; [|rewrite IH; tauto]. split; [done|]. by intros [? _].
Qed.

Lemma no_preimage_hit h s l1 x l2 :
  no_preimage h s -> PushedData s = Ret (l1 ++ x :: l2) -> sha256Hash x <> h.
Proof.
  intros (l&Hl&Hno) Hs. rewrite Hs in Hl. injection Hl as <-.
  apply Forall_app in Hno as [_ Hno]. by inversion_clear Hno.
Qed.

Lemma no_preimage_find h s : no_preimage h s <-> exists l, PushedData s = Ret l /\ find_push h l = None.
Proof. unfold no_preimage. by setoid_rewrite find_push_None. Qed.

Lemma extractSecret_skip h pre scripts :
  Forall (no_preimage h) pre -> extractSecret (pre ++ scripts) h = extractSecret scripts h.
Proof.
  induction 1 as [|s pre Hs _ IH]; simpl; [done|].
  apply no_preimage_find in Hs as (l&Hl&Hf). rewrite Hl. simpl. by rewrite Hf.
Qed.

Lemma parseScript_Fail s e : parseScript s = Fail e -> e = ErrMalformedPush.
Proof.
  revert e. induction s as [|i r IH] using script_ind; intros e H; [done|].
  rewrite parseScript_cons in H. destruct (parse_one i r) as [[p s']| |] eqn:E; simpl in H; try done.
  - apply parse_one_shorter in E. destruct (parseScript s') eqn:Hs; simpl in H; simplify_eq. eauto.
  - unfold parse_one in E. repeat case_match; simplify_eq; done.
Qed.

Lemma PushedData_Fail s e : PushedData s = Fail e -> e = ErrMalformedPush.
Proof.
  unfold PushedData. destruct (parseScript s) eqn:Hp; simpl; try done.
  intros [= ->]. by eapply parseScript_Fail.
Qed.

Lemma extractSecret_Ret h scripts x : extractSecret scripts h = Ret x -> first_preimage h scripts x.
Proof.
  induction scripts as [|s ss IH]; [done|]. simpl.
  destruct (PushedData s) as [l|e|e] eqn:Hs; cbn [mbind outcome_bind]; [|done|done].
  destruct (find_push h l) as [y|] eqn:Hf.
  - intros [= <-]. apply find_push_Some in Hf as (l1&l2&->&Hy&Hl1). by exists [], s, ss, l1, l2.
  - intros H. destruct (IH H) as (pre&s'&post&l1&l2&->&Hpre&Hrest).
    exists (s :: pre), s', post, l1, l2. split; [done|]. split; [|done].
    constructor; [|done]. apply no_preimage_find. eauto.
Qed.

Lemma first_match_unique h (l1 l2 k1 k2 : list bytes) x y :
  l1 ++ x :: l2 = k1 ++ y :: k2 -> sha256Hash x = h -> sha256Hash y = h ->
  Forall (fun z => sha256Hash z <> h) l1 -> Forall (fun z => sha256Hash z <> h) k1 -> x = y.
Proof.
  revert k1. induction l1 as [|a l1 IH]; intros k1 Heq Hx Hy Hl Hk.
  - destruct k1 as [|b k1]; injection Heq; [by intros _ ->|]. intros _ ->. by inversion_clear Hk.
  - inversion_clear Hl. destruct k1 as [|b k1]; injection Heq; [by intros _ ->|].
    intros Heq' ->. inversion_clear Hk. eauto.
Qed.

(** Step over one opcode of fixed value, or one of fixed data length. *)
#[local] Ltac step_op Hu :=
  lazymatch type of Hu with
  | unparseScript (?p :: _) = Ret _ =>
      match goal with
      | Hwf : pop_wf p, Hv : pop_value p = ?v |- _ =>
          first
          [ let H := fresh in
            pose proof (pop_bytes_op p v Hwf Hv eq_refl) as H;
            apply (unparse_cons_inv _ _ _ _ Hu) in H; clear Hu; destruct H as (? & Hu & ->)
          | let H := fresh in let d := fresh "d" in
            destruct (pop_bytes_data p v Hwf Hv) as (d & ? & ? & ? & H); [unfold OP_DATA_20, OP_DATA_32; lia|];
            apply (unparse_cons_inv _ _ _ _ Hu) in H; clear Hu; destruct H as (? & Hu & ->) ]
      | Hwf : pop_wf p, Hb : pop_bytes p = Ret _ |- _ =>
          let H := fresh in
          pose proof Hb as H; apply (unparse_cons_inv _ _ _ _ Hu) in H; clear Hu;
          destruct H as (? & Hu & ->)
      end
  end.

Lemma extract_built (pkhMe pkhThem secretHash : bytes) (locktime : Z) :
  bytes_ok pkhMe -> bytes_ok pkhThem -> bytes_ok secretHash ->
  zlen pkhMe = 20 -> zlen pkhThem = 20 -> zlen secretHash = 32 ->
  Z.abs locktime < 2 ^ 39 ->
  (script ← atomicSwapContract pkhMe pkhThem locktime secretHash;
   ExtractAtomicSwapDataPushes script) =
  Ret (if locktime =? -1 then None
       else Some (mkPushes pkhThem pkhMe secretHash secretSize locktime)).
Proof.
  intros Ho1 Ho2 Ho3 H1 H2 H3 Hlt.
  destruct (int_chunk_spec locktime Hlt) as (lock&Hlock&_).
  destruct (int_chunk_parse locktime lock Hlt Hlock) as (p&Hp&Hcan&Hnum).
  rewrite (atomicSwapContract_bytes _ _ _ _ lock) by done. cbn [mbind outcome_bind].
  unfold ExtractAtomicSwapDataPushes. rewrite (parse_contract_bytes _ _ _ _ p) by done.
  cbn [mbind outcome_bind]. unfold isAtomicSwap. cbn [pop_value]. rewrite Hcan. simpl.
  rewrite Hnum. destruct (locktime =? -1); [done|]. unfold zlen in *.
  by rewrite !copy_into_exact by lia.
Qed.

(** The recogniser reads back what the builder was given. For keys of 20
    bytes, a secret hash of 32 and a lock time within 39 bits, the contract of
    [atomicSwapContract] is recognised with the recipient, the refund key, the
    secret hash, the size 32 and the lock time it was made of; only the lock
    time -1, which is pushed by a one-byte opcode, is not recognised. *)
Theorem extract_atomicSwapContract (pkhMe pkhThem secretHash : bytes) (locktime : Z) :
  bytes_ok pkhMe -> bytes_ok pkhThem -> bytes_ok secretHash ->
  zlen pkhMe = 20 -> zlen pkhThem = 20 -> zlen secretHash = 32 ->
  Z.abs locktime < 2 ^ 39 ->
  (script ← atomicSwapContract pkhMe pkhThem locktime secretHash;
   ExtractAtomicSwapDataPushes script) =
  Ret (if locktime =? -1 then None
       else Some (mkPushes pkhThem pkhMe secretHash secretSize locktime)).
Proof. apply extract_built. Qed.

(** ** The hashes of a recognised contract *)

(** The bytes of an array of the given length. *)
Definition hash_ok (n : Z) (h : bytes) : Prop := bytes_ok h /\ zlen h = n.

Lemma copy_into_hash_ok n src : match src with Some d => bytes_ok d | None => True end ->
  hash_ok (Z.of_nat n) (copy_into n src).
Proof.
  intros Hs. unfold copy_into, hash_ok. assert (bytes_ok (default [] src)) as Hd by (destruct src; [done|constructor]).
  generalize dependent (default [] src). intros d Hd. split.
  - apply Forall_app_2; [by apply Forall_take|apply Forall_replicate; unfold is_byte; lia].
  - unfold zlen. rewrite length_app, length_replicate, length_take. lia.
Qed.

Lemma pushes_hash_ok script p : bytes_ok script -> ExtractAtomicSwapDataPushes script = Ret (Some p) ->
  hash_ok 20 (RefundHash160 p) /\ hash_ok 20 (RecipientHash160 p) /\ hash_ok 32 (SecretHash p).
Proof.
  intros Hok. unfold ExtractAtomicSwapDataPushes. destruct (parseScript script) as [pops|e|e] eqn:Hp; [|done..].
  apply parseScript_spec in Hp as [Hwf _]; [|done]. cbn [mbind outcome_bind].
  destruct (negb (isAtomicSwap pops)); [done|].
  destruct (pushed_number _) as [size|]; [|done]. destruct (pushed_number _) as [lock|]; [|done].
  intros [= <-]. cbn [RefundHash160 RecipientHash160 SecretHash].
  assert (forall i, match pop_data (default (mkPop 0 None) (pops !! i)) with Some d => bytes_ok d | None => True end) as Hdata.
  { intros i. destruct (pops !! i) as [q|] eqn:Eq; [|done]. cbn [default].
    pose proof (Forall_lookup_1 _ _ _ _ Hwf Eq) as Hq. unfold pop_wf in Hq.
    destruct q as [v [d|]]; [apply Hq|done]. }
  split_and!; [apply (copy_into_hash_ok 20), Hdata|apply (copy_into_hash_ok 20), Hdata|apply (copy_into_hash_ok 32), Hdata].
Qed.

Lemma extract_recognised (script : bytes) (p : AtomicSwapDataPushes) :
  bytes_ok script ->
  ExtractAtomicSwapDataPushes script = Ret (Some p) ->
  SecretSize p = secretSize -> LockTime p <> -1 ->
  atomicSwapContract (RefundHash160 p) (RecipientHash160 p) (LockTime p) (SecretHash p) = Ret script.
Proof.
  intros Hok H Hsize Hlt. unfold ExtractAtomicSwapDataPushes in H.
  destruct (parseScript script) as [pops| |] eqn:Hparse; try done. cbn [mbind outcome_bind] in H.
  destruct (isAtomicSwap pops) eqn:Hswap; [|done]. cbn [negb] in H.
  apply parseScript_spec in Hparse as [Hwf Hu]; [|done].
  apply isAtomicSwap_spec in Hswap.
  destruct pops as [|q0 [|q1 [|q2 [|q3 [|q4 [|q5 [|q6 [|q7 [|q8 [|q9 [|q10 [|q11 [|q12 [|q13 [|q14 [|q15 [|q16 [|q17 [|q18 [|q19 [|q20 r]]]]]]]]]]]]]]]]]]]]];
    try (apply Forall2_length in Hswap; discriminate).
  unfold swap_template in Hswap. rewrite !Forall2_cons in Hswap. destruct_and!.
  rewrite !Forall_cons in Hwf. destruct_and!. simpl in H.
  destruct (pushed_number q2) as [size|] eqn:Hn1; [|done].
  destruct (pushed_number q11) as [lock|] eqn:Hn2; [|done]. injection H as <-. cbn [SecretSize LockTime RefundHash160 RecipientHash160 SecretHash] in *.
  destruct (pushed_number_chunk q2 size) as (_&c1&Hc1&Hb1); [done..|subst; done|].
  destruct (pushed_number_chunk q11 lock) as (Hl&c2&Hc2&Hb2); [done..|].
  subst size. vm_compute in Hc1. injection Hc1 as <-.
  do 20 (step_op Hu). simpl in Hu. injection Hu as <-.
  repeat match goal with Hq : pop_data ?q = Some _ |- _ => rewrite Hq; clear Hq end.
  unfold OP_DATA_20, OP_DATA_32, zlen in *.
  rewrite !copy_into_exact by lia.
  by rewrite (atomicSwapContract_bytes _ _ _ _ c2) by done.
Qed.

Lemma extract_recognised_iff (script : bytes) (p : AtomicSwapDataPushes) :
  bytes_ok script ->
  ExtractAtomicSwapDataPushes script = Ret (Some p) ->
  SecretSize p = secretSize ->
  atomicSwapContract (RefundHash160 p) (RecipientHash160 p) (LockTime p) (SecretHash p) = Ret script
  <-> LockTime p <> -1.
Proof.
  intros Hok Hp Hsize. split; [|by apply extract_recognised].
  intros Hb Hlt. destruct (pushes_hash_ok script p Hok Hp) as ([? ?] & [? ?] & [? ?]).
  assert (Z.abs (LockTime p) < 2 ^ 39) as Hl by by rewrite Hlt.
  pose proof (extract_built (RefundHash160 p) (RecipientHash160 p) (SecretHash p) (LockTime p)) as E.
  rewrite Hb in E. cbn [mbind outcome_bind] in E. rewrite E in Hp by done. by rewrite Hlt in Hp.
Qed.

(** C6: Only contracts of the builder are recognised, with one exception. A
    script that [ExtractAtomicSwapDataPushes] recognises with the secret size 32
    is, byte for byte, the contract [atomicSwapContract] makes of the parameters
    that were read from it, if and only if the lock time read is not -1. (The
    recogniser reads the push 01 81 as -1, for which the builder emits the opcode
    [OP_1NEGATE]; a script with that push is recognised but never built.) *)
Theorem extract_only_contract (script : bytes) (p : AtomicSwapDataPushes) :
  bytes_ok script ->
  ExtractAtomicSwapDataPushes script = Ret (Some p) ->
  SecretSize p = secretSize ->
  atomicSwapContract (RefundHash160 p) (RecipientHash160 p) (LockTime p) (SecretHash p) = Ret script
  <-> LockTime p <> -1.
Proof. apply extract_recognised_iff. Qed.

(** Redeeming publishes the secret: the signature script that
    [redeemP2SHContract] makes exists for every signature, public key and
    contract of the sizes they have, the data it pushes are exactly those
    four byte strings, and [extractsecret] run on a transaction whose
    earlier inputs hold no preimage returns the secret (unless the signature
    or the public key is itself another preimage of the hash). *)
Theorem redeem_reveals_secret (contract sig pubkey secret : bytes) (pre post : list bytes) :
  push_size_ok contract -> push_size_ok sig -> push_size_ok pubkey ->
  bytes_ok secret -> zlen secret = secretSize ->
  Forall (no_preimage (sha256Hash secret)) pre ->
  exists script x,
    redeemP2SHContract contract sig pubkey secret = Ret script /\
    PushedData script = Ret [sig; pubkey; secret; contract] /\
    extractSecret (pre ++ script :: post) (sha256Hash secret) = Ret x /\
    sha256Hash x = sha256Hash secret /\ x ∈ [sig; pubkey; secret] /\
    (sha256Hash sig <> sha256Hash secret -> sha256Hash pubkey <> sha256Hash secret -> x = secret).
Proof.
  intros Hc Hs Hp Hok Hx Hpre.
  assert (push_size_ok secret) as Hx' by (split; [done|]; unfold MaxScriptElementSize, secretSize in *; lia).
  rewrite redeemP2SHContract_bytes by done. eexists. eexists (default secret (find_push (sha256Hash secret) [sig; pubkey])).
  split; [done|]. rewrite extractSecret_skip by done. cbn [extractSecret].
  rewrite redeem_pushes by done. cbn [mbind outcome_bind find_push].
  split; [done|]. repeat case_bool_decide; simpl; try done; split_and!; try done; set_solver.
Qed.

(** [extractsecret] prints a byte string exactly when it is the first
    push that hashes to the secret hash, in the first input script that has
    one, all earlier scripts being well formed; and it fails with its own
    error exactly when every input script is well formed and none pushes a
    preimage. *)
Theorem extractSecret_spec (scripts : list bytes) (h : bytes) :
  (forall x, extractSecret scripts h = Ret x <-> first_preimage h scripts x) /\
  (extractSecret scripts h = Fail (ErrNew "transaction does not contain the secret") <->
     Forall (no_preimage h) scripts).
Proof.
  split.
  - intros x. split; [apply extractSecret_Ret|].
    intros (pre&s&post&l1&l2&->&Hpre&Hs&Hx&Hl1). rewrite extractSecret_skip by done.
    cbn [extractSecret]. rewrite Hs. cbn [mbind outcome_bind].
    destruct (find_push h (l1 ++ x :: l2)) as [y|] eqn:Hf.
    + apply find_push_Some in Hf as (k1&k2&Heq&Hy&Hk1). f_equal. symmetry. by eapply first_match_unique.
    + apply find_push_None, Forall_app in Hf as [_ Hf]. by inversion_clear Hf.
  - split.
    + induction scripts as [|s ss IH]; [by constructor|]. simpl.
      destruct (PushedData s) as [l|e|e] eqn:Hs; cbn [mbind outcome_bind]; [|intros [= ->]|done].
      * destruct (find_push h l) as [y|] eqn:Hf; [done|]. intros H. constructor; [|auto].
        apply no_preimage_find. eauto.
      * by apply PushedData_Fail in Hs.
    + intros H. rewrite <- (app_nil_r scripts). by rewrite extractSecret_skip.
Qed.

(** ** Concrete values *)

(** The model reproduces the published transcript. *)
Example walkthrough_contract :
  atomicSwapContract Walkthrough.pkh Walkthrough.pkh Walkthrough.locktime Walkthrough.secretHash
    = Ret Walkthrough.contract.
Proof. by vm_compute. Qed.

Example walkthrough_redeem :
  redeemP2SHContract Walkthrough.contract Walkthrough.sig Walkthrough.pubkey Walkthrough.secret
    = Ret Walkthrough.sigScript.
Proof. by vm_compute. Qed.

Example walkthrough_extractsecret :
  extractSecret [Walkthrough.sigScript] Walkthrough.secretHash = Ret Walkthrough.secret.
Proof. by vm_compute. Qed.

Lemma extract_atomicSwapContract_witness :
  (script ← atomicSwapContract Walkthrough.pkh Walkthrough.pkh Walkthrough.locktime Walkthrough.secretHash;
   ExtractAtomicSwapDataPushes script) =
  Ret (Some (mkPushes Walkthrough.pkh Walkthrough.pkh Walkthrough.secretHash 32 1571489801)).
Proof.
  refine (extract_atomicSwapContract Walkthrough.pkh Walkthrough.pkh Walkthrough.secretHash
            Walkthrough.locktime _ _ _ _ _ _ _); decided.
Defined.

(** A recognised script with the lock time -1: the push of the lock time of the
    published contract is replaced by the push 01 81. *)
Definition minus_one_contract : bytes :=
  Eval vm_compute in contract_bytes Walkthrough.pkh Walkthrough.pkh [1; 0x81] Walkthrough.secretHash.
Example minus_one_recognised :
  ExtractAtomicSwapDataPushes minus_one_contract =
  Ret (Some (mkPushes Walkthrough.pkh Walkthrough.pkh Walkthrough.secretHash 32 (-1))).
Proof. by vm_compute. Qed.

Lemma extract_only_contract_witness :
  atomicSwapContract Walkthrough.pkh Walkthrough.pkh 1571489801 Walkthrough.secretHash
    = Ret Walkthrough.contract
  /\ atomicSwapContract Walkthrough.pkh Walkthrough.pkh (-1) Walkthrough.secretHash
    <> Ret minus_one_contract.
Proof.
  split.
  - refine (proj2 (extract_only_contract Walkthrough.contract
              (mkPushes Walkthrough.pkh Walkthrough.pkh Walkthrough.secretHash 32 1571489801) _ _ _) _);
      [decided|by vm_compute|done|done].
  - intros Hb. refine (proj1 (extract_only_contract minus_one_contract
              (mkPushes Walkthrough.pkh Walkthrough.pkh Walkthrough.secretHash 32 (-1)) _ _ _) Hb eq_refl);
      [decided|exact minus_one_recognised|done].
Defined.

Lemma redeem_reveals_secret_witness :
  exists script x,
    redeemP2SHContract Walkthrough.contract Walkthrough.sig Walkthrough.pubkey Walkthrough.secret = Ret script /\
    PushedData script = Ret [Walkthrough.sig; Walkthrough.pubkey; Walkthrough.secret; Walkthrough.contract] /\
    extractSecret ([] ++ script :: []) (sha256Hash Walkthrough.secret) = Ret x /\
    sha256Hash x = sha256Hash Walkthrough.secret /\
    x ∈ [Walkthrough.sig; Walkthrough.pubkey; Walkthrough.secret] /\
    (sha256Hash Walkthrough.sig <> sha256Hash Walkthrough.secret ->
     sha256Hash Walkthrough.pubkey <> sha256Hash Walkthrough.secret -> x = Walkthrough.secret).
Proof.
  refine (redeem_reveals_secret Walkthrough.contract Walkthrough.sig Walkthrough.pubkey
            Walkthrough.secret [] [] _ _ _ _ _ _);
    [split; decided|split; decided|split; decided|decided|decided|constructor].
Defined.
