(* ===== verification/BigEndian.v ===== *)
(** * Big-endian numbers

    [big.Int] to and from bytes, most significant byte first, as the encodings
    of Ethereum (ABI, RLP) and of Bitcoin addresses (base58) use it. *)

From S2P Require Import Prelude Sha256.

(** [new(big.Int).SetBytes(b)] *)
Definition be_get (l : bytes) : Z := foldl (fun a b => 256 * a + b) 0 l.

(** [putint], [(big.Int).Bytes]: the bytes of a number, without leading zeros. *)
Definition byte_len (z : Z) : nat := if z =? 0 then 0%nat else S (Z.to_nat (Z.log2 z / 8)).
Definition int_bytes (z : Z) : bytes := be_put (byte_len z) z.

Lemma be_get_acc l a : foldl (fun a b => 256 * a + b) a l = a * 256 ^ zlen l + be_get l.
Proof.
  unfold be_get. revert a. induction l as [|b l IH]; intros a; cbn [foldl].
  - rewrite zlen_nil. lia.
  - rewrite IH, (IH (256 * 0 + b)), zlen_cons, Z.pow_add_r by (try apply zlen_nonneg; lia). lia.
Qed.

Lemma be_get_cons b l : be_get (b :: l) = b * 256 ^ zlen l + be_get l.
Proof. unfold be_get at 1. cbn [foldl]. rewrite be_get_acc. lia. Qed.

Lemma be_get_app l1 l2 : be_get (l1 ++ l2) = be_get l1 * 256 ^ zlen l2 + be_get l2.
Proof. unfold be_get at 1. by rewrite foldl_app, be_get_acc. Qed.

Lemma be_get_range l : bytes_ok l -> 0 <= be_get l < 256 ^ zlen l.
Proof.
  induction 1 as [|b l Hb _ IH]; [done|]. unfold is_byte in Hb.
  rewrite be_get_cons, zlen_cons, Z.pow_add_r by (try apply zlen_nonneg; lia). nia.
Qed.

Lemma zlen_be_put n z : zlen (be_put n z) = Z.of_nat n.
Proof. unfold zlen. by rewrite be_put_length. Qed.

Lemma be_get_put n z : be_get (be_put n z) = z mod 256 ^ Z.of_nat n.
Proof.
  induction n as [|n IH]; [by rewrite Z.mod_1_r|]. cbn [be_put].
  rewrite be_get_cons, zlen_be_put, IH, Z.shiftr_div_pow2 by lia.
  change 0xff with (Z.ones 8). rewrite Z.land_ones by lia. rewrite Z.pow_mul_r by lia. change (2 ^ 8) with 256.
  set (P := 256 ^ Z.of_nat n). assert (0 < P) by (unfold P; lia).
  rewrite Nat2Z.inj_succ, Z.pow_succ_r by lia. fold P.
  rewrite (Z.mul_comm 256 P), Z.rem_mul_r by lia. lia.
Qed.

(** The low bytes do not depend on what is above them. *)
Lemma be_put_shift m n k z : (m <= n)%nat -> be_put m (k * 256 ^ Z.of_nat n + z) = be_put m z.
Proof.
  induction m as [|m IH]; intros Hm; [done|]. cbn [be_put]. rewrite IH by lia. f_equal.
  change 0xff with (Z.ones 8). rewrite !Z.land_ones, !Z.shiftr_div_pow2, !Z.pow_mul_r by lia.
  change (2 ^ 8) with 256.
  replace (Z.of_nat n) with (Z.of_nat (n - m - 1) + 1 + Z.of_nat m) by lia.
  rewrite !Z.pow_add_r by lia. rewrite !Z.mul_assoc, Z.div_add_l by lia.
  rewrite Z.add_comm. change (256 ^ 1) with 256. by rewrite Z.mod_add.
Qed.

Lemma be_put_get l : bytes_ok l -> be_put (length l) (be_get l) = l.
Proof.
  induction 1 as [|b l Hb Hl IH]; [done|]. cbn [length be_put]. rewrite be_get_cons.
  pose proof (be_get_range l Hl) as Hr. unfold zlen in *. rewrite be_put_shift, IH by done. f_equal.
  rewrite Z.shiftr_div_pow2, Z.pow_mul_r by lia. change (2 ^ 8) with 256.
  rewrite Z.div_add_l, Z.div_small by lia. change 0xff with (Z.ones 8). rewrite Z.land_ones by lia.
  unfold is_byte in Hb. rewrite Z.add_0_r. by apply Z.mod_small.
Qed.

Lemma byte_len_spec z : 0 < z ->
  256 ^ (Z.of_nat (byte_len z) - 1) <= z < 256 ^ Z.of_nat (byte_len z) /\ (0 < byte_len z)%nat.
Proof.
  intros Hz. unfold byte_len. rewrite (proj2 (Z.eqb_neq z 0)) by lia.
  pose proof (Z.log2_spec z Hz). pose proof (Z.log2_nonneg z).
  pose proof (Z.div_mod (Z.log2 z) 8 ltac:(lia)). pose proof (Z.mod_pos_bound (Z.log2 z) 8 ltac:(lia)).
  assert (0 <= Z.log2 z / 8) by (apply Z.div_pos; lia).
  rewrite Nat2Z.inj_succ, Z2Nat.id by done. change 256 with (2 ^ 8). rewrite <-!Z.pow_mul_r by lia.
  split; [|lia]. split.
  - transitivity (2 ^ Z.log2 z); [apply Z.pow_le_mono_r; lia|lia].
  - apply Z.lt_le_trans with (2 ^ Z.succ (Z.log2 z)); [lia|apply Z.pow_le_mono_r; lia].
Qed.

Lemma int_bytes_ok z : bytes_ok (int_bytes z).
Proof. apply be_put_ok. Qed.

Lemma be_get_int_bytes z : 0 <= z -> be_get (int_bytes z) = z.
Proof.
  intros Hz. unfold int_bytes. rewrite be_get_put. destruct (decide (z = 0)) as [->|]; [done|].
  apply Z.mod_small. pose proof (byte_len_spec z). lia.
Qed.

Lemma zlen_int_bytes z n : 0 <= z < 256 ^ n -> 0 <= n -> zlen (int_bytes z) <= n.
Proof.
  intros Hz Hn. unfold int_bytes. rewrite zlen_be_put. destruct (decide (z = 0)) as [->|]; [done|].
  destruct (byte_len_spec z) as [[Hl _] Hp]; [lia|].
  assert (Z.of_nat (byte_len z) - 1 < n); [|lia]. apply (Z.pow_lt_mono_r_iff 256); lia.
Qed.

(** The first byte of a positive number is not zero. *)
Lemma int_bytes_head z : 0 < z -> exists b l, int_bytes z = b :: l /\ b <> 0.
Proof.
  intros Hz. destruct (byte_len_spec z Hz) as [Hl Hp]. pose proof (be_get_int_bytes z ltac:(lia)) as E.
  pose proof (int_bytes_ok z) as Hok. pose proof (zlen_be_put (byte_len z) z) as El.
  fold (int_bytes z) in El. destruct (int_bytes z) as [|b l]; [unfold zlen in El; simpl in El; lia|].
  exists b, l. split; [done|]. intros ->. rewrite be_get_cons in E. inversion_clear Hok.
  pose proof (be_get_range l ltac:(done)). rewrite zlen_cons in El.
  replace (Z.of_nat (byte_len z) - 1) with (zlen l) in Hl by lia. lia.
Qed.
