(* ===== verification/Base58.v ===== *)
(** * Base58 and bech32

    The text encodings of Bitcoin addresses and private keys: the vendored
    [btcutil/base58] (with its checksum) and [btcutil/bech32]. Text is a list
    of bytes. *)

From S2P Require Import Prelude Sha256 BigEndian.

(** ** Base 58 *)

Definition alphabet : bytes := Eval vm_compute in
  bytes_of_string "123456789ABCDEFGHJKLMNPQRSTUVWXYZabcdefghijkmnopqrstuvwxyz".
Definition alphabetIdx0 : Z := 49.

(** [strings.IndexByte]; the table [b58] is the index in the alphabet. *)
Fixpoint index_of (c : Z) (l : bytes) (i : Z) : option Z :=
  match l with
  | [] => None
  | x :: r => if x =? c then Some i else index_of c r (i + 1)
  end.
Definition b58 (c : Z) : option Z := index_of c alphabet 0.

(** The loop of [Encode]: least significant digit first. *)
Fixpoint b58_digits (fuel : nat) (x : Z) : bytes :=
  match fuel with
  | O => []
  | S f => if 0 <? x then default 0 (alphabet !! Z.to_nat (x mod 58)) :: b58_digits f (x / 58) else []
  end.

(** The number of leading bytes equal to [c]. *)
Fixpoint leading (c : Z) (b : bytes) : nat :=
  match b with
  | x :: r => if x =? c then S (leading c r) else O
  | [] => O
  end.

(** [base58.Encode]; a number has no more base-58 than binary digits. *)
Definition b58_Encode (b : bytes) : bytes :=
  let x := be_get b in
  let answer := b58_digits (S (Z.to_nat (Z.log2 x))) x in
  replicate (leading 0 b) alphabetIdx0 ++ reverse answer.

(** The loop of [Decode] over the digits, most significant first; [None] for a
    character outside the alphabet. *)
Definition b58_value (b : bytes) : option Z :=
  foldl (fun a c => x ← a; tmp ← b58 c; Some (x * 58 + tmp)) (Some 0) b.

Definition b58_Decode (b : bytes) : bytes :=
  match b58_value b with
  | None => []
  | Some answer => replicate (leading alphabetIdx0 b) 0 ++ int_bytes answer
  end.

Definition ErrChecksum : error := ErrNew "checksum error".
Definition ErrInvalidFormat : error :=
  ErrNew "invalid format: version and/or checksum bytes missing".

(** The first four bytes of the double hash. *)
Definition b58_checksum (input : bytes) : bytes := take 4 (sha256 (sha256 input)).

Definition CheckEncode (input : bytes) (version : Z) : bytes :=
  let b := version :: input in
  b58_Encode (b ++ b58_checksum b).

Definition CheckDecode (input : bytes) : outcome (bytes * Z) :=
  let decoded := b58_Decode input in
  if zlen decoded <? 5 then Fail ErrInvalidFormat
  else
    let n := (length decoded - 4)%nat in
    if negb (bool_decide (b58_checksum (take n decoded) = drop n decoded)) then Fail ErrChecksum
    else
      (* the slice is not empty *)
      match take n decoded with
      | version :: payload => Ret (payload, version)
      | [] => Fail ErrInvalidFormat
      end.

(** ** Bech32 *)

Definition charset : bytes := Eval vm_compute in bytes_of_string "qpzry9x8gf2tvdw0s3jn54khce6mua7l".
Definition bech32_gen : list Z := [0x3b6a57b2; 0x26508e6d; 0x1ea119fa; 0x3d4233dd; 0x2a1462b3].

(** [strings.ToUpper] on ASCII letters. *)
Definition ToUpper (l : bytes) : bytes :=
  map (fun c => if (97 <=? c) && (c <=? 122) then c - 32 else c) l.

(** [strings.LastIndexByte] *)
Definition LastIndexByte (s : bytes) (c : Z) : option nat :=
  match index_of c (reverse s) 0 with
  | Some i => Some (length s - 1 - Z.to_nat i)%nat
  | None => None
  end.

Fixpoint toBytes (chars : bytes) : outcome bytes :=
  match chars with
  | [] => Ret []
  | c :: r =>
      i ← of_option (Errorf "invalid character not part of charset: %v" [FInt c]) (index_of c charset 0);
      l ← toBytes r;
      Ret (i :: l)
  end.

Fixpoint toChars (data : bytes) : outcome bytes :=
  match data with
  | [] => Ret []
  | b :: r =>
      c ← of_option (Errorf "invalid data byte: %v" [FInt b]) (charset !! Z.to_nat b);
      l ← toChars r;
      Ret (c :: l)
  end.

Definition bech32HrpExpand (hrp : bytes) : list Z :=
  map (fun c => Z.shiftr c 5) hrp ++ [0] ++ map (fun c => Z.land c 31) hrp.

Definition bech32Polymod (values : list Z) : Z :=
  foldl (fun chk v =>
    let b := Z.shiftr chk 25 in
    let chk := Z.lxor (Z.shiftl (Z.land chk 0x1ffffff) 5) v in
    foldl (fun chk '(i, g) => if Z.testbit b (Z.of_nat i) then Z.lxor chk g else chk) chk
      (imap pair bech32_gen)) 1 values.

Definition bech32Checksum (hrp : bytes) (data : bytes) : bytes :=
  let polymod := Z.lxor (bech32Polymod (bech32HrpExpand hrp ++ data ++ replicate 6 0)) 1 in
  map (fun i => Z.land (Z.shiftr polymod (5 * (5 - i))) 31) [0; 1; 2; 3; 4; 5].

Definition bech32VerifyChecksum (hrp : bytes) (data : bytes) : bool :=
  bech32Polymod (bech32HrpExpand hrp ++ data) =? 1.

(** [bech32.Decode]; the text of the checksum error is not modelled. *)
Definition bech32_Decode (bech : bytes) : outcome (bytes * bytes) :=
  _ ← guard_err ((zlen bech <? 8) || (90 <? zlen bech))
        (Errorf "invalid bech32 string length %d" [FInt (zlen bech)]);
  _ ← match List.find (fun c => (c <? 33) || (126 <? c)) bech with
      | Some c => Fail (Errorf "invalid character in string: '%c'" [FInt c])
      | None => Ret tt
      end;
  let lower := ToLower bech in
  let upper := ToUpper bech in
  _ ← guard_err (negb (bool_decide (bech = lower)) && negb (bool_decide (bech = upper)))
        (ErrNew "string not all lowercase or all uppercase");
  let bech := lower in
  one ← match LastIndexByte bech 49 with
        | Some one =>
            if (one <? 1)%nat || (length bech <? one + 7)%nat then Fail (ErrNew "invalid index of 1") else Ret one
        | None => Fail (ErrNew "invalid index of 1")
        end;
  let hrp := take one bech in
  let data := drop (S one) bech in
  decoded ← mapErr (fun e => Errorf "failed converting data to bytes: %v" [FErr e]) (toBytes data);
  _ ← guard_err (negb (bech32VerifyChecksum hrp decoded)) (ErrNew "checksum failed. ");
  Ret (hrp, take (length decoded - 6) decoded).

Definition bech32_Encode (hrp data : bytes) : outcome bytes :=
  dataChars ← mapErr (fun e => Errorf "unable to convert data bytes to chars: %v" [FErr e])
                (toChars (data ++ bech32Checksum hrp data));
  Ret (hrp ++ [49] ++ dataChars).

(** The inner loop of [ConvertBits], which regroups the [remFromBits] top bits
    of the byte [b]: at most one round per bit. The state is the bytes so far
    (last first), [nextByte] and [filledBits]. *)
Fixpoint convert_byte (fuel : nat) (toBits b remFromBits : Z) (st : bytes * Z * Z) : bytes * Z * Z :=
  match fuel with
  | O => st
  | S f =>
      if 0 <? remFromBits then
        let '(regrouped, nextByte, filledBits) := st in
        let remToBits := toBits - filledBits in
        let toExtract := if remToBits <? remFromBits then remToBits else remFromBits in
        let nextByte := Z.lor (to_uint 8 (Z.shiftl nextByte toExtract)) (Z.shiftr b (8 - toExtract)) in
        let b := to_uint 8 (Z.shiftl b toExtract) in
        let filledBits := filledBits + toExtract in
        convert_byte f toBits b (remFromBits - toExtract)
          (if filledBits =? toBits then (nextByte :: regrouped, 0, 0) else (regrouped, nextByte, filledBits))
      else st
  end.

Definition ConvertBits (data : bytes) (fromBits toBits : Z) (pad : bool) : outcome bytes :=
  _ ← guard_err ((fromBits <? 1) || (8 <? fromBits) || (toBits <? 1) || (8 <? toBits))
        (ErrNew "only bit groups between 1 and 8 allowed");
  let '(regrouped, nextByte, filledBits) :=
    foldl (fun st b => convert_byte 8 toBits (to_uint 8 (Z.shiftl b (8 - fromBits))) fromBits st)
      ([], 0, 0) data in
  let '(regrouped, nextByte, filledBits) :=
    if pad && (0 <? filledBits)
    then (to_uint 8 (Z.shiftl nextByte (toBits - filledBits)) :: regrouped, 0, 0)
    else (regrouped, nextByte, filledBits) in
  _ ← guard_err ((0 <? filledBits) && ((4 <? filledBits) || negb (nextByte =? 0)))
        (ErrNew "invalid incomplete group");
  Ret (reverse regrouped).
