(* ===== verification/Ripemd160.v ===== *)
(** * RIPEMD-160 and Hash160

    The vendored [golang.org/x/crypto/ripemd160] and [btcutil.Hash160], which
    turns contracts and public keys into the hashes that scripts and
    addresses carry. *)

From S2P Require Import Prelude Sha256 Script.

(** Buffer indices and roll amounts of the two parallel lines. *)
Definition _n : list nat :=
  [0; 1; 2; 3; 4; 5; 6; 7; 8; 9; 10; 11; 12; 13; 14; 15;
   7; 4; 13; 1; 10; 6; 15; 3; 12; 0; 9; 5; 2; 14; 11; 8;
   3; 10; 14; 4; 9; 15; 8; 1; 2; 7; 0; 6; 13; 11; 5; 12;
   1; 9; 11; 10; 0; 8; 12; 4; 13; 3; 7; 15; 14; 5; 6; 2;
   4; 0; 5; 9; 7; 12; 2; 10; 14; 1; 3; 8; 11; 6; 15; 13]%nat.

Definition _r : list Z :=
  [11; 14; 15; 12; 5; 8; 7; 9; 11; 13; 14; 15; 6; 7; 9; 8;
   7; 6; 8; 13; 11; 9; 7; 15; 7; 12; 15; 9; 11; 7; 13; 12;
   11; 13; 6; 7; 14; 9; 13; 15; 14; 8; 13; 6; 5; 12; 7; 5;
   11; 12; 14; 15; 14; 15; 9; 8; 9; 14; 5; 6; 8; 6; 5; 12;
   9; 15; 5; 11; 6; 8; 13; 12; 5; 12; 13; 14; 11; 8; 5; 6].

Definition n_ : list nat :=
  [5; 14; 7; 0; 9; 2; 11; 4; 13; 6; 15; 8; 1; 10; 3; 12;
   6; 11; 3; 7; 0; 13; 5; 10; 14; 15; 8; 12; 4; 9; 1; 2;
   15; 5; 1; 3; 7; 14; 6; 9; 11; 8; 12; 2; 10; 0; 4; 13;
   8; 6; 4; 1; 3; 11; 15; 0; 5; 12; 2; 13; 9; 7; 10; 14;
   12; 15; 10; 4; 1; 5; 8; 7; 6; 2; 13; 14; 0; 3; 9; 11]%nat.

Definition r_ : list Z :=
  [8; 9; 9; 11; 13; 15; 15; 5; 7; 7; 8; 11; 14; 14; 12; 6;
   9; 13; 15; 7; 12; 8; 9; 11; 7; 7; 12; 7; 6; 15; 13; 11;
   9; 7; 15; 11; 8; 6; 6; 14; 12; 13; 5; 14; 13; 13; 7; 5;
   15; 5; 8; 11; 14; 14; 6; 14; 6; 9; 12; 9; 12; 5; 15; 8;
   8; 5; 12; 9; 12; 5; 14; 6; 8; 13; 6; 5; 15; 13; 11; 11].

(** [bits.RotateLeft32] *)
Definition rotl32 (x s : Z) : Z := Z.lor (mask32 (Z.shiftl x s)) (Z.shiftr x (32 - s)).

(** The Boolean function of round [k] (0 to 4), and the constants of the two
    lines; the parallel line uses the functions in the opposite order. *)
Definition rmd_f (k : nat) (b c d : Z) : Z :=
  match k with
  | 0%nat => Z.lxor (Z.lxor b c) d
  | 1%nat => Z.lor (Z.land b c) (Z.land (not32 b) d)
  | 2%nat => Z.lxor (Z.lor b (not32 c)) d
  | 3%nat => Z.lor (Z.land b d) (Z.land c (not32 d))
  | _ => Z.lxor b (Z.lor c (not32 d))
  end.

Definition rmd_k (k : nat) : Z :=
  match k with
  | 0%nat => 0 | 1%nat => 0x5a827999 | 2%nat => 0x6ed9eba1 | 3%nat => 0x8f1bbcdc | _ => 0xa953fd4e
  end.

Definition rmd_k' (k : nat) : Z :=
  match k with
  | 0%nat => 0x50a28be6 | 1%nat => 0x5c4dd124 | 2%nat => 0x6d703ef3 | 3%nat => 0x7a6d76e9 | _ => 0
  end.

(** The registers [a, b, c, d, e] of a line. *)
Definition regs : Type := (Z * Z * Z * Z * Z)%type.

Definition rmd_step (f : Z -> Z -> Z -> Z) (k x s : Z) (r : regs) : regs :=
  let '(a, b, c, d, e) := r in
  let alpha := add32 (add32 (add32 a (f b c d)) x) k in
  let alpha := add32 (rotl32 alpha s) e in
  let beta := rotl32 c 10 in
  (e, alpha, b, beta, d).

(** Step [i] of both lines. *)
Definition rmd_round (x : list Z) (i : nat) (st : regs * regs) : regs * regs :=
  let k := (i / 16)%nat in
  let word (idx : list nat) := default 0 (x !! default 0%nat (idx !! i)) in
  (rmd_step (rmd_f k) (rmd_k k) (word _n) (default 0 (_r !! i)) st.1,
   rmd_step (rmd_f (4 - k)) (rmd_k' k) (word n_) (default 0 (r_ !! i)) st.2).

(** One block of [_Block]. *)
Definition rmd_block (s : regs) (x : list Z) : regs :=
  let '((a, b, c, d, e), (aa, bb, cc, dd, ee)) :=
    fold_left (fun st i => rmd_round x i st) (seq 0 80) (s, s) in
  let '(s0, s1, s2, s3, s4) := s in
  (add32 (add32 c s1) dd, add32 (add32 s2 d) ee, add32 (add32 s3 e) aa,
   add32 (add32 s4 a) bb, add32 (add32 s0 b) cc).

Definition rmd_init : regs := (0x67452301, 0xefcdab89, 0x98badcfe, 0x10325476, 0xc3d2e1f0).

Fixpoint le_words (l : bytes) : list Z :=
  match l with
  | a :: b :: c :: d :: l' => le_uint [a; b; c; d] :: le_words l'
  | _ => []
  end.

(** Padding of [digest.Sum]: a 1 bit, zeros, the length in bits. *)
Definition rmd_pad (msg : bytes) : bytes :=
  let n := length msg in
  let zeros := (63 - ((n + 8) mod 64))%nat in
  msg ++ [0x80] ++ replicate zeros 0 ++ le_put 8 (8 * Z.of_nat n).

Fixpoint rmd_blocks (fuel : nat) (s : regs) (ws : list Z) : regs :=
  match fuel, ws with
  | S f, _ :: _ => rmd_blocks f (rmd_block s (take 16 ws)) (drop 16 ws)
  | _, _ => s
  end.

Definition ripemd160 (msg : bytes) : bytes :=
  let ws := le_words (rmd_pad msg) in
  let '(s0, s1, s2, s3, s4) := rmd_blocks (length ws) rmd_init ws in
  le_put 4 s0 ++ le_put 4 s1 ++ le_put 4 s2 ++ le_put 4 s3 ++ le_put 4 s4.

(** [btcutil.Hash160] *)
Definition Hash160 (buf : bytes) : bytes := ripemd160 (sha256 buf).

#[global] Arguments ripemd160 : simpl never.

Lemma ripemd160_length msg : zlen (ripemd160 msg) = 20.
Proof.
  unfold ripemd160. destruct (rmd_blocks _ _ _) as [[[[s0 s1] s2] s3] s4].
  reflexivity.
Qed.

Lemma Hash160_length buf : zlen (Hash160 buf) = 20.
Proof. apply ripemd160_length. Qed.

(** Published test vectors: the empty message and "abc". *)
Example ripemd160_empty : ripemd160 [] = hexb "9c1185a5c5e9fc54612808977ee8f548b2258d31".
Proof. by vm_compute. Qed.

Example ripemd160_abc :
  ripemd160 (bytes_of_string "abc") = hexb "8eb208f7e05d987a9b044a8e98c6b087f15a0bfc".
Proof. by vm_compute. Qed.

(** The key hash of the Bitcoin swap of [cmd/stellaratomicswap/walkthrough.md]. *)
Example Hash160_pubkey :
  Hash160 (hexb "020e0081ab8cfaee35f6080403efd17e377f493eec93b6a44181279419a913962a")
    = hexb "c98094d0f6bbb95e6729539af1642f65d9110999".
Proof. by vm_compute. Qed.
