(* ===== verification/Decimal.v ===== *)
(** * Decimal numbers of Go's [math/big] and the string helpers of [strings]

    [big.Int.SetString(s, 10)], [big.Int.String], [strings.TrimRight] with a
    one-character cut set, and the lemmas that relate the digits of a number
    to its value. Strings are lists of bytes here. *)

From S2P Require Import Prelude.

(** ** Digits *)

Definition is_digit (c : Z) : bool := (48 <=? c) && (c <=? 57).

(** The value of a list of decimal digits. *)
Definition digits_value (l : bytes) : Z := foldl (fun a c => 10 * a + (c - 48)) 0 l.

(** The body of [nat.scan] in base 10, which must consume the whole string. *)
Definition scan_nat (l : bytes) : option Z :=
  match l with
  | [] => None
  | _ => if forallb is_digit l then Some (digits_value l) else None
  end.

(** [new(big.Int).SetString(s, 10)]: an optional sign and digits. *)
Definition SetString10 (s : bytes) : option Z :=
  match s with
  | c :: r =>
      if c =? 45 then Z.opp <$> scan_nat r
      else if c =? 43 then scan_nat r
      else scan_nat s
  | [] => None
  end.

(** The digits of a non-negative number, most significant first. *)
Fixpoint dec_digits (fuel : nat) (n : Z) (acc : bytes) : bytes :=
  match fuel with
  | O => acc
  | S f => if n <? 10 then (48 + n) :: acc
           else dec_digits f (n / 10) ((48 + n mod 10) :: acc)
  end.

(** Enough fuel: a number has no more decimal than binary digits. *)
Definition dec_nat (n : Z) : bytes := dec_digits (S (Z.to_nat (Z.log2 n))) n [].

(** [String] of [big.Int]. *)
Definition Int_String (w : Z) : bytes :=
  if w <? 0 then 45 :: dec_nat (- w) else dec_nat w.

(** [strings.TrimRight(s, string(c))] *)
Fixpoint drop_head (c : Z) (l : bytes) : bytes :=
  match l with
  | [] => []
  | x :: r => if x =? c then drop_head c r else l
  end.
Definition TrimRight (c : Z) (l : bytes) : bytes := reverse (drop_head c (reverse l)).

(** [strings.SplitN(str, ".", 2)]: the parts before and after the first dot. *)
Fixpoint split_dot (l : bytes) : bytes * option bytes :=
  match l with
  | [] => ([], None)
  | c :: r => if c =? 46 then ([], Some r)
              else let '(a, b) := split_dot r in (c :: a, b)
  end.

(** [strconv.ParseUint(s, 10, 64)] and [strconv.ParseInt(s, 10, 64)] of Go 1.12. *)
Definition strconv_error (fn : string) (s : bytes) (why : string) : error :=
  Errorf "strconv.%s: parsing %q: %s" [FStr fn; FBytes s; FStr why].

Definition ParseUint (s : bytes) : outcome Z :=
  match scan_nat s with
  | None => Fail (strconv_error "ParseUint" s "invalid syntax")
  | Some n => if n <? 2 ^ 64 then Ret n else Fail (strconv_error "ParseUint" s "value out of range")
  end.

Definition ParseInt (s : bytes) : outcome Z :=
  match SetString10 s with
  | None => Fail (strconv_error "ParseInt" s "invalid syntax")
  | Some n => if (- 2 ^ 63 <=? n) && (n <? 2 ^ 63) then Ret n else Fail (strconv_error "ParseInt" s "value out of range")
  end.

(** ** Values of digit strings *)

Abbreviation digits_ok := (Forall (fun c => 48 <= c <= 57)).

Lemma forallb_digits l : forallb is_digit l = true <-> digits_ok l.
Proof.
  unfold is_digit. rewrite forallb_forall, Forall_forall.
  split; intros H x Hx; specialize (H x).
  - apply list_elem_of_In in Hx. specialize (H Hx). lia.
  - apply list_elem_of_In in Hx. specialize (H Hx). lia.
Qed.

Lemma digits_fold_acc l a :
  foldl (fun a c => 10 * a + (c - 48)) a l = a * 10 ^ zlen l + digits_value l.
Proof.
  unfold digits_value. revert a. induction l as [|c l IH]; intros a; simpl.
  - rewrite zlen_nil. lia.
  - rewrite IH. pose proof (IH (c - 48)) as E.
    match goal with |- context [foldl ?f ?x l] => replace (foldl f x l) with (foldl f (c - 48) l) by (f_equal; lia) end.
    rewrite E, zlen_cons, Z.pow_add_r by (try apply zlen_nonneg; lia). lia.
Qed.

Lemma digits_value_app l1 l2 :
  digits_value (l1 ++ l2) = digits_value l1 * 10 ^ zlen l2 + digits_value l2.
Proof. unfold digits_value at 1. by rewrite foldl_app, digits_fold_acc. Qed.

Lemma digits_value_cons c l :
  digits_value (c :: l) = (c - 48) * 10 ^ zlen l + digits_value l.
Proof. unfold digits_value at 1. simpl. rewrite digits_fold_acc. lia. Qed.

Lemma digits_value_range l : digits_ok l -> 0 <= digits_value l < 10 ^ zlen l.
Proof.
  induction 1 as [|c l Hc _ IH]; [done|].
  rewrite digits_value_cons, zlen_cons, Z.pow_add_r by (try apply zlen_nonneg; lia). nia.
Qed.

Lemma digits_value_zeros n : digits_value (replicate n 48) = 0.
Proof. induction n as [|n IH]; [done|]. simpl. rewrite digits_value_cons, IH. lia. Qed.

(** A digit string of value 0 is a string of zeros. *)
Lemma digits_value_0 l : digits_ok l -> digits_value l = 0 <-> Forall (fun c => c = 48) l.
Proof.
  induction 1 as [|c l Hc Hl IH]; [split; [constructor|done]|].
  rewrite digits_value_cons, Forall_cons, <-IH.
  pose proof (digits_value_range l Hl). assert (0 < 10 ^ zlen l) by (pose proof (zlen_nonneg l); lia). nia.
Qed.

Lemma scan_nat_digits l : l <> [] -> digits_ok l -> scan_nat l = Some (digits_value l).
Proof. destruct l; [done|]. intros _ H. unfold scan_nat. by rewrite (proj2 (forallb_digits _) H). Qed.

Lemma SetString10_digits l : l <> [] -> digits_ok l -> SetString10 l = Some (digits_value l).
Proof.
  intros Hne H. destruct l as [|c r]; [done|]. unfold SetString10.
  pose proof (Forall_inv H) as Hc. simpl in Hc.
  rewrite (proj2 (Z.eqb_neq c 45)), (proj2 (Z.eqb_neq c 43)) by lia. by apply scan_nat_digits.
Qed.

(** ** The digits printed have the value they were printed from *)

Lemma dec_digits_spec fuel n acc : 0 <= n -> n < 10 ^ Z.of_nat fuel -> (0 < fuel)%nat ->
  exists l, dec_digits fuel n acc = l ++ acc /\ digits_ok l /\ l <> [] /\ digits_value l = n
    /\ (0 < n -> exists c r, l = c :: r /\ c <> 48).
Proof.
  revert n acc. induction fuel as [|f IH]; intros n acc H0 Hn Hf; [lia|]. cbn [dec_digits].
  destruct (Z.ltb_spec n 10).
  - exists [48 + n]. split; [done|]. split; [repeat constructor; lia|]. split; [done|].
    split; [unfold digits_value; simpl; lia|]. intros. exists (48 + n), []. split; [done|lia].
  - pose proof (Z.div_mod n 10 ltac:(lia)). pose proof (Z.mod_pos_bound n 10 ltac:(lia)).
    rewrite Nat2Z.inj_succ, Z.pow_succ_r in Hn by lia.
    assert (n / 10 < 10 ^ Z.of_nat f) by (apply Z.div_lt_upper_bound; lia).
    assert (1 <= n / 10) by (apply Z.div_le_lower_bound; lia).
    destruct f as [|f]; [simpl in *; lia|].
    destruct (IH (n / 10) ((48 + n mod 10) :: acc)) as (l & -> & Hl & Hne & Hv & Hh); [lia..|].
    exists (l ++ [48 + n mod 10]). split; [by rewrite <-app_assoc|].
    split; [apply Forall_app; split; [done|repeat constructor; lia]|].
    split; [by destruct l|]. split.
    + rewrite digits_value_app, Hv. change (digits_value [48 + n mod 10]) with (48 + n mod 10 - 48). change (zlen [48 + n mod 10]) with 1. lia.
    + intros _. destruct Hh as (c & r & -> & Hc); [lia|]. by exists c, (r ++ [48 + n mod 10]).
Qed.

Lemma dec_nat_spec n : 0 <= n ->
  digits_ok (dec_nat n) /\ dec_nat n <> [] /\ digits_value (dec_nat n) = n
    /\ (0 < n -> exists c r, dec_nat n = c :: r /\ c <> 48).
Proof.
  intros H. unfold dec_nat.
  destruct (dec_digits_spec (S (Z.to_nat (Z.log2 n))) n []) as (l & -> & H'); [done| |lia|].
  - rewrite Nat2Z.inj_succ, Z2Nat.id by apply Z.log2_nonneg.
    destruct (decide (n = 0)) as [->|]; [done|].
    pose proof (Z.log2_spec n ltac:(lia)). pose proof (Z.log2_nonneg n).
    pose proof (Z.pow_le_mono_l 2 10 (Z.succ (Z.log2 n)) ltac:(lia)). lia.
  - by rewrite app_nil_r.
Qed.

Lemma SetString10_String w : SetString10 (Int_String w) = Some w.
Proof.
  unfold Int_String. destruct (Z.ltb_spec w 0).
  - destruct (dec_nat_spec (- w)) as (H1 & H2 & H3 & _); [lia|].
    unfold SetString10. simpl. rewrite scan_nat_digits by done. simpl. f_equal. lia.
  - destruct (dec_nat_spec w) as (H1 & H2 & H3 & _); [lia|].
    by rewrite SetString10_digits, H3.
Qed.

(** ** Trimming on the right *)

Lemma TrimRight_snoc_eq c l : TrimRight c (l ++ [c]) = TrimRight c l.
Proof. unfold TrimRight. rewrite reverse_app. simpl. by rewrite Z.eqb_refl. Qed.

Lemma TrimRight_snoc_ne c l x : x <> c -> TrimRight c (l ++ [x]) = l ++ [x].
Proof.
  intros H. unfold TrimRight. rewrite reverse_app. simpl.
  rewrite (proj2 (Z.eqb_neq x c)) by done. by rewrite reverse_cons, reverse_involutive.
Qed.

(** What is trimmed: a run of the character, and the rest does not end in it. *)
Lemma TrimRight_spec c l : exists n, l = TrimRight c l ++ replicate n c
  /\ (TrimRight c l = [] \/ exists p x, TrimRight c l = p ++ [x] /\ x <> c).
Proof.
  induction l as [|x l (n & IH & IH')] using rev_ind.
  - exists 0%nat. unfold TrimRight. simpl. by split; [|left].
  - destruct (decide (x = c)) as [->|Hx].
    + rewrite TrimRight_snoc_eq. exists (S n). split; [|done].
      rewrite replicate_S_end, app_assoc. by rewrite <-IH.
    + rewrite TrimRight_snoc_ne by done. exists 0%nat.
      split; [by rewrite app_nil_r|]. right. eauto.
Qed.

(** Trimming a string whose last part does not vanish trims that part. *)
Lemma TrimRight_app c l1 l2 : TrimRight c l2 <> [] -> TrimRight c (l1 ++ l2) = l1 ++ TrimRight c l2.
Proof.
  induction l2 as [|x l2 IH] using rev_ind; [done|]. rewrite app_assoc.
  destruct (decide (x = c)) as [->|Hx].
  - rewrite !TrimRight_snoc_eq. apply IH.
  - by rewrite !TrimRight_snoc_ne, app_assoc by done.
Qed.

Lemma TrimRight_app_nil c l1 l2 : TrimRight c l2 = [] -> TrimRight c (l1 ++ l2) = TrimRight c l1.
Proof.
  induction l2 as [|x l2 IH] using rev_ind; [by rewrite app_nil_r|]. rewrite app_assoc.
  destruct (decide (x = c)) as [->|Hx].
  - rewrite !TrimRight_snoc_eq. apply IH.
  - rewrite !TrimRight_snoc_ne by done. by destruct l2.
Qed.

(** ** Splitting at the dot *)

Lemma split_dot_digits l : digits_ok l -> split_dot l = (l, None).
Proof.
  induction 1 as [|c l Hc _ IH]; [done|]. simpl.
  rewrite (proj2 (Z.eqb_neq c 46)) by lia. by rewrite IH.
Qed.

Lemma split_dot_app l r : digits_ok l -> split_dot (l ++ 46 :: r) = (l, Some r).
Proof.
  induction 1 as [|c l Hc _ IH]; [done|]. simpl.
  rewrite (proj2 (Z.eqb_neq c 46)) by lia. by rewrite IH.
Qed.

