(* ===== verification/Float.v ===== *)
(** * Amounts of bitcoin as float64

    [strconv.ParseFloat] and the conversions of [btcutil.Amount]
    ([amount.go]). A [float64] is a [spec_float] of the Standard Library's
    IEEE 754 specification, with 53 bits of precision and exponents up to
    1024. *)

From S2P Require Import Prelude Decimal.
From Stdlib Require Import SpecFloat.

Abbreviation float64 := spec_float.

Definition f64_mul : float64 -> float64 -> float64 := SFmul 53 1024.
Definition f64_div : float64 -> float64 -> float64 := SFdiv 53 1024.
Definition f64_add : float64 -> float64 -> float64 := SFadd 53 1024.
Definition f64_sub : float64 -> float64 -> float64 := SFsub 53 1024.

(** [float64(z)] of an integer. *)
Definition f64_of_int (z : Z) : float64 := binary_normalize 53 1024 z 0 false.

(** The sign, the mantissa and the exponent of a finite number as a fraction
    that truncates towards zero. *)
Definition f64_trunc (f : float64) : option Z :=
  match f with
  | S754_zero _ => Some 0
  | S754_finite s m e => Some ((if s then Z.opp else id) (Z.shiftl (Zpos m) e))
  | _ => None
  end.

(** [int64(f)]; a value out of range gives the smallest integer, as on
    amd64. *)
Definition f64_to_int64 (f : float64) : Z :=
  match f64_trunc f with
  | Some z => if (- 2 ^ 63 <=? z) && (z <? 2 ^ 63) then z else - 2 ^ 63
  | None => - 2 ^ 63
  end.

(** ** Reading a decimal number *)

Definition ErrSyntax (s : bytes) : error := Errorf "strconv.ParseFloat: parsing %q: invalid syntax" [FBytes s].
Definition ErrRange (s : bytes) : error := Errorf "strconv.ParseFloat: parsing %q: value out of range" [FBytes s].

(** The digits at the front. *)
Fixpoint span_digits (l : bytes) : bytes * bytes :=
  match l with
  | c :: r => if is_digit c then let '(d, r) := span_digits r in (c :: d, r) else ([], l)
  | [] => ([], [])
  end.

Definition read_sign (l : bytes) : bool * bytes :=
  match l with 45 :: r => (true, r) | 43 :: r => (false, r) | _ => (false, l) end.

(** The exponent stops growing at 10000. *)
Definition read_exponent (l : bytes) : option Z :=
  match l with
  | [] => Some 0
  | c :: r =>
      if (c =? 101) || (c =? 69) then
        let '(neg, r) := read_sign r in
        let '(d, r) := span_digits r in
        if (zlen d =? 0) || negb (zlen r =? 0) then None
        else let e := foldl (fun e c => if e <? 10000 then e * 10 + (c - 48) else e) 0 d in
             Some (if neg then - e else e)
      else None
  end.

(** [readFloat]: the sign, and the digits as an integer and a power of ten. *)
Definition readFloat (l : bytes) : option (bool * Z * Z) :=
  let '(neg, l) := read_sign l in
  let '(whole, l) := span_digits l in
  let '(frac, l) := match l with 46 :: r => span_digits r | _ => ([], l) end in
  if zlen (whole ++ frac) =? 0 then None
  else
    e ← read_exponent l;
    Some (neg, digits_value (whole ++ frac), e - zlen frac).

(** [special] *)
Definition special (l : bytes) : option float64 :=
  let eqs s := bool_decide (ToLower l = bytes_of_string s) in
  if eqs "inf" || eqs "infinity" || eqs "+inf" || eqs "+infinity" then Some (S754_infinity false)
  else if eqs "-inf" || eqs "-infinity" then Some (S754_infinity true)
  else if eqs "nan" then Some S754_nan
  else None.

(** The float64 closest to [m * 10 ^ e]. *)
Definition f64_decimal (neg : bool) (m e : Z) : float64 :=
  match m with
  | Zpos p =>
      if 0 <=? e then binary_round 53 1024 neg (p * Z.to_pos (10 ^ e)) 0
      else f64_div (S754_finite neg p 0) (S754_finite false (Z.to_pos (10 ^ (- e))) 0)
  | _ => S754_zero neg
  end.

(** [strconv.ParseFloat(s, 64)] of Go 1.12, which has no hexadecimal floats. *)
Definition ParseFloat (s : bytes) : outcome float64 :=
  match special s with
  | Some f => Ret f
  | None =>
      match readFloat s with
      | None => Fail (ErrSyntax s)
      | Some (neg, m, e) =>
          match f64_decimal neg m e with
          | S754_infinity _ => Fail (ErrRange s)
          | f => Ret f
          end
      end
  end.

(** ** Amounts *)

Definition SatoshiPerBitcoin : Z := 100000000.

Definition f64_half : float64 := Eval vm_compute in f64_div (f64_of_int 1) (f64_of_int 2).

Definition round (f : float64) : Z :=
  if SFltb f (S754_zero false) then f64_to_int64 (f64_sub f f64_half)
  else f64_to_int64 (f64_add f f64_half).

Definition NewAmount (f : float64) : outcome Z :=
  match f with
  | S754_nan | S754_infinity _ => Fail (ErrNew "invalid bitcoin amount")
  | _ => Ret (round (f64_mul f (f64_of_int SatoshiPerBitcoin)))
  end.

(** [ToBTC]; [math.Pow10(8)] is exact. *)
Definition ToBTC (a : Z) : float64 := f64_div (f64_of_int a) (f64_of_int (10 ^ 8)).

(** The conversions on the amounts of the published swaps and on texts that
    [ParseFloat] accepts or refuses. *)
Example amount_examples :
  map (fun s => f ← ParseFloat (bytes_of_string s); NewAmount f)
    ["0.1234"; "1.01"; "20999999.97690000"; "1e-8"; "-.5"; "0.00000000999"]%string =
  map Ret [12340000; 101000000; 2099999997690000; 1; - 50000000; 1].
Proof. vm_compute. reflexivity. Qed.

Example amount_errors :
  map (fun s => f ← ParseFloat (bytes_of_string s); NewAmount f) ["Inf"; "1e309"; "1.2.3"; ""]%string =
  [Fail (ErrNew "invalid bitcoin amount"); Fail (ErrRange (bytes_of_string "1e309"));
   Fail (ErrSyntax (bytes_of_string "1.2.3")); Fail (ErrSyntax [])].
Proof. vm_compute. reflexivity. Qed.
