(* ===== verification/Address.v ===== *)
(** * Bitcoin addresses, networks and private keys

    The vendored [btcutil] ([address.go], [wif.go]), the parameters of the
    networks ([chaincfg]) and the output scripts of addresses
    ([txscript/standard.go]). An address is a value of the inductive type
    [Address], with one constructor per Go type behind the interface. *)

From S2P Require Import Prelude Sha256 BigEndian Base58 Ripemd160 Script.

(** ** Networks *)

(** The fields of [chaincfg.Params] the code reads. *)
Record Params := mkParams {
  Name : string; Bech32HRPSegwit : bytes; PubKeyHashAddrID : Z; ScriptHashAddrID : Z; PrivateKeyID : Z }.

Definition MainNetParams : Params := Eval vm_compute in
  mkParams "mainnet" (bytes_of_string "bc") 0x00 0x05 0x80.
Definition TestNet3Params : Params := Eval vm_compute in
  mkParams "testnet3" (bytes_of_string "tb") 0x6f 0xc4 0xef.

(** The four networks that [chaincfg] registers. *)
Definition IsBech32SegwitPrefix (prefix : bytes) : bool :=
  bool_decide (ToLower prefix ∈ map bytes_of_string ["bc1"; "tb1"; "bcrt1"; "sb1"]%string).

(** ** Public keys on secp256k1 *)

Definition secp_P : Z := 2 ^ 256 - 2 ^ 32 - 977.

Fixpoint pow_mod (b : Z) (e : positive) (m : Z) : Z :=
  match e with
  | xH => b mod m
  | xO e => let r := pow_mod b e m in r * r mod m
  | xI e => let r := pow_mod b e m in r * r mod m * b mod m
  end.

Definition curve_rhs (x : Z) : Z := (x * x * x + 7) mod secp_P.

Definition IsOnCurve (x y : Z) : bool := y * y mod secp_P =? curve_rhs x.

Definition decompressPoint (bigX : Z) (ybit : bool) : outcome Z :=
  let x3 := curve_rhs bigX in
  let y := pow_mod x3 (Z.to_pos ((secp_P + 1) / 4)) secp_P in
  let y := if Bool.eqb ybit (Z.odd y) then y else (- y) mod secp_P in
  _ ← guard_err (negb (y * y mod secp_P =? x3)) (ErrNew "invalid square root");
  _ ← guard_err (negb (Bool.eqb ybit (Z.odd y))) (ErrNew "ybit doesn't match oddness");
  Ret y.

(** [ParsePubKey]: the coordinates of the point. *)
Definition ParsePubKey (pubKeyStr : bytes) : outcome (Z * Z) :=
  match pubKeyStr with
  | [] => Fail (ErrNew "pubkey string is empty")
  | b :: coords =>
      let ybit := Z.odd b in
      let format := Z.land b (255 - 1) in
      let X := be_get (take 32 coords) in
      let Y := be_get (drop 32 coords) in
      if zlen pubKeyStr =? 65 then
        _ ← guard_err (negb (format =? 4) && negb (format =? 6)) (Errorf "invalid magic in pubkey str: %d" [FInt b]);
        _ ← guard_err ((format =? 6) && negb (Bool.eqb ybit (Z.odd Y))) (ErrNew "ybit doesn't match oddness");
        _ ← guard_err (secp_P <=? X) (ErrNew "pubkey X parameter is >= to P");
        _ ← guard_err (secp_P <=? Y) (ErrNew "pubkey Y parameter is >= to P");
        _ ← guard_err (negb (IsOnCurve X Y)) (ErrNew "pubkey isn't on secp256k1 curve");
        Ret (X, Y)
      else if zlen pubKeyStr =? 33 then
        _ ← guard_err (negb (format =? 2)) (Errorf "invalid magic in compressed pubkey string: %d" [FInt b]);
        Y ← decompressPoint X ybit;
        Ret (X, Y)
      else Fail (Errorf "invalid pub key length %d" [FInt (zlen pubKeyStr)])
  end.

Inductive PubKeyFormat := PKFUncompressed | PKFCompressed | PKFHybrid.

(** [SerializeUncompressed], [SerializeCompressed], [SerializeHybrid] *)
Definition serialize (format : PubKeyFormat) (X Y : Z) : bytes :=
  let bit := if Z.odd Y then 1 else 0 in
  match format with
  | PKFUncompressed => 4 :: be_put 32 X ++ be_put 32 Y
  | PKFCompressed => Z.lor 2 bit :: be_put 32 X
  | PKFHybrid => Z.lor 6 bit :: be_put 32 X ++ be_put 32 Y
  end.

(** ** Addresses *)

Inductive Address :=
  | AddressPubKeyHash (hash : bytes) (netID : Z)
  | AddressScriptHash (hash : bytes) (netID : Z)
  | AddressPubKey (format : PubKeyFormat) (X Y : Z) (pubKeyHashID : Z)
  | AddressWitnessPubKeyHash (hrp witnessProgram : bytes)
  | AddressWitnessScriptHash (hrp witnessProgram : bytes).

Definition newAddressPubKeyHash (pkHash : bytes) (netID : Z) : outcome Address :=
  if negb (zlen pkHash =? 20) then Fail (ErrNew "pkHash must be 20 bytes")
  else Ret (AddressPubKeyHash pkHash netID).
Definition NewAddressPubKeyHash (pkHash : bytes) (net : Params) : outcome Address :=
  newAddressPubKeyHash pkHash (PubKeyHashAddrID net).

Definition newAddressScriptHashFromHash (scriptHash : bytes) (netID : Z) : outcome Address :=
  if negb (zlen scriptHash =? 20) then Fail (ErrNew "scriptHash must be 20 bytes")
  else Ret (AddressScriptHash scriptHash netID).
Definition NewAddressScriptHash (serializedScript : bytes) (net : Params) : outcome Address :=
  newAddressScriptHashFromHash (Hash160 serializedScript) (ScriptHashAddrID net).

(** A nil network is dereferenced once the key is parsed. *)
Definition NewAddressPubKey (serializedPubKey : bytes) (net : option Params) : outcome Address :=
  '(X, Y) ← ParsePubKey serializedPubKey;
  let format := match serializedPubKey with
    | b :: _ => if (b =? 2) || (b =? 3) then PKFCompressed
                else if (b =? 6) || (b =? 7) then PKFHybrid else PKFUncompressed
    | [] => PKFUncompressed
    end in
  match net with
  | Some net => Ret (AddressPubKey format X Y (PubKeyHashAddrID net))
  | None => Panic (ErrNew "nil pointer dereference")
  end.

Definition newAddressWitnessPubKeyHash (hrp witnessProg : bytes) : outcome Address :=
  if negb (zlen witnessProg =? 20) then Fail (ErrNew "witness program must be 20 bytes for p2wpkh")
  else Ret (AddressWitnessPubKeyHash (ToLower hrp) witnessProg).
Definition newAddressWitnessScriptHash (hrp witnessProg : bytes) : outcome Address :=
  if negb (zlen witnessProg =? 32) then Fail (ErrNew "witness program must be 32 bytes for p2wsh")
  else Ret (AddressWitnessScriptHash (ToLower hrp) witnessProg).

(** [ScriptAddress], [IsForNet] of the five types. *)
Definition ScriptAddress (a : Address) : bytes :=
  match a with
  | AddressPubKeyHash h _ | AddressScriptHash h _ => h
  | AddressPubKey f X Y _ => serialize f X Y
  | AddressWitnessPubKeyHash _ p | AddressWitnessScriptHash _ p => p
  end.

Definition IsForNet (a : Address) (net : Params) : bool :=
  match a with
  | AddressPubKeyHash _ id | AddressPubKey _ _ _ id => id =? PubKeyHashAddrID net
  | AddressScriptHash _ id => id =? ScriptHashAddrID net
  | AddressWitnessPubKeyHash hrp _ | AddressWitnessScriptHash hrp _ =>
      bool_decide (hrp = Bech32HRPSegwit net)
  end.

(** ** Text form *)

(** [decodeSegWitAddress]: the version and the program. *)
Definition decodeSegWitAddress (address : bytes) : outcome (Z * bytes) :=
  '(_, data) ← bech32_Decode address;
  match data with
  | [] => Fail (ErrNew "no witness version")
  | version :: data =>
      _ ← guard_err (16 <? version) (Errorf "invalid witness version: %v" [FInt version]);
      regrouped ← ConvertBits data 5 8 false;
      _ ← guard_err ((zlen regrouped <? 2) || (40 <? zlen regrouped)) (ErrNew "invalid data length");
      _ ← guard_err ((version =? 0) && negb (zlen regrouped =? 20) && negb (zlen regrouped =? 32))
            (Errorf "invalid data length for witness version 0: %v" [FInt (zlen regrouped)]);
      Ret (version, regrouped)
  end.

Definition encodeSegWitAddress (hrp : bytes) (witnessVersion : Z) (witnessProgram : bytes) : outcome bytes :=
  converted ← ConvertBits witnessProgram 8 5 true;
  bech ← bech32_Encode hrp (witnessVersion :: converted);
  '(version, program) ← mapErr (fun e => Errorf "invalid segwit address: %v" [FErr e]) (decodeSegWitAddress bech);
  _ ← guard_err (negb (version =? witnessVersion) || negb (bool_decide (program = witnessProgram)))
        (ErrNew "invalid segwit address");
  Ret bech.

(** [encodeAddress]; the hashes have 20 bytes. *)
Definition encodeAddress (hash160 : bytes) (netID : Z) : bytes := CheckEncode (take 20 hash160) netID.

Definition EncodeAddress (a : Address) : bytes :=
  match a with
  | AddressPubKeyHash h id | AddressScriptHash h id => encodeAddress h id
  | AddressPubKey f X Y id => encodeAddress (Hash160 (serialize f X Y)) id
  | AddressWitnessPubKeyHash hrp p | AddressWitnessScriptHash hrp p =>
      match encodeSegWitAddress hrp 0 p with Ret s => s | _ => [] end
  end.

Definition ErrChecksumMismatch : error := ErrNew "checksum mismatch".
Definition ErrUnknownAddressType : error := ErrNew "unknown address type".
Definition ErrAddressCollision : error := ErrNew "address collision".

(** The segregated witness branch of [DecodeAddress]. *)
Definition decode_witness (addr hrp : bytes) : outcome Address :=
  '(witnessVer, witnessProg) ← decodeSegWitAddress addr;
  _ ← guard_err (negb (witnessVer =? 0)) (Errorf "unsupported witness version: " [FInt witnessVer]);
  if zlen witnessProg =? 20 then newAddressWitnessPubKeyHash hrp witnessProg
  else if zlen witnessProg =? 32 then newAddressWitnessScriptHash hrp witnessProg
  else Fail (Errorf "unsupported witness program length: " [FInt (zlen witnessProg)]).

(** [err == base58.ErrChecksum] *)
Definition is_ErrChecksum (e : error) : bool :=
  match e, ErrChecksum with ErrNew m, ErrNew m' => (m =? m')%string | _, _ => false end.

(** The base-58 branch. The network is dereferenced only when the text decodes
    to 20 bytes. *)
Definition decode_base58 (addr : bytes) (defaultNet : option Params) : outcome Address :=
  match CheckDecode addr with
  | Fail e | Panic e =>
      if is_ErrChecksum e then Fail ErrChecksumMismatch
      else Fail (ErrNew "decoded address is of unknown format")
  | Ret (decoded, netID) =>
      if zlen decoded =? 20 then
        match defaultNet with
        | None => Panic (ErrNew "nil pointer dereference")
        | Some net =>
            let isP2PKH := netID =? PubKeyHashAddrID net in
            let isP2SH := netID =? ScriptHashAddrID net in
            if isP2PKH && isP2SH then Fail ErrAddressCollision
            else if isP2PKH then newAddressPubKeyHash decoded netID
            else if isP2SH then newAddressScriptHashFromHash decoded netID
            else Fail ErrUnknownAddressType
        end
      else Fail (ErrNew "decoded address is of unknown size")
  end.

Definition DecodeAddress (addr : bytes) (defaultNet : option Params) : outcome Address :=
  let witness_hrp :=
    match LastIndexByte addr 49 with
    | Some oneIndex =>
        if (1 <? oneIndex)%nat && IsBech32SegwitPrefix (take (S oneIndex) addr)
        then Some (take oneIndex addr) else None
    | None => None
    end in
  match witness_hrp with
  | Some hrp => decode_witness addr hrp
  | None =>
      if (zlen addr =? 130) || (zlen addr =? 66) then
        serializedPubKey ← hex_decode addr;
        NewAddressPubKey serializedPubKey defaultNet
      else decode_base58 addr defaultNet
  end.

(** ** Private keys in wallet import format *)

(** [PrivKey] is the secret number. *)
Record WIF := mkWIF { PrivKey : Z; CompressPubKey : bool; wif_netID : Z }.

Definition ErrMalformedPrivateKey : error := ErrNew "malformed private key".

Definition DecodeWIF (wif : bytes) : outcome WIF :=
  let decoded := b58_Decode wif in
  compress ← (if zlen decoded =? 38 then
                if negb (default 0 (decoded !! 33%nat) =? 1) then Fail ErrMalformedPrivateKey else Ret true
              else if zlen decoded =? 37 then Ret false
              else Fail ErrMalformedPrivateKey);
  let tosum := take (if compress : bool then 34 else 33) decoded in
  _ ← guard_err (negb (bool_decide (b58_checksum tosum = drop (length decoded - 4) decoded))) ErrChecksumMismatch;
  Ret (mkWIF (be_get (take 32 (drop 1 decoded))) compress (default 0 (head decoded))).

(** ** Output scripts *)

Definition payToWitnessPubKeyHashScript (pubKeyHash : bytes) : outcome bytes :=
  BuilderScript (AddData pubKeyHash (AddOp OP_0 NewScriptBuilder)).
Definition payToWitnessScriptHashScript (scriptHash : bytes) : outcome bytes :=
  BuilderScript (AddData scriptHash (AddOp OP_0 NewScriptBuilder)).
Definition payToPubKeyScript (serializedPubKey : bytes) : outcome bytes :=
  BuilderScript (AddOp OP_CHECKSIG (AddData serializedPubKey NewScriptBuilder)).

Definition PayToAddrScript (addr : Address) : outcome bytes :=
  match addr with
  | AddressPubKeyHash _ _ => payToPubKeyHashScript (ScriptAddress addr)
  | AddressScriptHash _ _ => payToScriptHashScript (ScriptAddress addr)
  | AddressPubKey _ _ _ _ => payToPubKeyScript (ScriptAddress addr)
  | AddressWitnessPubKeyHash _ _ => payToWitnessPubKeyHashScript (ScriptAddress addr)
  | AddressWitnessScriptHash _ _ => payToWitnessScriptHashScript (ScriptAddress addr)
  end.

(** The addresses an output script pays: those that the constructors accept. *)
Definition keep_ok (o : outcome Address) : list Address := match o with Ret a => [a] | _ => [] end.

Definition script_addrs (class : ScriptClass) (pops : list parsedOpcode) (net : Params) : list Address :=
  let data i := default [] (p ← pops !! i; pop_data p) in
  match class with
  | PubKeyHashTy => keep_ok (NewAddressPubKeyHash (data 2%nat) net)
  | WitnessV0PubKeyHashTy => keep_ok (newAddressWitnessPubKeyHash (Bech32HRPSegwit net) (data 1%nat))
  | PubKeyTy => keep_ok (NewAddressPubKey (data 0%nat) (Some net))
  | ScriptHashTy => keep_ok (newAddressScriptHashFromHash (data 1%nat) (ScriptHashAddrID net))
  | WitnessV0ScriptHashTy => keep_ok (newAddressWitnessScriptHash (Bech32HRPSegwit net) (data 1%nat))
  | MultiSigTy =>
      let numPubKeys := asSmallInt (pop_value (default (mkPop 0 None) (pops !! (length pops - 2)%nat))) in
      flat_map (fun i => keep_ok (NewAddressPubKey (data (S i)) (Some net))) (seq 0 (Z.to_nat numPubKeys))
  | NullDataTy | NonStandardTy => []
  end.

(** [ExtractPkScriptAddrs]: the class and the addresses, with the error of a
    script that does not parse; the number of signatures is not used. *)
Definition ExtractPkScriptAddrs (pkScript : bytes) (net : Params)
    : ScriptClass * list Address * option error :=
  match parseScript pkScript with
  | Fail e | Panic e => (NonStandardTy, [], Some e)
  | Ret pops => let class := typeOfScript pops in (class, script_addrs class pops net, None)
  end.

(** ** Checks against published addresses *)

(** The addresses of [docs/refund_walkthrough.md], the same on the wrong
    network and without one, and an example of BIP 173. *)
Example decode_examples :
  map (fun '(s, net) => DecodeAddress (bytes_of_string s) net)
    [("mzQv1c5fatwFw1LoUAp9s8Zt6thzqiCWm2", Some TestNet3Params);
     ("mzQv1c5fatwFw1LoUAp9s8Zt6thzqiCWm2", Some MainNetParams);
     ("mzQv1c5fatwFw1LoUAp9s8Zt6thzqiCWm2", None);
     ("2MwV3tC5BdhCNQ5cBdD7XML6x38hqQ5HhTc", Some TestNet3Params);
     ("2MwV3tC5BdhCNQ5cBdD7XML6x38hqQ5HhT", Some TestNet3Params);
     ("BC1QW508D6QEJXTDG4Y5R3ZARVARY0C5XW7KV8F3T4", Some MainNetParams)]%string =
  [Ret (AddressPubKeyHash (hexb "cf45fce54ebfcd30681d99fdf060e2ab56478888") 0x6f);
   Fail ErrUnknownAddressType;
   Panic (ErrNew "nil pointer dereference");
   Ret (AddressScriptHash (hexb "2e7de42ec6ebb700cba09eb743b543408ff1fca7") 0xc4);
   Fail ErrChecksumMismatch;
   Ret (AddressWitnessPubKeyHash (bytes_of_string "bc") (hexb "751e76e8199196d454941c45d1b3a323f1433bd6"))].
Proof. vm_compute. reflexivity. Qed.
