(* ===== verification/AddressTheorems.v ===== *)
(** * Addresses are read back

    Base58 decodes what it encodes, and the text of an address of one of the two
    networks is read back as that address: on its own network only. *)

From S2P Require Import Prelude Sha256 BigEndian Base58 Ripemd160 Address.

#[local] Opaque sha256.

(** ** Digits *)

Definition b58_char (d : Z) : Z := default 0 (alphabet !! Z.to_nat d).

Lemma b58_b58_char d : 0 <= d < 58 -> b58 (b58_char d) = Some d.
Proof.
  intros Hd. assert (forallb (fun n => bool_decide (b58 (b58_char (Z.of_nat n)) = Some (Z.of_nat n))) (seq 0 58) = true) as H
    by (vm_compute; reflexivity).
  rewrite forallb_forall in H. specialize (H (Z.to_nat d) ltac:(apply in_seq; lia)).
  apply bool_decide_eq_true in H. by rewrite Z2Nat.id in H by lia.
Qed.

Lemma b58_value_app l c x d : b58_value l = Some x -> b58 c = Some d -> b58_value (l ++ [c]) = Some (x * 58 + d).
Proof. unfold b58_value. rewrite foldl_app. intros -> Hc. cbn [foldl mbind option_bind]. by rewrite Hc. Qed.

Lemma b58_value_digits f x : 0 <= x < 58 ^ Z.of_nat f -> b58_value (reverse (b58_digits f x)) = Some x.
Proof.
  revert x. induction f as [|f IH]; intros x Hx; cbn [b58_digits].
  { change (58 ^ Z.of_nat 0) with 1 in Hx. by replace x with 0 by lia. }
  destruct (0 <? x) eqn:Hp; [|by replace x with 0 by lia]. rewrite reverse_cons. fold (b58_char (x mod 58)).
  pose proof (Z.mod_pos_bound x 58 ltac:(lia)).
  rewrite (b58_value_app _ _ (x / 58) (x mod 58)); [f_equal; pose proof (Z.div_mod x 58); lia| |by apply b58_b58_char].
  apply IH. rewrite Nat2Z.inj_succ, Z.pow_succ_r in Hx by lia.
  split; [apply Z.div_pos; lia|apply Z.div_lt_upper_bound; lia].
Qed.

(** The first [k] digits, and what they leave. *)
Lemma b58_digits_split k f x : 58 ^ Z.of_nat k <= x ->
  exists l, length l = k /\ b58_digits (k + f) x = l ++ b58_digits f (x / 58 ^ Z.of_nat k).
Proof.
  revert x. induction k as [|k IH]; intros x Hx.
  { exists []. split; [done|]. cbn. by rewrite Z.div_1_r. }
  rewrite Nat2Z.inj_succ, Z.pow_succ_r in Hx by lia. pose proof (Z.pow_pos_nonneg 58 (Z.of_nat k)).
  destruct (IH (x / 58)) as (l & Hl & E); [apply Z.div_le_lower_bound; lia|].
  exists (b58_char (x mod 58) :: l). split; [by cbn; rewrite Hl|].
  cbn [Nat.add b58_digits app]. rewrite (proj2 (Z.ltb_lt 0 x)) by lia. rewrite E. fold (b58_char (x mod 58)).
  by rewrite Z.div_div, Nat2Z.inj_succ, Z.pow_succ_r by lia.
Qed.

(** The most significant digit of a number of [k + 1] digits comes first. *)
Lemma b58_digits_top k x : 58 ^ Z.of_nat k <= x < 58 ^ Z.of_nat (S k) ->
  exists l, length l = k /\
    reverse (b58_digits (S (Z.to_nat (Z.log2 x))) x) = b58_char (x / 58 ^ Z.of_nat k) :: l.
Proof.
  intros Hx. pose proof (Z.pow_pos_nonneg 58 (Z.of_nat k)) as Hp.
  assert (Z.of_nat k <= Z.log2 x) as Hk.
  { apply Z.log2_le_pow2; [lia|]. transitivity (58 ^ Z.of_nat k); [apply Z.pow_le_mono_l; lia|lia]. }
  replace (S (Z.to_nat (Z.log2 x))) with (k + S (Z.to_nat (Z.log2 x) - k))%nat by lia.
  destruct (b58_digits_split k (S (Z.to_nat (Z.log2 x) - k)) x) as (l & Hl & ->); [lia|].
  set (d := x / 58 ^ Z.of_nat k). assert (0 < d < 58) as Hd.
  { rewrite Nat2Z.inj_succ, Z.pow_succ_r in Hx by lia.
    split; [apply Z.div_str_pos; lia|apply Z.div_lt_upper_bound; lia]. }
  cbn [b58_digits]. rewrite (proj2 (Z.ltb_lt 0 d)), Z.mod_small, Z.div_small by lia.
  exists (reverse l). split; [by rewrite length_reverse|].
  rewrite reverse_app. by destruct (_ - _)%nat.
Qed.

Lemma log2_fuel x : 0 <= x -> x < 58 ^ Z.of_nat (S (Z.to_nat (Z.log2 x))).
Proof.
  intros Hx. destruct (decide (x = 0)) as [->|]; [done|].
  pose proof (Z.log2_spec x ltac:(lia)). pose proof (Z.log2_nonneg x).
  rewrite Nat2Z.inj_succ, Z2Nat.id by done. apply Z.lt_le_trans with (2 ^ Z.succ (Z.log2 x)); [lia|].
  apply Z.pow_le_mono_l. lia.
Qed.

(** ** Base58 round trip *)

Lemma leading_split c l : exists r, l = replicate (leading c l) c ++ r /\ head r <> Some c.
Proof.
  induction l as [|x l (r & E & Hr)]; [by exists []|]. cbn [leading]. destruct (x =? c) eqn:Hx.
  - apply Z.eqb_eq in Hx as ->. exists r. split; [|done]. cbn. by rewrite <-E.
  - exists (x :: l). split; [done|]. intros [= ->]. by rewrite Z.eqb_refl in Hx.
Qed.

Lemma leading_replicate c k l : head l <> Some c -> leading c (replicate k c ++ l) = k.
Proof.
  intros Hl. induction k as [|k IH]; cbn [replicate app leading].
  - destruct l as [|x l]; [done|]. cbn. destruct (x =? c) eqn:Hx; [|done]. apply Z.eqb_eq in Hx as ->. done.
  - by rewrite Z.eqb_refl, IH.
Qed.

Lemma be_get_zeros k l : be_get (replicate k 0 ++ l) = be_get l.
Proof. induction k as [|k IH]; [done|]. cbn [replicate app]. rewrite be_get_cons. lia. Qed.

(** A number gives back its bytes when the first is not zero. *)
Lemma int_bytes_be_get l : bytes_ok l -> head l <> Some 0 -> int_bytes (be_get l) = l.
Proof.
  intros Hok Hl. destruct l as [|b l]; [done|]. assert (b <> 0) as Hb by (intros ->; done).
  inversion_clear Hok as [|? ? Hb8 Hok']. unfold is_byte in Hb8.
  pose proof (be_get_range l Hok') as Hr. rewrite <-(be_put_get (b :: l)) at 2 by by constructor.
  unfold int_bytes. f_equal. pose proof (zlen_nonneg l).
  assert (0 < 256 ^ zlen l) by (apply Z.pow_pos_nonneg; lia).
  assert (256 ^ zlen l <= be_get (b :: l) < 256 ^ (zlen l + 1)) as HV.
  { rewrite be_get_cons, Z.pow_add_r by lia. change (256 ^ 1) with 256. nia. }
  destruct (byte_len_spec (be_get (b :: l))) as [Hlen Hpos]; [lia|].
  set (n := byte_len (be_get (b :: l))) in *.
  assert (Z.of_nat n - 1 < zlen l + 1) by (apply (Z.pow_lt_mono_r_iff 256); lia).
  assert (zlen l < Z.of_nat n) by (apply (Z.pow_lt_mono_r_iff 256); lia).
  unfold zlen in *. cbn [length]. lia.
Qed.

Lemma b58_value_ones k l : b58_value (replicate k alphabetIdx0 ++ l) = b58_value l.
Proof.
  unfold b58_value. rewrite foldl_app. f_equal. induction k as [|k IH]; [done|].
  cbn [replicate foldl]. exact IH.
Qed.

Lemma b58_digits_head f x : 0 <= x < 58 ^ Z.of_nat f -> head (reverse (b58_digits f x)) <> Some alphabetIdx0.
Proof.
  revert x. induction f as [|f IH]; intros x Hx; cbn [b58_digits]; [done|].
  destruct (0 <? x) eqn:Hp; [|done]. rewrite reverse_cons. fold (b58_char (x mod 58)).
  rewrite Nat2Z.inj_succ, Z.pow_succ_r in Hx by lia.
  specialize (IH (x / 58) ltac:(split; [apply Z.div_pos; lia|apply Z.div_lt_upper_bound; lia])).
  destruct (reverse (b58_digits f (x / 58))) as [|c l] eqn:E; [|done]. cbn. intros [= Hc].
  assert (x / 58 = 0) as Hz.
  { pose proof (b58_value_digits f (x / 58) ltac:(split; [apply Z.div_pos; lia|apply Z.div_lt_upper_bound; lia])) as Hv.
    rewrite E in Hv. by injection Hv. }
  pose proof (Z.div_mod x 58 ltac:(lia)). pose proof (Z.mod_pos_bound x 58 ltac:(lia)).
  pose proof (b58_b58_char (x mod 58) ltac:(lia)) as Hd. rewrite Hc in Hd. change (b58 alphabetIdx0) with (Some 0) in Hd. injection Hd as Hd.
  apply Z.ltb_lt in Hp. lia.
Qed.

Lemma b58_Decode_Encode b : bytes_ok b -> b58_Decode (b58_Encode b) = b.
Proof.
  intros Hok. unfold b58_Decode, b58_Encode. destruct (leading_split 0 b) as (r & Hb & Hr).
  assert (bytes_ok r) as Hr' by (rewrite Hb in Hok; by apply Forall_app in Hok as [_ ?]).
  assert (be_get b = be_get r) as Hg by (rewrite Hb; apply be_get_zeros). rewrite Hg.
  pose proof (be_get_range r Hr') as [H0 _]. pose proof (conj H0 (log2_fuel _ H0)) as Hf.
  rewrite b58_value_ones, b58_value_digits by done.
  rewrite leading_replicate by by apply b58_digits_head. by rewrite int_bytes_be_get, <-Hb.
Qed.

(** With its checksum. *)
Lemma CheckDecode_CheckEncode input version : bytes_ok input -> is_byte version ->
  CheckDecode (CheckEncode input version) = Ret (input, version).
Proof.
  intros Hok Hv. assert (length (b58_checksum (version :: input)) = 4%nat) as Hl.
  { unfold b58_checksum. rewrite length_take. pose proof (sha256_length (sha256 (version :: input))) as H. unfold zlen in H. lia. }
  assert (bytes_ok (b58_checksum (version :: input))) as Hc by (apply Forall_take, sha256_ok).
  unfold CheckDecode, CheckEncode. rewrite b58_Decode_Encode by (apply Forall_app; split; [by constructor|done]).
  set (b := version :: input) in *. set (ck := b58_checksum b) in *.
  assert (length (b ++ ck) = length b + 4)%nat as Hn by (rewrite length_app; lia).
  rewrite (proj2 (Z.ltb_ge _ 5)) by (unfold zlen; rewrite Hn; cbn [b length]; lia).
  replace (length (b ++ ck) - 4)%nat with (length b) by lia.
  rewrite take_app_length, drop_app_length. by rewrite bool_decide_true.
Qed.

(** ** Addresses *)

(** The first character of an address that does not start with a zero byte:
    [lo] and [hi] bound it for every hash. *)
Lemma CheckEncode_first h version k lo hi : bytes_ok h -> zlen h = 20 -> 0 < version < 256 ->
  58 ^ Z.of_nat k * lo <= version * 256 ^ 24 -> (version + 1) * 256 ^ 24 <= 58 ^ Z.of_nat k * hi ->
  0 < lo -> hi <= 58 ->
  exists d l, lo <= d < hi /\ length l = k /\ CheckEncode h version = b58_char d :: l.
Proof.
  intros Hok Hh Hv Hlo Hhi Hl Hu. set (b := (version :: h) ++ b58_checksum (version :: h)).
  assert (bytes_ok (h ++ b58_checksum (version :: h))) as Hb
    by (apply Forall_app; split; [done|apply Forall_take, sha256_ok]).
  assert (zlen (h ++ b58_checksum (version :: h)) = 24) as H24.
  { unfold b58_checksum, zlen in *. rewrite length_app, length_take.
    pose proof (sha256_length (sha256 (version :: h))) as H. unfold zlen in H. lia. }
  pose proof (be_get_range _ Hb) as Hr. rewrite H24 in Hr.
  assert (be_get b = version * 256 ^ 24 + be_get (h ++ b58_checksum (version :: h))) as Hg.
  { unfold b. cbn [app]. by rewrite be_get_cons, H24. }
  pose proof (Z.pow_pos_nonneg 58 (Z.of_nat k) ltac:(lia) ltac:(lia)) as Hp.
  assert (lo <= be_get b / 58 ^ Z.of_nat k < hi) as Hd.
  { split; [apply Z.div_le_lower_bound; lia|apply Z.div_lt_upper_bound; lia]. }
  destruct (b58_digits_top k (be_get b)) as (l & Hlen & E).
  { rewrite Nat2Z.inj_succ, Z.pow_succ_r by lia. nia. }
  exists (be_get b / 58 ^ Z.of_nat k), l. split; [done|]. split; [done|].
  unfold CheckEncode. fold b. unfold b58_Encode. rewrite E. unfold b at 1. cbn [app leading].
  by rewrite (proj2 (Z.eqb_neq version 0)) by lia.
Qed.

Lemma b58_digits_length f x n : x < 58 ^ Z.of_nat n -> (length (b58_digits f x) <= n)%nat.
Proof.
  revert x n. induction f as [|f IH]; intros x n Hx; cbn [b58_digits length]; [lia|].
  destruct (0 <? x) eqn:Hp; cbn [length]; [|lia]. apply Z.ltb_lt in Hp.
  destruct n as [|n]; [change (58 ^ Z.of_nat 0) with 1 in Hx; lia|].
  rewrite Nat2Z.inj_succ, Z.pow_succ_r in Hx by lia.
  apply le_n_S, IH, Z.div_lt_upper_bound; lia.
Qed.

(** The address of a zero version byte starts with the digit 1. *)
Lemma CheckEncode_zero h : bytes_ok h -> zlen h = 20 ->
  exists l, CheckEncode h 0 = 49 :: l /\ zlen (49 :: l) < 66.
Proof.
  intros Hok Hh. unfold CheckEncode, b58_Encode. set (b := (0 :: h) ++ b58_checksum (0 :: h)).
  set (ds := b58_digits _ (be_get b)).
  exists (replicate (leading 0 (h ++ b58_checksum (0 :: h))) alphabetIdx0 ++ reverse ds).
  split; [unfold b at 1; reflexivity|].
  assert (zlen (b58_checksum (0 :: h)) = 4) as H4.
  { unfold b58_checksum, zlen. rewrite length_take. pose proof (sha256_length (sha256 (0 :: h))) as H. unfold zlen in H. lia. }
  assert (bytes_ok (h ++ b58_checksum (0 :: h))) as Hb by (apply Forall_app; split; [done|apply Forall_take, sha256_ok]).
  pose proof (be_get_range _ Hb) as Hr. rewrite zlen_app, Hh, H4 in Hr.
  assert (length ds <= 34)%nat as Hd.
  { apply b58_digits_length. unfold b. cbn [app]. rewrite be_get_cons. apply Z.lt_trans with (256 ^ (20 + 4)); [lia|done]. }
  assert (Z.of_nat (leading 0 (h ++ b58_checksum (0 :: h))) <= 24) as Hz.
  { destruct (leading_split 0 (h ++ b58_checksum (0 :: h))) as (r & E & _). apply (f_equal zlen) in E.
    rewrite !zlen_app, Hh, H4 in E. unfold zlen in E. rewrite length_replicate in E. lia. }
  unfold zlen. cbn [length]. rewrite length_app, length_replicate, length_reverse. lia.
Qed.

(** Text that does not start like a segregated witness address and is shorter
    than a public key is base58. *)
Definition plain_first (c : Z) : bool := negb (existsb (Z.eqb c) [66; 98; 84; 116; 83; 115]).

Lemma plain_prefix c l : plain_first c = true -> IsBech32SegwitPrefix (c :: l) = false.
Proof.
  intros Hc. unfold IsBech32SegwitPrefix. apply bool_decide_eq_false. cbn [ToLower map].
  set (d := if (65 <=? c) && (c <=? 90) then c + 32 else c).
  assert (d <> 98 /\ d <> 116 /\ d <> 115) as (H1 & H2 & H3).
  { unfold plain_first in Hc. cbn [existsb] in Hc. unfold d. destruct ((65 <=? c) && (c <=? 90)) eqn:E;
      rewrite !negb_orb in Hc; repeat (apply andb_true_iff in Hc as [? Hc]);
      repeat match goal with H : negb (_ =? _) = true |- _ => apply negb_true_iff, Z.eqb_neq in H end; lia. }
  intros Hin. assert (Forall (fun s => In (default 0 (head s)) [98; 116; 115])
    (map bytes_of_string ["bc1"; "tb1"; "bcrt1"; "sb1"]%string)) as HF by (cbn [map]; repeat (apply Forall_cons; split; [vm_compute; repeat first [left; reflexivity|right]|]); constructor).
  rewrite Forall_forall in HF. specialize (HF _ Hin). destruct HF as [HF|[HF|[HF|[]]]]; cbn in HF; congruence.
Qed.

Lemma DecodeAddress_plain c l net : plain_first c = true -> zlen (c :: l) < 66 ->
  DecodeAddress (c :: l) net = decode_base58 (c :: l) net.
Proof.
  intros Hc Hl. unfold DecodeAddress.
  assert (forall n, (1 <? n)%nat && IsBech32SegwitPrefix (take (S n) (c :: l)) = false) as Hp
    by (intros n; cbn [take]; rewrite plain_prefix by done; apply andb_false_r).
  assert (((zlen (c :: l) =? 130) || (zlen (c :: l) =? 66)) = false) as Hk
    by (apply orb_false_iff; split; apply Z.eqb_neq; lia).
  destruct (LastIndexByte (c :: l) 49) as [n|]; rewrite ?Hp, Hk; done.
Qed.

Definition networks : list Params := [MainNetParams; TestNet3Params].

(** The hash addresses of a network. *)
Definition hash_address (net : Params) (a : Address) : Prop :=
  exists h, bytes_ok h /\ zlen h = 20 /\
    (a = AddressPubKeyHash h (PubKeyHashAddrID net) \/ a = AddressScriptHash h (ScriptHashAddrID net)).

Ltac closed := first [assumption|by apply Nat.ltb_lt|by vm_compute|vm_compute; split; reflexivity|vm_compute; discriminate].

(** Their text is read by the base58 branch. *)
Lemma hash_address_text net a other : In net networks -> hash_address net a ->
  DecodeAddress (EncodeAddress a) other = decode_base58 (EncodeAddress a) other.
Proof.
  assert (forall h version k lo hi, bytes_ok h -> zlen h = 20 -> 0 < version < 256 ->
    58 ^ Z.of_nat k * lo <= version * 256 ^ 24 -> (version + 1) * 256 ^ 24 <= 58 ^ Z.of_nat k * hi ->
    0 < lo -> hi <= 58 -> (k < 65)%nat ->
    forallb (fun n => plain_first (b58_char (Z.of_nat n))) (seq (Z.to_nat lo) (Z.to_nat (hi - lo))) = true ->
    DecodeAddress (CheckEncode h version) other = decode_base58 (CheckEncode h version) other) as Hgen.
  { intros h version k lo hi Hok Hh Hv Hlo Hhi Hl Hu Hk Hf.
    destruct (CheckEncode_first h version k lo hi) as (d & l & Hd & Hlen & ->); try done.
    apply DecodeAddress_plain; [|unfold zlen; cbn [length]; lia].
    rewrite forallb_forall in Hf. specialize (Hf (Z.to_nat d) ltac:(apply in_seq; lia)).
    by rewrite Z2Nat.id in Hf by lia. }
  intros Hnet (h & Hok & Hh & Ha).
  assert (take 20 h = h) as Ht by (apply take_ge; unfold zlen in Hh; lia).
  destruct Hnet as [<-|[<-|[]]], Ha as [->| ->]; cbn [EncodeAddress]; unfold encodeAddress; rewrite Ht.
  - change (PubKeyHashAddrID MainNetParams) with 0. destruct (CheckEncode_zero h Hok Hh) as (l & -> & Hl).
    by apply DecodeAddress_plain.
  - apply (Hgen h _ 33%nat 2 3); closed.
  - apply (Hgen h _ 33%nat 44 46); closed.
  - apply (Hgen h _ 34%nat 1 2); closed.
Qed.

(** ** Addresses that are decoded *)

Lemma b58_Decode_ok s : bytes_ok (b58_Decode s).
Proof.
  unfold b58_Decode. destruct (b58_value s); [|constructor].
  apply Forall_app; split; [apply Forall_replicate; unfold is_byte; lia|apply int_bytes_ok].
Qed.

Lemma CheckDecode_ok s d v : CheckDecode s = Ret (d, v) -> bytes_ok d.
Proof.
  unfold CheckDecode. destruct (_ <? 5); [done|]. destruct (negb _); [done|].
  pose proof (Forall_take _ (length (b58_Decode s) - 4) _ (b58_Decode_ok s)) as H.
  destruct (take _ _) as [|x l]; [done|]. intros [= <- _]. by inversion_clear H.
Qed.

(** A public key hash that is decoded has the type of one, and the network's
    number. *)
Lemma decoded_P2PKH s net h id : DecodeAddress s (Some net) = Ret (AddressPubKeyHash h id) ->
  id = PubKeyHashAddrID net /\ bytes_ok h /\ zlen h = 20.
Proof.
  unfold DecodeAddress. cbv zeta.
  destruct (match LastIndexByte s 49 with Some _ => _ | None => _ end) as [hrp|].
  { unfold decode_witness. destruct (decodeSegWitAddress s) as [[v p]|e|e]; [|done..].
    cbn [mbind outcome_bind guard_err]. destruct (negb (v =? 0)); [done|]. cbn [mbind outcome_bind guard_err].
    unfold newAddressWitnessPubKeyHash, newAddressWitnessScriptHash. by repeat case_match. }
  destruct (_ || _).
  { destruct (hex_decode s) as [k|e|e]; [|done..]. cbn [mbind outcome_bind]. unfold NewAddressPubKey.
    destruct (ParsePubKey k) as [[X Y]|e|e]; [|done..]. cbn [mbind outcome_bind]. by repeat case_match. }
  unfold decode_base58. destruct (CheckDecode s) as [[d i]|e|e] eqn:Hd; [|by destruct (is_ErrChecksum e)..].
  apply CheckDecode_ok in Hd. destruct (zlen d =? 20) eqn:H20; [|done].
  unfold newAddressPubKeyHash, newAddressScriptHashFromHash. rewrite H20. cbn [negb].
  apply Z.eqb_eq in H20. destruct (i =? PubKeyHashAddrID net) eqn:Hi; [|by repeat case_match].
  apply Z.eqb_eq in Hi as ->. cbn [andb]. destruct (_ =? ScriptHashAddrID net); [done|]. by intros [= <- <-].
Qed.

(** The decoder on the text of a hash address. *)
Lemma decode_hash_text h id n : bytes_ok h -> zlen h = 20 -> is_byte id ->
  decode_base58 (encodeAddress h id) n = match n with
    | None => Panic (ErrNew "nil pointer dereference")
    | Some net =>
        if (id =? PubKeyHashAddrID net) && (id =? ScriptHashAddrID net) then Fail ErrAddressCollision
        else if id =? PubKeyHashAddrID net then Ret (AddressPubKeyHash h id)
        else if id =? ScriptHashAddrID net then Ret (AddressScriptHash h id) else Fail ErrUnknownAddressType
    end.
Proof.
  intros Hok Hh Hid. unfold encodeAddress. rewrite take_ge by (unfold zlen in Hh; lia).
  unfold decode_base58. rewrite CheckDecode_CheckEncode by done. rewrite Hh. cbn [Z.eqb Pos.eqb].
  unfold newAddressPubKeyHash, newAddressScriptHashFromHash. by rewrite Hh.
Qed.

Lemma hash_address_nil net a : In net networks -> hash_address net a ->
  decode_base58 (EncodeAddress a) None = Panic (ErrNew "nil pointer dereference").
Proof.
  intros Hnet (h & Hok & Hh & [->| ->]); cbn [EncodeAddress]; rewrite decode_hash_text; try done;
    destruct Hnet as [<-|[<-|[]]]; unfold is_byte; cbn; lia.
Qed.


