(* ===== verification/Wire.v ===== *)
(** * Bitcoin transactions and their wire format

    The vendored [btcsuite/btcd/wire]: [MsgTx] and its serialization
    ([msgtx.go]), compact integers ([common.go]), and the transaction hash.
    A reader is a function from the bytes left to a value and the bytes left;
    writing cannot fail (the code writes to memory buffers only).  The free
    lists of buffers are not modelled. *)

From S2P Require Import Prelude Sha256 Script.

(** ** Data *)

Record OutPoint := mkOutPoint { Hash : bytes; Index : Z }.

Record TxIn := mkTxIn {
  PreviousOutPoint : OutPoint;
  SignatureScript : bytes;
  Witness : list bytes;
  Sequence : Z
}.

Record TxOut := mkTxOut { Value : Z; PkScript : bytes }.

Record MsgTx := mkMsgTx {
  Version : Z;
  TxIns : list TxIn;
  TxOuts : list TxOut;
  TxLockTime : Z
}.

#[global] Instance OutPoint_eq_dec : EqDecision OutPoint.
Proof. solve_decision. Defined.
#[global] Instance TxIn_eq_dec : EqDecision TxIn.
Proof. solve_decision. Defined.
#[global] Instance TxOut_eq_dec : EqDecision TxOut.
Proof. solve_decision. Defined.
#[global] Instance MsgTx_eq_dec : EqDecision MsgTx.
Proof. solve_decision. Defined.

Definition MaxTxInSequenceNum : Z := 0xffffffff.
Definition MaxMessagePayload : Z := 1024 * 1024 * 32.
Definition maxTxInPerMessage : Z := MaxMessagePayload / 41 + 1.
Definition maxTxOutPerMessage : Z := MaxMessagePayload / 9 + 1.
Definition maxWitnessItemsPerInput : Z := 500000.
Definition maxWitnessItemSize : Z := 11000.

Definition NewTxIn (prevOut : OutPoint) (signatureScript : bytes) (witness : list bytes) : TxIn :=
  mkTxIn prevOut signatureScript witness MaxTxInSequenceNum.
Definition NewTxOut (value : Z) (pkScript : bytes) : TxOut := mkTxOut value pkScript.
Definition NewMsgTx (version : Z) : MsgTx := mkMsgTx version [] [] 0.
Definition AddTxIn (msg : MsgTx) (ti : TxIn) : MsgTx :=
  mkMsgTx (Version msg) (TxIns msg ++ [ti]) (TxOuts msg) (TxLockTime msg).
Definition AddTxOut (msg : MsgTx) (to : TxOut) : MsgTx :=
  mkMsgTx (Version msg) (TxIns msg) (TxOuts msg ++ [to]) (TxLockTime msg).

(** ** Writing *)

Definition WriteVarInt (val : Z) : bytes :=
  if val <? 0xfd then le_put 1 val
  else if val <=? 0xffff then 0xfd :: le_put 2 val
  else if val <=? 0xffffffff then 0xfe :: le_put 4 val
  else 0xff :: le_put 8 val.

Definition VarIntSerializeSize (val : Z) : Z :=
  if val <? 0xfd then 1
  else if val <=? 0xffff then 3
  else if val <=? 0xffffffff then 5
  else 9.

Definition WriteVarBytes (b : bytes) : bytes := WriteVarInt (zlen b) ++ b.

Definition writeOutPoint (op : OutPoint) : bytes := Hash op ++ le_put 4 (Index op).

Definition writeTxIn (ti : TxIn) : bytes :=
  writeOutPoint (PreviousOutPoint ti) ++ WriteVarBytes (SignatureScript ti) ++ le_put 4 (Sequence ti).

Definition WriteTxOut (to : TxOut) : bytes :=
  le_put 8 (to_uint 64 (Value to)) ++ WriteVarBytes (PkScript to).

Definition writeTxWitness (wit : list bytes) : bytes :=
  WriteVarInt (zlen wit) ++ concat (map WriteVarBytes wit).

Definition HasWitness (msg : MsgTx) : bool :=
  existsb (fun ti => negb (zlen (Witness ti) =? 0)) (TxIns msg).

(** [BtcEncode]; the flag says whether [enc] is [WitnessEncoding]. *)
Definition BtcEncode (witnessEncoding : bool) (msg : MsgTx) : bytes :=
  let doWitness := witnessEncoding && HasWitness msg in
  le_put 4 (to_uint 32 (Version msg)) ++
  (if doWitness then [0x00; 0x01] else []) ++
  WriteVarInt (zlen (TxIns msg)) ++ concat (map writeTxIn (TxIns msg)) ++
  WriteVarInt (zlen (TxOuts msg)) ++ concat (map WriteTxOut (TxOuts msg)) ++
  (if doWitness then concat (map (fun ti => writeTxWitness (Witness ti)) (TxIns msg)) else []) ++
  le_put 4 (TxLockTime msg).

Definition Serialize (msg : MsgTx) : bytes := BtcEncode true msg.
Definition SerializeNoWitness (msg : MsgTx) : bytes := BtcEncode false msg.

Definition DoubleHashH (b : bytes) : bytes := sha256 (sha256 b).

Definition TxHash (msg : MsgTx) : bytes := DoubleHashH (SerializeNoWitness msg).

(** ** Sizes *)

Definition sumZ (l : list Z) : Z := foldr Z.add 0 l.

Definition TxIn_SerializeSize (t : TxIn) : Z :=
  40 + VarIntSerializeSize (zlen (SignatureScript t)) + zlen (SignatureScript t).

Definition TxOut_SerializeSize (t : TxOut) : Z :=
  8 + VarIntSerializeSize (zlen (PkScript t)) + zlen (PkScript t).

Definition TxWitness_SerializeSize (t : list bytes) : Z :=
  VarIntSerializeSize (zlen t) +
  sumZ (map (fun i => VarIntSerializeSize (zlen i) + zlen i) t).

Definition baseSize (msg : MsgTx) : Z :=
  8 + VarIntSerializeSize (zlen (TxIns msg)) + VarIntSerializeSize (zlen (TxOuts msg)) +
  sumZ (map TxIn_SerializeSize (TxIns msg)) + sumZ (map TxOut_SerializeSize (TxOuts msg)).

Definition SerializeSize (msg : MsgTx) : Z :=
  baseSize msg +
  (if HasWitness msg
   then 2 + sumZ (map (fun ti => TxWitness_SerializeSize (Witness ti)) (TxIns msg)) else 0).

(** ** Reading *)

Definition reader (A : Type) : Type := bytes -> outcome (A * bytes).

#[global] Instance reader_ret : MRet reader := fun A a s => Ret (a, s).
#[global] Instance reader_bind : MBind reader := fun A B f m s =>
  match m s with Ret (a, s') => f a s' | Fail e => Fail e | Panic e => Panic e end.

Definition rfail {A} (e : error) : reader A := fun _ => Fail e.

Definition EOF : error := ErrNew "EOF".
Definition ErrUnexpectedEOF : error := ErrNew "unexpected EOF".

(** [io.ReadFull] into a buffer of [n] bytes. *)
Definition ReadFull (n : Z) : reader bytes := fun s =>
  if zlen s <? n then Fail (if zlen s =? 0 then EOF else ErrUnexpectedEOF)
  else Ret (take (Z.to_nat n) s, drop (Z.to_nat n) s).

Definition read_uint (n : Z) : reader Z := b ← ReadFull n; mret (le_uint b).

Definition errNonCanonicalVarInt : error := ErrNew "non-canonical varint".

Definition read_varint_min (n min : Z) : reader Z :=
  rv ← read_uint n;
  if rv <? min then rfail errNonCanonicalVarInt else mret rv.

Definition ReadVarInt : reader Z :=
  discriminant ← read_uint 1;
  if discriminant =? 0xff then read_varint_min 8 0x100000000
  else if discriminant =? 0xfe then read_varint_min 4 0x10000
  else if discriminant =? 0xfd then read_varint_min 2 0xfd
  else mret discriminant.

Definition readScript (maxAllowed : Z) (fieldName : string) : reader bytes :=
  count ← ReadVarInt;
  if maxAllowed <? count
  then rfail (Errorf "%s is larger than the max allowed size [count %d, max %d]"
                [FStr fieldName; FInt count; FInt maxAllowed])
  else ReadFull count.

Definition readOutPoint : reader OutPoint :=
  h ← ReadFull 32; i ← read_uint 4; mret (mkOutPoint h i).

Definition readTxIn : reader TxIn :=
  op ← readOutPoint;
  s ← readScript MaxMessagePayload "transaction input signature script";
  seq ← read_uint 4;
  mret (mkTxIn op s [] seq).

Definition readTxOut : reader TxOut :=
  v ← read_uint 8;
  s ← readScript MaxMessagePayload "transaction output public key script";
  mret (mkTxOut (to_int 64 v) s).

(** [n] reads in sequence: the [for i < count] loops of [BtcDecode]. *)
Fixpoint read_n {A} (n : nat) (r : reader A) : reader (list A) :=
  match n with
  | O => mret []
  | S n' => a ← r; l ← read_n n' r; mret (a :: l)
  end.

Definition readTxWitness : reader (list bytes) :=
  witCount ← ReadVarInt;
  if maxWitnessItemsPerInput <? witCount
  then rfail (Errorf "too many witness items to fit into max message size [count %d, max %d]"
                [FInt witCount; FInt maxWitnessItemsPerInput])
  else read_n (Z.to_nat witCount) (readScript maxWitnessItemSize "script witness item").

(** The loop that reads the witness of each input. *)
Fixpoint read_witnesses (ins : list TxIn) : reader (list TxIn) :=
  match ins with
  | [] => mret []
  | ti :: ins' =>
      w ← readTxWitness;
      l ← read_witnesses ins';
      mret (mkTxIn (PreviousOutPoint ti) (SignatureScript ti) w (Sequence ti) :: l)
  end.

(** The input count of [BtcDecode]: a count of zero announces the flag byte
    of a transaction with witnesses and the actual count. *)
Definition readTxInCount : reader (Z * Z) :=
  count ← ReadVarInt;
  if count =? 0 then
    flag ← read_uint 1;
    if negb (flag =? 0x01)
    then rfail (Errorf "witness tx but flag byte is %x" [FInt flag])
    else c ← ReadVarInt; mret (flag, c)
  else mret (0, count).

(** [BtcDecode] with [WitnessEncoding]. *)
Definition Deserialize : reader MsgTx :=
  version ← read_uint 4;
  '(flag, count) ← readTxInCount;
  if maxTxInPerMessage <? count
  then rfail (Errorf "too many input transactions to fit into max message size [count %d, max %d]"
                [FInt count; FInt maxTxInPerMessage])
  else
    ins ← read_n (Z.to_nat count) readTxIn;
    count ← ReadVarInt;
    if maxTxOutPerMessage <? count
    then rfail (Errorf "too many output transactions to fit into max message size [count %d, max %d]"
                  [FInt count; FInt maxTxOutPerMessage])
    else
      outs ← read_n (Z.to_nat count) readTxOut;
      ins ← (if negb (flag =? 0) then read_witnesses ins else mret ins);
      locktime ← read_uint 4;
      mret (mkMsgTx (to_int 32 version) ins outs locktime).

(** ** Well-formed transactions

    What the Go types guarantee (widths, 32-byte hashes), and the limits of
    the decoder. *)

Definition script_ok (max : Z) (b : bytes) : Prop := bytes_ok b /\ zlen b <= max.

Definition txin_ok (ti : TxIn) : Prop :=
  zlen (Hash (PreviousOutPoint ti)) = 32 /\ bytes_ok (Hash (PreviousOutPoint ti)) /\
  is_uint 32 (Index (PreviousOutPoint ti)) /\
  script_ok MaxMessagePayload (SignatureScript ti) /\ is_uint 32 (Sequence ti) /\
  zlen (Witness ti) <= maxWitnessItemsPerInput /\
  Forall (script_ok maxWitnessItemSize) (Witness ti).

Definition txout_ok (to : TxOut) : Prop :=
  is_int 64 (Value to) /\ script_ok MaxMessagePayload (PkScript to).

Definition tx_ok (m : MsgTx) : Prop :=
  is_int 32 (Version m) /\ is_uint 32 (TxLockTime m) /\
  Forall txin_ok (TxIns m) /\ 0 < zlen (TxIns m) <= maxTxInPerMessage /\
  Forall txout_ok (TxOuts m) /\ zlen (TxOuts m) <= maxTxOutPerMessage.
