(* ===== verification/WireTheorems.v ===== *)
(** * Serialization of Bitcoin transactions: sizes and round trip

    [SerializeSize] is the length of what [Serialize] writes, and
    [Deserialize] reads back the transaction that was written.  [reads r b a]
    says that the reader [r] consumes exactly the bytes [b] and returns [a];
    it composes along the monad, and the proofs follow the format. *)

From S2P Require Import Prelude Sha256 Script ScriptFacts Wire Vectors.

Definition reads {A} (r : reader A) (b : bytes) (a : A) : Prop :=
  forall rest, r (b ++ rest) = Ret (a, rest).

Create HintDb reads discriminated.

Lemma reads_ret {A} (a : A) : reads (mret a) [] a.
Proof. done. Qed.

Lemma reads_bind {A B} (m : reader A) (f : A -> reader B) b1 b2 a c :
  reads m b1 a -> reads (f a) b2 c -> reads (m ≫= f) (b1 ++ b2) c.
Proof.
  intros H1 H2 rest. unfold mbind, reader_bind. rewrite <- app_assoc, H1. apply H2.
Qed.

Lemma reads_bind_ret {A B} (m : reader A) (f : A -> reader B) b a c :
  reads m b a -> reads (f a) [] c -> reads (m ≫= f) b c.
Proof. intros H1 H2. rewrite <- (app_nil_r b). by eapply reads_bind. Qed.

Lemma reads_ReadFull b n : zlen b = n -> reads (ReadFull n) b b.
Proof.
  intros <- rest. unfold ReadFull. rewrite zlen_app. pose proof (zlen_nonneg rest).
  destruct (Z.ltb_spec (zlen b + zlen rest) (zlen b)); [lia|].
  by rewrite take_zlen_app, drop_zlen_app.
Qed.

Lemma reads_uint n z : 0 <= z < 256 ^ Z.of_nat n -> reads (read_uint (Z.of_nat n)) (le_put n z) z.
Proof.
  intros Hz. unfold read_uint. eapply reads_bind_ret.
  - apply reads_ReadFull. unfold zlen. by rewrite le_put_length.
  - rewrite le_uint_put by done. apply reads_ret.
Qed.

Lemma reads_u8 z : 0 <= z < 256 -> reads (read_uint 1) [z] z.
Proof.
  intros Hz. replace [z] with (le_put 1 z); [by apply (reads_uint 1)|].
  simpl. f_equal. change 255 with (Z.ones 8). rewrite Z.land_ones, Z.mod_small by lia. done.
Qed.
Lemma reads_u32 z : is_uint 32 z -> reads (read_uint 4) (le_put 4 z) z.
Proof. apply (reads_uint 4). Qed.
Lemma reads_u64 z : is_uint 64 z -> reads (read_uint 8) (le_put 8 z) z.
Proof. apply (reads_uint 8). Qed.

Lemma reads_varint_min n min z :
  min <= z < 256 ^ Z.of_nat n -> 0 <= min -> reads (read_varint_min (Z.of_nat n) min) (le_put n z) z.
Proof.
  intros Hz Hm. unfold read_varint_min. eapply reads_bind_ret; [apply reads_uint; lia|].
  destruct (Z.ltb_spec z min); [lia|]. apply reads_ret.
Qed.

(** Compact integers round trip. *)
Lemma reads_varint z : is_uint 64 z -> reads ReadVarInt (WriteVarInt z) z.
Proof.
  intros Hz. unfold is_uint in Hz. change (2 ^ 64) with 18446744073709551616 in Hz.
  unfold WriteVarInt, ReadVarInt.
  destruct (Z.ltb_spec z 0xfd).
  { assert (le_put 1 z = [z]) as ->.
    { simpl. f_equal. change 255 with (Z.ones 8). rewrite Z.land_ones, Z.mod_small by lia. done. }
    eapply reads_bind_ret; [apply reads_u8; lia|].
    destruct (Z.eqb_spec z 0xff), (Z.eqb_spec z 0xfe), (Z.eqb_spec z 0xfd); try lia. apply reads_ret. }
  destruct (Z.leb_spec z 0xffff);
    [|destruct (Z.leb_spec z 0xffffffff)].
  all: match goal with |- reads _ (?d :: _) _ => eapply (reads_bind _ _ [d]); [apply reads_u8; lia|simpl] end.
  - apply (reads_varint_min 2); lia.
  - apply (reads_varint_min 4); lia.
  - apply (reads_varint_min 8); lia.
Qed.

#[export] Hint Resolve reads_u32 reads_u64 reads_varint reads_ret : reads.

Lemma reads_script max name b :
  script_ok max b -> max < 2 ^ 64 -> reads (readScript max name) (WriteVarBytes b) b.
Proof.
  intros [Hb Hl] Hm. pose proof (zlen_nonneg b). unfold readScript, WriteVarBytes.
  eapply reads_bind; [apply reads_varint; unfold is_uint; lia|].
  destruct (Z.ltb_spec max (zlen b)); [lia|]. by apply reads_ReadFull.
Qed.

Lemma reads_n {A} (r : reader A) (w : A -> bytes) (l : list A) (a' : A -> A) :
  Forall (fun a => reads r (w a) (a' a)) l ->
  reads (read_n (length l) r) (concat (map w l)) (map a' l).
Proof.
  induction 1 as [|a l Ha _ IH]; simpl; [apply reads_ret|].
  eapply reads_bind; [done|]. eapply reads_bind_ret; [done|apply reads_ret].
Qed.

(** The input as the first pass reads it: without its witness. *)
Definition strip (ti : TxIn) : TxIn :=
  mkTxIn (PreviousOutPoint ti) (SignatureScript ti) [] (Sequence ti).

Lemma reads_txin ti : txin_ok ti -> reads readTxIn (writeTxIn ti) (strip ti).
Proof.
  intros (Hh&_&Hi&Hs&Hq&_). unfold readTxIn, writeTxIn, writeOutPoint, readOutPoint.
  eapply reads_bind.
  - eapply reads_bind; [by apply reads_ReadFull|]. eapply reads_bind_ret; [by apply reads_u32|apply reads_ret].
  - eapply reads_bind; [by apply reads_script|].
    eapply reads_bind_ret; [by apply reads_u32|]. destruct ti as [[h i] s w q]. apply reads_ret.
Qed.

Lemma to_int_to_uint w z : 0 < w -> is_int w z -> to_int w (to_uint w z) = z.
Proof.
  intros Hw Hz. unfold to_int, to_uint. rewrite Zplus_mod_idemp_l.
  change ((z + 2 ^ (w - 1)) mod 2 ^ w - 2 ^ (w - 1)) with (to_int w z). by apply to_int_id.
Qed.

Lemma reads_txout o : txout_ok o -> reads readTxOut (WriteTxOut o) o.
Proof.
  intros [Hv Hs]. unfold readTxOut, WriteTxOut.
  eapply reads_bind; [apply reads_u64, to_uint_range; lia|].
  eapply reads_bind_ret; [by apply reads_script|].
  rewrite to_int_to_uint by (done || lia). destruct o. apply reads_ret.
Qed.

Lemma reads_witness wit :
  zlen wit <= maxWitnessItemsPerInput -> Forall (script_ok maxWitnessItemSize) wit ->
  reads readTxWitness (writeTxWitness wit) wit.
Proof.
  intros Hl Hf. pose proof (zlen_nonneg wit). unfold readTxWitness, writeTxWitness, maxWitnessItemsPerInput in *.
  eapply reads_bind; [apply reads_varint; unfold is_uint; lia|].
  destruct (Z.ltb_spec 500000 (zlen wit)); [lia|]. unfold zlen at 1. rewrite Nat2Z.id.
  pose proof (reads_n (readScript maxWitnessItemSize "script witness item") WriteVarBytes wit id) as Hn.
  rewrite list_fmap_id in Hn. apply Hn. eapply Forall_impl; [exact Hf|].
  intros b Hb. by apply reads_script.
Qed.

Lemma reads_witnesses ins :
  Forall txin_ok ins ->
  reads (read_witnesses (map strip ins)) (concat (map (fun ti => writeTxWitness (Witness ti)) ins)) ins.
Proof.
  induction 1 as [|ti l Ht _ IH]; simpl; [apply reads_ret|].
  destruct Ht as (_&_&_&_&_&Hl&Hf).
  eapply reads_bind; [by apply reads_witness|]. eapply reads_bind_ret; [done|].
  destruct ti as [op s w q]. apply reads_ret.
Qed.

Lemma strip_no_witness ins :
  existsb (fun ti => negb (zlen (Witness ti) =? 0)) ins = false -> map strip ins = ins.
Proof.
  induction ins as [|[op s w q] l IH]; simpl; [done|]. rewrite orb_false_iff, negb_false_iff, Z.eqb_eq.
  intros [->%zlen_0 Hl]. f_equal. auto.
Qed.

(** ** Sizes *)

Lemma WriteVarInt_length z : zlen (WriteVarInt z) = VarIntSerializeSize z.
Proof. unfold WriteVarInt, VarIntSerializeSize. by repeat case_match. Qed.

Lemma WriteVarBytes_length b : zlen (WriteVarBytes b) = VarIntSerializeSize (zlen b) + zlen b.
Proof. unfold WriteVarBytes. by rewrite zlen_app, WriteVarInt_length. Qed.

Lemma concat_length {A} (f : A -> bytes) (g : A -> Z) l :
  Forall (fun a => zlen (f a) = g a) l -> zlen (concat (map f l)) = sumZ (map g l).
Proof. induction 1 as [|a l Ha _ IH]; [done|]. simpl. rewrite zlen_app. lia. Qed.

Lemma le_put_zlen n z : zlen (le_put n z) = Z.of_nat n.
Proof. unfold zlen. by rewrite le_put_length. Qed.

#[export] Hint Rewrite WriteVarInt_length WriteVarBytes_length le_put_zlen : swap_len.

Lemma reads_count (w : bool) n :
  0 < n -> is_uint 64 n ->
  reads readTxInCount ((if w then [0; 1] else []) ++ WriteVarInt n) (if w then 1 else 0, n).
Proof.
  intros Hn Hu. unfold readTxInCount. destruct w; simpl app.
  - apply (reads_bind ReadVarInt _ [0] _ 0); [by apply (reads_varint 0)|]. simpl.
    apply (reads_bind _ _ [1] _ 1); [by apply reads_u8|]. simpl.
    eapply reads_bind_ret; [by apply reads_varint|apply reads_ret].
  - eapply reads_bind_ret; [by apply reads_varint|].
    destruct (Z.eqb_spec n 0); [lia|apply reads_ret].
Qed.

(** [SerializeSize] (the number shown as fee rate and used to grow the
    buffers) is the length of what [Serialize] writes, with and without
    witnesses; [baseSize] is the length without them. *)
Theorem SerializeSize_spec (m : MsgTx) :
  Forall (fun ti => zlen (Hash (PreviousOutPoint ti)) = 32) (TxIns m) ->
  zlen (Serialize m) = SerializeSize m /\ zlen (SerializeNoWitness m) = baseSize m.
Proof.
  intros Hh. unfold Serialize, SerializeNoWitness, BtcEncode, SerializeSize, baseSize.
  assert (zlen (concat (map writeTxIn (TxIns m))) = sumZ (map TxIn_SerializeSize (TxIns m))) as Hin.
  { apply concat_length. eapply Forall_impl; [exact Hh|]. intros ti Hti. simpl in Hti.
    unfold writeTxIn, writeOutPoint, TxIn_SerializeSize. autorewrite with swap_len. lia. }
  assert (zlen (concat (map WriteTxOut (TxOuts m))) = sumZ (map TxOut_SerializeSize (TxOuts m))) as Hout.
  { apply concat_length, Forall_true. intros o.
    unfold WriteTxOut, TxOut_SerializeSize. autorewrite with swap_len. lia. }
  assert (zlen (concat (map (fun ti => writeTxWitness (Witness ti)) (TxIns m))) =
          sumZ (map (fun ti => TxWitness_SerializeSize (Witness ti)) (TxIns m))) as Hw.
  { apply concat_length, Forall_true. intros ti.
    unfold writeTxWitness, TxWitness_SerializeSize. autorewrite with swap_len. f_equal.
    apply concat_length, Forall_true, WriteVarBytes_length. }
  simpl andb. destruct (HasWitness m); autorewrite with swap_len; rewrite Hin, Hout, ?Hw; lia.
Qed.

(** C33: [Deserialize] reads back the transaction [Serialize] wrote, witnesses
    included, and leaves the bytes that follow it, for every transaction with
    at least one input within the limits of the decoder.  (A transaction
    without inputs is written as one with the witness marker and is not read
    back.) *)
Theorem Deserialize_Serialize (m : MsgTx) (rest : bytes) :
  tx_ok m -> Deserialize (Serialize m ++ rest) = Ret (m, rest).
Proof.
  intros (Hv&Hlt&Hins&[Hn0 Hn]&Houts&Hm). revert rest. change (reads Deserialize (Serialize m) m).
  unfold Deserialize, Serialize, BtcEncode. pose proof (zlen_nonneg (TxOuts m)).
  assert (reads (read_n (Z.to_nat (zlen (TxIns m))) readTxIn) (concat (map writeTxIn (TxIns m)))
            (map strip (TxIns m))) as Rin.
  { unfold zlen. rewrite Nat2Z.id. apply reads_n. eapply Forall_impl; [exact Hins|]. apply reads_txin. }
  assert (reads (read_n (Z.to_nat (zlen (TxOuts m))) readTxOut) (concat (map WriteTxOut (TxOuts m)))
            (TxOuts m)) as Rout.
  { unfold zlen. rewrite Nat2Z.id. pose proof (reads_n readTxOut WriteTxOut (TxOuts m) id) as Hr.
    rewrite list_fmap_id in Hr. apply Hr. eapply Forall_impl; [exact Houts|]. apply reads_txout. }
  unfold maxTxInPerMessage, maxTxOutPerMessage in *. change (MaxMessagePayload / 41 + 1) with 818401 in *.
  change (MaxMessagePayload / 9 + 1) with 3728271 in *.
  assert (is_uint 64 (zlen (TxIns m)) /\ is_uint 64 (zlen (TxOuts m))) as [Hi Ho] by (unfold is_uint; lia).
  eapply reads_bind; [apply reads_u32, to_uint_range; lia|].
  rewrite app_assoc.
  eapply (reads_bind _ _ _ _ (if HasWitness m then 1 else 0, zlen (TxIns m))); [by apply reads_count|].
  destruct (Z.ltb_spec 818401 (zlen (TxIns m))); [lia|].
  eapply reads_bind; [done|]. eapply reads_bind; [by apply reads_varint|].
  destruct (Z.ltb_spec 3728271 (zlen (TxOuts m))); [lia|]. eapply reads_bind; [done|].
  eapply (reads_bind _ _ _ _ (TxIns m)).
  - destruct (HasWitness m) eqn:Hw; simpl; [by apply reads_witnesses|].
    unfold HasWitness in Hw. rewrite strip_no_witness by done. apply reads_ret.
  - eapply reads_bind_ret; [by apply reads_u32|].
    rewrite to_int_to_uint by (done || lia). destruct m. apply reads_ret.
Qed.

(** ** What is read has the types of the program *)

(** A reader of bytes gives a value with [P], and leaves bytes. *)
Definition yields {A} (P : A -> Prop) (r : reader A) : Prop :=
  forall s a s', bytes_ok s -> r s = Ret (a, s') -> P a /\ bytes_ok s'.

Lemma yields_bind {A B} (P : A -> Prop) (Q : B -> Prop) (m : reader A) (f : A -> reader B) :
  yields P m -> (forall a, P a -> yields Q (f a)) -> yields Q (m ≫= f).
Proof.
  intros Hm Hf s b s' Hs. unfold mbind, reader_bind. destruct (m s) as [[a s1]|e|e] eqn:E; [|done..].
  apply Hm in E as [Ha Hs1]; [|done]. by apply Hf.
Qed.
Lemma yields_ret {A} (P : A -> Prop) (a : A) : P a -> yields P (mret a).
Proof. by intros Ha s b s' Hs [= <- <-]. Qed.
Lemma yields_fail {A} (P : A -> Prop) e : yields P (rfail e : reader A).
Proof. done. Qed.
Lemma yields_weaken {A} (P Q : A -> Prop) r : yields P r -> (forall a, P a -> Q a) -> yields Q r.
Proof. intros Hr HQ s a s' Hs E. destruct (Hr s a s' Hs E). auto. Qed.

Lemma yields_ReadFull n : 0 <= n -> yields (fun b => bytes_ok b /\ zlen b = n) (ReadFull n).
Proof.
  intros Hn s b s' Hs. unfold ReadFull. destruct (Z.ltb_spec (zlen s) n); [done|]. intros [= <- <-].
  split; [|by apply Forall_drop]. split; [by apply Forall_take|].
  unfold zlen in *. rewrite length_take. lia.
Qed.

Lemma yields_uint n : 0 <= n -> yields (is_uint (8 * n)) (read_uint n).
Proof.
  intros Hn. eapply yields_bind; [by apply yields_ReadFull|]. intros b [Hb Hl]. apply yields_ret.
  pose proof (le_uint_bound b Hb) as H. rewrite Hl in H. unfold is_uint. by rewrite Z.pow_mul_r by lia.
Qed.

Lemma yields_varint : yields (fun n => 0 <= n) ReadVarInt.
Proof.
  eapply yields_bind; [by apply yields_uint|]. intros d Hd; cbn beta in *.
  assert (forall n m, 0 <= n -> yields (fun k => 0 <= k) (read_varint_min n m)) as Hmin.
  { intros n m Hn. eapply yields_bind; [by apply yields_uint|]. intros k [Hk _].
    destruct (k <? m); [apply yields_fail|by apply yields_ret]. }
  destruct (d =? 0xff); [by apply Hmin|]. destruct (d =? 0xfe); [by apply Hmin|].
  destruct (d =? 0xfd); [by apply Hmin|]. apply yields_ret, Hd.
Qed.

Lemma yields_script max name : yields (script_ok max) (readScript max name).
Proof.
  eapply yields_bind; [apply yields_varint|]. intros n Hn; cbn beta in *. destruct (Z.ltb_spec max n); [apply yields_fail|].
  eapply yields_weaken; [by apply yields_ReadFull|]. intros b [Hb Hl]. split; [done|lia].
Qed.

Lemma yields_n {A} (P : A -> Prop) n (r : reader A) : yields P r ->
  yields (fun l => Forall P l /\ zlen l = Z.of_nat n) (read_n n r).
Proof.
  intros Hr. induction n as [|n IH]; cbn [read_n]; [apply yields_ret; by split|].
  eapply yields_bind; [exact Hr|]. intros a Ha. eapply yields_bind; [exact IH|]. intros l [Hl Hn].
  apply yields_ret. rewrite zlen_cons. split; [by constructor|lia].
Qed.

Lemma yields_txin : yields (fun ti => txin_ok ti /\ Witness ti = []) readTxIn.
Proof.
  eapply (yields_bind (fun op => zlen (Hash op) = 32 /\ bytes_ok (Hash op) /\ is_uint 32 (Index op))).
  { eapply yields_bind; [by apply yields_ReadFull|]. intros h [Hh Hl].
    eapply yields_bind; [by apply yields_uint|]. intros i Hi. by apply yields_ret. }
  intros op (H1 & H2 & H3). eapply yields_bind; [apply yields_script|]. intros s Hs.
  eapply yields_bind; [by apply yields_uint|]. intros q Hq. apply yields_ret.
  split; [|done]. by split_and!.
Qed.

Lemma yields_txout : yields txout_ok readTxOut.
Proof.
  eapply yields_bind; [by apply yields_uint|]. intros v Hv. eapply yields_bind; [apply yields_script|]. intros s Hs.
  apply yields_ret. split; [apply to_int_range; lia|done].
Qed.

Lemma yields_witness : yields (fun w => zlen w <= maxWitnessItemsPerInput /\ Forall (script_ok maxWitnessItemSize) w) readTxWitness.
Proof.
  eapply yields_bind; [apply yields_varint|]. intros n Hn; cbn beta in *. destruct (Z.ltb_spec maxWitnessItemsPerInput n); [apply yields_fail|].
  eapply yields_weaken; [apply yields_n, yields_script|]. intros w [Hw Hl]. split; [lia|done].
Qed.

Lemma yields_witnesses ins : Forall txin_ok ins ->
  yields (fun l => Forall txin_ok l /\ zlen l = zlen ins) (read_witnesses ins).
Proof.
  induction 1 as [|ti ins Hi _ IH]; cbn [read_witnesses]; [apply yields_ret; by split|].
  eapply yields_bind; [apply yields_witness|]. intros w [Hw1 Hw2]. eapply yields_bind; [exact IH|]. intros l [Hl Hn].
  apply yields_ret. rewrite !zlen_cons, Hn. split; [|done]. constructor; [|done].
  destruct Hi as (? & ? & ? & ? & ? & _). by split_and!.
Qed.

(** A transaction as the decoder leaves it: that of [tx_ok], but it may have no
    inputs. *)
Definition decoded_ok (m : MsgTx) : Prop :=
  is_int 32 (Version m) /\ is_uint 32 (TxLockTime m) /\
  Forall txin_ok (TxIns m) /\ zlen (TxIns m) <= maxTxInPerMessage /\
  Forall txout_ok (TxOuts m) /\ zlen (TxOuts m) <= maxTxOutPerMessage.

Lemma yields_tx : yields decoded_ok Deserialize.
Proof.
  eapply yields_bind; [by apply yields_uint|]. intros version Hv.
  eapply (yields_bind (fun p => 0 <= p.2)).
  { eapply yields_bind; [apply yields_varint|]. intros n Hn; cbn beta in *. destruct (n =? 0); [|by apply yields_ret].
    eapply yields_bind; [by apply yields_uint|]. intros flag _. destruct (negb (flag =? 1)); [apply yields_fail|].
    eapply yields_bind; [apply yields_varint|]. intros c Hc; cbn beta in *. by apply yields_ret. }
  intros [flag count] Hcount. cbn in Hcount. destruct (Z.ltb_spec maxTxInPerMessage count); [apply yields_fail|].
  eapply yields_bind; [apply yields_n, yields_txin|]. intros ins [Hins Hn].
  assert (Forall txin_ok ins) as Hins' by (eapply Forall_impl; [exact Hins|]; by intros ? [? _]).
  eapply yields_bind; [apply yields_varint|]. intros c Hc; cbn beta in *. destruct (Z.ltb_spec maxTxOutPerMessage c); [apply yields_fail|].
  eapply yields_bind; [apply yields_n, yields_txout|]. intros outs [Houts Ho].
  eapply (yields_bind (fun l => Forall txin_ok l /\ zlen l = zlen ins)).
  { destruct (negb (flag =? 0)); [by apply yields_witnesses|by apply yields_ret]. }
  intros ins' [Hi Hl]. eapply yields_bind; [by apply yields_uint|]. intros lt Hlt. apply yields_ret.
  split_and!; cbn; [apply to_int_range; lia|done|done|lia|done|lia].
Qed.

(** C34: A decoded transaction has the types of the program. Whatever bytes are
    given, a transaction that [Deserialize] returns has fields of their widths,
    hashes of 32 bytes, scripts, witnesses and counts within the limits of the
    protocol, and what is left are bytes: a value that [Serialize] writes and
    [Deserialize] reads back, if it has inputs. *)
Theorem Deserialize_typed s m rest : bytes_ok s -> Deserialize s = Ret (m, rest) ->
  decoded_ok m /\ bytes_ok rest /\ (TxIns m <> [] -> tx_ok m).
Proof.
  intros Hs E. destruct (yields_tx s m rest Hs E) as [Hm Hr]. split; [done|]. split; [done|].
  destruct Hm as (? & ? & ? & ? & ? & ?). intros Hne. split_and!; try done.
  unfold zlen. destruct (TxIns m); [done|]. cbn [length]. lia.
Qed.

Lemma Deserialize_typed_witness :
  let m := match Deserialize Walkthrough.contractTxBytes with Ret (m, _) => m | _ => NewMsgTx 0 end in
  decoded_ok m /\ bytes_ok [] /\ (TxIns m <> [] -> tx_ok m).
Proof. apply (Deserialize_typed Walkthrough.contractTxBytes); [decided|vm_compute; reflexivity]. Defined.

(** ** The published transactions *)

Definition parsed (b : bytes) : MsgTx :=
  match Deserialize b with Ret (m, _) => m | _ => mkMsgTx 0 [] [] 0 end.

(** The redemption of the transcript spends output 1 of its contract
    transaction: the hash matches. *)
Example walkthrough_txhash :
  map PreviousOutPoint (TxIns (parsed Walkthrough.redeemTxBytes)) =
  [mkOutPoint (TxHash (parsed Walkthrough.contractTxBytes)) 1].
Proof. by vm_compute. Qed.

Lemma SerializeSize_spec_witness :
  let m := parsed Walkthrough.contractTxBytes in
  zlen (Serialize m) = SerializeSize m /\ zlen (SerializeNoWitness m) = baseSize m.
Proof. refine (SerializeSize_spec (parsed Walkthrough.contractTxBytes) _). decided. Defined.

Lemma Deserialize_Serialize_witness :
  Deserialize (Serialize (parsed Walkthrough.contractTxBytes) ++ [1; 2]) =
    Ret (parsed Walkthrough.contractTxBytes, [1; 2]).
Proof.
  refine (Deserialize_Serialize (parsed Walkthrough.contractTxBytes) [1; 2] _).
  unfold tx_ok, txin_ok, txout_ok, script_ok, is_uint, is_int. decided.
Defined.
