(* ===== verification/Fees.v ===== *)
(** * Transaction sizes and fees

    The worst-case sizes of [cmd/btcatomicswap/sizeest.go], and the fee and
    dust rules of the vendored [btcwallet/wallet/txrules].  Amounts are
    [int64]: products wrap around, and Go's division truncates. *)

From S2P Require Import Prelude Script Wire SwapContract.

(** ** Worst-case sizes *)

Definition redeemAtomicSwapSigScriptSize : Z := 1 + 73 + 1 + 33 + 1 + 32 + 1.
Definition refundAtomicSwapSigScriptSize : Z := 1 + 73 + 1 + 33 + 1.

Definition sumOutputSerializeSizes (outputs : list TxOut) : Z :=
  fold_left (fun serializeSize txOut => serializeSize + TxOut_SerializeSize txOut) outputs 0.

Definition inputSize (sigScriptSize : Z) : Z :=
  32 + 4 + VarIntSerializeSize sigScriptSize + sigScriptSize + 4.

(** The size of the push of the contract; the code panics when the builder
    refuses it. *)
Definition contractPushSize (contract : bytes) : outcome Z :=
  match BuilderScript (AddData contract NewScriptBuilder) with
  | Ret contractPush => Ret (zlen contractPush)
  | Fail e | Panic e => Panic e
  end.

Definition estimateRedeemSerializeSize (contract : bytes) (txOuts : list TxOut) : outcome Z :=
  contractPushSize ← contractPushSize contract;
  Ret (12 + VarIntSerializeSize 1 + VarIntSerializeSize (zlen txOuts) +
       inputSize (redeemAtomicSwapSigScriptSize + contractPushSize) +
       sumOutputSerializeSizes txOuts).

Definition estimateRefundSerializeSize (contract : bytes) (txOuts : list TxOut) : outcome Z :=
  contractPushSize ← contractPushSize contract;
  Ret (12 + VarIntSerializeSize 1 + VarIntSerializeSize (zlen txOuts) +
       inputSize (refundAtomicSwapSigScriptSize + contractPushSize) +
       sumOutputSerializeSizes txOuts).

(** ** Fees and dust *)

Definition MaxSatoshi : Z := 2100000000000000.
Definition DefaultRelayFeePerKb : Z := 1000.

Definition FeeForSerializeSize (relayFeePerKb txSerializeSize : Z) : Z :=
  let fee := Z.quot (to_int 64 (relayFeePerKb * txSerializeSize)) 1000 in
  let fee := if (fee =? 0) && (0 <? relayFeePerKb) then relayFeePerKb else fee in
  if (fee <? 0) || (MaxSatoshi <? fee) then MaxSatoshi else fee.

Definition GetDustThreshold (scriptSize relayFeePerKb : Z) : Z :=
  let totalSize := 8 + VarIntSerializeSize scriptSize + scriptSize + 148 in
  let byteFee := Z.quot relayFeePerKb 1000 in
  let relayFee := to_int 64 (totalSize * byteFee) in
  to_int 64 (3 * relayFee).

Definition IsDustAmount (amount scriptSize relayFeePerKb : Z) : bool :=
  amount <? GetDustThreshold scriptSize relayFeePerKb.

Definition IsDustOutput (output : TxOut) (relayFeePerKb : Z) : bool :=
  if bool_decide (GetScriptClass (PkScript output) = NullDataTy) then false
  else if IsUnspendable (PkScript output) then true
  else IsDustAmount (Value output) (zlen (PkScript output)) relayFeePerKb.
