(* ===== verification/FeesTheorems.v ===== *)
(** * Fees cover the transactions that are built

    The size estimates bound the size of the transactions the tool builds, so
    the fee it deducts is at least the relay fee of the real transaction. *)

From S2P Require Import Prelude Sha256 Script ScriptFacts Wire WireTheorems SwapContract SwapTheorems Vectors Fees.

(** A transaction that spends one output with the signature script [s]. *)
Definition one_input_tx (version : Z) (op : OutPoint) (s : bytes) (sequence : Z) (outs : list TxOut)
    (locktime : Z) : MsgTx :=
  mkMsgTx version [mkTxIn op s [] sequence] outs locktime.

(** ** Sizes *)

Lemma VarIntSerializeSize_mono a b : a <= b -> VarIntSerializeSize a <= VarIntSerializeSize b.
Proof. unfold VarIntSerializeSize. intros. repeat case_match; lia. Qed.

Lemma sumOutputSerializeSizes_sum outs :
  sumOutputSerializeSizes outs = sumZ (map TxOut_SerializeSize outs).
Proof.
  unfold sumOutputSerializeSizes.
  assert (forall acc, fold_left (fun s o => s + TxOut_SerializeSize o) outs acc =
                      acc + sumZ (map TxOut_SerializeSize outs)) as H.
  { induction outs as [|o l IH]; intros acc; simpl; [lia|]. rewrite IH. lia. }
  by rewrite H.
Qed.

Lemma contractPushSize_ok contract :
  push_size_ok contract -> contractPushSize contract = Ret (zlen (addData_chunk contract)).
Proof.
  intros Hc. pose proof (chunk_bound contract Hc). destruct Hc as [Hok Hl].
  unfold contractPushSize, NewScriptBuilder. rewrite AddData_ok; [done|done|lia|].
  unfold MaxScriptSize, MaxScriptElementSize in *. change (zlen (@nil Z)) with 0. lia.
Qed.

(** Short data is pushed with one length byte. *)
Lemma chunk_short d : bytes_ok d -> 2 <= zlen d <= 75 -> zlen (addData_chunk d) = 1 + zlen d.
Proof.
  intros Hok Hl. destruct (addData_chunk_cases d Hok) as [(v&->&_&_&?&_)|[[-> _]|(v&k&_&_&_&_&?)]];
    [lia|lia|by rewrite zlen_cons|lia].
Qed.

Lemma one_input_tx_size version op s sequence outs locktime :
  SerializeSize (one_input_tx version op s sequence outs locktime) =
  8 + VarIntSerializeSize 1 + VarIntSerializeSize (zlen outs) + inputSize (zlen s) +
  sumOutputSerializeSizes outs.
Proof.
  rewrite sumOutputSerializeSizes_sum.
  unfold SerializeSize, baseSize, HasWitness, one_input_tx, inputSize, TxIn_SerializeSize. simpl.
  change (zlen [_]) with 1. lia.
Qed.

Lemma inputSize_mono a b : a <= b -> inputSize a <= inputSize b.
Proof. intros H. unfold inputSize. pose proof (VarIntSerializeSize_mono a b H). lia. Qed.

(** C38: The estimates are worst cases: for a signature of at most 73 bytes
    with its hash type, a compressed public key and a secret of 32 bytes, the
    serialized redemption, respectively refund, is at least 4 bytes shorter
    than the estimate the fee is computed from, for every contract the script
    builder can push and every set of outputs. *)
Theorem estimates_are_worst_case contract sig pubkey secret version op sequence outs locktime :
  push_size_ok contract -> push_size_ok sig -> push_size_ok pubkey ->
  zlen sig <= 73 -> zlen pubkey = 33 -> bytes_ok secret -> zlen secret = secretSize ->
  (exists s est, redeemP2SHContract contract sig pubkey secret = Ret s /\
     estimateRedeemSerializeSize contract outs = Ret est /\
     SerializeSize (one_input_tx version op s sequence outs locktime) + 4 <= est) /\
  (exists s est, refundP2SHContract contract sig pubkey = Ret s /\
     estimateRefundSerializeSize contract outs = Ret est /\
     SerializeSize (one_input_tx version op s sequence outs locktime) + 4 <= est).
Proof.
  intros Hc Hs Hp Hsl Hpl Hxo Hxl. unfold secretSize in Hxl.
  pose proof Hs as [Hso ?]. pose proof Hp as [Hpo ?].
  assert (push_size_ok secret) as Hx by (split; [done|]; unfold MaxScriptElementSize; lia).
  pose proof (chunk_short sig Hso). pose proof (chunk_short pubkey Hpo).
  pose proof (chunk_short secret Hxo).
  rewrite redeemP2SHContract_bytes, refundP2SHContract_bytes by done.
  unfold estimateRedeemSerializeSize, estimateRefundSerializeSize.
  rewrite contractPushSize_ok by done. cbn [mbind outcome_bind].
  split; do 2 eexists; (split; [done|split; [done|]]); rewrite one_input_tx_size.
  - match goal with |- context [inputSize (zlen ?s)] =>
      pose proof (inputSize_mono (zlen s) (redeemAtomicSwapSigScriptSize + zlen (addData_chunk contract))) as Hm end.
    unfold redeem_bytes, redeemAtomicSwapSigScriptSize in *. autorewrite with swap_len in *. lia.
  - match goal with |- context [inputSize (zlen ?s)] =>
      pose proof (inputSize_mono (zlen s) (refundAtomicSwapSigScriptSize + zlen (addData_chunk contract))) as Hm end.
    unfold refund_bytes, refundAtomicSwapSigScriptSize in *. autorewrite with swap_len in *. lia.
Qed.

(** ** Fees *)

Lemma FeeForSerializeSize_exact rate size :
  1000 <= rate <= MaxSatoshi -> 0 < size <= 4000 ->
  FeeForSerializeSize rate size = Z.min MaxSatoshi (rate * size / 1000) /\ 0 < rate * size / 1000.
Proof.
  intros Hr Hs. unfold FeeForSerializeSize, MaxSatoshi in *.
  rewrite to_int_id by (try lia; unfold is_int; change (2 ^ (64 - 1)) with 9223372036854775808; nia).
  rewrite Z.quot_div_nonneg by nia.
  assert (1 <= rate * size / 1000) by (apply Z.div_le_lower_bound; nia).
  destruct (Z.eqb_spec (rate * size / 1000) 0); [lia|]. cbn [andb].
  destruct (Z.ltb_spec (rate * size / 1000) 0), (Z.ltb_spec 2100000000000000 (rate * size / 1000)); simpl; lia.
Qed.

(** The fee computed from an estimate is enough: for a fee rate from the
    default relay fee up to the whole money supply, and sizes of up to 4000
    bytes, the fee of the estimated size is at least the fee of any smaller
    real size, is the exact rate rounded down unless capped at the money
    supply, and no product overflows.  (At rates below 1000 satoshi per
    kilobyte the special case for a zero fee breaks monotonicity.) *)
Theorem FeeForSerializeSize_covers rate size est :
  DefaultRelayFeePerKb <= rate <= MaxSatoshi -> 0 < size <= est -> est <= 4000 ->
  FeeForSerializeSize rate size <= FeeForSerializeSize rate est /\
  FeeForSerializeSize rate est = Z.min MaxSatoshi (rate * est / 1000) /\
  0 < FeeForSerializeSize rate size <= MaxSatoshi.
Proof.
  unfold DefaultRelayFeePerKb. intros Hr Hs He.
  destruct (FeeForSerializeSize_exact rate size) as [-> Hp]; [lia..|].
  destruct (FeeForSerializeSize_exact rate est) as [-> _]; [lia..|].
  assert (rate * size / 1000 <= rate * est / 1000) by (apply Z.div_le_mono; nia).
  unfold MaxSatoshi in *. lia.
Qed.

Example FeeForSerializeSize_not_monotone :
  FeeForSerializeSize 3 330 = 3 /\ FeeForSerializeSize 3 334 = 1.
Proof. by vm_compute. Qed.

Lemma FeeForSerializeSize_covers_witness :
  FeeForSerializeSize 1019 330 <= FeeForSerializeSize 1019 334 /\
  FeeForSerializeSize 1019 334 = Z.min MaxSatoshi (1019 * 334 / 1000) /\
  0 < FeeForSerializeSize 1019 330 <= MaxSatoshi.
Proof. apply (FeeForSerializeSize_covers 1019 330 334); unfold DefaultRelayFeePerKb, MaxSatoshi; lia. Defined.

Lemma estimates_are_worst_case_witness :
  (exists s est, redeemP2SHContract Walkthrough.contract Walkthrough.sig Walkthrough.pubkey Walkthrough.secret = Ret s /\
     estimateRedeemSerializeSize Walkthrough.contract [] = Ret est /\
     SerializeSize (one_input_tx 2 (mkOutPoint [] 0) s 0 [] 0) + 4 <= est) /\
  (exists s est, refundP2SHContract Walkthrough.contract Walkthrough.sig Walkthrough.pubkey = Ret s /\
     estimateRefundSerializeSize Walkthrough.contract [] = Ret est /\
     SerializeSize (one_input_tx 2 (mkOutPoint [] 0) s 0 [] 0) + 4 <= est).
Proof.
  refine (estimates_are_worst_case Walkthrough.contract Walkthrough.sig Walkthrough.pubkey
            Walkthrough.secret 2 (mkOutPoint [] 0) 0 [] 0 _ _ _ _ _ _ _);
    first [split; decided|decided].
Defined.
