(* ===== verification/Engine.v ===== *)
(** * The script engine the tool verifies its transactions with

    The part of the vendored [txscript] that [redeem] and [buildRefund] run on
    the transactions they build ([engine.go], [opcode.go], [stack.go], the
    signature hash of [script.go]), under [StandardVerifyFlags].  Modelled:
    the pay-to-script-hash flow, data pushes, conditionals, and the opcodes
    the contract uses.  Every other opcode, and the evaluation of witness
    programs, gives the value [Panic unmodelled].  No modelled opcode touches
    the alternative stack or the last code separator, so the first is always
    empty and the second 0.  The elliptic curve is the parameter [ecdsa]. *)

From S2P Require Import Prelude Sha256 Script Ripemd160 Wire SwapContract.

Definition OP_NOTIF : Z := 0x64.
Definition OP_VERIF : Z := 0x65.
Definition OP_VERNOTIF : Z := 0x66.
Definition OP_VERIFY : Z := 0x69.
Definition OP_CODESEPARATOR : Z := 0xab.
Definition OP_RESERVED : Z := 0x50.

Definition LockTimeThreshold : Z := 500000000.
Definition MaxOpsPerScript : Z := 201.
Definition MaxStackSize : Z := 1000.

Definition scriptError (code : string) : error := ErrNew code.
Definition unmodelled : error := ErrNew "outside the modelled part of the script engine".

(** ** Signature hashes *)

Definition SigHashAll : Z := 1.
Definition SigHashNone : Z := 2.
Definition SigHashSingle : Z := 3.
Definition SigHashAnyOneCanPay : Z := 0x80.
Definition sigHashMask : Z := 0x1f.

Definition removeOpcode (pkscript : list parsedOpcode) (opcode : Z) : list parsedOpcode :=
  List.filter (fun pop => negb (pop_value pop =? opcode)) pkscript.

(** [bytes.Contains] *)
Fixpoint bytes_Contains (b sub : bytes) : bool :=
  bool_decide (take (length sub) b = sub) ||
  match b with [] => false | _ :: b' => bytes_Contains b' sub end.

Definition removeOpcodeByData (pkscript : list parsedOpcode) (data : bytes) : list parsedOpcode :=
  List.filter (fun pop => negb (canonicalPush pop) || negb (bytes_Contains (default [] (pop_data pop)) data))
    pkscript.

Definition set_SignatureScript (s : bytes) (ti : TxIn) : TxIn :=
  mkTxIn (PreviousOutPoint ti) s (Witness ti) (Sequence ti).
Definition set_Sequence (q : Z) (ti : TxIn) : TxIn :=
  mkTxIn (PreviousOutPoint ti) (SignatureScript ti) (Witness ti) q.

(** [calcSignatureHash]; [unparseScript] cannot fail on a parsed script. *)
Definition calcSignatureHash (script : list parsedOpcode) (hashType : Z) (tx : MsgTx) (idx : nat)
    : bytes :=
  let kind := Z.land hashType sigHashMask in
  if (kind =? SigHashSingle) && (length (TxOuts tx) <=? idx)%nat then 1 :: replicate 31 0
  else
    let script := removeOpcode script OP_CODESEPARATOR in
    let sigScript := match unparseScript script with Ret s => s | _ => [] end in
    let ins := imap (fun i ti =>
      set_SignatureScript (if (i =? idx)%nat then sigScript else []) ti) (TxIns tx) in
    let clear_seq := imap (fun i ti => if (i =? idx)%nat then ti else set_Sequence 0 ti) in
    let '(ins, outs) :=
      if kind =? SigHashNone then (clear_seq ins, [])
      else if kind =? SigHashSingle then
        (clear_seq ins,
         imap (fun i o => if (i <? idx)%nat then mkTxOut (-1) [] else o)
              (take (idx + 1) (TxOuts tx)))
      else (ins, TxOuts tx) in
    let ins :=
      if negb (Z.land hashType SigHashAnyOneCanPay =? 0) then take 1 (drop idx ins) else ins in
    DoubleHashH (SerializeNoWitness (mkMsgTx (Version tx) ins outs (TxLockTime tx)) ++
                 le_put 4 hashType).

(** ** Encodings of signatures and keys *)

Definition halfOrder : Z :=
  0xfffffffffffffffffffffffffffffffebaaedce6af48a03bbfd25e8cd0364141 / 2.

Definition checkHashTypeEncoding (hashType : Z) : outcome unit :=
  let sigHashType := Z.land hashType (Z.lnot SigHashAnyOneCanPay) in
  guard_err ((sigHashType <? SigHashAll) || (SigHashSingle <? sigHashType))
    (scriptError "ErrInvalidSigHashType").

Definition checkPubKeyEncoding (pubKey : bytes) : outcome unit :=
  let b0 := default 0 (pubKey !! 0%nat) in
  if (zlen pubKey =? 33) && ((b0 =? 0x02) || (b0 =? 0x03)) then Ret tt
  else if (zlen pubKey =? 65) && (b0 =? 0x04) then Ret tt
  else Fail (scriptError "ErrPubKeyType").

(** Big-endian value, as [big.Int.SetBytes]. *)
Definition be_uint (l : bytes) : Z := fold_left (fun a b => a * 256 + b) l 0.

Definition checkSignatureEncoding (sig : bytes) : outcome unit :=
  let at_ (i : Z) := default 0 (sig !! Z.to_nat i) in
  let sigLen := zlen sig in
  _ ← guard_err (sigLen <? 8) (scriptError "ErrSigTooShort");
  _ ← guard_err (72 <? sigLen) (scriptError "ErrSigTooLong");
  _ ← guard_err (negb (at_ 0 =? 0x30)) (scriptError "ErrSigInvalidSeqID");
  _ ← guard_err (negb (at_ 1 =? sigLen - 2)) (scriptError "ErrSigInvalidDataLen");
  let rLen := at_ 3 in
  let sTypeOffset := 4 + rLen in
  let sLenOffset := sTypeOffset + 1 in
  _ ← guard_err (sigLen <=? sTypeOffset) (scriptError "ErrSigMissingSTypeID");
  _ ← guard_err (sigLen <=? sLenOffset) (scriptError "ErrSigMissingSLen");
  let sOffset := sLenOffset + 1 in
  let sLen := at_ sLenOffset in
  _ ← guard_err (negb (sOffset + sLen =? sigLen)) (scriptError "ErrSigInvalidSLen");
  _ ← guard_err (negb (at_ 2 =? 0x02)) (scriptError "ErrSigInvalidRIntID");
  _ ← guard_err (rLen =? 0) (scriptError "ErrSigZeroRLen");
  _ ← guard_err (negb (Z.land (at_ 4) 0x80 =? 0)) (scriptError "ErrSigNegativeR");
  _ ← guard_err ((1 <? rLen) && (at_ 4 =? 0) && (Z.land (at_ 5) 0x80 =? 0))
        (scriptError "ErrSigTooMuchRPadding");
  _ ← guard_err (negb (at_ sTypeOffset =? 0x02)) (scriptError "ErrSigInvalidSIntID");
  _ ← guard_err (sLen =? 0) (scriptError "ErrSigZeroSLen");
  _ ← guard_err (negb (Z.land (at_ sOffset) 0x80 =? 0)) (scriptError "ErrSigNegativeS");
  _ ← guard_err ((1 <? sLen) && (at_ sOffset =? 0) && (Z.land (at_ (sOffset + 1)) 0x80 =? 0))
        (scriptError "ErrSigTooMuchSPadding");
  guard_err (halfOrder <? be_uint (take (Z.to_nat sLen) (drop (Z.to_nat sOffset) sig)))
    (scriptError "ErrSigHighS").

(** ** State *)

Inductive condVal : Set := OpCondFalse | OpCondTrue | OpCondSkip.

(** Stacks are lists with the top first. *)
Record vm := mkVm {
  scripts : list (list parsedOpcode);
  scriptIdx : nat;
  scriptOff : nat;
  dstack : list bytes;
  condStack : list condVal;
  numOps : Z;
  bip16 : bool;
  savedFirstStack : list bytes;
  vm_tx : MsgTx;
  vm_txIdx : nat
}.

Definition set_dstack (st : list bytes) (v : vm) : vm :=
  mkVm (scripts v) (scriptIdx v) (scriptOff v) st (condStack v) (numOps v) (bip16 v)
       (savedFirstStack v) (vm_tx v) (vm_txIdx v).
Definition set_condStack (cs : list condVal) (v : vm) : vm :=
  mkVm (scripts v) (scriptIdx v) (scriptOff v) (dstack v) cs (numOps v) (bip16 v)
       (savedFirstStack v) (vm_tx v) (vm_txIdx v).
Definition set_numOps (n : Z) (v : vm) : vm :=
  mkVm (scripts v) (scriptIdx v) (scriptOff v) (dstack v) (condStack v) n (bip16 v)
       (savedFirstStack v) (vm_tx v) (vm_txIdx v).
Definition set_pc (idx off : nat) (v : vm) : vm :=
  mkVm (scripts v) idx off (dstack v) (condStack v) (numOps v) (bip16 v)
       (savedFirstStack v) (vm_tx v) (vm_txIdx v).
Definition set_saved (st : list bytes) (v : vm) : vm :=
  mkVm (scripts v) (scriptIdx v) (scriptOff v) (dstack v) (condStack v) (numOps v) (bip16 v)
       st (vm_tx v) (vm_txIdx v).
Definition add_script (s : list parsedOpcode) (v : vm) : vm :=
  mkVm (scripts v ++ [s]) (scriptIdx v) (scriptOff v) (dstack v) (condStack v) (numOps v)
       (bip16 v) (savedFirstStack v) (vm_tx v) (vm_txIdx v).

(** ** The stack *)

Fixpoint asBool (t : bytes) : bool :=
  match t with
  | [] => false
  | [b] => negb (b =? 0) && negb (b =? 0x80)
  | b :: t' => if negb (b =? 0) then true else asBool t'
  end.

Definition fromBool (v : bool) : bytes := if v then [1] else [].

Definition ErrInvalidStackOperation : error := scriptError "ErrInvalidStackOperation".

Definition PushByteArray (so : bytes) (v : vm) : vm := set_dstack (so :: dstack v) v.

Definition PushInt (n : Z) (v : vm) : outcome vm :=
  b ← scriptNum_Bytes n; Ret (PushByteArray b v).

Definition PopByteArray (v : vm) : outcome (bytes * vm) :=
  match dstack v with
  | [] => Fail ErrInvalidStackOperation
  | so :: st => Ret (so, set_dstack st v)
  end.

Definition PeekByteArray (v : vm) : outcome bytes :=
  match dstack v with [] => Fail ErrInvalidStackOperation | so :: _ => Ret so end.

Definition PopBool (v : vm) : outcome (bool * vm) :=
  '(so, v) ← PopByteArray v; Ret (asBool so, v).

(** ** Opcodes *)

Definition isBranchExecuting (v : vm) : bool :=
  match condStack v with [] => true | OpCondTrue :: _ => true | _ => false end.

(** [OP_CAT .. OP_RIGHT], [OP_INVERT .. OP_XOR], [OP_2MUL], [OP_2DIV],
    [OP_MUL .. OP_RSHIFT] *)
Definition isDisabled (v : Z) : bool :=
  existsb (Z.eqb v) [0x7e; 0x7f; 0x80; 0x81; 0x83; 0x84; 0x85; 0x86; 0x8d; 0x8e;
                     0x95; 0x96; 0x97; 0x98; 0x99].

Definition alwaysIllegal (v : Z) : bool := (v =? OP_VERIF) || (v =? OP_VERNOTIF).

Definition isConditional (v : Z) : bool :=
  (v =? OP_IF) || (v =? OP_NOTIF) || (v =? OP_ELSE) || (v =? OP_ENDIF).

Definition ErrMinimalData : error := scriptError "ErrMinimalData".

Definition checkMinimalDataPush (pop : parsedOpcode) : outcome unit :=
  let data := default [] (pop_data pop) in
  let dataLen := zlen data in
  let d0 := default 0 (data !! 0%nat) in
  let opcode := pop_value pop in
  guard_err
    (if (dataLen =? 0) && negb (opcode =? OP_0) then true
     else if (dataLen =? 1) && (1 <=? d0) && (d0 <=? 16) then negb (opcode =? OP_1 + d0 - 1)
     else if (dataLen =? 1) && (d0 =? 0x81) then negb (opcode =? OP_1NEGATE)
     else if dataLen <=? 75 then negb (opcode =? dataLen)
     else if dataLen <=? 255 then negb (opcode =? OP_PUSHDATA1)
     else if dataLen <=? 65535 then negb (opcode =? OP_PUSHDATA2)
     else false) ErrMinimalData.

Definition opcodeIf (negate : bool) (v : vm) : outcome vm :=
  if isBranchExecuting v then
    '(ok, v) ← PopBool v;
    Ret (set_condStack ((if xorb negate ok then OpCondTrue else OpCondFalse) :: condStack v) v)
  else Ret (set_condStack (OpCondSkip :: condStack v) v).

Definition ErrUnbalancedConditional : error := scriptError "ErrUnbalancedConditional".

Definition opcodeElse (v : vm) : outcome vm :=
  match condStack v with
  | [] => Fail ErrUnbalancedConditional
  | OpCondTrue :: cs => Ret (set_condStack (OpCondFalse :: cs) v)
  | OpCondFalse :: cs => Ret (set_condStack (OpCondTrue :: cs) v)
  | OpCondSkip :: cs => Ret v
  end.

Definition opcodeEndif (v : vm) : outcome vm :=
  match condStack v with
  | [] => Fail ErrUnbalancedConditional
  | _ :: cs => Ret (set_condStack cs v)
  end.

Definition abstractVerify (c : string) (v : vm) : outcome vm :=
  '(verified, v) ← PopBool v;
  if negb verified then Fail (scriptError c) else Ret v.

Definition ErrUnsatisfiedLockTime : error := scriptError "ErrUnsatisfiedLockTime".

Definition verifyLockTime (txLockTime threshold lockTime : Z) : outcome unit :=
  if negb (((txLockTime <? threshold) && (lockTime <? threshold)) ||
           ((threshold <=? txLockTime) && (threshold <=? lockTime)))
  then Fail ErrUnsatisfiedLockTime
  else if txLockTime <? lockTime then Fail ErrUnsatisfiedLockTime
  else Ret tt.

(** The sequence number of the input being verified; [NewEngine] checked the
    index. *)
Definition vm_sequence (v : vm) : Z :=
  match TxIns (vm_tx v) !! vm_txIdx v with Some ti => Sequence ti | None => 0 end.

Definition opcodeCheckLockTimeVerify (v : vm) : outcome vm :=
  so ← PeekByteArray v;
  lockTime ← makeScriptNum so true 5;
  if lockTime <? 0 then Fail (scriptError "ErrNegativeLockTime")
  else
    _ ← verifyLockTime (TxLockTime (vm_tx v)) LockTimeThreshold lockTime;
    if vm_sequence v =? MaxTxInSequenceNum then Fail ErrUnsatisfiedLockTime else Ret v.

Definition opcodeDrop (v : vm) : outcome vm := '(_, v) ← PopByteArray v; Ret v.

Definition opcodeDup (v : vm) : outcome vm :=
  so ← PeekByteArray v; Ret (PushByteArray so v).

Definition opcodeSize (v : vm) : outcome vm :=
  so ← PeekByteArray v; PushInt (zlen so) v.

Definition opcodeEqual (v : vm) : outcome vm :=
  '(a, v) ← PopByteArray v;
  '(b, v) ← PopByteArray v;
  Ret (PushByteArray (fromBool (bool_decide (a = b))) v).

Definition opcodeEqualVerify (v : vm) : outcome vm :=
  v ← opcodeEqual v; abstractVerify "ErrEqualVerify" v.

Definition opcodeSha256 (v : vm) : outcome vm :=
  '(buf, v) ← PopByteArray v; Ret (PushByteArray (sha256 buf) v).

Definition opcodeHash160 (v : vm) : outcome vm :=
  '(buf, v) ← PopByteArray v; Ret (PushByteArray (ripemd160 (sha256 buf)) v).

Definition subScript (v : vm) : list parsedOpcode := default [] (scripts v !! scriptIdx v).

Section Execution.
(** [ecdsa hash pubkey sig]: [None] when the public key or the DER
    signature does not parse, otherwise whether the signature verifies. *)
Context (ecdsa : bytes -> bytes -> bytes -> option bool).

Definition opcodeCheckSig (v : vm) : outcome vm :=
  '(pkBytes, v) ← PopByteArray v;
  '(fullSigBytes, v) ← PopByteArray v;
  match last fullSigBytes with
  | None => Ret (PushByteArray (fromBool false) v)
  | Some hashType =>
      let sigBytes := take (length fullSigBytes - 1) fullSigBytes in
      _ ← checkHashTypeEncoding hashType;
      _ ← checkSignatureEncoding sigBytes;
      _ ← checkPubKeyEncoding pkBytes;
      let subScript := removeOpcodeByData (subScript v) fullSigBytes in
      let hash := calcSignatureHash subScript hashType (vm_tx v) (vm_txIdx v) in
      match ecdsa hash pkBytes sigBytes with
      | None => Ret (PushByteArray (fromBool false) v)
      | Some valid =>
          if negb valid && (0 <? zlen sigBytes) then Fail (scriptError "ErrNullFail")
          else Ret (PushByteArray (fromBool valid) v)
      end
  end.

(** The [opfunc] column of the opcode table. *)
Definition opfunc (pop : parsedOpcode) (v : vm) : outcome vm :=
  let o := pop_value pop in
  if o =? OP_0 then Ret (PushByteArray [] v)
  else if o <=? OP_PUSHDATA4 then Ret (PushByteArray (default [] (pop_data pop)) v)
  else if o =? OP_1NEGATE then PushInt (-1) v
  else if o =? OP_RESERVED then Fail (scriptError "ErrReservedOpcode")
  else if o <=? OP_16 then PushInt (o - (OP_1 - 1)) v
  else if o =? OP_IF then opcodeIf false v
  else if o =? OP_NOTIF then opcodeIf true v
  else if o =? OP_ELSE then opcodeElse v
  else if o =? OP_ENDIF then opcodeEndif v
  else if o =? OP_VERIFY then abstractVerify "ErrVerify" v
  else if o =? OP_RETURN then Fail (scriptError "ErrEarlyReturn")
  else if o =? OP_DROP then opcodeDrop v
  else if o =? OP_DUP then opcodeDup v
  else if o =? OP_SIZE then opcodeSize v
  else if o =? OP_EQUAL then opcodeEqual v
  else if o =? OP_EQUALVERIFY then opcodeEqualVerify v
  else if o =? OP_SHA256 then opcodeSha256 v
  else if o =? OP_HASH160 then opcodeHash160 v
  else if o =? OP_CHECKSIG then opcodeCheckSig v
  else if o =? OP_CHECKLOCKTIMEVERIFY then opcodeCheckLockTimeVerify v
  else Panic unmodelled.

Definition executeOpcode (pop : parsedOpcode) (v : vm) : outcome vm :=
  let o := pop_value pop in
  if isDisabled o then Fail (scriptError "ErrDisabledOpcode")
  else if alwaysIllegal o then Fail (scriptError "ErrReservedOpcode")
  else
    v ← (if OP_16 <? o then
           let v := set_numOps (numOps v + 1) v in
           if MaxOpsPerScript <? numOps v then Fail (scriptError "ErrTooManyOperations") else Ret v
         else if MaxScriptElementSize <? data_len pop then Fail (scriptError "ErrElementTooBig")
         else Ret v);
    if negb (isBranchExecuting v) && negb (isConditional o) then Ret v
    else
      _ ← (if isBranchExecuting v && (0 <=? o) && (o <=? OP_PUSHDATA4)
           then checkMinimalDataPush pop else Ret tt);
      opfunc pop v.

(** ** Running the scripts *)

Definition CheckErrorCondition (finalScript : bool) (v : vm) : outcome vm :=
  if (scriptIdx v <? length (scripts v))%nat then Fail (scriptError "ErrScriptUnfinished")
  else if finalScript && negb (length (dstack v) =? 1)%nat then Fail (scriptError "ErrCleanStack")
  else if (length (dstack v) <? 1)%nat then Fail (scriptError "ErrEmptyStack")
  else
    '(b, v) ← PopBool v;
    if negb b then Fail (scriptError "ErrEvalFalse") else Ret v.

(** The end of the current script: [Step] after "Prepare for next
    instruction". *)
Definition end_script (v : vm) : outcome (vm * bool) :=
  if negb (length (condStack v) =? 0)%nat then Fail ErrUnbalancedConditional
  else
    let v := set_pc (scriptIdx v) 0 (set_numOps 0 v) in
    v ← (if (scriptIdx v =? 0)%nat && bip16 v then
           Ret (set_saved (dstack v) (set_pc (scriptIdx v + 1) (scriptOff v) v))
         else if (scriptIdx v =? 1)%nat && bip16 v then
           let v := set_pc (scriptIdx v + 1) (scriptOff v) v in
           v ← CheckErrorCondition false v;
           match savedFirstStack v with
           | [] => Panic (ErrNew "index out of range")
           | script :: saved =>
               pops ← parseScript script;
               Ret (set_dstack saved (add_script pops v))
           end
         else Ret (set_pc (scriptIdx v + 1) (scriptOff v) v));
    let v := match scripts v !! scriptIdx v with
             | Some [] => set_pc (scriptIdx v + 1) (scriptOff v) v
             | _ => v
             end in
    Ret (v, (length (scripts v) <=? scriptIdx v)%nat).

Definition Step (v : vm) : outcome (vm * bool) :=
  match scripts v !! scriptIdx v with
  | None => Fail (scriptError "ErrInvalidProgramCounter")
  | Some script =>
      match script !! scriptOff v with
      | None => Fail (scriptError "ErrInvalidProgramCounter")
      | Some opcode =>
          let v := set_pc (scriptIdx v) (scriptOff v + 1) v in
          v ← executeOpcode opcode v;
          if MaxStackSize <? zlen (dstack v) then Fail (scriptError "ErrStackOverflow")
          else if (length script <=? scriptOff v)%nat then end_script v
          else Ret (v, false)
      end
  end.

Fixpoint Execute_loop (fuel : nat) (v : vm) : outcome vm :=
  match fuel with
  | O => Panic (ErrNew "out of fuel")
  | S f => '(v, done) ← Step v; if (done : bool) then Ret v else Execute_loop f v
  end.

(** Every step consumes an opcode of the signature script, the output
    script or the script the signature script pushed, none of which is
    longer than its bytes. *)
Definition Execute_fuel (v : vm) : nat := 3 * (Z.to_nat MaxScriptSize + 1).

Definition Execute (v : vm) : outcome unit :=
  v ← Execute_loop (Execute_fuel v) v;
  _ ← CheckErrorCondition true v;
  Ret tt.
End Execution.

(** ** Setting up *)

Definition isPushOnly (pops : list parsedOpcode) : bool :=
  forallb (fun pop => pop_value pop <=? OP_16) pops.

Definition isWitnessProgram (pops : list parsedOpcode) : bool :=
  match pops with
  | [p0; p1] =>
      isSmallInt (pop_value p0) && canonicalPush p1 && (2 <=? data_len p1) && (data_len p1 <=? 40)
  | _ => false
  end.

(** [NewEngine] with [StandardVerifyFlags]. *)
Definition NewEngine (scriptPubKey : bytes) (tx : MsgTx) (txIdx : nat) : outcome vm :=
  match TxIns tx !! txIdx with
  | None => Fail (scriptError "ErrInvalidIndex")
  | Some ti =>
      let scriptSig := SignatureScript ti in
      if (zlen scriptSig =? 0) && (zlen scriptPubKey =? 0) then Fail (scriptError "ErrEvalFalse")
      else
        _ ← guard_err (MaxScriptSize <? zlen scriptSig) (scriptError "ErrScriptTooBig");
        sigPops ← parseScript scriptSig;
        _ ← guard_err (MaxScriptSize <? zlen scriptPubKey) (scriptError "ErrScriptTooBig");
        pkPops ← parseScript scriptPubKey;
        let idx := if zlen scriptSig =? 0 then 1%nat else 0%nat in
        let bip16 := isScriptHash pkPops in
        _ ← guard_err (bip16 && negb (isPushOnly sigPops)) (scriptError "ErrNotPushOnly");
        if isWitnessProgram pkPops then
          if negb (zlen scriptSig =? 0) then Fail (scriptError "ErrWitnessMalleated")
          else Panic unmodelled
        else if negb (zlen (Witness ti) =? 0) then
          if bip16 then Panic unmodelled else Fail (scriptError "ErrWitnessUnexpected")
        else Ret (mkVm [sigPops; pkPops] idx 0 [] [] 0 bip16 [] tx txIdx)
  end.

(** The check of [redeem] and [buildRefund] on the transactions they built. *)
Definition verify_spend (ecdsa : bytes -> bytes -> bytes -> option bool) (scriptPubKey : bytes)
    (tx : MsgTx) (txIdx : nat) : outcome unit :=
  match (e ← NewEngine scriptPubKey tx txIdx; Execute ecdsa e) with
  | Fail e => Panic e
  | r => r
  end.
