(* ===== verification/EngineFacts.v ===== *)
(** * Facts about the script engine

    [run_pops] executes the opcodes of one script in sequence; the stepping
    loop of the engine is shown equal to running the scripts one after the
    other with [end_script] between them. *)

From S2P Require Import Prelude Sha256 Script ScriptFacts Ripemd160 Wire SwapContract SwapTheorems Engine.

Section Run.
Context (ecdsa : bytes -> bytes -> bytes -> option bool).

(** The body of [Step] up to the end-of-script test. *)
Definition exec_one (p : parsedOpcode) (v : vm) : outcome vm :=
  v ← executeOpcode ecdsa p (set_pc (scriptIdx v) (scriptOff v + 1) v);
  if MaxStackSize <? zlen (dstack v) then Fail (scriptError "ErrStackOverflow") else Ret v.

Fixpoint run_pops (ps : list parsedOpcode) (v : vm) : outcome vm :=
  match ps with
  | [] => Ret v
  | p :: ps => v ← exec_one p v; run_pops ps v
  end.

(** What the opcodes do not touch. *)
Definition same_frame (v w : vm) : Prop :=
  scripts w = scripts v /\ scriptIdx w = scriptIdx v /\ scriptOff w = scriptOff v /\
  bip16 w = bip16 v /\ savedFirstStack w = savedFirstStack v /\
  vm_tx w = vm_tx v /\ vm_txIdx w = vm_txIdx v.

Lemma same_frame_refl v : same_frame v v.
Proof. done. Qed.

Lemma same_frame_trans u v w : same_frame u v -> same_frame v w -> same_frame u w.
Proof. unfold same_frame. intuition congruence. Qed.

#[local] Ltac frame_inv :=
  repeat match goal with
    | H : mbind _ _ = Ret _ |- _ => apply bind_Ret in H; destruct H as (?&?&?)
    | H : (let '(_, _) := ?x in _) = Ret _ |- _ => destruct x
    | H : Ret _ = Ret _ |- _ => injection H as H
    | H : Fail _ = Ret _ |- _ => discriminate H
    | H : Panic _ = Ret _ |- _ => discriminate H
    | H : (_, _) = (_, _) |- _ => injection H as H
    | H : (if ?b then _ else _) = Ret _ |- _ => destruct b
    | H : (match ?x with _ => _ end) = Ret _ |- _ => destruct x
    | H : _ = ?x |- _ => is_var x; subst x
    | H : ?x = _ |- _ => is_var x; subst x
    end.

Lemma opfunc_frame p v w : opfunc ecdsa p v = Ret w -> same_frame v w.
Proof.
  intros H. unfold opfunc in H.
  repeat match type of H with (if ?c then _ else _) = _ => destruct c end; try discriminate H;
    unfold opcodeIf, opcodeElse, opcodeEndif, opcodeDrop, opcodeDup, opcodeSize,
      opcodeEqualVerify, abstractVerify, opcodeEqual, opcodeSha256, opcodeHash160, opcodeCheckSig,
      opcodeCheckLockTimeVerify, PushInt, PopBool, PopByteArray, PeekByteArray in H;
    frame_inv; done.
Qed.

Lemma executeOpcode_frame p v w : executeOpcode ecdsa p v = Ret w -> same_frame v w.
Proof.
  intros H. unfold executeOpcode in H. frame_inv; try done;
    match goal with H : opfunc _ _ _ = Ret _ |- _ => apply opfunc_frame in H; exact H end.
Qed.

Lemma exec_one_frame p v w :
  exec_one p v = Ret w -> same_frame (set_pc (scriptIdx v) (scriptOff v + 1) v) w.
Proof. unfold exec_one. intros H. frame_inv. by eapply executeOpcode_frame. Qed.

Lemma run_pops_frame ps v w :
  run_pops ps v = Ret w ->
  scripts w = scripts v /\ scriptIdx w = scriptIdx v /\ scriptOff w = (scriptOff v + length ps)%nat /\
  bip16 w = bip16 v /\ savedFirstStack w = savedFirstStack v /\ vm_tx w = vm_tx v /\ vm_txIdx w = vm_txIdx v.
Proof.
  revert v. induction ps as [|p ps IH]; intros v H.
  - injection H as <-. split_and!; try done; simpl; lia.
  - cbn [run_pops] in H. destruct (exec_one p v) as [u| |] eqn:E; try done.
    apply exec_one_frame in E as (?&?&?&?&?&?&?). apply IH in H as (?&?&?&?&?&?&?).
    simpl in *. split_and!; congruence || lia.
Qed.

(** Running the rest [p :: ps] of the current script. *)
Lemma Execute_loop_run ps p pre v f :
  scripts v !! scriptIdx v = Some (pre ++ p :: ps) -> scriptOff v = length pre ->
  Execute_loop ecdsa (length (p :: ps) + f) v =
  (v ← run_pops (p :: ps) v; '(v, done) ← end_script v;
   if (done : bool) then Ret v else Execute_loop ecdsa f v).
Proof.
  revert p pre v. induction ps as [|q ps IH]; intros p pre v Hs Ho; simpl length; cbn [Nat.add].
  - cbn [Execute_loop run_pops]. unfold Step, exec_one. rewrite Hs, Ho.
    rewrite lookup_app_r, Nat.sub_diag by lia. cbn [lookup list_lookup].
    destruct (executeOpcode ecdsa p _) as [w|e|e] eqn:E; cbn [mbind outcome_bind]; try done.
    destruct (MaxStackSize <? zlen (dstack w)); [done|].
    apply executeOpcode_frame in E as (_&_&->&_). simpl scriptOff. rewrite length_app.
    simpl. destruct (Nat.leb_spec (length pre + 1) (length pre + 1)); [done|lia].
  - change (S (S (length ps) + f)) with (S (length (q :: ps) + f)).
    cbn [Execute_loop]. change (run_pops (p :: q :: ps) v) with (v ← exec_one p v; run_pops (q :: ps) v).
    unfold Step, exec_one. rewrite Hs, Ho.
    rewrite lookup_app_r, Nat.sub_diag by lia. cbn [lookup list_lookup].
    destruct (executeOpcode ecdsa p _) as [w|e|e] eqn:E; cbn [mbind outcome_bind]; try done.
    destruct (MaxStackSize <? zlen (dstack w)); [done|].
    apply executeOpcode_frame in E as (Ew1&Ew2&Ew3&_). simpl in Ew1, Ew2, Ew3.
    rewrite Ew3, length_app. simpl length.
    destruct (Nat.leb_spec (length pre + S (S (length ps))) (length pre + 1)); [lia|].
    apply (IH q (pre ++ [p])).
    + by rewrite Ew1, Ew2, Hs, <- app_assoc.
    + rewrite Ew3, length_app. simpl. lia.
Qed.
End Run.
