(* ===== verification/EngineTheorems.v ===== *)
(** * What the contract script allows

    The contract evaluated by the script engine: which stacks it accepts, and
    that the scripts the tool builds are accepted exactly under the
    conditions of the swap. *)

From S2P Require Import Prelude Sha256 Script ScriptFacts Ripemd160 Wire WireTheorems SwapContract SwapTheorems Vectors Engine EngineFacts.

(** The opcodes of a contract, [p] being the push of the lock time. *)
Definition contract_pops (pkhMe pkhThem secretHash : bytes) (p : parsedOpcode) : list parsedOpcode :=
  [mkPop OP_IF None; mkPop OP_SIZE None; mkPop 1 (Some [32]);
   mkPop OP_EQUALVERIFY None; mkPop OP_SHA256 None; mkPop 32 (Some secretHash);
   mkPop OP_EQUALVERIFY None; mkPop OP_DUP None; mkPop OP_HASH160 None;
   mkPop 20 (Some pkhThem); mkPop OP_ELSE None; p; mkPop OP_CHECKLOCKTIMEVERIFY None;
   mkPop OP_DROP None; mkPop OP_DUP None; mkPop OP_HASH160 None; mkPop 20 (Some pkhMe);
   mkPop OP_ENDIF None; mkPop OP_EQUALVERIFY None; mkPop OP_CHECKSIG None].

Section Accepts.
Context (ecdsa : bytes -> bytes -> bytes -> option bool).

(** [sig] is a standard signature of transaction [tx] by [pubkey], for
    input [idx] and the script [ps]. *)
Definition good_sig (ps : list parsedOpcode) (tx : MsgTx) (idx : nat) (sig pubkey : bytes) : Prop :=
  exists body hashType, sig = body ++ [hashType] /\
    checkHashTypeEncoding hashType = Ret tt /\ checkSignatureEncoding body = Ret tt /\
    checkPubKeyEncoding pubkey = Ret tt /\
    ecdsa (calcSignatureHash (removeOpcodeByData ps sig) hashType tx idx) pubkey body = Some true.

Lemma asBool_fromBool b : asBool (fromBool b) = b.
Proof. by destruct b. Qed.

(** The rows of the opcode table the contract uses. *)
Lemma op_if v : opfunc ecdsa (mkPop OP_IF None) v = opcodeIf false v. Proof. done. Qed.
Lemma op_else v : opfunc ecdsa (mkPop OP_ELSE None) v = opcodeElse v. Proof. done. Qed.
Lemma op_endif v : opfunc ecdsa (mkPop OP_ENDIF None) v = opcodeEndif v. Proof. done. Qed.
Lemma op_drop v : opfunc ecdsa (mkPop OP_DROP None) v = opcodeDrop v. Proof. done. Qed.
Lemma op_dup v : opfunc ecdsa (mkPop OP_DUP None) v = opcodeDup v. Proof. done. Qed.
Lemma op_size v : opfunc ecdsa (mkPop OP_SIZE None) v = opcodeSize v. Proof. done. Qed.
Lemma op_equal v : opfunc ecdsa (mkPop OP_EQUAL None) v = opcodeEqual v. Proof. done. Qed.
Lemma op_equalverify v : opfunc ecdsa (mkPop OP_EQUALVERIFY None) v = opcodeEqualVerify v. Proof. done. Qed.
Lemma op_sha256 v : opfunc ecdsa (mkPop OP_SHA256 None) v = opcodeSha256 v. Proof. done. Qed.
Lemma op_hash160 v : opfunc ecdsa (mkPop OP_HASH160 None) v = opcodeHash160 v. Proof. done. Qed.
Lemma op_checksig v : opfunc ecdsa (mkPop OP_CHECKSIG None) v = opcodeCheckSig ecdsa v. Proof. done. Qed.
Lemma op_cltv v : opfunc ecdsa (mkPop OP_CHECKLOCKTIMEVERIFY None) v = opcodeCheckLockTimeVerify v.
Proof. done. Qed.

(** The opcodes of a non-push, executed. *)
Definition bump (v : vm) : vm :=
  set_numOps (numOps v + 1) (set_pc (scriptIdx v) (scriptOff v + 1) v).

Lemma run_op o ps v w :
  isDisabled o = false -> alwaysIllegal o = false -> OP_16 < o -> numOps v < MaxOpsPerScript ->
  isBranchExecuting v = true \/ isConditional o = true ->
  run_pops ecdsa (mkPop o None :: ps) v = Ret w <->
  exists u, opfunc ecdsa (mkPop o None) (bump v) = Ret u /\ zlen (dstack u) <= MaxStackSize /\
    run_pops ecdsa ps u = Ret w.
Proof.
  intros Hd Hi Ho Hn Hb. cbn [run_pops]. unfold exec_one, executeOpcode. cbn [pop_value].
  rewrite Hd, Hi. destruct (Z.ltb_spec OP_16 o); [|lia].
  change (numOps (set_numOps ?n ?v)) with n. cbn [mbind outcome_bind numOps set_pc set_numOps].
  destruct (Z.ltb_spec MaxOpsPerScript (numOps v + 1)); [lia|]. cbn [mbind outcome_bind].
  fold (bump v).
  assert (negb (isBranchExecuting (bump v)) && negb (isConditional o) = false) as ->.
  { change (isBranchExecuting (bump v)) with (isBranchExecuting v).
    destruct Hb as [-> | ->]; [done|apply andb_false_r]. }
  assert (isBranchExecuting (bump v) && (0 <=? o) && (o <=? OP_PUSHDATA4) = false) as ->.
  { unfold OP_16, OP_PUSHDATA4 in *. destruct (Z.leb_spec o 0x4e); [lia|]. by rewrite andb_false_r. }
  cbn [mbind outcome_bind].
  destruct (opfunc ecdsa (mkPop o None) (bump v)) as [u|e|e]; cbn [mbind outcome_bind];
    [|split; [done|by intros (?&?&_)]|split; [done|by intros (?&?&_)]].
  destruct (Z.ltb_spec MaxStackSize (zlen (dstack u))); cbn [mbind outcome_bind].
  - split; [done|]. intros (u'&[= <-]&?&_). lia.
  - split; [eauto|]. by intros (u'&[= <-]&_&?).
Qed.

(** An opcode in a branch that is not taken. *)
Lemma run_hidden p ps v w :
  isDisabled (pop_value p) = false -> alwaysIllegal (pop_value p) = false ->
  isConditional (pop_value p) = false -> isBranchExecuting v = false ->
  numOps v < MaxOpsPerScript -> data_len p <= MaxScriptElementSize -> zlen (dstack v) <= MaxStackSize ->
  run_pops ecdsa (p :: ps) v = Ret w <->
  run_pops ecdsa ps (if OP_16 <? pop_value p then bump v
                     else set_pc (scriptIdx v) (scriptOff v + 1) v) = Ret w.
Proof.
  intros Hd Hi Hc Hb Hn Hl Hst. cbn [run_pops]. unfold exec_one, executeOpcode.
  rewrite Hd, Hi. destruct (Z.ltb_spec OP_16 (pop_value p)).
  - cbn [mbind outcome_bind numOps set_pc set_numOps].
    destruct (Z.ltb_spec MaxOpsPerScript (numOps v + 1)); [lia|]. cbn [mbind outcome_bind].
    fold (bump v).
    change (isBranchExecuting (bump v)) with (isBranchExecuting v). rewrite Hb, Hc.
    cbn [negb andb]. change (dstack (bump v)) with (dstack v).
    cbn [mbind outcome_bind]. change (dstack (bump v)) with (dstack v).
    by destruct (Z.ltb_spec MaxStackSize (zlen (dstack v))); [lia|].
  - destruct (Z.ltb_spec MaxScriptElementSize (data_len p)); [lia|]. cbn [mbind outcome_bind].
    change (isBranchExecuting (set_pc ?i ?o v)) with (isBranchExecuting v). rewrite Hb, Hc.
    cbn [negb andb mbind outcome_bind]. change (dstack (set_pc ?i ?o v)) with (dstack v).
    by destruct (Z.ltb_spec MaxStackSize (zlen (dstack v))); [lia|].
Qed.

Lemma data_op_plain n :
  1 <= n <= 75 ->
  isDisabled n = false /\ alwaysIllegal n = false /\ isConditional n = false /\ (OP_16 <? n) = false.
Proof.
  intros Hn. unfold isDisabled, alwaysIllegal, isConditional, OP_VERIF, OP_VERNOTIF, OP_IF, OP_NOTIF,
    OP_ELSE, OP_ENDIF, OP_16. cbn [existsb]. lia.
Qed.

Lemma run_hidden_data d ps v w :
  1 <= zlen d <= 75 -> isBranchExecuting v = false ->
  numOps v < MaxOpsPerScript -> zlen (dstack v) <= MaxStackSize ->
  run_pops ecdsa (mkPop (zlen d) (Some d) :: ps) v = Ret w <->
  run_pops ecdsa ps (set_pc (scriptIdx v) (scriptOff v + 1) v) = Ret w.
Proof.
  intros Hd Hb Hn Hst. destruct (data_op_plain (zlen d) Hd) as (?&?&?&Ho).
  rewrite run_hidden by (try done; unfold data_len, MaxScriptElementSize; cbn [pop_data]; lia).
  cbn [pop_value]. by rewrite Ho.
Qed.

Lemma run_hidden_op o ps v w :
  isDisabled o = false -> alwaysIllegal o = false -> isConditional o = false -> (OP_16 <? o) = true ->
  isBranchExecuting v = false -> numOps v < MaxOpsPerScript -> zlen (dstack v) <= MaxStackSize ->
  run_pops ecdsa (mkPop o None :: ps) v = Ret w <-> run_pops ecdsa ps (bump v) = Ret w.
Proof. intros ??? Ho ???. rewrite run_hidden by done. cbn [pop_value]. by rewrite Ho. Qed.

(** A data push in a branch that is taken. *)
Lemma run_data d ps v w :
  1 <= zlen d <= 75 -> (forall b, d = [b] -> 16 < b /\ b <> 0x81 \/ b = 0) -> isBranchExecuting v = true ->
  run_pops ecdsa (mkPop (zlen d) (Some d) :: ps) v = Ret w <->
  zlen (d :: dstack v) <= MaxStackSize /\
  run_pops ecdsa ps (PushByteArray d (set_pc (scriptIdx v) (scriptOff v + 1) v)) = Ret w.
Proof.
  intros Hd Hmin Hb. cbn [run_pops]. unfold exec_one, executeOpcode. cbn [pop_value].
  destruct (data_op_plain (zlen d) Hd) as (-> & -> & _ & ->).
  unfold data_len, MaxScriptElementSize. cbn [pop_data].
  destruct (Z.ltb_spec 520 (zlen d)); [lia|]. cbn [mbind outcome_bind].
  change (isBranchExecuting (set_pc ?i ?o v)) with (isBranchExecuting v). rewrite Hb. cbn [negb andb].
  assert ((0 <=? zlen d) && (zlen d <=? OP_PUSHDATA4) = true) as -> by (unfold OP_PUSHDATA4; lia).
  assert (checkMinimalDataPush (mkPop (zlen d) (Some d)) = Ret tt) as ->.
  { unfold checkMinimalDataPush. cbn [pop_data pop_value]. change (default [] (Some d)) with d.
    destruct (Z.eqb_spec (zlen d) 0); [lia|]. cbn [andb].
    destruct (Z.eqb_spec (zlen d) 1) as [H1|].
    - apply zlen_1 in H1 as [b ->]. simpl. specialize (Hmin b eq_refl).
      destruct (Z.leb_spec 1 b), (Z.leb_spec b 16), (Z.eqb_spec b 129); simpl; lia || done.
    - cbn [andb]. destruct (Z.leb_spec (zlen d) 75); [|lia]. by rewrite Z.eqb_refl. }
  cbn [mbind outcome_bind]. unfold opfunc. cbn [pop_value pop_data]. unfold OP_0, OP_PUSHDATA4.
  destruct (Z.eqb_spec (zlen d) 0); [lia|]. destruct (Z.leb_spec (zlen d) 0x4e); [|lia].
  change (default [] (Some d)) with d. cbn [mbind outcome_bind].
  change (dstack (PushByteArray d (set_pc ?i ?o v))) with (d :: dstack v).
  destruct (Z.ltb_spec MaxStackSize (zlen (d :: dstack v))); cbn [mbind outcome_bind].
  - split; [done|lia].
  - split; [done|by intros [_ ?]].
Qed.

(** ** The contract on an arbitrary stack *)

Context (scs : list (list parsedOpcode)) (i : nat) (b16 : bool) (sv : list bytes)
        (tx : MsgTx) (idx : nat).
Context (pkhMe pkhThem secretHash lockdata : bytes) (locktime : Z).
Hypothesis Hme : zlen pkhMe = 20.
Hypothesis Hthem : zlen pkhThem = 20.
Hypothesis Hsh : zlen secretHash = 32.
Hypothesis Hld : 1 <= zlen lockdata <= 5.
Hypothesis Hlmin : forall b, lockdata = [b] -> 16 < b /\ b <> 0x81 \/ b = 0.
Hypothesis Hlnum : makeScriptNum lockdata true 5 = Ret locktime.

Let cps := contract_pops pkhMe pkhThem secretHash (mkPop (zlen lockdata) (Some lockdata)).
Hypothesis Hcps : scs !! i = Some cps.

Let V (off : nat) (st : list bytes) (cs : list condVal) (n : Z) : vm :=
  mkVm scs i off st cs n b16 sv tx idx.

(** The stacks of the two ways to spend, top first. *)
Definition redeem_stack (st : list bytes) : Prop :=
  exists sig pubkey secret flag, st = [flag; secret; pubkey; sig] /\ asBool flag = true /\
    zlen secret = secretSize /\ sha256 secret = secretHash /\ Hash160 pubkey = pkhThem /\
    good_sig cps tx idx sig pubkey.

Definition refund_stack (st : list bytes) : Prop :=
  exists sig pubkey flag, st = [flag; pubkey; sig] /\ asBool flag = false /\
    0 <= locktime /\ verifyLockTime (TxLockTime tx) LockTimeThreshold locktime = Ret tt /\
    vm_sequence (V 0 [] [] 0) <> MaxTxInSequenceNum /\ Hash160 pubkey = pkhMe /\
    good_sig cps tx idx sig pubkey.

#[local] Ltac op H f :=
  apply run_op in H; [|done|done|done|done|first [by left|by right]];
  let u := fresh "u" in let Hu := fresh "Hu" in
  let Hst := fresh "Hst" in
  destruct H as (u & Hu & Hst & H);
  rewrite f in Hu;
  unfold opcodeIf, opcodeElse, opcodeEndif, opcodeDrop, opcodeDup, opcodeSize, opcodeEqualVerify,
    opcodeEqual, opcodeSha256, opcodeHash160, opcodeCheckLockTimeVerify, abstractVerify,
    PushInt, bump, set_numOps, set_pc, PopBool, PopByteArray, PeekByteArray, PushByteArray, set_condStack,
    set_dstack, V in Hu;
  cbn [scripts scriptIdx scriptOff dstack condStack numOps bip16 savedFirstStack vm_tx vm_txIdx
       mbind outcome_bind isBranchExecuting xorb] in Hu; rewrite ?asBool_fromBool in Hu.

#[local] Ltac dat H := apply run_data in H as [_ H]; [|lia|done|done].

#[local] Ltac hide H :=
  first [apply run_hidden_data in H; [|first [lia|done]|done|done|done]
        |apply run_hidden_op in H; [|done|done|done|done|done|done|done]];
  unfold bump, set_numOps, set_pc, set_condStack, set_dstack in H;
  cbn [scripts scriptIdx scriptOff dstack condStack numOps bip16 savedFirstStack vm_tx vm_txIdx] in H.

#[local] Ltac pop st x :=
  destruct st as [|x st]; [discriminate|];
  repeat match goal with H : context [mbind _ (Ret _)] |- _ => progress cbn [mbind outcome_bind] in H end.

Lemma size_bytes n : 0 <= n < 2 ^ 63 -> scriptNum_Bytes n = Ret [32] -> n = 32.
Proof.
  intros Hn. unfold scriptNum_Bytes. destruct (Z.eqb_spec n 0); [done|].
  destruct (Z.ltb_spec n 0); [lia|].
  destruct (snum_loop_spec 8 n) as (Hv&_&_); [change (256 ^ Z.of_nat 8) with (2 * 2 ^ 63); lia|].
  generalize dependent (snum_loop 8 n). intros l Hv.
  destruct (last l); [|done]. destruct (negb _).
  - intros [= Heq]. destruct l as [|x [|y l]]; discriminate Heq.
  - intros [= ->]. done.
Qed.

Lemma checksig_inv v w :
  opcodeCheckSig ecdsa v = Ret w -> subScript v = cps -> vm_tx v = tx -> vm_txIdx v = idx ->
  exists pubkey sig st b, dstack v = pubkey :: sig :: st /\ w = set_dstack (fromBool b :: st) v /\
    (b = true -> good_sig cps tx idx sig pubkey).
Proof.
  destruct v as [scs' i' o' ds cs' n' b' sv' tx' idx']. cbn [Engine.subScript Engine.dstack Engine.vm_tx Engine.vm_txIdx]. unfold opcodeCheckSig.
  destruct ds as [|pk [|sig st]]; [done|done|].
  unfold PopByteArray. cbn [dstack set_dstack mbind outcome_bind].
  intros H Hsub -> ->.
  destruct sig as [|ht body _] using rev_ind; [injection H as <-; by exists pk, [], st, false|].
  rewrite last_snoc in H. exists pk, (body ++ [ht]), st.
  rewrite length_app, Nat.add_sub, take_app_length in H.
  destruct (checkHashTypeEncoding ht) as [[]| |] eqn:E1; try done. cbn [mbind outcome_bind] in H.
  destruct (checkSignatureEncoding body) as [[]| |] eqn:E2; try done. cbn [mbind outcome_bind] in H.
  destruct (checkPubKeyEncoding pk) as [[]| |] eqn:E3; try done. cbn [mbind outcome_bind] in H.
  cbn [vm_tx vm_txIdx set_dstack] in H.
  match type of H with context [removeOpcodeByData ?s _] => change s with (subScript
    (mkVm scs' i' o' (pk :: (body ++ [ht]) :: st) cs' n' b' sv' tx idx)) in H end.
  rewrite Hsub in H.
  destruct (ecdsa _ pk body) as [valid|] eqn:E4; [|injection H as <-; by exists false].
  destruct (negb valid && (0 <? zlen body)); [done|]. injection H as <-. exists valid.
  split_and!; try done. intros ->. exists body, ht. done.
Qed.
(** What the script leaves on an accepting run. *)
Definition accepting (w : vm) : Prop :=
  condStack w = [] /\ exists b, dstack w = [b] /\ asBool b = true.

(** The last two opcodes, common to both branches. *)
Lemma contract_tail off st n w pkh :
  run_pops ecdsa [mkPop OP_EQUALVERIFY None; mkPop OP_CHECKSIG None] (V off st [] n) = Ret w ->
  accepting w -> n + 2 <= MaxOpsPerScript ->
  forall pubkey st', st = pkh :: Hash160 pubkey :: pubkey :: st' ->
  Hash160 pubkey = pkh /\ exists sig, st' = [sig] /\ good_sig cps tx idx sig pubkey.
Proof.
  intros H (_&b&Hw&Hb) Hn pubkey st' ->. unfold MaxOpsPerScript in Hn.
  apply run_op in H as (u&Hu&_&H); [|done|done|done|unfold MaxOpsPerScript; cbn; lia|by left].
  rewrite op_equalverify in Hu.
  unfold opcodeEqualVerify, opcodeEqual, abstractVerify, PopBool, PopByteArray, PushByteArray in Hu.
  cbn [bump dstack set_dstack set_numOps set_pc mbind outcome_bind V] in Hu.
  rewrite asBool_fromBool in Hu. case_bool_decide as Hb'; [|discriminate Hu]. injection Hu as <-.
  apply run_op in H as (u&Hu&_&H); [|done|done|done|unfold MaxOpsPerScript; cbn; lia|by left].
  rewrite op_checksig in Hu. apply checksig_inv in Hu as (pk&sig&st2&b'&Hst&->&Hg); [|by unfold subScript; cbn; rewrite Hcps|done|done].
  cbn in Hst. injection Hst as <- ->. cbn in H. injection H as <-. cbn in Hw. injection Hw as <- ->.
  rewrite asBool_fromBool in Hb. split; [done|]. eauto.
Qed.

(** Only the two ways to spend are accepted. *)
Lemma contract_sound st w :
  Forall (fun x => zlen x < 2 ^ 63) st ->
  run_pops ecdsa cps (V 0 st [] 0) = Ret w -> accepting w -> redeem_stack st \/ refund_stack st.
Proof.
  intros Hsz H Hacc. unfold cps, contract_pops in H.
  op H op_if. pop st flag. cbn in Hu. injection Hu as <-.
  destruct (asBool flag) eqn:Hflag.
  - op H op_size. pop st secret.
    destruct (scriptNum_Bytes (zlen secret)) as [szb| |] eqn:Hszb; try discriminate Hu.
    injection Hu as <-.
    change (mkPop 1 (Some [32])) with (mkPop (zlen [32]) (Some [32])) in H.
    apply run_data in H as [_ H]; [|done|by intros b [= <-]; lia|done].
    op H op_equalverify. case_bool_decide as Hb; [subst szb|discriminate Hu].
    injection Hu as <-. apply size_bytes in Hszb; [|inversion_clear Hsz as [|?? _ Hsz']; inversion_clear Hsz'; pose proof (zlen_nonneg secret); lia].
    op H op_sha256. injection Hu as <-.
    rewrite <- Hsh in H. apply run_data in H as [_ H]; [|lia|intros b ->; discriminate|done].
    op H op_equalverify. case_bool_decide as Hb; [|discriminate Hu]. injection Hu as <-.
    op H op_dup. pop st pubkey. injection Hu as <-.
    op H op_hash160. injection Hu as <-.
    rewrite <- Hthem in H at 1. apply run_data in H as [_ H]; [|lia|intros b ->; discriminate|done].
    op H op_else. injection Hu as <-.
    hide H. hide H. hide H. hide H. hide H. rewrite <- Hme in H at 1. hide H.
    op H op_endif. injection Hu as <-.
    destruct (contract_tail _ _ _ _ pkhThem H Hacc ltac:(done) pubkey st eq_refl) as (Hp&sig&->&Hsig).
    left. exists sig, pubkey, secret, flag. done.
  - change (mkPop 1 (Some [32])) with (mkPop (zlen [32]) (Some [32])) in H.
    hide H. hide H. hide H. hide H. rewrite <- Hsh in H. hide H. hide H. hide H. hide H.
    rewrite <- Hthem in H at 1. hide H.
    op H op_else. injection Hu as <-.
    apply run_data in H as [_ H]; [|lia|done|done].
    op H op_cltv. rewrite Hlnum in Hu. cbn [mbind outcome_bind] in Hu.
    destruct (Z.ltb_spec locktime 0); [discriminate Hu|].
    destruct (verifyLockTime (TxLockTime tx) LockTimeThreshold locktime) as [[]| |] eqn:Hlt;
      try discriminate Hu. cbn [mbind outcome_bind] in Hu.
    change (vm_sequence _) with (vm_sequence (V 0 [] [] 0)) in Hu.
    destruct (Z.eqb_spec (vm_sequence (V 0 [] [] 0)) MaxTxInSequenceNum) as [|Hseq]; [discriminate Hu|].
    injection Hu as <-.
    op H op_drop. injection Hu as <-.
    op H op_dup. pop st pubkey. injection Hu as <-.
    op H op_hash160. injection Hu as <-.
    rewrite <- Hme in H at 1. apply run_data in H as [_ H]; [|lia|intros b ->; discriminate|done].
    op H op_endif. injection Hu as <-.
    destruct (contract_tail _ _ _ _ pkhMe H Hacc ltac:(done) pubkey st eq_refl) as (Hp&sig&->&Hsig).
    right. exists sig, pubkey, flag. done.
Qed.

(** ** Both ways to spend are accepted *)

#[local] Ltac fop f :=
  apply run_op; [done|done|done|done|first [by left|by right]|];
  eexists; rewrite f;
  unfold opcodeIf, opcodeElse, opcodeEndif, opcodeDrop, opcodeDup, opcodeSize, opcodeEqualVerify,
    opcodeEqual, opcodeSha256, opcodeHash160, opcodeCheckLockTimeVerify, abstractVerify,
    PushInt, bump, set_numOps, set_pc, PopBool, PopByteArray, PeekByteArray, PushByteArray, set_condStack,
    set_dstack;
  cbn [scripts scriptIdx scriptOff dstack condStack numOps bip16 savedFirstStack vm_tx vm_txIdx
       mbind outcome_bind isBranchExecuting xorb].

#[local] Ltac fret := split; [reflexivity|split; [done|]].

#[local] Ltac fpush := apply run_data; [first [lia|done]|first [done|by intros ? [= <-]; lia|by intros ? ->]|done|split; [done|]];
  unfold PushByteArray, set_pc, set_dstack;
  cbn [scripts scriptIdx scriptOff dstack condStack numOps bip16 savedFirstStack vm_tx vm_txIdx].

#[local] Ltac fhide :=
  lazymatch goal with
  | |- run_pops _ (mkPop _ None :: _) _ = _ => apply run_hidden_op; [done|done|done|done|done|done|done|]
  | _ => apply run_hidden_data; [first [lia|done]|done|done|done|]
  end;
  unfold bump, set_numOps, set_pc, set_condStack, set_dstack;
  cbn [scripts scriptIdx scriptOff dstack condStack numOps bip16 savedFirstStack vm_tx vm_txIdx].

Lemma checksig_good pubkey sig st off n :
  good_sig cps tx idx sig pubkey ->
  opcodeCheckSig ecdsa (V off (pubkey :: sig :: st) [] n) = Ret (V off ([1] :: st) [] n).
Proof.
  intros (body&ht&->&H1&H2&H3&H4). unfold opcodeCheckSig, PopByteArray.
  cbn [dstack set_dstack mbind outcome_bind V]. rewrite last_snoc, length_app, Nat.add_sub, take_app_length.
  rewrite H1. cbn [mbind outcome_bind]. rewrite H2. cbn [mbind outcome_bind]. rewrite H3.
  cbn [mbind outcome_bind]. unfold subScript. cbn [scripts scriptIdx vm_tx vm_txIdx set_dstack V].
  rewrite Hcps. change (default [] (Some cps)) with cps. by rewrite H4.
Qed.

Lemma contract_complete st0 :
  redeem_stack st0 \/ refund_stack st0 ->
  exists w, run_pops ecdsa cps (V 0 st0 [] 0) = Ret w /\ accepting w.
Proof.
  intros [(sig&pubkey&secret&flag&Hst&Hf&Hlen&Hh&Hp&Hsig)|(sig&pubkey&flag&Hst&Hf&Hl0&Hlt&Hseq&Hp&Hsig)];
    (cut (exists off n, run_pops ecdsa cps (V 0 st0 [] 0) = Ret (V off [[1]] [] n));
      [intros (off&n&->); eexists; split; [done|]; split; [done|by exists [1]]|subst st0]);
    exists 20%nat, 15;
    unfold cps, contract_pops, V; fop op_if; rewrite Hf; fret.
  - fop op_size. rewrite Hlen. fret.
    change (mkPop 1 (Some [32])) with (mkPop (zlen [32]) (Some [32])). fpush.
    fop op_equalverify. fret. fop op_sha256. rewrite Hh. fret.
    rewrite <- Hsh. fpush. fop op_equalverify. rewrite bool_decide_true by done. fret.
    fop op_dup. fret. fop op_hash160. fold (Hash160 pubkey). rewrite Hp. fret.
    rewrite <- Hthem at 1. fpush. fop op_else. fret.
    fhide. fhide. fhide. fhide. fhide. rewrite <- Hme at 1. fhide. fop op_endif. fret.
    fop op_equalverify. rewrite bool_decide_true by done. fret.
    fop op_checksig. split; [exact (checksig_good pubkey sig [] _ _ Hsig)|split; [done|reflexivity]].
  - change (mkPop 1 (Some [32])) with (mkPop (zlen [32]) (Some [32])).
    fhide. fhide. fhide. fhide. rewrite <- Hsh at 1. fhide. fhide. fhide. fhide.
    rewrite <- Hthem at 1. fhide. fop op_else. fret. fpush.
    fop op_cltv. rewrite Hlnum. cbn [mbind outcome_bind].
    destruct (Z.ltb_spec locktime 0); [lia|]. rewrite Hlt. cbn [mbind outcome_bind].
    change (vm_sequence _) with (vm_sequence (V 0 [] [] 0)).
    destruct (Z.eqb_spec (vm_sequence (V 0 [] [] 0)) MaxTxInSequenceNum); [done|]. fret.
    fop op_drop. fret. fop op_dup. fret. fop op_hash160. fold (Hash160 pubkey). rewrite Hp. fret.
    rewrite <- Hme at 1. fpush. fop op_endif. fret.
    fop op_equalverify. rewrite bool_decide_true by done. fret.
    fop op_checksig. split; [exact (checksig_good pubkey sig [] _ _ Hsig)|split; [done|reflexivity]].
Qed.
End Accepts.
