(* ===== verification/P2shTheorems.v ===== *)
(** * Spending the contract output

    The pay-to-script-hash evaluation around the contract: what a spend of
    the contract output must look like to be accepted, and that the redemption
    and refund scripts of the tool are accepted. *)

From S2P Require Import Prelude Sha256 Script ScriptFacts Ripemd160 Wire WireTheorems SwapContract SwapTheorems Vectors Engine EngineFacts EngineTheorems.

(** The output script paying to the script hash [h]. *)
Definition p2sh_bytes (h : bytes) : bytes := [OP_HASH160; 20] ++ h ++ [OP_EQUAL].
Definition p2sh_pops (h : bytes) : list parsedOpcode :=
  [mkPop OP_HASH160 None; mkPop 20 (Some h); mkPop OP_EQUAL None].

(** What a push leaves on the stack. *)
Definition push_value (p : parsedOpcode) : bytes :=
  let o := pop_value p in
  if o =? OP_0 then []
  else if o <=? OP_PUSHDATA4 then default [] (pop_data p)
  else if o =? OP_1NEGATE then [0x81]
  else [o - (OP_1 - 1)].

(** The stack a push-only script leaves, top first. *)
Definition push_stack (ps : list parsedOpcode) : list bytes := rev (map push_value ps).

(** Reduce the record of the engine. *)
#[local] Ltac vm_cbn H :=
  unfold bump, set_numOps, set_pc, set_dstack, set_condStack, set_saved, add_script, PushByteArray in H;
  cbn [scripts scriptIdx scriptOff dstack condStack numOps bip16 savedFirstStack vm_tx vm_txIdx
       mbind outcome_bind] in H.
#[local] Ltac vm_cbng :=
  unfold bump, set_numOps, set_pc, set_dstack, set_condStack, set_saved, add_script, PushByteArray;
  cbn [scripts scriptIdx scriptOff dstack condStack numOps bip16 savedFirstStack vm_tx vm_txIdx
       mbind outcome_bind].

Section P2sh.
Context (ecdsa : bytes -> bytes -> bytes -> option bool).

(** The engine accepts the input [idx] of [tx] for the output script. *)
Definition accepts (pkScript : bytes) (tx : MsgTx) (idx : nat) : Prop :=
  (e ← NewEngine pkScript tx idx; Execute ecdsa e) = Ret tt.

(** ** Push-only scripts *)

Lemma stack_checked u w e :
  (v ← Ret u; if MaxStackSize <? zlen (dstack v) then Fail e else Ret v) = Ret w -> w = u.
Proof. cbn [mbind outcome_bind]. destruct (MaxStackSize <? _); [done|]. by intros [= ->]. Qed.

Lemma exec_push p v w :
  pop_value p <= OP_16 -> condStack v = [] -> exec_one ecdsa p v = Ret w ->
  w = set_dstack (push_value p :: dstack v) (set_pc (scriptIdx v) (scriptOff v + 1) v) /\
  (zlen (push_value p) <= MaxScriptElementSize).
Proof.
  intros Hp Hc H. unfold exec_one, executeOpcode in H.
  destruct (isDisabled (pop_value p)); [done|]. destruct (alwaysIllegal (pop_value p)); [done|].
  destruct (Z.ltb_spec OP_16 (pop_value p)); [lia|].
  destruct (Z.ltb_spec MaxScriptElementSize (data_len p)) as [|Hl]; [done|]. cbn [mbind outcome_bind] in H.
  assert (isBranchExecuting (set_pc (scriptIdx v) (scriptOff v + 1) v) = true) as Hb
    by (unfold isBranchExecuting; cbn [condStack set_pc]; by rewrite Hc).
  rewrite Hb in H. cbn [negb andb] in H.
  destruct (if (0 <=? pop_value p) && (pop_value p <=? OP_PUSHDATA4) then checkMinimalDataPush p else Ret tt)
    as [[]| |]; try done. cbn [mbind outcome_bind] in H.
  unfold opfunc, PushInt, PushByteArray in H. unfold push_value.
  destruct (Z.eqb_spec (pop_value p) OP_0).
  { apply stack_checked in H as ->. by split. }
  destruct (Z.leb_spec (pop_value p) OP_PUSHDATA4).
  { apply stack_checked in H as ->. split; [done|].
    unfold data_len in Hl. destruct (pop_data p); [done|]. by compute. }
  destruct (Z.eqb_spec (pop_value p) OP_1NEGATE).
  { apply stack_checked in H as ->. by split. }
  destruct (Z.eqb_spec (pop_value p) OP_RESERVED); [done|].
  destruct (Z.leb_spec (pop_value p) OP_16); [|lia].
  unfold OP_PUSHDATA4, OP_1NEGATE, OP_RESERVED, OP_1, OP_16 in *.
  rewrite scriptNum_Bytes_small in H by lia.
  apply stack_checked in H as ->. by split.
Qed.

Lemma run_push_only ps v w :
  isPushOnly ps = true -> condStack v = [] -> run_pops ecdsa ps v = Ret w ->
  w = set_dstack (push_stack ps ++ dstack v) (set_pc (scriptIdx v) (scriptOff v + length ps) v) /\
  Forall (fun x => zlen x <= MaxScriptElementSize) (push_stack ps).
Proof.
  revert v w. induction ps as [|p ps IH]; intros v w Hp Hc H.
  - injection H as <-. split; [|constructor]. destruct v. cbn. by rewrite Nat.add_0_r.
  - simpl in Hp. apply andb_true_iff in Hp as [Hp1 Hp2]. apply Z.leb_le in Hp1.
    cbn [run_pops] in H. destruct (exec_one ecdsa p v) as [u| |] eqn:E; try done.
    apply exec_push in E as [-> Hl]; [|done|done]. cbn [mbind outcome_bind] in H.
    apply IH in H as [-> Hall]; [|done|done]. unfold push_stack in *. simpl.
    split.
    + destruct v as [a1 a2 a3 a4 a5 a6 a7 a8 a9 a10]. unfold set_dstack, set_pc.
      cbn [scripts scriptIdx scriptOff dstack condStack numOps bip16 savedFirstStack vm_tx vm_txIdx length].
      rewrite <- app_assoc. f_equal. lia.
    + apply Forall_app. by repeat constructor.
Qed.

(** ** The output script *)

Lemma p2sh_run scs sv tx idx st h w :
  zlen h = 20 ->
  run_pops ecdsa (p2sh_pops h) (mkVm scs 1 0 st [] 0 true sv tx idx) = Ret w ->
  exists rs st', st = rs :: st' /\
    w = mkVm scs 1 3 (fromBool (bool_decide (h = Hash160 rs)) :: st') [] 2 true sv tx idx.
Proof.
  intros Hh H. unfold p2sh_pops in H.
  apply run_op in H as (u&Hu&_&H); [|done|done|done|done|by left].
  rewrite op_hash160 in Hu. unfold opcodeHash160, PopByteArray in Hu. vm_cbn Hu.
  destruct st as [|rs st']; [done|]. vm_cbn Hu. injection Hu as <-.
  rewrite <- Hh in H. apply run_data in H as [_ H]; [|lia|intros b ->; discriminate|done].
  vm_cbn H. apply run_op in H as (u&Hu&_&H); [|done|done|done|done|by left].
  rewrite op_equal in Hu. unfold opcodeEqual, PopByteArray in Hu. vm_cbn Hu. injection Hu as <-.
  cbn [run_pops] in H. injection H as <-. by exists rs, st'.
Qed.
(** ** The whole evaluation *)

Lemma parse_p2sh h : zlen h = 20 -> parseScript (p2sh_bytes h) = Ret (p2sh_pops h).
Proof.
  intros Hh. unfold p2sh_bytes. simpl app. rewrite parseScript_op by done.
  by rewrite (parseScript_data' 20 h) by (done || lia).
Qed.

Lemma Execute_loop_script ps v f :
  scripts v !! scriptIdx v = Some ps -> ps <> [] -> scriptOff v = 0%nat -> (length ps <= f)%nat ->
  Execute_loop ecdsa f v =
  (v ← run_pops ecdsa ps v; '(v, done) ← end_script v;
   if (done : bool) then Ret v else Execute_loop ecdsa (f - length ps) v).
Proof.
  intros Hs Hne Ho Hf. destruct ps as [|p ps]; [done|].
  rewrite <- (Execute_loop_run ecdsa ps p [] v (f - length (p :: ps))) by done.
  f_equal. lia.
Qed.

(** The run of the third script, the one the signature script pushed. *)
Lemma inner_run sigpops h rs st tx idx p ps f :
  (length (p :: ps) <= f)%nat ->
  (v ← Execute_loop ecdsa f
         (mkVm [sigpops; p2sh_pops h; p :: ps] 2 0 st [] 0 true (rs :: st) tx idx);
   _ ← CheckErrorCondition true v; Ret tt) = Ret tt <->
  exists w, run_pops ecdsa (p :: ps)
         (mkVm [sigpops; p2sh_pops h; p :: ps] 2 0 st [] 0 true (rs :: st) tx idx) = Ret w /\ accepting w.
Proof.
  intros Hf. rewrite (Execute_loop_script (p :: ps)) by done.
  destruct (run_pops ecdsa (p :: ps) _) as [w|e|e] eqn:E; cbn [mbind outcome_bind];
    [|split; [done|by intros (?&?&_)]|split; [done|by intros (?&?&_)]].
  apply run_pops_frame in E as (E1&E2&_&E4&_). cbn [scripts scriptIdx bip16] in E1, E2, E4.
  destruct w as [scs i o ds cs n b sv tx' idx']. cbn [scripts scriptIdx bip16] in E1, E2, E4. subst.
  unfold end_script, accepting. cbn [condStack dstack length].
  destruct cs as [|c cs]; cbn [length Nat.eqb negb];
    [|split; [done|by intros (?&[= <-]&?&_)]].
  unfold set_pc, set_numOps, CheckErrorCondition. cbn.
  destruct ds as [|x [|y ds]]; cbn.
  - split; [done|by intros (?&[= <-]&_&?&?&_)].
  - destruct (asBool x) eqn:Ex; cbn.
    + split; [|done]. intros _. eexists. split; [done|]. split; [done|]. by exists x.
    + split; [done|]. intros (?&[= <-]&_&?&[= <-]&?). congruence.
  - split; [done|by intros (?&[= <-]&_&?&?&_)].
Qed.
Lemma parse_length s ps : parseScript s = Ret ps -> (length ps <= length s)%nat.
Proof.
  revert ps. induction s as [|i r IH] using script_ind; intros ps H; [by injection H as <-|].
  rewrite parseScript_cons in H. destruct (parse_one i r) as [[p s']| |] eqn:E; simpl in H; try done.
  apply parse_one_shorter in E. destruct (parseScript s') as [l| |] eqn:Hs; simpl in H; try done.
  injection H as <-. specialize (IH s' E l Hs). simpl. lia.
Qed.

Lemma parseScript_nil s : parseScript s = Ret [] -> s = [].
Proof.
  destruct s as [|i r]; [done|]. rewrite parseScript_cons.
  destruct (parse_one i r) as [[p s']| |]; simpl; try done. by destruct (parseScript s').
Qed.

Lemma p2sh_run_ok scs sv tx idx rs st :
  zlen st <= 900 ->
  run_pops ecdsa (p2sh_pops (Hash160 rs)) (mkVm scs 1 0 (rs :: st) [] 0 true sv tx idx) =
  Ret (mkVm scs 1 3 ([1] :: st) [] 2 true sv tx idx).
Proof.
  intros Hst. unfold p2sh_pops. pose proof (zlen_nonneg st).
  apply run_op; [done|done|done|done|by left|]. eexists. rewrite op_hash160.
  unfold opcodeHash160, PopByteArray. fold (Hash160 rs). vm_cbng.
  split; [reflexivity|]. vm_cbng. split; [autorewrite with swap_len; unfold MaxStackSize; lia|].
  rewrite <- (Hash160_length rs) at 1.
  apply run_data; [rewrite Hash160_length; lia
                  |intros b Hb; pose proof (Hash160_length rs) as Hl; rewrite Hb in Hl; discriminate|done|].
  vm_cbng. split; [autorewrite with swap_len; unfold MaxStackSize; lia|].
  apply run_op; [done|done|done|done|by left|]. eexists. rewrite op_equal.
  unfold opcodeEqual, PopByteArray. vm_cbng. rewrite bool_decide_true by done.
  split; [reflexivity|]. vm_cbng. split; [cbn [fromBool]; autorewrite with swap_len; unfold MaxStackSize; lia|].
  reflexivity.
Qed.

(** The state after the first two scripts. *)
Lemma outer_run sigpops tx idx rs st f :
  let v0 := mkVm [sigpops; p2sh_pops (Hash160 rs)] 0 0 [] [] 0 true [] tx idx in
  sigpops <> [] -> (length sigpops + 3 <= f)%nat -> zlen st <= 900 ->
  run_pops ecdsa sigpops v0 = Ret (set_dstack (rs :: st) (set_pc 0 (length sigpops) v0)) ->
  forall p ps, parseScript rs = Ret (p :: ps) ->
  Execute_loop ecdsa f v0 =
  Execute_loop ecdsa (f - length sigpops - 3)
    (mkVm [sigpops; p2sh_pops (Hash160 rs); p :: ps] 2 0 st [] 0 true (rs :: st) tx idx).
Proof.
  intros v0 Hne Hf Hst Hrun p ps Hparse.
  rewrite (Execute_loop_script sigpops) by (done || (simpl; lia)). rewrite Hrun.
  unfold end_script, v0. vm_cbng. cbn [length Nat.eqb negb andb]. vm_cbng. cbn.
  rewrite (Execute_loop_script (p2sh_pops (Hash160 rs))) by (done || (simpl; lia)).
  rewrite p2sh_run_ok by done. unfold end_script. vm_cbng.
  cbn [length Nat.eqb negb andb]. vm_cbng. unfold CheckErrorCondition. cbn. rewrite Hparse. cbn.
  done.
Qed.
Lemma NewEngine_p2sh h tx idx ti e :
  zlen h = 20 -> TxIns tx !! idx = Some ti -> NewEngine (p2sh_bytes h) tx idx = Ret e ->
  zlen (SignatureScript ti) <= MaxScriptSize /\
  exists sigpops, parseScript (SignatureScript ti) = Ret sigpops /\ isPushOnly sigpops = true /\
    e = mkVm [sigpops; p2sh_pops h] (if zlen (SignatureScript ti) =? 0 then 1 else 0) 0 [] [] 0 true
             [] tx idx.
Proof.
  intros Hh Hti H. unfold NewEngine in H. rewrite Hti, parse_p2sh in H by done.
  rewrite andb_false_r in H.
  destruct (Z.ltb_spec MaxScriptSize (zlen (SignatureScript ti))); [done|]. cbn [guard_err mbind outcome_bind] in H.
  destruct (parseScript (SignatureScript ti)) as [sigpops| |] eqn:Hps; try done. cbn [mbind outcome_bind] in H.
  destruct (MaxScriptSize <? zlen (p2sh_bytes h)); [done|]. cbn [guard_err mbind outcome_bind] in H.
  change (isScriptHash (p2sh_pops h)) with true in H.
  destruct (isPushOnly sigpops) eqn:Hpo; [|done]. cbn [negb andb guard_err mbind outcome_bind] in H.
  change (isWitnessProgram (p2sh_pops h)) with false in H.
  destruct (negb (zlen (Witness ti) =? 0)); [done|]. injection H as <-. split; [lia|]. by exists sigpops.
Qed.

Lemma NewEngine_p2sh_ok h tx idx ti sigpops :
  zlen h = 20 -> TxIns tx !! idx = Some ti -> Witness ti = [] ->
  0 < zlen (SignatureScript ti) <= MaxScriptSize ->
  parseScript (SignatureScript ti) = Ret sigpops -> isPushOnly sigpops = true ->
  NewEngine (p2sh_bytes h) tx idx = Ret (mkVm [sigpops; p2sh_pops h] 0 0 [] [] 0 true [] tx idx).
Proof.
  intros Hh Hti Hw Hl Hp Hpo. unfold NewEngine. rewrite Hti, parse_p2sh, Hw, Hp by done.
  destruct (Z.eqb_spec (zlen (SignatureScript ti)) 0); [lia|].
  destruct (Z.ltb_spec MaxScriptSize (zlen (SignatureScript ti))); [lia|].
  cbn [andb guard_err mbind outcome_bind].
  assert ((MaxScriptSize <? zlen (p2sh_bytes h)) = false) as ->.
  { unfold p2sh_bytes, MaxScriptSize. autorewrite with swap_len. lia. }
  cbn [guard_err mbind outcome_bind]. change (isScriptHash (p2sh_pops h)) with true. by rewrite Hpo.
Qed.

(** An accepted spend of a script hash: the signature script only pushes,
    its last push hashes to the script hash, and that script accepts the
    rest of the stack. *)
Lemma accepts_p2sh h tx idx ti :
  zlen h = 20 -> TxIns tx !! idx = Some ti -> accepts (p2sh_bytes h) tx idx ->
  exists sigpops rs st, parseScript (SignatureScript ti) = Ret sigpops /\
    push_stack sigpops = rs :: st /\ Hash160 rs = h /\
    Forall (fun x => zlen x <= MaxScriptElementSize) st /\
    forall p ps, parseScript rs = Ret (p :: ps) ->
      exists w, run_pops ecdsa (p :: ps)
           (mkVm [sigpops; p2sh_pops h; p :: ps] 2 0 st [] 0 true (rs :: st) tx idx) = Ret w /\ accepting w.
Proof.
  intros Hh Hti Hacc. unfold accepts in Hacc.
  destruct (NewEngine (p2sh_bytes h) tx idx) as [e| |] eqn:HN; try done. cbn [mbind outcome_bind] in Hacc.
  destruct (NewEngine_p2sh h tx idx ti e Hh Hti HN) as (Hlen&sigpops&Hp&Hpo&->). exists sigpops.
  pose proof (parse_length _ _ Hp) as Hpl.
  unfold Execute in Hacc. set (fuel := Execute_fuel _) in Hacc.
  assert (length sigpops + 3 + 1000 <= fuel)%nat as Hfuel.
  { unfold fuel, Execute_fuel, zlen, MaxScriptSize in *. lia. }
  clearbody fuel. destruct (Z.eqb_spec (zlen (SignatureScript ti)) 0) as [H0|H0].
  { rewrite (Execute_loop_script (p2sh_pops h)) in Hacc by (done || (simpl; lia)).
    destruct (run_pops ecdsa (p2sh_pops h) _) as [w| |] eqn:E; done. }
  assert (sigpops <> []) as Hne.
  { intros ->. apply parseScript_nil in Hp. by rewrite Hp in H0. }
  pose proof Hacc as Hacc'.
  rewrite (Execute_loop_script sigpops) in Hacc by (done || (simpl; lia)).
  destruct (run_pops ecdsa sigpops _) as [w| |] eqn:E; try done.
  pose proof E as Erun. apply run_push_only in E as [Hw Hall]; [|done|done].
  vm_cbn Hw. rewrite app_nil_r in Hw. subst w. vm_cbn Hacc.
  unfold end_script in Hacc. vm_cbn Hacc. cbn in Hacc.
  rewrite (Execute_loop_script (p2sh_pops h)) in Hacc by (done || (simpl; lia)).
  destruct (run_pops ecdsa (p2sh_pops h) _) as [w| |] eqn:E; try done.
  apply p2sh_run in E as (rs&st&Hst&->); [|done]. exists rs, st. rewrite Hst in *.
  vm_cbn Hacc. unfold end_script in Hacc. vm_cbn Hacc. cbn in Hacc. unfold CheckErrorCondition in Hacc.
  cbn in Hacc. rewrite asBool_fromBool in Hacc. case_bool_decide as Hrs; [|done]. cbn in Hacc.
  inversion_clear Hall as [|?? Hrsl Hall'].
  split_and!; try done. intros p ps Hparse.
  apply parse_length in Hparse as Hpsl. unfold zlen, MaxScriptElementSize in Hrsl.
  rewrite Hparse in Hacc. cbn in Hacc.
  eapply inner_run; [|exact Hacc]. simpl in *. lia.
Qed.
(** ** The signature scripts of the tool *)

Lemma push_pop_minimal d :
  push_size_ok d ->
  pop_value (push_pop d) <= OP_PUSHDATA4 /\ 0 < pop_value (push_pop d) /\
  checkMinimalDataPush (push_pop d) = Ret tt.
Proof.
  intros [Hok Hd]. unfold MaxScriptElementSize in Hd. unfold checkMinimalDataPush.
  rewrite push_pop_data by done. change (default [] (Some d)) with d.
  assert (pop_value (push_pop d) =
          (if zlen d <? 76 then zlen d else if zlen d <=? 255 then OP_PUSHDATA1 else OP_PUSHDATA2)) as ->.
  { unfold push_pop, addData_chunk. destruct (Z.eqb_spec (zlen d) 0), (Z.eqb_spec (zlen d) 1); try lia.
    cbn [andb orb]. unfold OP_PUSHDATA1, OP_PUSHDATA2, OP_PUSHDATA4, OP_DATA_1.
    destruct d as [|b d]; [unfold zlen in Hd; simpl in Hd; lia|].
    destruct (Z.ltb_spec (zlen (b :: d)) 76); [cbn [app pop_value]; lia|].
    destruct (Z.leb_spec (zlen (b :: d)) 0xff); [done|].
    destruct (Z.leb_spec (zlen (b :: d)) 0xffff); [done|lia]. }
  unfold OP_0, OP_PUSHDATA1, OP_PUSHDATA2, OP_PUSHDATA4.
  destruct (Z.eqb_spec (zlen d) 0), (Z.eqb_spec (zlen d) 1); try lia. cbn [andb].
  destruct (Z.ltb_spec (zlen d) 76), (Z.leb_spec (zlen d) 255), (Z.leb_spec (zlen d) 75),
    (Z.leb_spec (zlen d) 65535); try lia; (split_and!; [lia|lia|]); rewrite ?Z.eqb_refl; done.
Qed.

Lemma exec_push_pop d ps v :
  push_size_ok d -> condStack v = [] -> zlen (dstack v) < 900 ->
  run_pops ecdsa (push_pop d :: ps) v =
  run_pops ecdsa ps (PushByteArray d (set_pc (scriptIdx v) (scriptOff v + 1) v)).
Proof.
  intros Hd Hc Hst. pose proof (push_pop_minimal d Hd) as (Hle&Hpos&Hmin).
  pose proof (push_pop_data d Hd) as Hpd. destruct Hd as [Hok Hl].
  cbn [run_pops]. unfold exec_one, executeOpcode.
  unfold OP_PUSHDATA4 in Hle. set (o := pop_value (push_pop d)) in *.
  assert (isDisabled o = false /\ alwaysIllegal o = false /\ (OP_16 <? o) = false) as (-> & -> & ->).
  { unfold isDisabled, alwaysIllegal, OP_VERIF, OP_VERNOTIF, OP_16. cbn [existsb]. lia. }
  unfold data_len. rewrite Hpd. destruct (Z.ltb_spec MaxScriptElementSize (zlen d)); [lia|].
  cbn [mbind outcome_bind]. unfold isBranchExecuting. cbn [condStack set_pc]. rewrite Hc. cbn [negb andb].
  unfold OP_PUSHDATA4. assert ((0 <=? o) && (o <=? 0x4e) = true) as -> by lia.
  rewrite Hmin. cbn [mbind outcome_bind]. unfold opfunc. fold o. unfold OP_0, OP_PUSHDATA4.
  destruct (Z.eqb_spec o 0); [lia|]. destruct (Z.leb_spec o 0x4e); [|lia].
  rewrite Hpd. change (default [] (Some d)) with d. cbn [mbind outcome_bind]. cbn [dstack set_dstack PushByteArray set_pc].
  destruct (Z.ltb_spec MaxStackSize (zlen (d :: dstack v))) as [Hbad|]; [|done].
  rewrite zlen_cons in Hbad. unfold MaxStackSize in Hbad. lia.
Qed.

Lemma push_value_data d : push_size_ok d -> push_value (push_pop d) = d.
Proof.
  intros Hd. pose proof (push_pop_minimal d Hd) as (?&?&_). unfold push_value, OP_0.
  destruct (Z.eqb_spec (pop_value (push_pop d)) 0); [lia|].
  destruct (Z.leb_spec (pop_value (push_pop d)) OP_PUSHDATA4); [|lia]. by rewrite push_pop_data.
Qed.

(** The opcodes of the two signature scripts; [flag] is the branch
    selector ([OP_1] or [OP_0]) between the data and the contract. *)
Lemma parse_sig_script contract flag datas :
  push_size_ok contract -> Forall push_size_ok datas -> opcode_length flag = 1 ->
  parseScript (concat (map addData_chunk datas) ++ [flag] ++ addData_chunk contract) =
  Ret (map push_pop datas ++ [mkPop flag None; push_pop contract]).
Proof.
  intros Hc Hds Hf. induction Hds as [|d datas Hd _ IH]; simpl.
  - rewrite parseScript_op by done. rewrite <- (app_nil_r (addData_chunk contract)).
    destruct Hc as [Hok Hl]. unfold MaxScriptElementSize in Hl.
    by rewrite parseScript_push by (done || lia).
  - rewrite <- app_assoc. destruct Hd as [Hok Hl]. unfold MaxScriptElementSize in Hl.
    rewrite parseScript_push by (done || lia). cbn [app] in IH. by rewrite IH.
Qed.

Lemma run_flag flag ps v :
  flag = OP_1 \/ flag = OP_0 -> condStack v = [] -> zlen (dstack v) < 900 ->
  run_pops ecdsa (mkPop flag None :: ps) v =
  run_pops ecdsa ps (PushByteArray (push_value (mkPop flag None)) (set_pc (scriptIdx v) (scriptOff v + 1) v)).
Proof.
  destruct v as [scs i o st cs n b sv tx idx]. cbn [condStack dstack scriptIdx scriptOff].
  intros Hf -> Hst. cbn [run_pops]. unfold exec_one.
  assert (executeOpcode ecdsa (mkPop flag None) (set_pc i (o + 1) (mkVm scs i o st [] n b sv tx idx)) =
          Ret (PushByteArray (push_value (mkPop flag None)) (set_pc i (o + 1) (mkVm scs i o st [] n b sv tx idx)))) as E
    by by destruct Hf as [-> | ->].
  cbn [scriptIdx scriptOff]. rewrite E. cbn [mbind outcome_bind].
  set (u := PushByteArray _ _). assert (zlen (dstack u) <= MaxStackSize) as Hu.
  { cbn. rewrite zlen_cons. unfold MaxStackSize. lia. }
  clearbody u. by destruct (Z.ltb_spec MaxStackSize (zlen (dstack u))); [lia|].
Qed.

Lemma run_sig_pops contract flag datas v :
  push_size_ok contract -> Forall push_size_ok datas -> flag = OP_1 \/ flag = OP_0 ->
  condStack v = [] -> zlen (dstack v) + zlen datas < 800 -> numOps v = 0 ->
  run_pops ecdsa (map push_pop datas ++ [mkPop flag None; push_pop contract]) v =
  Ret (set_dstack (contract :: push_value (mkPop flag None) :: rev datas ++ dstack v)
         (set_pc (scriptIdx v) (scriptOff v + (length datas + 2)) v)).
Proof.
  intros Hc Hds Hf. revert v. induction Hds as [|d datas Hd _ IH]; intros v Hcs Hl Hn.
  - change (zlen (@nil bytes)) with 0 in Hl. cbn [map app rev length Nat.add].
    assert (run_pops ecdsa [mkPop flag None; push_pop contract] v =
            run_pops ecdsa [push_pop contract]
              (PushByteArray (push_value (mkPop flag None)) (set_pc (scriptIdx v) (scriptOff v + 1) v))) as ->.
    { apply run_flag; [done|done|lia]. }
    rewrite exec_push_pop; [|done|done|].
    + destruct v as [a1 a2 a3 a4 a5 a6 a7 a8 a9 a10]. unfold PushByteArray, set_dstack, set_pc.
      cbn [run_pops scripts scriptIdx scriptOff dstack condStack numOps bip16 savedFirstStack vm_tx vm_txIdx set_dstack].
      do 2 f_equal. lia.
    + cbn [dstack PushByteArray set_dstack set_pc]. rewrite zlen_cons. lia.
  - cbn [map app]. rewrite zlen_cons in Hl. pose proof (zlen_nonneg datas).
    rewrite exec_push_pop by (done || lia). rewrite IH; [|done| |done].
    + destruct v as [a1 a2 a3 a4 a5 a6 a7 a8 a9 a10]. unfold PushByteArray, set_dstack, set_pc.
      cbn [scripts scriptIdx scriptOff dstack condStack numOps bip16 savedFirstStack vm_tx vm_txIdx rev length set_dstack].
      rewrite <- app_assoc. do 2 f_equal. lia.
    + cbn [dstack PushByteArray set_dstack set_pc]. rewrite zlen_cons. lia.
Qed.
(** ** The conditions of a spend *)

(** [sig] signs input [idx] of [tx] for the script [contract]. *)
Definition signed_by (contract : bytes) (tx : MsgTx) (idx : nat) (sig pubkey : bytes) : Prop :=
  exists pops, parseScript contract = Ret pops /\ good_sig ecdsa pops tx idx sig pubkey.

(** The lock time has the kind of the transaction's and is not after it. *)
Definition locktime_reached (locktime : Z) (tx : MsgTx) : Prop :=
  locktime <= TxLockTime tx /\
  (locktime < LockTimeThreshold <-> TxLockTime tx < LockTimeThreshold).

(** The stack (top first) of a redemption: the secret and the signature of
    the counterparty. *)
Definition redeem_spend (contract pkhThem secretHash : bytes) (tx : MsgTx) (idx : nat)
    (st : list bytes) : Prop :=
  exists sig pubkey secret flag, st = [flag; secret; pubkey; sig] /\ asBool flag = true /\
    zlen secret = secretSize /\ sha256 secret = secretHash /\ Hash160 pubkey = pkhThem /\
    signed_by contract tx idx sig pubkey.

(** The stack of a refund: the signature of the author, once the lock time
    is reached. *)
Definition refund_spend (contract pkhMe : bytes) (locktime : Z) (tx : MsgTx) (idx : nat)
    (st : list bytes) : Prop :=
  exists sig pubkey flag, st = [flag; pubkey; sig] /\ asBool flag = false /\
    locktime_reached locktime tx /\
    (forall ti, TxIns tx !! idx = Some ti -> Sequence ti <> MaxTxInSequenceNum) /\
    Hash160 pubkey = pkhMe /\ signed_by contract tx idx sig pubkey.

Lemma verifyLockTime_spec locktime tx :
  verifyLockTime (TxLockTime tx) LockTimeThreshold locktime = Ret tt <-> locktime_reached locktime tx.
Proof.
  unfold verifyLockTime, locktime_reached, LockTimeThreshold.
  destruct (Z.ltb_spec (TxLockTime tx) 500000000), (Z.ltb_spec locktime 500000000),
    (Z.leb_spec 500000000 (TxLockTime tx)), (Z.leb_spec 500000000 locktime); try lia; simpl;
    destruct (Z.ltb_spec (TxLockTime tx) locktime); split; try done; lia.
Qed.

(** What [atomicSwapContract] promises about its parameters. *)
Record contract_of (pkhMe pkhThem secretHash : bytes) (locktime : Z) (contract : bytes) : Prop := {
  co_me : bytes_ok pkhMe /\ zlen pkhMe = 20;
  co_them : bytes_ok pkhThem /\ zlen pkhThem = 20;
  co_hash : bytes_ok secretHash /\ zlen secretHash = 32;
  co_lock : 16 < locktime < 2 ^ 39;
  co_built : atomicSwapContract pkhMe pkhThem locktime secretHash = Ret contract
}.

Lemma contract_of_parse pkhMe pkhThem secretHash locktime contract :
  contract_of pkhMe pkhThem secretHash locktime contract ->
  exists d, parseScript contract = Ret (contract_pops pkhMe pkhThem secretHash (mkPop (zlen d) (Some d))) /\
    1 <= zlen d <= 5 /\ (forall b, d = [b] -> 16 < b /\ b <> 0x81 \/ b = 0) /\
    makeScriptNum d true 5 = Ret locktime /\ push_size_ok contract.
Proof.
  intros [[Ho1 H1] [Ho2 H2] [Ho3 H3] Hl Hb].
  destruct (int_chunk_spec locktime) as (lock&Hlock&Hlok&Hll&Hcase); [lia|].
  rewrite (atomicSwapContract_bytes _ _ _ _ lock) in Hb by (done || lia). injection Hb as <-.
  destruct Hcase as [(v&_&_&[(_&_&?)|[_ ?]])|(d&->&Hd&Hdo&_&Hm&Hcan&_)]; [lia|lia|].
  exists d. split_and!; try done; try lia.
  - apply parse_contract_bytes; try done. intros rest. apply (parseScript_data d). lia.
  - intros b ->. left. apply canonical_number_push in Hcan as (_&_&Hmin); [|split; [done|]|lia].
    + split; [by apply Hmin|]. intros ->. vm_compute in Hm. injection Hm as <-. lia.
    + left. cbn [pop_value]. rewrite opcode_length_data by lia. change (zlen [b]) with 1. lia.
  - split.
    + unfold contract_bytes, OP_IF, OP_SIZE, OP_EQUALVERIFY, OP_SHA256, OP_DUP, OP_HASH160, OP_ELSE,
        OP_CHECKLOCKTIMEVERIFY, OP_DROP, OP_ENDIF, OP_CHECKSIG. solve_bytes.
    + unfold contract_bytes, MaxScriptElementSize. autorewrite with swap_len in *.
      pose proof (zlen_nonneg d). lia.
Qed.

(** The contract, run on a stack, accepts exactly the two kinds of spend. *)
Lemma contract_run_iff pkhMe pkhThem secretHash locktime contract sigpops h sv tx idx st pops ti :
  contract_of pkhMe pkhThem secretHash locktime contract ->
  TxIns tx !! idx = Some ti ->
  Forall (fun x => zlen x < 2 ^ 63) st -> parseScript contract = Ret pops ->
  (exists w, run_pops ecdsa pops (mkVm [sigpops; h; pops] 2 0 st [] 0 true sv tx idx) = Ret w /\ accepting w)
  <-> redeem_spend contract pkhThem secretHash tx idx st \/ refund_spend contract pkhMe locktime tx idx st.
Proof.
  intros Hco Hti Hsz Hpops.
  destruct (contract_of_parse _ _ _ _ _ Hco) as (d&Hp&Hd&Hmin&Hnum&_).
  destruct Hco as [[_ H1] [_ H2] [_ H3] Hl _]. rewrite Hp in Hpops. injection Hpops as <-.
  set (ps := contract_pops pkhMe pkhThem secretHash (mkPop (zlen d) (Some d))) in *.
  assert ((redeem_spend contract pkhThem secretHash tx idx st \/ refund_spend contract pkhMe locktime tx idx st) <->
          redeem_stack ecdsa tx idx pkhMe pkhThem secretHash d st \/
          refund_stack ecdsa [sigpops; h; ps] 2 true sv tx idx pkhMe pkhThem secretHash d locktime st) as ->.
  { assert (forall sig pk, signed_by contract tx idx sig pk <-> good_sig ecdsa ps tx idx sig pk) as Hs.
    { intros sig pk. unfold signed_by. rewrite Hp. split; [by intros (?&[= <-]&?)|by eauto]. }
    unfold redeem_spend, refund_spend, redeem_stack, refund_stack.
    setoid_rewrite Hs. setoid_rewrite verifyLockTime_spec. unfold vm_sequence. cbn [vm_tx vm_txIdx].
    rewrite Hti. apply or_iff_compat_l. split.
    - intros (sig&pk&flag&Hst&Hf&Hr&Hq&Hpk&Hsig). exists sig, pk, flag. split_and!; auto. lia.
    - intros (sig&pk&flag&Hst&Hf&_&Hr&Hq&Hpk&Hsig). exists sig, pk, flag. split_and!; auto.
      by intros ? [= <-]. }
  split.
  - intros (w&Hw&Hacc). by eapply contract_sound.
  - intros H. by eapply contract_complete.
Qed.
Lemma contract_nonempty contract pops :
  push_size_ok contract -> parseScript contract = Ret pops -> exists p ps, pops = p :: ps.
Proof.
  intros [_ Hl] Hp. destruct pops as [|p ps]; [|eauto]. apply parseScript_nil in Hp as ->.
  unfold zlen in Hl. simpl in Hl. lia.
Qed.

Lemma contract_spend_safe' pkhMe pkhThem secretHash locktime contract tx idx ti :
  contract_of pkhMe pkhThem secretHash locktime contract ->
  TxIns tx !! idx = Some ti -> accepts (p2sh_bytes (Hash160 contract)) tx idx ->
  exists sigpops script st,
    parseScript (SignatureScript ti) = Ret sigpops /\ push_stack sigpops = script :: st /\
    Hash160 script = Hash160 contract /\
    (script = contract ->
     redeem_spend contract pkhThem secretHash tx idx st \/ refund_spend contract pkhMe locktime tx idx st).
Proof.
  intros Hco Hti Hacc. pose proof (Hash160_length contract) as Hh.
  destruct (accepts_p2sh _ _ _ _ Hh Hti Hacc) as (sigpops&rs&st&Hp&Hst&Hrs&Hall&Hrun).
  exists sigpops, rs, st. split_and!; try done. intros ->.
  destruct (contract_of_parse _ _ _ _ _ Hco) as (d&Hpc&_&_&_&Hsz).
  destruct (contract_nonempty _ _ Hsz Hpc) as (p&ps&Heq). rewrite Heq in Hpc.
  eapply contract_run_iff; [exact Hco|exact Hti| |exact Hpc|by apply Hrun].
  eapply Forall_impl; [exact Hall|]. intros x Hx. simpl in Hx. unfold MaxScriptElementSize in Hx. lia.
Qed.

Lemma sig_script_length contract flag datas :
  push_size_ok contract -> Forall push_size_ok datas ->
  1 <= zlen (concat (map addData_chunk datas) ++ [flag] ++ addData_chunk contract) <=
  (zlen datas + 1) * 525 + 1.
Proof.
  intros Hc Hds. pose proof (chunk_bound contract Hc). destruct Hc as [_ Hl]. unfold MaxScriptElementSize in Hl.
  autorewrite with swap_len. pose proof (zlen_nonneg (concat (map addData_chunk datas))).
  pose proof (zlen_nonneg (addData_chunk contract)).
  assert (zlen (concat (map addData_chunk datas)) <= zlen datas * 525); [|lia].
  induction Hds as [|d datas Hd _ IH]; [done|]. simpl. autorewrite with swap_len.
  pose proof (chunk_bound d Hd). destruct Hd as [_ Hd]. unfold MaxScriptElementSize in Hd.
  pose proof (zlen_nonneg (concat (map addData_chunk datas))). lia.
Qed.

Lemma push_stack_sig contract flag datas :
  push_size_ok contract -> Forall push_size_ok datas ->
  push_stack (map push_pop datas ++ [mkPop flag None; push_pop contract]) =
  contract :: push_value (mkPop flag None) :: rev datas.
Proof.
  intros Hc Hds. unfold push_stack. rewrite map_app, rev_app_distr. simpl.
  rewrite push_value_data by done. do 2 f_equal. f_equal.
  induction Hds as [|d datas Hd _ IH]; simpl; [done|]. by rewrite push_value_data, IH.
Qed.

(** A signature script of the tool is accepted exactly when the contract
    accepts the stack it leaves. *)
Lemma sig_script_iff pkhMe pkhThem secretHash locktime contract tx idx ti flag datas :
  contract_of pkhMe pkhThem secretHash locktime contract ->
  Forall push_size_ok datas -> (length datas <= 3)%nat -> flag = OP_1 \/ flag = OP_0 ->
  TxIns tx !! idx = Some ti -> Witness ti = [] ->
  SignatureScript ti = concat (map addData_chunk datas) ++ [flag] ++ addData_chunk contract ->
  accepts (p2sh_bytes (Hash160 contract)) tx idx <->
  redeem_spend contract pkhThem secretHash tx idx (push_value (mkPop flag None) :: rev datas) \/
  refund_spend contract pkhMe locktime tx idx (push_value (mkPop flag None) :: rev datas).
Proof.
  intros Hco Hds Hdl Hf Hti Hw Hss. set (st := push_value (mkPop flag None) :: rev datas).
  destruct (contract_of_parse _ _ _ _ _ Hco) as (d&Hpc&_&_&_&Hsz).
  pose proof (Hash160_length contract) as Hh.
  assert (opcode_length flag = 1) as Hfl by by destruct Hf as [-> | ->].
  pose proof (parse_sig_script contract flag datas Hsz Hds Hfl) as Hp. rewrite <- Hss in Hp.
  pose proof (push_stack_sig contract flag datas Hsz Hds) as Hps.
  split.
  - intros Hacc.
    destruct (contract_spend_safe' _ _ _ _ _ _ _ _ Hco Hti Hacc) as (sp&rs&st'&Hp'&Hst'&_&Himp).
    rewrite Hp in Hp'. injection Hp' as <-. rewrite Hps in Hst'. injection Hst' as <- <-. by apply Himp.
  - intros Hspend. destruct (contract_nonempty _ _ Hsz Hpc) as (p&ps&Heq). rewrite Heq in Hpc.
    set (sigpops := map push_pop datas ++ [mkPop flag None; push_pop contract]) in *.
    assert (Forall (fun x => zlen x < 2 ^ 63) st) as Hbig.
    { unfold st. constructor; [by destruct Hf as [-> | ->]|]. apply Forall_rev.
      eapply Forall_impl; [exact Hds|]. intros x [_ Hx]. unfold MaxScriptElementSize in Hx. lia. }
    pose proof (proj2 (contract_run_iff _ _ _ _ _ sigpops (p2sh_pops (Hash160 contract)) (contract :: st)
                 _ _ _ _ _ Hco Hti Hbig Hpc) Hspend) as Hrun.
    unfold accepts. rewrite (NewEngine_p2sh_ok _ _ _ ti sigpops); try done.
    + cbn [mbind outcome_bind]. unfold Execute. set (f := Execute_fuel _).
      assert (length (map push_pop datas ++ [mkPop flag None; push_pop contract]) <= 5)%nat as H5
        by (rewrite length_app, length_map; simpl; lia). fold sigpops in H5.
      assert (100 <= f)%nat as Hfuel by (unfold f, Execute_fuel, MaxScriptSize; lia). clearbody f.
      rewrite (outer_run sigpops tx idx contract st f) with (p := p) (ps := ps); try done; try lia.
      * apply inner_run; [|done]. apply parse_length in Hpc as Hpcl. rewrite <- Heq. simpl. lia.
      * unfold sigpops. by destruct datas.
      * unfold st, zlen. simpl. rewrite length_rev. lia.
      * unfold sigpops. rewrite run_sig_pops by (done || (unfold zlen; simpl; lia)).
        cbn [dstack scriptIdx scriptOff]. rewrite app_nil_r, length_app, length_map. done.
    + rewrite Hss. pose proof (sig_script_length contract flag datas Hsz Hds) as Hlen.
      assert (zlen datas <= 3) by (unfold zlen; lia). unfold MaxScriptSize. lia.
    + unfold sigpops, isPushOnly. rewrite forallb_app. apply andb_true_iff. split.
      * apply forallb_forall. intros q Hq. apply in_map_iff in Hq as (x&<-&Hx).
        apply list_elem_of_In in Hx. rewrite Forall_forall in Hds.
        destruct (push_pop_minimal x (Hds x Hx)) as [Hle _]. unfold OP_PUSHDATA4, OP_16 in *. lia.
      * simpl. destruct (push_pop_minimal contract Hsz) as [Hle _]. unfold OP_PUSHDATA4, OP_16 in *.
        by destruct Hf as [-> | ->]; simpl; destruct (Z.leb_spec (pop_value (push_pop contract)) 96); lia || done.
Qed.
End P2sh.

(** The output script of the code is [p2sh_bytes]. *)
Lemma payToScriptHashScript_bytes h :
  bytes_ok h -> zlen h = 20 -> payToScriptHashScript h = Ret (p2sh_bytes h).
Proof.
  intros Ho Hh. unfold payToScriptHashScript, NewScriptBuilder.
  rewrite AddOp_ok by (unfold MaxScriptSize; done).
  rewrite AddData_ok; [|done|unfold MaxScriptElementSize; lia|].
  2:{ rewrite addData_chunk_data by (done || lia). autorewrite with swap_len. unfold MaxScriptSize. lia. }
  rewrite addData_chunk_data by (done || lia).
  rewrite AddOp_ok by (autorewrite with swap_len; unfold MaxScriptSize; lia).
  unfold BuilderScript, p2sh_bytes. simpl. by rewrite Hh.
Qed.

Lemma Hash160_ok b : bytes_ok (Hash160 b).
Proof.
  unfold Hash160, ripemd160. destruct (rmd_blocks _ _ _) as [[[[s0 s1] s2] s3] s4].
  repeat apply Forall_app_2; apply le_put_ok.
Qed.

Lemma p2sh_of contract pkScript :
  payToScriptHashScript (Hash160 contract) = Ret pkScript -> pkScript = p2sh_bytes (Hash160 contract).
Proof.
  rewrite payToScriptHashScript_bytes by (apply Hash160_ok || apply Hash160_length). congruence.
Qed.

Lemma redeem_script_iff ecdsa pkhMe pkhThem secretHash locktime contract pkScript tx idx ti
    sig pubkey secret :
  contract_of pkhMe pkhThem secretHash locktime contract ->
  payToScriptHashScript (Hash160 contract) = Ret pkScript ->
  TxIns tx !! idx = Some ti -> Witness ti = [] ->
  push_size_ok sig -> push_size_ok pubkey -> push_size_ok secret ->
  redeemP2SHContract contract sig pubkey secret = Ret (SignatureScript ti) ->
  accepts ecdsa pkScript tx idx <->
  zlen secret = secretSize /\ sha256 secret = secretHash /\ Hash160 pubkey = pkhThem /\
  signed_by ecdsa contract tx idx sig pubkey.
Proof.
  intros Hco ->%p2sh_of Hti Hw Hs Hp Hx Hss.
  destruct (contract_of_parse _ _ _ _ _ Hco) as (_&_&_&_&_&Hsz).
  rewrite redeemP2SHContract_bytes in Hss by done. injection Hss as Hss.
  assert (Forall push_size_ok [sig; pubkey; secret]) as Hall by by rewrite !Forall_cons, Forall_nil.
  rewrite (sig_script_iff ecdsa pkhMe pkhThem secretHash locktime contract tx idx ti OP_1 [sig; pubkey; secret] Hco Hall);
    [|simpl; lia|by left|done|done|
     rewrite <- Hss; unfold redeem_bytes; simpl; by rewrite app_nil_r, <- !app_assoc].
  change (push_value (mkPop OP_1 None) :: rev [sig; pubkey; secret]) with [[1]; secret; pubkey; sig].
  split.
  - intros [(?&?&?&?&[= <- <- <- <-]&_&?)|(?&?&?&[=]&_)]; naive_solver.
  - intros (?&?&?&?). left. exists sig, pubkey, secret, [1]. done.
Qed.

(** A secret of no byte or one is pushed by an opcode that leaves no more. *)
Lemma short_push_value d : bytes_ok d -> zlen d < 2 -> zlen (push_value (push_pop d)) < 2.
Proof.
  intros Hok Hd. unfold push_pop, push_value.
  destruct (addData_chunk_cases d Hok) as [(v&->&_)|[[-> Hl]|(v&k&_&_&_&_&?)]]; [lia| | |lia].
  - cbn [pop_value pop_data default]. by repeat case_match.
  - destruct d as [|b d]; [unfold zlen in Hl; simpl in Hl; lia|]. cbn [pop_value pop_data default].
    repeat case_match; done.
Qed.

Lemma short_secret_refused ecdsa pkhMe pkhThem secretHash locktime contract tx idx ti sig pubkey secret :
  contract_of pkhMe pkhThem secretHash locktime contract ->
  TxIns tx !! idx = Some ti -> SignatureScript ti = redeem_bytes contract sig pubkey secret ->
  push_size_ok sig -> push_size_ok pubkey -> bytes_ok secret -> zlen secret < 2 ->
  ~ accepts ecdsa (p2sh_bytes (Hash160 contract)) tx idx.
Proof.
  intros Hco Hti Hss Hs Hp Hok Hl Hacc.
  destruct (contract_spend_safe' _ _ _ _ _ _ _ _ _ Hco Hti Hacc) as (sp&rs&st&Hparse&Hst&_&Himp).
  destruct (contract_of_parse _ _ _ _ _ Hco) as (_&_&_&_&_&Hsz).
  pose proof (parse_sig_script contract OP_1 [] Hsz ltac:(constructor) eq_refl) as Hrest. cbn [map concat app] in Hrest.
  rewrite Hss in Hparse. unfold redeem_bytes in Hparse. cbn [app] in Hparse.
  pose proof Hs as [? ?]. pose proof Hp as [? ?]. unfold MaxScriptElementSize in *.
  rewrite !parseScript_push, Hrest in Hparse by (done || lia). cbn [mbind outcome_bind] in Hparse.
  injection Hparse as <-. pose proof (short_push_value secret Hok Hl) as Hv.
  unfold push_stack in Hst. cbn [map rev app] in Hst. rewrite !push_value_data in Hst by done. injection Hst as <- <-.
  destruct (Himp eq_refl) as [(?&?&?&?&[= <- <- <- <-]&_&H32&_)|(?&?&?&[=]&_)].
  unfold secretSize in H32. lia.
Qed.

(** [redeem_script_iff] for every secret that the builder accepts. *)
Lemma redeem_script_any ecdsa pkhMe pkhThem secretHash locktime contract tx idx ti sig pubkey secret :
  contract_of pkhMe pkhThem secretHash locktime contract ->
  TxIns tx !! idx = Some ti -> Witness ti = [] ->
  push_size_ok sig -> push_size_ok pubkey -> bytes_ok secret -> zlen secret <= MaxScriptElementSize ->
  SignatureScript ti = redeem_bytes contract sig pubkey secret ->
  accepts ecdsa (p2sh_bytes (Hash160 contract)) tx idx <->
  zlen secret = secretSize /\ sha256 secret = secretHash /\ Hash160 pubkey = pkhThem /\
  signed_by ecdsa contract tx idx sig pubkey.
Proof.
  intros Hco Hti Hw Hs Hp Hok Hl Hss. destruct (Z.lt_ge_cases (zlen secret) 2) as [H2|H2].
  - split; [intros Hacc; by eapply short_secret_refused in Hacc|]. unfold secretSize. lia.
  - destruct (contract_of_parse _ _ _ _ _ Hco) as (_&_&_&_&_&Hsz).
    eapply redeem_script_iff; [exact Hco|apply payToScriptHashScript_bytes; [apply Hash160_ok|apply Hash160_length]|done..|].
    rewrite Hss. by apply redeemP2SHContract_bytes.
Qed.

Lemma refund_script_iff ecdsa pkhMe pkhThem secretHash locktime contract pkScript tx idx ti
    sig pubkey :
  contract_of pkhMe pkhThem secretHash locktime contract ->
  payToScriptHashScript (Hash160 contract) = Ret pkScript ->
  TxIns tx !! idx = Some ti -> Witness ti = [] ->
  push_size_ok sig -> push_size_ok pubkey ->
  refundP2SHContract contract sig pubkey = Ret (SignatureScript ti) ->
  accepts ecdsa pkScript tx idx <->
  locktime_reached locktime tx /\ Sequence ti <> MaxTxInSequenceNum /\ Hash160 pubkey = pkhMe /\
  signed_by ecdsa contract tx idx sig pubkey.
Proof.
  intros Hco ->%p2sh_of Hti Hw Hs Hp Hss.
  destruct (contract_of_parse _ _ _ _ _ Hco) as (_&_&_&_&_&Hsz).
  rewrite refundP2SHContract_bytes in Hss by done. injection Hss as Hss.
  assert (Forall push_size_ok [sig; pubkey]) as Hall by by rewrite !Forall_cons, Forall_nil.
  rewrite (sig_script_iff ecdsa pkhMe pkhThem secretHash locktime contract tx idx ti OP_0 [sig; pubkey] Hco Hall);
    [|simpl; lia|by right|done|done|
     rewrite <- Hss; unfold refund_bytes; simpl; by rewrite app_nil_r, <- !app_assoc].
  change (push_value (mkPop OP_0 None) :: rev [sig; pubkey]) with [[]; pubkey; sig].
  split.
  - intros [(?&?&?&?&[=]&_)|(?&?&?&[= <- <- <-]&_&Hl&Hq&Hpk&Hsig)]. split_and!; auto.
  - intros (?&Hq&?&?). right. exists sig, pubkey, []. split_and!; try done.
    by intros ? [=]; simplify_eq.
Qed.

(** C1: Only the two ways to spend the contract output exist.  For every
    transaction whose input the engine accepts against the pay-to-script-hash
    output of a contract, the signature script ends with the push of a script
    of the same hash, and if that script is the contract (no hash collision)
    the rest of its stack is either a redemption (a 32-byte preimage of the
    secret hash, the counterparty's key and a signature by it) or a refund
    (the author's key and signature, in a transaction whose lock time has
    reached the contract's and whose input is not final). *)
Theorem contract_spend_safe ecdsa pkhMe pkhThem secretHash locktime contract pkScript tx idx ti :
  contract_of pkhMe pkhThem secretHash locktime contract ->
  payToScriptHashScript (Hash160 contract) = Ret pkScript ->
  TxIns tx !! idx = Some ti -> accepts ecdsa pkScript tx idx ->
  exists sigpops script st,
    parseScript (SignatureScript ti) = Ret sigpops /\ push_stack sigpops = script :: st /\
    Hash160 script = Hash160 contract /\
    (script = contract ->
     redeem_spend ecdsa contract pkhThem secretHash tx idx st \/
     refund_spend ecdsa contract pkhMe locktime tx idx st).
Proof. intros Hco ->%p2sh_of. by apply contract_spend_safe'. Qed.

(** C14: The redemption script of the tool is accepted exactly when it should
    be: the secret has 32 bytes and hashes to the secret hash, the key is the
    counterparty's and the signature is valid; the lock time plays no part. *)
Theorem redeem_script_accepted ecdsa pkhMe pkhThem secretHash locktime contract pkScript tx idx ti
    sig pubkey secret :
  contract_of pkhMe pkhThem secretHash locktime contract ->
  payToScriptHashScript (Hash160 contract) = Ret pkScript ->
  TxIns tx !! idx = Some ti -> Witness ti = [] ->
  push_size_ok sig -> push_size_ok pubkey -> push_size_ok secret ->
  redeemP2SHContract contract sig pubkey secret = Ret (SignatureScript ti) ->
  accepts ecdsa pkScript tx idx <->
  zlen secret = secretSize /\ sha256 secret = secretHash /\ Hash160 pubkey = pkhThem /\
  signed_by ecdsa contract tx idx sig pubkey.
Proof. apply redeem_script_iff. Qed.

(** C15: The refund script of the tool is accepted exactly when the lock time
    of the transaction has reached the contract's (of the same kind), the
    input is not final, the key is the author's and the signature is valid. *)
Theorem refund_script_accepted ecdsa pkhMe pkhThem secretHash locktime contract pkScript tx idx ti
    sig pubkey :
  contract_of pkhMe pkhThem secretHash locktime contract ->
  payToScriptHashScript (Hash160 contract) = Ret pkScript ->
  TxIns tx !! idx = Some ti -> Witness ti = [] ->
  push_size_ok sig -> push_size_ok pubkey ->
  refundP2SHContract contract sig pubkey = Ret (SignatureScript ti) ->
  accepts ecdsa pkScript tx idx <->
  locktime_reached locktime tx /\ Sequence ti <> MaxTxInSequenceNum /\ Hash160 pubkey = pkhMe /\
  signed_by ecdsa contract tx idx sig pubkey.
Proof. apply refund_script_iff. Qed.

(** ** The published swap *)

(** A curve on which every signature verifies, for the concrete runs; the
    encodings of the published signatures are checked by the engine. *)
Definition ecdsa_yes : bytes -> bytes -> bytes -> option bool := fun _ _ _ => Some true.

Definition walkthrough_pkScript : bytes := hexb "a9140dad8d75de0448ba757e5337b3bea2b90f7e2acc87".
Definition walkthrough_redeemTx : MsgTx := parsed Walkthrough.redeemTxBytes.
Definition walkthrough_refundTx : MsgTx := parsed Walkthrough.refundTxBytes.
Definition nth_in (tx : MsgTx) (i : nat) : TxIn :=
  default (mkTxIn (mkOutPoint [] 0) [] [] 0) (TxIns tx !! i).

Definition walkthrough_refund_sig : bytes :=
  hexb "304402201299d3b185d0342cdc8ebf04bffc8f7caa88fc0212739e59220155db56bb0c9302202e24382efd388455e3e8f566889eb1cebfdc5e0258a5e894fd09516b3099fa5101".

Lemma walkthrough_contract_of :
  contract_of Walkthrough.pkh Walkthrough.pkh Walkthrough.secretHash Walkthrough.locktime Walkthrough.contract.
Proof. constructor; first [split; decided|by vm_compute]. Qed.

(** The published redemption and refund run to acceptance; the redemption
    with another secret or the refund with an earlier lock time does not. *)
Example walkthrough_redeem_runs : verify_spend ecdsa_yes walkthrough_pkScript walkthrough_redeemTx 0 = Ret tt.
Proof. by vm_compute. Qed.
Example walkthrough_refund_runs : verify_spend ecdsa_yes walkthrough_pkScript walkthrough_refundTx 0 = Ret tt.
Proof. by vm_compute. Qed.
Example walkthrough_refund_too_early :
  verify_spend ecdsa_yes walkthrough_pkScript
    (mkMsgTx 2 (TxIns walkthrough_refundTx) (TxOuts walkthrough_refundTx) 1571489800) 0 =
  Panic ErrUnsatisfiedLockTime.
Proof. by vm_compute. Qed.

Lemma contract_spend_safe_witness :
  exists sigpops script st,
    parseScript (SignatureScript (nth_in walkthrough_redeemTx 0)) = Ret sigpops /\
    push_stack sigpops = script :: st /\ Hash160 script = Hash160 Walkthrough.contract /\
    (script = Walkthrough.contract ->
     redeem_spend ecdsa_yes Walkthrough.contract Walkthrough.pkh Walkthrough.secretHash walkthrough_redeemTx 0 st \/
     refund_spend ecdsa_yes Walkthrough.contract Walkthrough.pkh Walkthrough.locktime walkthrough_redeemTx 0 st).
Proof.
  refine (contract_spend_safe ecdsa_yes Walkthrough.pkh Walkthrough.pkh Walkthrough.secretHash
            Walkthrough.locktime Walkthrough.contract walkthrough_pkScript walkthrough_redeemTx 0
            (nth_in walkthrough_redeemTx 0) walkthrough_contract_of _ _ _);
    [by vm_compute|by vm_compute|unfold accepts; by vm_compute].
Defined.

Lemma redeem_script_accepted_witness :
  accepts ecdsa_yes walkthrough_pkScript walkthrough_redeemTx 0 <->
  zlen Walkthrough.secret = secretSize /\ sha256 Walkthrough.secret = Walkthrough.secretHash /\
  Hash160 Walkthrough.pubkey = Walkthrough.pkh /\
  signed_by ecdsa_yes Walkthrough.contract walkthrough_redeemTx 0 Walkthrough.sig Walkthrough.pubkey.
Proof.
  refine (redeem_script_accepted ecdsa_yes Walkthrough.pkh Walkthrough.pkh Walkthrough.secretHash
            Walkthrough.locktime Walkthrough.contract walkthrough_pkScript walkthrough_redeemTx 0
            (nth_in walkthrough_redeemTx 0) Walkthrough.sig Walkthrough.pubkey Walkthrough.secret
            walkthrough_contract_of _ _ _ _ _ _ _);
    [by vm_compute|by vm_compute|by vm_compute|split; decided|split; decided|split; decided|by vm_compute].
Defined.

Lemma refund_script_accepted_witness :
  accepts ecdsa_yes walkthrough_pkScript walkthrough_refundTx 0 <->
  locktime_reached Walkthrough.locktime walkthrough_refundTx /\
  Sequence (nth_in walkthrough_refundTx 0) <> MaxTxInSequenceNum /\
  Hash160 Walkthrough.pubkey = Walkthrough.pkh /\
  signed_by ecdsa_yes Walkthrough.contract walkthrough_refundTx 0 walkthrough_refund_sig Walkthrough.pubkey.
Proof.
  refine (refund_script_accepted ecdsa_yes Walkthrough.pkh Walkthrough.pkh Walkthrough.secretHash
            Walkthrough.locktime Walkthrough.contract walkthrough_pkScript walkthrough_refundTx 0
            (nth_in walkthrough_refundTx 0) walkthrough_refund_sig Walkthrough.pubkey
            walkthrough_contract_of _ _ _ _ _ _);
    [by vm_compute|by vm_compute|by vm_compute|split; decided|split; decided|by vm_compute].
Defined.
