(* ===== verification/Cli.v ===== *)
(** * Commands: state, printing, prompting, argument checks

    What the three tools share at the command line: a monad for commands that
    print, read the terminal and talk to a wallet or node; [promptPublishTx];
    [checkCmdArgLength]; the time left until a lock time. The three [main.go]
    files hold one copy each of these functions. *)

From S2P Require Import Prelude.

(** ** Times *)

(** [time.Unix(sec, 0)] as Go's internal seconds since year 1, and the duration
    from [now] (nanoseconds since 1970) to it, which saturates. *)
Definition unixToInternal : Z := 62135596800.
Definition time_Unix (sec : Z) : Z := to_int 64 (sec + unixToInternal).
Definition clamp64 (z : Z) : Z := Z.max (- 2 ^ 63) (Z.min (2 ^ 63 - 1) z).
Definition Until (t now : Z) : Z := clamp64 (t * 10 ^ 9 - (now + unixToInternal * 10 ^ 9)).
(** [Truncate(time.Second)] rounds towards zero. *)
Definition TruncateSecond (d : Z) : Z := Z.quot d (10 ^ 9) * 10 ^ 9.

#[global] Arguments time_Unix : simpl never.
#[global] Arguments Until : simpl never.
#[global] Arguments TruncateSecond : simpl never.

(** [timings.LockTime], in nanoseconds. *)
Definition timings_LockTime : Z := 48 * (60 * 60 * 10 ^ 9).

(** ** The command monad *)

(** What a command sees: the wallet or node it talks to, the lines still to be
    read from the terminal, the lines printed (newest first), and the time in
    nanoseconds since the Unix epoch. *)
Record env (N : Type) := mkEnv {
  node : N; stdin : list bytes; stdout : list (string * list farg); clock : Z }.
Arguments mkEnv {N} _ _ _ _.
Arguments node {N} _.
Arguments stdin {N} _.
Arguments stdout {N} _.
Arguments clock {N} _.

Definition cmd (N A : Type) : Type := env N -> outcome A * env N.

#[global] Instance cmd_ret N : MRet (cmd N) := fun A a w => (Ret a, w).
#[global] Instance cmd_bind N : MBind (cmd N) := fun A B f m w =>
  match m w with
  | (Ret a, w) => f a w
  | (Fail e, w) => (Fail e, w)
  | (Panic e, w) => (Panic e, w)
  end.

Section Cmd.
Context {N : Type}.

(** A computation without effects. *)
Definition pure {A} (o : outcome A) : cmd N A := fun w => (o, w).

(** [Printf f args] is one call of [fmt.Printf] or [fmt.Println]. *)
Definition Printf (f : string) (args : list farg) : cmd N unit := fun w =>
  (Ret tt, mkEnv (node w) (stdin w) ((f, args) :: stdout w) (clock w)).

(** A call of the wallet or node. *)
Definition ask {A} (q : N -> outcome A * N) : cmd N A := fun w =>
  let '(r, n) := q (node w) in (r, mkEnv n (stdin w) (stdout w) (clock w)).

(** [time.Now()] *)
Definition Now : cmd N Z := fun w => (Ret (clock w), w).

(** [errf f m] wraps the error of [m]. *)
Definition errf {A} (f : error -> error) (m : cmd N A) : cmd N A := fun w =>
  let '(r, w) := m w in (mapErr f r, w).

(** [json.Marshal(output)] and [fmt.Println]. *)
Definition print_json (output : list (string * farg)) : cmd N unit :=
  Printf "json" (flat_map (fun '(name, value) => [FStr name; value]) output).

(** [time.Now().Add(d).Unix()] *)
Definition unix_after (d : Z) : cmd N Z := now ← Now; mret ((now + d) / 10 ^ 9).

(** ** Prompting *)

(** The white space at the front of a UTF-8 string, for [unicode.IsSpace]:
    the number of bytes of the first character if it is a space. *)
Definition space_len (l : bytes) : nat :=
  match l with
  | c :: r =>
      if (c =? 32) || (9 <=? c) && (c <=? 13) then 1%nat
      else match c, r with
      | 0xc2, d :: _ => if (d =? 0x85) || (d =? 0xa0) then 2%nat else 0%nat
      | 0xe1, 0x9a :: 0x80 :: _ => 3%nat
      | 0xe2, 0x80 :: d :: _ =>
          if (0x80 <=? d) && (d <=? 0x8a) || (d =? 0xa8) || (d =? 0xa9) || (d =? 0xaf) then 3%nat else 0%nat
      | 0xe2, 0x81 :: 0x9f :: _ => 3%nat
      | 0xe3, 0x80 :: 0x80 :: _ => 3%nat
      | _, _ => 0%nat
      end
  | [] => 0%nat
  end.

Fixpoint trim_left (fuel : nat) (l : bytes) : bytes :=
  match fuel, space_len l with
  | S f, S n => trim_left f (drop (S n) l)
  | _, _ => l
  end.

(** [TrimRight]: the last character that is not a space ends the string. *)
Fixpoint trim_right (l : bytes) (fuel : nat) : bytes :=
  match fuel with
  | O => l
  | S f =>
      if existsb (fun n => (n <=? length l)%nat && (space_len (drop (length l - n) l) =? n)%nat) [1; 2; 3]%nat
      then match List.find (fun n => (n <=? length l)%nat && (space_len (drop (length l - n) l) =? n)%nat) [1; 2; 3]%nat with
           | Some n => trim_right (take (length l - n) l) f
           | None => l
           end
      else l
  end.

(** [strings.TrimSpace] *)
Definition TrimSpace (l : bytes) : bytes :=
  let l := trim_left (length l) l in trim_right l (length l).

Definition io_EOF : error := ErrNew "EOF".

(** What the [switch answer] of [promptPublishTx] makes of a line. *)
Definition read_answer (line : bytes) : option bool :=
  let answer := string_of_bytes (TrimSpace (ToLower line)) in
  if (answer =? "y")%string || (answer =? "yes")%string then Some true
  else if (answer =? "n")%string || (answer =? "no")%string || (answer =? "")%string then Some false
  else None.

(** The loop of [promptPublishTx] over the lines still to be read. *)
Fixpoint prompt_loop (name : string) (lines : list bytes) (w : env N) : outcome bool * env N :=
  let w := mkEnv (node w) lines (("Publish %s transaction? [y/N] ", [FStr name])%string :: stdout w) (clock w) in
  match lines with
  | [] => (Fail io_EOF, w)
  | line :: rest =>
      let w := mkEnv (node w) rest (stdout w) (clock w) in
      match read_answer line with
      | Some b => (Ret b, w)
      | None => prompt_loop name rest
                  (mkEnv (node w) rest (("please answer y or n", [])%string :: stdout w) (clock w))
      end
  end.

Definition promptPublishTx (name : string) : cmd N bool := fun w => prompt_loop name (stdin w) w.

(** ** Inverting runs *)

Lemma run_bind {A B} (m : cmd N A) (f : A -> cmd N B) w b w' :
  (m ≫= f) w = (Ret b, w') <-> exists a w1, m w = (Ret a, w1) /\ f a w1 = (Ret b, w').
Proof.
  unfold mbind, cmd_bind. destruct (m w) as [[a|e|e] w1]; split;
    [eauto|intros (? & ? & [= <- <-] & ?); done|done|intros (? & ? & [=] & _)|done|intros (? & ? & [=] & _)].
Qed.

(** The same as an equation, to run a command forwards. *)
Lemma bind_Ret_run {A B} (m : cmd N A) (f : A -> cmd N B) w a w1 : m w = (Ret a, w1) -> (m ≫= f) w = f a w1.
Proof. intros H. unfold mbind, cmd_bind. by rewrite H. Qed.

Lemma bind_pure_run {A B} (o : outcome A) (f : A -> cmd N B) w a : o = Ret a -> (pure o ≫= f) w = f a w.
Proof. intros ->. done. Qed.

Lemma run_pure {A} (o : outcome A) w a w' : pure o w = (Ret a, w') <-> o = Ret a /\ w' = w.
Proof. unfold pure. split; [by intros [= -> ->]|by intros [-> ->]]. Qed.

Lemma run_errf {A} f (m : cmd N A) w a w' : errf f m w = (Ret a, w') <-> m w = (Ret a, w').
Proof. unfold errf. destruct (m w) as [r w1]. destruct r; simpl; split; congruence. Qed.

Lemma run_ret {A} (a : A) w b w' : (mret a : cmd N A) w = (Ret b, w') <-> b = a /\ w' = w.
Proof. split; [by intros [= -> ->]|by intros [-> ->]]. Qed.

Lemma run_ask {A} (q : N -> outcome A * N) w a w' : ask q w = (Ret a, w') <->
  exists n, q (node w) = (Ret a, n) /\ w' = mkEnv n (stdin w) (stdout w) (clock w).
Proof.
  unfold ask. destruct (q (node w)) as [r n]. split; [intros [= -> <-]; eauto|intros (? & [= -> ->] & ->); done].
Qed.

Lemma run_Now w a w' : Now w = (Ret a, w') <-> a = clock w /\ w' = w.
Proof. split; [by intros [= -> ->]|by intros [-> ->]]. Qed.
End Cmd.

(** [cmd_inv H] splits a run [m w = (Ret b, w')] into the runs of its parts. *)
Ltac cmd_inv H :=
  lazymatch type of H with
  | mbind _ _ _ = (Ret _, _) =>
      apply run_bind in H;
      let a := fresh "a" in let w := fresh "w" in let H1 := fresh "Hc" in
      destruct H as (a & w & H1 & H); cmd_inv H1; cmd_inv H
  | errf _ _ _ = (Ret _, _) => apply run_errf in H; cmd_inv H
  | pure _ _ = (Ret _, _) => apply run_pure in H; let E := fresh "E" in destruct H as [H E]; subst; go_inv H
  | (mret _) _ = (Ret _, _) => apply run_ret in H; let E := fresh "E" in destruct H as [H E]; subst
  | Now _ = (Ret _, _) => apply run_Now in H; let E := fresh "E" in destruct H as [H E]; subst
  | Printf _ _ _ = (Ret _, _) => unfold Printf in H; simplify_eq/=
  | _ => idtac
  end.

(** ** What a command leaves unchanged *)

(** [keeps R m]: the states before and after [m], in every outcome, are
    related by [R]. *)
Definition keeps {N A} (R : env N -> env N -> Prop) (m : cmd N A) : Prop :=
  forall w r w', m w = (r, w') -> R w w'.

Section Keeps.
Context {N : Type} (R : env N -> env N -> Prop) `{!PreOrder R}.

Lemma keeps_bind {A B} (m : cmd N A) (f : A -> cmd N B) :
  keeps R m -> (forall a, keeps R (f a)) -> keeps R (m ≫= f).
Proof.
  intros Hm Hf w r w' H. unfold mbind, cmd_bind in H. destruct (m w) as [[a|e|e] w1] eqn:E.
  - etransitivity; [by eapply Hm|by eapply Hf].
  - injection H as <- <-. by eapply Hm.
  - injection H as <- <-. by eapply Hm.
Qed.

Lemma keeps_ret {A} (a : A) : keeps R (mret a : cmd N A).
Proof. intros w r w' [= _ <-]. done. Qed.
Lemma keeps_pure {A} (o : outcome A) : keeps R (pure o : cmd N A).
Proof. intros w r w' [= _ <-]. done. Qed.
Lemma keeps_Now : keeps R (Now : cmd N Z).
Proof. intros w r w' [= _ <-]. done. Qed.
Lemma keeps_errf {A} f (m : cmd N A) : keeps R m -> keeps R (errf f m).
Proof. intros Hm w r w' H. unfold errf in H. destruct (m w) as [r1 w1] eqn:E. injection H as _ <-. by eapply Hm. Qed.
End Keeps.

(** Nothing is read from the terminal and the clock is as it was; the node may
    change by [R], and lines may be printed. *)
Section Quiet.
Context {N : Type} (R : N -> N -> Prop) `{!PreOrder R}.

Definition quiet (e e' : env N) : Prop :=
  R (node e) (node e') /\ stdin e' = stdin e /\ clock e' = clock e /\ exists new, stdout e' = new ++ stdout e.

#[export] Instance quiet_preorder : PreOrder quiet.
Proof.
  split.
  - intros e. split_and!; [done|done|done|by exists []].
  - intros e1 e2 e3 (H1 & H2 & H2' & n1 & H3) (H4 & H5 & H5' & n2 & H6).
    split_and!; [by etransitivity|congruence|congruence|]. exists (n2 ++ n1). by rewrite H6, H3, app_assoc.
Qed.

Lemma keeps_ask {A} (q : N -> outcome A * N) : (forall n, R n (q n).2) -> keeps quiet (ask q).
Proof.
  intros Hq e r e'. unfold ask. specialize (Hq (node e)). destruct (q (node e)) as [r' n]. simpl in Hq.
  intros [= _ <-]. split_and!; [done|done|done|by exists []].
Qed.

Lemma keeps_Printf f args : keeps quiet (Printf f args : cmd N unit).
Proof. intros e r e' [= _ <-]. split_and!; [done|done|done|]. by exists [(f, args)]. Qed.
End Quiet.

(** [stops m]: the command never returns a value. *)
Definition stops {N A} (m : cmd N A) : Prop := forall e a e', m e <> (Ret a, e').

Lemma stops_bind_l {N A B} (m : cmd N A) (f : A -> cmd N B) : stops m -> stops (m ≫= f).
Proof. intros Hm e b e' (a & e1 & H & _)%run_bind. by eapply Hm. Qed.
Lemma stops_bind_r {N A B} (m : cmd N A) (f : A -> cmd N B) : (forall a, stops (f a)) -> stops (m ≫= f).
Proof. intros Hf e b e' (a & e1 & _ & H)%run_bind. by eapply Hf. Qed.
Lemma stops_errf {N A} g (m : cmd N A) : stops m -> stops (errf g m).
Proof. intros Hm e a e' H%run_errf. by eapply Hm. Qed.

(** What follows a command that stops does not matter. *)
Lemma keeps_stops {N A B} (R : env N -> env N -> Prop) (m : cmd N A) (f : A -> cmd N B) :
  stops m -> keeps R m -> keeps R (m ≫= f).
Proof.
  intros Hs Hk e r e'. unfold mbind, cmd_bind. destruct (m e) as [[a|er|er] e1] eqn:E; [by edestruct Hs|..];
    intros [= _ <-]; by eapply Hk.
Qed.

(** Follows the structure of a command; [keep_op] deals with the node. *)
Ltac quiet_with keep_op := repeat match goal with
  | |- keeps _ (mbind _ _) => apply keeps_bind; [apply _| |intros ?]
  | |- keeps _ (mret _) => apply keeps_ret, _
  | |- keeps _ (pure _) => apply keeps_pure, _
  | |- keeps _ (errf _ _) => apply keeps_errf
  | |- keeps _ (ask _) => apply keeps_ask; intros ?; keep_op
  | |- keeps _ Now => apply keeps_Now, _
  | |- keeps _ (Printf _ _) => apply keeps_Printf, _
  | |- keeps _ (let '(_, _) := ?p in _) => destruct p
  | |- keeps _ (if ?b then _ else _) => destruct b
  | |- keeps _ (match ?o with _ => _ end) => destruct o
  end.

(** ** Lemmas about the prompt *)

(** The prompt asks until a line answers it: it returns the first answer, and
    fails only at the end of the input. It changes neither node nor clock. *)
Lemma prompt_loop_spec {N} name lines (w : env N) r w' : prompt_loop name lines w = (r, w') ->
  node w' = node w /\ clock w' = clock w /\
  match r with
  | Ret b => exists pre line post, lines = pre ++ line :: post /\ stdin w' = post
      /\ Forall (fun l => read_answer l = None) pre /\ read_answer line = Some b
  | Fail e => e = io_EOF /\ Forall (fun l => read_answer l = None) lines
  | Panic _ => False
  end.
Proof.
  revert w. induction lines as [|l rest IH]; intros w; cbn [prompt_loop].
  - intros [= <- <-]. done.
  - destruct (read_answer l) as [b|] eqn:E.
    + intros [= <- <-]. split; [done|]. split; [done|]. by exists [], l, rest.
    + intros H. destruct (IH _ H) as (H1 & H2 & H3). split; [done|]. split; [done|]. destruct r as [b|e|e].
      * destruct H3 as (pre & line & post & -> & Hs & Hp & Hl). exists (l :: pre), line, post.
        split_and!; [done|done|by constructor|done].
      * destruct H3 as [-> H3]. split; [done|by constructor].
      * done.
Qed.

Lemma promptPublishTx_node {N} name (w : env N) r w' :
  promptPublishTx name w = (r, w') -> node w' = node w /\ clock w' = clock w.
Proof. intros H. apply prompt_loop_spec in H. tauto. Qed.

(** Answers, with the spaces and letter cases people type. *)
Example read_answer_examples :
  map (fun s => read_answer (bytes_of_string s)) [" Yes "; "y"; "NO"; ""; "yep"; "Y\r"]%string
  = [Some true; Some true; Some false; Some false; None; None].
Proof. vm_compute. reflexivity. Qed.
