(* ===== verification/BtcSwap.v ===== *)
(** * Building the transactions of the Bitcoin tool: cmd/btcatomicswap/main.go

    What the tool asks of the wallet (package [rpcclient]) and of the curve is
    behind the interfaces [BtcWallet] and [Secp256k1]; [Rpc] implements the
    first over JSON-RPC. The command monad is that of [Cli]: a command may
    print, read an answer, look at the clock and call the wallet. *)

From S2P Require Import Prelude Sha256 Ripemd160 Script Address Wire SwapContract Fees Engine Cli.

(** ** Interfaces *)

(** [rpcclient.UnspentOutput], without the fields that are not read. *)
Record UnspentOutput := mkUnspentOutput { utxo_Value : Z; utxo_OutPoint : OutPoint }.

Class BtcWallet (N : Type) := {
  GetUnusedAddress : N -> outcome Address * N;
  DumpPrivKey (address : Address) : N -> outcome WIF * N;
  GetFeeRate : N -> outcome Z * N;
  (* the transaction and whether it is complete *)
  PayTo (destination : Address) (amount : Z) (unsigned : bool) : N -> outcome (MsgTx * bool) * N;
  ListUnspent : N -> outcome (list UnspentOutput) * N;
  (* the hash of the transaction *)
  SendRawTransaction (tx : MsgTx) : N -> outcome bytes * N;
  (* the random source of the system *)
  crypto_rand_Read (n : nat) : N -> outcome bytes * N }.

(** ECDSA on secp256k1: the compressed public key of a secret number, the DER
    signature of a hash by it, and [ecdsa hash pubkey sig], which is [None] when
    the key or the signature does not parse. *)
Class Secp256k1 := {
  SerializeCompressed : Z -> bytes;
  PrivateKey_Sign : Z -> bytes -> outcome bytes;
  ecdsa : bytes -> bytes -> bytes -> option bool }.

Definition txVersion : Z := 2.
Definition nil_dereference : error := ErrNew "invalid memory address or nil pointer dereference".

Section BtcTool.
Context {N : Type} `{!BtcWallet N} `{!Secp256k1}.

(** The global variables [chainParams] and [*automatedFlag], which [run] sets
    before it runs a command. *)
Context (chainParams : Params) (automated : bool).

(** ** Signatures *)

Definition CalcSignatureHash (script : bytes) (hashType : Z) (tx : MsgTx) (idx : nat) : outcome bytes :=
  parsedScript ← mapErr (fun e => Errorf "cannot parse output script: %v" [FErr e]) (parseScript script);
  Ret (calcSignatureHash parsedScript hashType tx idx).

Definition RawTxInSignature (tx : MsgTx) (idx : nat) (subScript : bytes) (hashType : Z) (key : Z) : outcome bytes :=
  hash ← CalcSignatureHash subScript hashType tx idx;
  signature ← mapErr (fun e => Errorf "cannot sign tx input: %s" [FErr e]) (PrivateKey_Sign key hash);
  Ret (signature ++ [to_uint 8 hashType]).

(** The signature and the public key. *)
Definition createSig (tx : MsgTx) (idx : nat) (pkScript : bytes) (addr : Address) : cmd N (bytes * bytes) :=
  wif ← ask (DumpPrivKey addr);
  sig ← pure (RawTxInSignature tx idx pkScript SigHashAll (PrivKey wif));
  mret (sig, SerializeCompressed (PrivKey wif)).

(** ** The wallet *)

Definition findUtxo (utxos : list UnspentOutput) (outPoint : OutPoint) : outcome UnspentOutput :=
  match List.find (fun utxo => bool_decide (Hash outPoint = Hash (utxo_OutPoint utxo)) &&
                               (Index outPoint =? Index (utxo_OutPoint utxo))) utxos with
  | Some utxo => Ret utxo
  | None => Fail (Errorf "no utxo found for used input %s" [FBytes (Hash outPoint); FInt (Index outPoint)])
  end.

(** The two loops of [payTo], on an [int64]. *)
Fixpoint add_inputs (utxos : list UnspentOutput) (ins : list TxIn) (rawfee : Z) : outcome Z :=
  match ins with
  | [] => Ret rawfee
  | txin :: ins =>
      utxo ← findUtxo utxos (PreviousOutPoint txin);
      add_inputs utxos ins (to_int 64 (rawfee + utxo_Value utxo))
  end.
Definition sub_outputs (outs : list TxOut) (rawfee : Z) : Z :=
  foldl (fun rawfee txout => to_int 64 (rawfee - Value txout)) rawfee outs.

(** The error of an incomplete transaction is assigned and then overwritten by
    the result of [ListUnspent]. *)
Definition payTo (destination : Address) (amount : Z) : cmd N (MsgTx * Z) :=
  '(fundedTx, complete) ← ask (PayTo destination amount false);
  utxos ← ask ListUnspent;
  rawfee ← pure (add_inputs utxos (TxIns fundedTx) 0);
  mret (fundedTx, sub_outputs (TxOuts fundedTx) rawfee).

Definition getFeePerKb : cmd N Z := ask GetFeeRate.

Definition is_P2PKH (a : Address) : bool := match a with AddressPubKeyHash _ _ => true | _ => false end.

Definition getUnusedAddress : cmd N Address :=
  addr ← ask GetUnusedAddress;
  _ ← pure (guard_err (negb (IsForNet addr chainParams))
        (Errorf "address %v is not intended for use on %v" [FBytes (EncodeAddress addr); FStr (Name chainParams)]));
  _ ← pure (guard_err (negb (is_P2PKH addr))
        (Errorf "address %v is not P2PKH" [FBytes (EncodeAddress addr)]));
  mret addr.

Definition promptPublishTx (tx : MsgTx) (name : string) : cmd N unit :=
  publish ← (if automated then mret true else Cli.promptPublishTx name);
  if negb publish then mret tt else
  txHash ← errf (fun e => Errorf "sendrawtransaction: %v" [FErr e]) (ask (SendRawTransaction tx));
  if automated then mret tt
  else Printf "Published %s transaction (%v)\n" [FStr name; FBytes txHash].

(** ** Refund transactions *)

(** The index of the first output with the script. *)
Fixpoint find_output (script : bytes) (outs : list TxOut) (i : nat) : option nat :=
  match outs with
  | [] => None
  | o :: outs => if bool_decide (PkScript o = script) then Some i else find_output script outs (S i)
  end.

Definition out_value (tx : MsgTx) (i : nat) : Z := match TxOuts tx !! i with Some o => Value o | None => 0 end.
Definition out_script (tx : MsgTx) (i : nat) : bytes := match TxOuts tx !! i with Some o => PkScript o | None => [] end.

(** The unsigned spend of an output: one input, one output that takes the value
    less the fee. *)
Definition spend_tx (locktime : Z) (outPoint : OutPoint) (sequence : Z) (outScript : bytes) (value fee : Z) : MsgTx :=
  let tx := mkMsgTx txVersion [] [] (to_uint 32 locktime) in
  let tx := AddTxOut tx (NewTxOut (to_int 64 (value - fee)) outScript) in
  AddTxIn tx (set_Sequence sequence (NewTxIn outPoint [] [])).

(** [tx.TxIn[0].SignatureScript = script] *)
Definition sign_input (tx : MsgTx) (script : bytes) : MsgTx :=
  mkMsgTx (Version tx) (alter (set_SignatureScript script) 0%nat (TxIns tx)) (TxOuts tx) (TxLockTime tx).

Definition buildRefund (contract : bytes) (contractTx : MsgTx) (feePerKb : Z) : cmd N (MsgTx * Z) :=
  contractP2SH ← pure (NewAddressScriptHash contract chainParams);
  contractP2SHPkScript ← pure (PayToAddrScript contractP2SH);
  let contractTxHash := TxHash contractTx in
  contractOut ← pure (of_option (ErrNew "contract tx does not contain a P2SH contract payment")
                        (find_output contractP2SHPkScript (TxOuts contractTx) 0));
  let contractOutPoint := mkOutPoint contractTxHash (Z.of_nat contractOut) in
  refundAddress ← errf (fun e => Errorf "getunusedaddress: %v" [FErr e]) getUnusedAddress;
  refundOutScript ← pure (PayToAddrScript refundAddress);
  (* an error is not expected, and nil pushes are dereferenced *)
  pushes ← pure (match ExtractAtomicSwapDataPushes contract with
                 | Ret (Some pushes) => Ret pushes
                 | Ret None => Panic nil_dereference
                 | Fail e | Panic e => Panic e
                 end);
  refundAddr ← pure (NewAddressPubKeyHash (RefundHash160 pushes) chainParams);
  refundSize ← pure (estimateRefundSerializeSize contract [NewTxOut 0 refundOutScript]);
  let refundFee := FeeForSerializeSize feePerKb refundSize in
  let refundTx := spend_tx (LockTime pushes) contractOutPoint 0 refundOutScript
                    (out_value contractTx contractOut) refundFee in
  _ ← pure (guard_err (IsDustOutput (NewTxOut (out_value refundTx 0) refundOutScript) feePerKb)
        (Errorf "refund output value of %v is dust" [FInt (out_value refundTx 0)]));
  '(refundSig, refundPubKey) ← createSig refundTx 0 contract refundAddr;
  refundSigScript ← pure (refundP2SHContract contract refundSig refundPubKey);
  let refundTx := sign_input refundTx refundSigScript in
  _ ← pure (verify_spend ecdsa (out_script contractTx contractOut) refundTx 0);
  mret (refundTx, refundFee).

(** ** Contracts *)

(** [them] is the public key hash of the address. *)
Record contractArgs := mkContractArgs { them : bytes; ca_amount : Z; ca_locktime : Z; ca_secretHash : bytes }.

Record builtContract := mkBuiltContract {
  bc_contract : bytes; contractP2SH : Address; contractTxHash : bytes; bc_contractTx : MsgTx;
  contractFee : Z; bc_refundTx : MsgTx; bc_refundFee : Z }.

(** The method [Hash160] of the address types that have it. *)
Definition address_Hash160 (a : Address) : option bytes :=
  match a with
  | AddressPubKeyHash h _ | AddressScriptHash h _ | AddressWitnessPubKeyHash _ h => Some h
  | _ => None
  end.

Definition buildContract (args : contractArgs) : cmd N builtContract :=
  refundAddr ← errf (fun e => Errorf "getunusedaddress: %v" [FErr e]) getUnusedAddress;
  refundAddrH ← pure (of_option (ErrNew "unable to create hash160 from change address") (address_Hash160 refundAddr));
  contract ← pure (atomicSwapContract refundAddrH (them args) (ca_locktime args) (ca_secretHash args));
  contractP2SH ← pure (NewAddressScriptHash contract chainParams);
  feePerKb ← getFeePerKb;
  '(contractTx, contractFee) ← errf (fun e => Errorf "payTo: %v" [FErr e]) (payTo contractP2SH (ca_amount args));
  let contractTxHash := TxHash contractTx in
  '(refundTx, refundFee) ← buildRefund contract contractTx feePerKb;
  mret (mkBuiltContract contract contractP2SH contractTxHash contractTx contractFee refundTx refundFee).

(** ** Redeem transactions *)

(** The loop of [redeem] and [auditcontract] over the outputs: the first output
    that pays the hash of the contract. The first address of a script hash
    output is there and is of that type. *)
Fixpoint contract_output (contractHash : bytes) (outs : list TxOut) (i : nat) : outcome (option nat) :=
  match outs with
  | [] => Ret None
  | o :: outs =>
      let '(sc, addrs, err) := ExtractPkScriptAddrs (PkScript o) chainParams in
      match sc with
      | ScriptHashTy =>
          match addrs with
          | AddressScriptHash h _ :: _ =>
              if bool_decide (h = contractHash) then Ret (Some i) else contract_output contractHash outs (S i)
          | _ => Panic (ErrNew "index out of range or interface conversion")
          end
      | _ => contract_output contractHash outs (S i)
      end
  end.

Definition recognised (contract : bytes) : outcome AtomicSwapDataPushes :=
  pushes ← ExtractAtomicSwapDataPushes contract;
  of_option (ErrNew "contract is not an atomic swap script recognized by this tool") pushes.

(** The redeem transaction of [redeemCmd.runCommand], signed, and its fee; the
    output it spends. *)
Definition buildRedeem (contract : bytes) (contractTx : MsgTx) (secret : bytes) : cmd N (MsgTx * Z * nat) :=
  pushes ← pure (recognised contract);
  recipientAddr ← pure (NewAddressPubKeyHash (RecipientHash160 pushes) chainParams);
  contractOut ← pure (o ← contract_output (Hash160 contract) (TxOuts contractTx) 0;
                      of_option (ErrNew "transaction does not contain a contract output") o);
  addr ← errf (fun e => Errorf "getrawchangeaddres: %v" [FErr e]) getUnusedAddress;
  outScript ← pure (PayToAddrScript addr);
  let contractTxHash := TxHash contractTx in
  let contractOutPoint := mkOutPoint contractTxHash (Z.of_nat contractOut) in
  feePerKb ← getFeePerKb;
  redeemSize ← pure (estimateRedeemSerializeSize contract [NewTxOut 0 outScript]);
  let fee := FeeForSerializeSize feePerKb redeemSize in
  let redeemTx := spend_tx (LockTime pushes) contractOutPoint MaxTxInSequenceNum outScript
                    (out_value contractTx contractOut) fee in
  _ ← pure (guard_err (IsDustOutput (NewTxOut (out_value redeemTx 0) outScript) feePerKb)
        (Errorf "redeem output value of %v is dust" [FInt (out_value redeemTx 0)]));
  '(redeemSig, redeemPubKey) ← createSig redeemTx 0 contract recipientAddr;
  redeemSigScript ← pure (redeemP2SHContract contract redeemSig redeemPubKey secret);
  mret (sign_input redeemTx redeemSigScript, fee, contractOut).
End BtcTool.
