(* ===== verification/BtcCommands.v ===== *)
(** * The commands of the Bitcoin tool: cmd/btcatomicswap/main.go

    [runCommand] of each command, with its two forms of output: text and a
    question, or with the flag [-automated] one line of JSON and no question.
    Rendering values as text is not modelled: a printed line keeps its format
    and its arguments, and a line of JSON its fields. *)

From S2P Require Import Prelude Sha256 Ripemd160 Float Script Address Wire SwapContract Fees Engine Cli BtcSwap.

Section BtcCommands.
Context {N : Type} `{!BtcWallet N} `{!Secp256k1}.
Context (chainParams : Params) (automated : bool).

Definition calcFeePerKb (absoluteFee serializeSize : Z) : float64 :=
  f64_div (f64_div (f64_of_int absoluteFee) (f64_of_int serializeSize)) (f64_of_int (10 ^ 5)).

Definition address_text (a : Address) : farg := FBytes (EncodeAddress a).

(** What [initiate] and [participate] print about a built contract. *)
Definition show_contract (b : builtContract) : cmd N unit :=
  let contractFeePerKb := calcFeePerKb (contractFee b) (SerializeSize (bc_contractTx b)) in
  let refundFeePerKb := calcFeePerKb (bc_refundFee b) (SerializeSize (bc_refundTx b)) in
  _ ← Printf "Contract fee: %v (%0.8f BTC/kB)\n" [FInt (contractFee b); FFloat contractFeePerKb];
  _ ← Printf "Refund fee:   %v (%0.8f BTC/kB)\n\n" [FInt (bc_refundFee b); FFloat refundFeePerKb];
  _ ← Printf "Contract (%v):\n" [address_text (contractP2SH b)];
  _ ← Printf "%x\n\n" [FBytes (bc_contract b)];
  _ ← Printf "Contract transaction (%v):\n" [FBytes (contractTxHash b)];
  _ ← Printf "%x\n\n" [FBytes (Serialize (bc_contractTx b))];
  _ ← Printf "Refund transaction (%v):\n" [FBytes (TxHash (bc_refundTx b))];
  Printf "%x\n\n" [FBytes (Serialize (bc_refundTx b))].

Definition initiate_runCommand (cp2Addr : bytes) (amount : Z) : cmd N unit :=
  secret ← ask (crypto_rand_Read 32);
  let secretHash := sha256Hash secret in
  locktime ← unix_after timings_LockTime;
  b ← buildContract chainParams (mkContractArgs cp2Addr amount locktime secretHash);
  _ ← (if automated then
         print_json
           [("secret", FBytes secret); ("hash", FBytes secretHash);
            ("contractfee", FInt (contractFee b)); ("refundfee", FInt (bc_refundFee b));
            ("contractp2sh", address_text (contractP2SH b)); ("contract", FBytes (bc_contract b));
            ("contractTransactionHash", FBytes (contractTxHash b));
            ("contractTransaction", FBytes (Serialize (bc_contractTx b)));
            ("refundTransactionHash", FBytes (TxHash (bc_refundTx b)));
            ("refundTransaction", FBytes (Serialize (bc_refundTx b)))]%string
       else
         _ ← Printf "Secret:      %x\n" [FBytes secret];
         _ ← Printf "Secret hash: %x\n\n" [FBytes secretHash];
         show_contract b);
  promptPublishTx automated (bc_contractTx b) "contract".

Definition participate_runCommand (cp1Addr : bytes) (amount : Z) (secretHash : bytes) : cmd N unit :=
  locktime ← unix_after (Z.quot timings_LockTime 2);
  b ← buildContract chainParams (mkContractArgs cp1Addr amount locktime secretHash);
  _ ← (if automated then
         print_json
           [("contractfee", FInt (contractFee b)); ("refundfee", FInt (bc_refundFee b));
            ("contract", address_text (contractP2SH b));
            ("contractTransaction", FBytes (contractTxHash b));
            ("refundTransaction", FBytes (TxHash (bc_refundTx b)))]%string
       else show_contract b);
  promptPublishTx automated (bc_contractTx b) "contract".

Definition redeem_runCommand (contract : bytes) (contractTx : MsgTx) (secret : bytes) : cmd N unit :=
  '(redeemTx, fee, contractOut) ← buildRedeem chainParams contract contractTx secret;
  let redeemTxHash := TxHash redeemTx in
  let redeemFeePerKb := calcFeePerKb fee (SerializeSize redeemTx) in
  _ ← (if automated then
         print_json [("redeemFee", FInt fee); ("redeemTransaction", FBytes redeemTxHash)]%string
       else
         _ ← Printf "Redeem fee: %v (%0.8f BTC/kB)\n\n" [FInt fee; FFloat redeemFeePerKb];
         _ ← Printf "Redeem transaction (%v):\n" [FBytes redeemTxHash];
         Printf "%x\n\n" [FBytes (Serialize redeemTx)]);
  _ ← pure (verify_spend ecdsa (out_script contractTx contractOut) redeemTx 0);
  promptPublishTx automated redeemTx "redeem".

Definition refund_runCommand (contract : bytes) (contractTx : MsgTx) : cmd N unit :=
  _ ← pure (recognised contract);
  feePerKb ← getFeePerKb;
  '(refundTx, refundFee) ← buildRefund chainParams contract contractTx feePerKb;
  let refundTxHash := TxHash refundTx in
  let refundFeePerKb := calcFeePerKb refundFee (SerializeSize refundTx) in
  _ ← (if automated then
         print_json [("refundFee", FInt refundFee); ("refundTransaction", FBytes refundTxHash)]%string
       else
         _ ← Printf "Refund fee: %v (%0.8f BTC/kB)\n\n" [FInt refundFee; FFloat refundFeePerKb];
         _ ← Printf "Refund transaction (%v):\n" [FBytes refundTxHash];
         Printf "%x\n\n" [FBytes (Serialize refundTx)]);
  promptPublishTx automated refundTx "refund".

Definition extractSecret_runOfflineCommand (redemptionTx : MsgTx) (secretHash : bytes) : cmd N unit :=
  secret ← pure (extractSecret (map SignatureScript (TxIns redemptionTx)) secretHash);
  Printf "Secret: %x\n" [FBytes secret].

(** The lock time as [auditcontract] shows it. *)
Definition show_locktime (locktime : Z) : cmd N unit :=
  if LockTimeThreshold <=? locktime then
    let t := time_Unix locktime in
    _ ← Printf "Locktime: %v\n" [FInt locktime];
    now ← Now;
    let reachedAt := TruncateSecond (Until t now) in
    if 0 <? reachedAt then Printf "Locktime reached in %v\n" [FInt reachedAt]
    else Printf "Contract refund time lock has expired\n" []
  else Printf "Locktime: block %v\n" [FInt locktime].

(** The field [Locktime] of the JSON output: a time, or a formatted block. *)
Definition locktime_text (locktime : Z) : farg :=
  if LockTimeThreshold <=? locktime then FInt locktime else FErr (Errorf "block %v" [FInt locktime]).

Definition auditContract_runOfflineCommand (contract : bytes) (contractTx : MsgTx) : cmd N unit :=
  contractOut ← pure (o ← contract_output chainParams (Hash160 contract) (TxOuts contractTx) 0;
                      of_option (ErrNew "transaction does not contain the contract output") o);
  pushes ← pure (recognised contract);
  _ ← pure (guard_err (negb (SecretSize pushes =? secretSize))
        (Errorf "contract specifies strange secret size %v" [FInt (SecretSize pushes)]));
  contractAddr ← pure (NewAddressScriptHash contract chainParams);
  recipientAddr ← pure (NewAddressPubKeyHash (RecipientHash160 pushes) chainParams);
  refundAddr ← pure (NewAddressPubKeyHash (RefundHash160 pushes) chainParams);
  if automated then
    print_json
      [("contractAddress", address_text contractAddr);
       ("contractValue", FInt (out_value contractTx contractOut));
       ("recipientAddress", address_text recipientAddr); ("refundAddress", address_text refundAddr);
       ("secretHash", FBytes (SecretHash pushes));
       ("Locktime", locktime_text (LockTime pushes))]%string
  else
    _ ← Printf "Contract address:        %v\n" [address_text contractAddr];
    _ ← Printf "Contract value:          %v\n" [FInt (out_value contractTx contractOut)];
    _ ← Printf "Recipient address:       %v\n" [address_text recipientAddr];
    _ ← Printf "Refund address: %v\n\n" [address_text refundAddr];
    _ ← Printf "Secret hash: %x\n\n" [FBytes (SecretHash pushes)];
    show_locktime (LockTime pushes).

(** ** Commands *)

(** The structs of the commands; [initiate] and [participate] hold the hash of
    the address of the counterparty. *)
Inductive command :=
  | InitiateCmd (cp2Addr : bytes) (amount : Z)
  | ParticipateCmd (cp1Addr : bytes) (amount : Z) (secretHash : bytes)
  | RedeemCmd (contract : bytes) (contractTx : MsgTx) (secret : bytes)
  | RefundCmd (contract : bytes) (contractTx : MsgTx)
  | ExtractSecretCmd (redemptionTx : MsgTx) (secretHash : bytes)
  | AuditContractCmd (contract : bytes) (contractTx : MsgTx).

(** The commands with the method [runOfflineCommand]. *)
Definition offlineCommand (c : command) : option (cmd N unit) :=
  match c with
  | ExtractSecretCmd tx h => Some (extractSecret_runOfflineCommand tx h)
  | AuditContractCmd contract tx => Some (auditContract_runOfflineCommand contract tx)
  | _ => None
  end.

Definition runCommand (c : command) : cmd N unit :=
  match c with
  | InitiateCmd addr amount => initiate_runCommand addr amount
  | ParticipateCmd addr amount h => participate_runCommand addr amount h
  | RedeemCmd contract tx secret => redeem_runCommand contract tx secret
  | RefundCmd contract tx => refund_runCommand contract tx
  | ExtractSecretCmd tx h => extractSecret_runOfflineCommand tx h
  | AuditContractCmd contract tx => auditContract_runOfflineCommand contract tx
  end.
End BtcCommands.
