(* ===== verification/BtcFacts.v ===== *)
(** * Signatures and transactions the Bitcoin tool makes

    Lemmas behind [BtcTheorems]: a signature made for the contract is a good
    signature of the finished transaction, the script of a contract output is
    found, and what the builders return. *)

From S2P Require Import Prelude Sha256 Ripemd160 Script ScriptFacts Address Wire SwapContract SwapTheorems Fees FeesTheorems Engine EngineTheorems P2shTheorems Cli BtcSwap.

#[local] Opaque sha256 ripemd160 atomicSwapContract.

(** What the tool relies on of ECDSA and its encodings: signatures exist,
    are in strict DER form and of the usual length, keys are in compressed form,
    and a signature verifies under its key. *)
Class SigningLaws `{!Secp256k1} : Prop := {
  sign_encoding d h sig : PrivateKey_Sign d h = Ret sig ->
    bytes_ok sig /\ 33 <= zlen sig <= 72 /\ checkSignatureEncoding sig = Ret tt;
  key_encoding d : bytes_ok (SerializeCompressed d) /\ zlen (SerializeCompressed d) = 33 /\
    checkPubKeyEncoding (SerializeCompressed d) = Ret tt;
  sign_total d h : exists sig, PrivateKey_Sign d h = Ret sig;
  sign_verifies d h sig : PrivateKey_Sign d h = Ret sig -> ecdsa h (SerializeCompressed d) sig = Some true }.

(** ** The signature hash does not cover the signature scripts *)

Lemma imap_alter_same {A B} (f : nat -> A -> B) (g : A -> A) l :
  (forall i a, f i (g a) = f i a) -> imap f (alter g 0%nat l) = imap f l.
Proof. intros H. destruct l as [|a l]; [done|]. simpl. by rewrite H. Qed.

Lemma calcSignatureHash_sign_input ps tx s :
  calcSignatureHash ps SigHashAll (sign_input tx s) 0 = calcSignatureHash ps SigHashAll tx 0.
Proof.
  unfold calcSignatureHash. change (Z.land SigHashAll sigHashMask) with 1.
  change (negb (Z.land SigHashAll SigHashAnyOneCanPay =? 0)) with false.
  unfold SigHashSingle, SigHashNone. cbn [Z.eqb andb Pos.eqb]. unfold sign_input. cbn [TxIns TxOuts Version TxLockTime].
  by rewrite imap_alter_same.
Qed.

(** ** Data longer than every push is in no push *)

Lemma bytes_Contains_long b sub : zlen b < zlen sub -> bytes_Contains b sub = false.
Proof.
  unfold zlen. induction b as [|x b IH]; cbn [bytes_Contains length]; intros H.
  - apply orb_false_iff. split; [|done]. apply bool_decide_eq_false. intros E.
    apply (f_equal length) in E. rewrite length_take in E. simpl in E. lia.
  - apply orb_false_iff. split; [|apply IH; lia]. apply bool_decide_eq_false. intros E.
    apply (f_equal length) in E. rewrite length_take in E. simpl in E. lia.
Qed.

Lemma removeOpcodeByData_long ps sig :
  Forall (fun p => zlen (default [] (pop_data p)) < zlen sig) ps -> removeOpcodeByData ps sig = ps.
Proof.
  unfold removeOpcodeByData. induction 1 as [|p ps Hp _ IH]; [done|]. cbn [List.filter].
  rewrite bytes_Contains_long, orb_true_r by done. by rewrite IH.
Qed.

Lemma contract_pops_short pkhMe pkhThem h d n :
  zlen pkhMe = 20 -> zlen pkhThem = 20 -> zlen h = 32 -> zlen d <= 5 -> 33 <= n ->
  Forall (fun p => zlen (default [] (pop_data p)) < n) (contract_pops pkhMe pkhThem h (mkPop (zlen d) (Some d))).
Proof.
  intros. unfold contract_pops. pose proof (zlen_nonneg d).
  rewrite !Forall_cons, Forall_nil. unfold default, id. cbn [pop_data].
  rewrite ?zlen_cons, ?zlen_nil. split_and!; try done; lia.
Qed.

(** ** A signature made for a contract *)

Section Signed.
Context {curve : Secp256k1} `{!SigningLaws}.

Lemma RawTxInSignature_signed pkhMe pkhThem h l contract tx key sig s :
  contract_of pkhMe pkhThem h l contract ->
  RawTxInSignature tx 0 contract SigHashAll key = Ret sig ->
  signed_by ecdsa contract (sign_input tx s) 0 sig (SerializeCompressed key) /\
  push_size_ok sig /\ push_size_ok (SerializeCompressed key).
Proof.
  intros Hco. destruct (contract_of_parse _ _ _ _ _ Hco) as (d & Hps & Hd & _ & _ & Hsz).
  unfold RawTxInSignature, CalcSignatureHash. rewrite Hps. cbn [mapErr mbind outcome_bind].
  destruct (PrivateKey_Sign key _) as [body|e|e] eqn:E; cbn [mapErr mbind outcome_bind]; [|done..].
  intros [= <-]. change (to_uint 8 SigHashAll) with 1.
  destruct (sign_encoding _ _ _ E) as (Hok & Hlen & Henc).
  destruct (key_encoding key) as (Hkok & Hklen & Hkenc).
  split_and!.
  - eexists. split; [exact Hps|]. exists body, 1. split_and!; [done|done|done|done|].
    destruct Hco as [[_ ?] [_ ?] [_ ?] _ _].
    rewrite removeOpcodeByData_long by (apply contract_pops_short; rewrite ?zlen_app; change (zlen [1]) with 1; lia).
    rewrite calcSignatureHash_sign_input. by apply sign_verifies.
  - split; [apply Forall_app_2; [done|repeat constructor; unfold is_byte; lia]|].
    rewrite zlen_app. change (zlen [1]) with 1. unfold MaxScriptElementSize. lia.
  - split; [done|]. unfold MaxScriptElementSize. lia.
Qed.
End Signed.

(** ** Finding the contract output *)

Lemma find_output_spec script outs k i : find_output script outs k = Some i <->
  exists j o, i = (k + j)%nat /\ outs !! j = Some o /\ PkScript o = script /\
    Forall (fun o => PkScript o <> script) (take j outs).
Proof.
  revert k. induction outs as [|o outs IH]; intros k; cbn [find_output].
  { split; [done|]. intros (j & o & _ & Hl & _). by destruct j. }
  case_bool_decide as Ho.
  - split; [intros [= <-]; exists 0%nat, o; split_and!; [lia|done|done|constructor]|].
    intros (j & o' & -> & Hl & Hp & Hf). destruct j as [|j]; [f_equal; lia|].
    cbn [take] in Hf. inversion_clear Hf. done.
  - rewrite IH. split.
    + intros (j & o' & -> & Hl & Hp & Hf). exists (S j), o'. split_and!; [lia|done|done|by constructor].
    + intros (j & o' & -> & Hl & Hp & Hf). destruct j as [|j]; [simpl in Hl; congruence|].
      exists j, o'. cbn [take] in Hf. inversion_clear Hf. split_and!; [lia|done|done|done].
Qed.

(** An output whose class is script hash has the script of its hash. *)
Lemma isScriptHash_values pops : typeOfScript pops = ScriptHashTy -> isScriptHash pops = true.
Proof.
  unfold typeOfScript. repeat case_match; done.
Qed.

Lemma extract_p2sh h net : zlen h = 20 ->
  ExtractPkScriptAddrs (p2sh_bytes h) net = (ScriptHashTy, [AddressScriptHash h (ScriptHashAddrID net)], None).
Proof.
  intros Hh. unfold ExtractPkScriptAddrs. rewrite parse_p2sh by done.
  change (typeOfScript (p2sh_pops h)) with ScriptHashTy. unfold script_addrs, p2sh_pops.
  change (default [] _) with h. unfold newAddressScriptHashFromHash. by rewrite Hh.
Qed.

Lemma extract_p2sh_inv s net addrs err : bytes_ok s ->
  ExtractPkScriptAddrs s net = (ScriptHashTy, addrs, err) ->
  exists h, s = p2sh_bytes h /\ zlen h = 20 /\ addrs = [AddressScriptHash h (ScriptHashAddrID net)].
Proof.
  intros Hok. unfold ExtractPkScriptAddrs. destruct (parseScript s) as [pops|e|e] eqn:Hp; [|done..].
  intros [= Hc <- <-]. rewrite Hc.
  apply parseScript_spec in Hp as [Hwf Hu]; [|done].
  apply isScriptHash_values, bool_decide_eq_true in Hc.
  destruct pops as [|p0 [|p1 [|p2 [|]]]]; try discriminate Hc. injection Hc as H0 H1 H2.
  rewrite !Forall_cons in Hwf. destruct Hwf as (Hw0 & Hw1 & Hw2 & _).
  destruct (unparse_cons_inv _ _ _ _ Hu (pop_bytes_op _ _ Hw0 H0 eq_refl)) as (s1 & Hu1 & ->).
  destruct (pop_bytes_data _ _ Hw1 H1) as (d & Hd & _ & Hz & Hb); [unfold OP_DATA_20; lia|].
  destruct (unparse_cons_inv _ _ _ _ Hu1 Hb) as (s2 & Hu2 & ->).
  destruct (unparse_cons_inv _ _ _ _ Hu2 (pop_bytes_op _ _ Hw2 H2 eq_refl)) as (s3 & Hu3 & ->).
  injection Hu3 as <-. exists d. split_and!; [done|done|].
  unfold script_addrs. destruct p1 as [v1 d1]. simpl in Hd. subst d1.
  change (default [] _) with d. unfold newAddressScriptHashFromHash. by rewrite Hz.
Qed.

(** The search of [redeem] and [auditcontract] finds the same output as that of
    [buildRefund]. *)
Lemma contract_output_find net h outs k : zlen h = 20 -> Forall (fun o => bytes_ok (PkScript o)) outs ->
  contract_output net h outs k = Ret (find_output (p2sh_bytes h) outs k).
Proof.
  intros Hh. revert k. induction outs as [|o outs IH]; intros k Hok; [done|].
  inversion_clear Hok as [|? ? Ho Hos]. cbn [contract_output find_output].
  destruct (bool_decide (PkScript o = p2sh_bytes h)) eqn:E.
  - apply bool_decide_eq_true in E. rewrite E, extract_p2sh by done. by rewrite bool_decide_true.
  - apply bool_decide_eq_false in E. rewrite <-IH by done.
    destruct (ExtractPkScriptAddrs (PkScript o) net) as [[sc addrs] err] eqn:Ex.
    destruct sc; try done. apply extract_p2sh_inv in Ex as (h' & Hs & _ & ->); [|done].
    rewrite bool_decide_false; [done|]. intros ->. done.
Qed.

(** ** Building *)

Lemma recognised_Ret contract p : recognised contract = Ret p <-> ExtractAtomicSwapDataPushes contract = Ret (Some p).
Proof.
  unfold recognised. destruct (ExtractAtomicSwapDataPushes contract) as [[q|]|e|e]; simpl; split; congruence.
Qed.

Lemma contract_of_pushes pkhMe pkhThem h l contract :
  contract_of pkhMe pkhThem h l contract ->
  ExtractAtomicSwapDataPushes contract = Ret (Some (mkPushes pkhThem pkhMe h secretSize l)).
Proof.
  intros [[Ho1 H1] [Ho2 H2] [Ho3 H3] Hl Hb].
  pose proof (extract_built pkhMe pkhThem h l Ho1 Ho2 Ho3 H1 H2 H3 ltac:(lia)) as E.
  rewrite Hb in E. cbn [mbind outcome_bind] in E. rewrite E.
  by rewrite (proj2 (Z.eqb_neq l (-1))) by lia.
Qed.

Lemma verify_spend_Ret ec pkScript tx idx u :
  verify_spend ec pkScript tx idx = Ret u <-> accepts ec pkScript tx idx.
Proof.
  unfold verify_spend, accepts. destruct (e ← _; _) as [[]|e|e]; destruct u; split; done.
Qed.

Lemma verify_spend_refused ec pkScript tx idx :
  ~ accepts ec pkScript tx idx -> exists err, verify_spend ec pkScript tx idx = Panic err.
Proof.
  unfold verify_spend, accepts. intros H. destruct (e ← _; _) as [[]|e|e]; [done|by eexists..].
Qed.

(** The parts of a transaction made by [spend_tx] and signed. *)
Lemma sign_spend_tx lt op q s v f sig :
  sign_input (spend_tx lt op q s v f) sig =
  mkMsgTx txVersion [mkTxIn op sig [] q] [mkTxOut (to_int 64 (v - f)) s] (to_uint 32 lt).
Proof. done. Qed.

(** A spend of the output [i] of [contractTx], signed and accepted. *)
Record refund_of {curve : Secp256k1} (contract : bytes) (contractTx : MsgTx) (lt fee : Z) (tx : MsgTx) : Prop := {
  ro_output : exists i o sig script,
    TxOuts contractTx !! i = Some o /\ PkScript o = p2sh_bytes (Hash160 contract) /\
    Forall (fun o => PkScript o <> p2sh_bytes (Hash160 contract)) (take i (TxOuts contractTx)) /\
    tx = mkMsgTx txVersion
           [mkTxIn (mkOutPoint (TxHash contractTx) (Z.of_nat i)) sig [] 0]
           [mkTxOut (to_int 64 (Value o - fee)) script] (to_uint 32 lt) /\
    accepts ecdsa (PkScript o) tx 0 }.

Section Build.
Context {N : Type} `{!BtcWallet N} {curve : Secp256k1} (chainParams : Params).

(** The script of the address of a contract. *)
Lemma p2sh_address contract : exists a,
  NewAddressScriptHash contract chainParams = Ret a /\ PayToAddrScript a = Ret (p2sh_bytes (Hash160 contract)).
Proof.
  eexists. split.
  - unfold NewAddressScriptHash, newAddressScriptHashFromHash. by rewrite Hash160_length.
  - apply payToScriptHashScript_bytes; [apply Hash160_ok|apply Hash160_length].
Qed.

Lemma buildRefund_Ret contract contractTx feePerKb (e e' : env N) tx fee :
  buildRefund chainParams contract contractTx feePerKb e = (Ret (tx, fee), e') ->
  exists p size, ExtractAtomicSwapDataPushes contract = Ret (Some p) /\
    fee = FeeForSerializeSize feePerKb size /\
    refund_of contract contractTx (LockTime p) fee tx.
Proof.
  unfold buildRefund. intros H. destruct (p2sh_address contract) as (a & Ha & Hs).
  rewrite Ha in H. cmd_inv H. rewrite Hs in *. simplify_eq. destruct a8 as [sig pk]. cmd_inv H.
  destruct (ExtractAtomicSwapDataPushes contract) as [[p|]|er|er]; try done. simplify_eq.
  do 2 eexists. split; [done|]. split; [done|]. split.
  match goal with Hx : find_output _ _ _ = Some _ |- _ => apply find_output_spec in Hx as (i & o & -> & Ho & Hscr & Hfirst) end.
  match goal with Hx : verify_spend _ _ _ _ = Ret _ |- _ => apply verify_spend_Ret in Hx; rename Hx into Hacc end.
  change (0 + i)%nat with i in *. unfold out_script, out_value in *. rewrite Ho in *.
  exists i, o. do 2 eexists. split_and!; [done|done|done| |exact Hacc]. by rewrite sign_spend_tx.
Qed.

Lemma buildRedeem_Ret contract contractTx secret (e e' : env N) tx fee i :
  buildRedeem chainParams contract contractTx secret e = (Ret (tx, fee, i), e') ->
  exists p script sig pubkey sigScript,
    ExtractAtomicSwapDataPushes contract = Ret (Some p) /\
    contract_output chainParams (Hash160 contract) (TxOuts contractTx) 0 = Ret (Some i) /\
    redeemP2SHContract contract sig pubkey secret = Ret sigScript /\
    tx = mkMsgTx txVersion
           [mkTxIn (mkOutPoint (TxHash contractTx) (Z.of_nat i)) sigScript [] MaxTxInSequenceNum]
           [mkTxOut (to_int 64 (out_value contractTx i - fee)) script] (to_uint 32 (LockTime p)).
Proof.
  unfold buildRedeem. intros H. cmd_inv H. destruct a7 as [sig pk]. cmd_inv H.
  match goal with Hx : recognised _ = Ret _ |- _ => apply recognised_Ret in Hx end.
  injection H as -> -> ->. do 5 eexists. split_and!; [done|done|done|by rewrite sign_spend_tx].
Qed.
End Build.

(** ** A wallet that answers *)

(** A wallet with fresh addresses of the network, a fee rate, and the keys of
    the addresses it owns. *)
Class HonestWallet (N : Type) `{!BtcWallet N} {curve : Secp256k1} (net : Params) (owns : bytes -> Prop) : Prop := {
  fresh_address (n : N) : exists h n', GetUnusedAddress n = (Ret (AddressPubKeyHash h (PubKeyHashAddrID net)), n') /\
    bytes_ok h /\ zlen h = 20;
  known_rate (n : N) : exists r n', GetFeeRate n = (Ret r, n');
  dump_key h id (n : N) : owns h -> exists wif n', DumpPrivKey (AddressPubKeyHash h id) n = (Ret wif, n') /\
    Hash160 (SerializeCompressed (PrivKey wif)) = h }.

Section Honest.
Context {N : Type} `{!BtcWallet N} {curve : Secp256k1} `{!SigningLaws} (chainParams : Params).
Context (owns : bytes -> Prop) `{!HonestWallet N chainParams owns}.

Lemma getUnusedAddress_runs (e : env N) : exists h e',
  getUnusedAddress chainParams e = (Ret (AddressPubKeyHash h (PubKeyHashAddrID chainParams)), e') /\
  bytes_ok h /\ zlen h = 20 /\ stdin e' = stdin e /\ stdout e' = stdout e /\ clock e' = clock e.
Proof.
  destruct (fresh_address (node e)) as (h & n' & E & Hok & Hh).
  exists h, (mkEnv n' (stdin e) (stdout e) (clock e)). split; [|done].
  unfold getUnusedAddress. erewrite bind_Ret_run; [|unfold ask; by rewrite E].
  cbn [IsForNet is_P2PKH]. by rewrite Z.eqb_refl.
Qed.

Lemma createSig_runs tx contract pops h id (e : env N) : owns h -> parseScript contract = Ret pops ->
  exists sig d e', createSig tx 0 contract (AddressPubKeyHash h id) e = (Ret (sig, SerializeCompressed d), e') /\
    RawTxInSignature tx 0 contract SigHashAll d = Ret sig /\ Hash160 (SerializeCompressed d) = h /\
    stdin e' = stdin e /\ stdout e' = stdout e /\ clock e' = clock e.
Proof.
  intros Ho Hp. destruct (dump_key h id (node e) Ho) as (wif & n' & E & Hk).
  destruct (sign_total (PrivKey wif) (calcSignatureHash pops SigHashAll tx 0)) as [body Hb].
  exists (body ++ [1]), (PrivKey wif), (mkEnv n' (stdin e) (stdout e) (clock e)).
  assert (RawTxInSignature tx 0 contract SigHashAll (PrivKey wif) = Ret (body ++ [1])) as Hs.
  { unfold RawTxInSignature, CalcSignatureHash. rewrite Hp. cbn [mapErr mbind outcome_bind]. by rewrite Hb. }
  split_and!; try done.
  unfold createSig. erewrite bind_Ret_run; [|unfold ask; by rewrite E].
  by erewrite bind_pure_run by exact Hs.
Qed.

Lemma payToPubKeyHash_runs h : bytes_ok h -> zlen h = 20 -> exists s, payToPubKeyHashScript h = Ret s.
Proof.
  intros Ho Hh. unfold payToPubKeyHashScript, NewScriptBuilder.
  rewrite AddOp_ok by (unfold MaxScriptSize; done).
  rewrite AddOp_ok by (unfold MaxScriptSize; done).
  rewrite AddData_ok; [|done|unfold MaxScriptElementSize; lia|].
  2:{ rewrite addData_chunk_data by (done || lia). autorewrite with swap_len. unfold MaxScriptSize. lia. }
  rewrite addData_chunk_data by (done || lia).
  rewrite !AddOp_ok by (autorewrite with swap_len; unfold MaxScriptSize; lia). eauto.
Qed.

(** What is left of a value after the fee for the estimated size, paid to a key
    hash of the wallet, is dust at the fee rate. *)
Definition dust_after_fee (estimate : bytes -> list TxOut -> outcome Z) (contract : bytes) (value rate v : Z) : Prop :=
  exists h script size, zlen h = 20 /\ payToPubKeyHashScript h = Ret script /\
    estimate contract [NewTxOut 0 script] = Ret size /\
    v = to_int 64 (value - FeeForSerializeSize rate size) /\ IsDustOutput (NewTxOut v script) rate = true.

(** The refund of a contract that a transaction pays: it is built and the
    engine accepts it, unless what is left after the fee is dust. A lock time of
    more than 32 bits does not fit a transaction, and the refund is refused. *)
Lemma buildRefund_runs pkhMe pkhThem h l contract contractTx i feePerKb (e : env N) :
  contract_of pkhMe pkhThem h l contract -> owns pkhMe ->
  find_output (p2sh_bytes (Hash160 contract)) (TxOuts contractTx) 0 = Some i ->
  exists e', (l < 2 ^ 32 /\ exists tx fee, buildRefund chainParams contract contractTx feePerKb e = (Ret (tx, fee), e'))
    \/ (2 ^ 32 <= l /\ exists err, buildRefund chainParams contract contractTx feePerKb e = (Panic err, e'))
    \/ (exists v, dust_after_fee estimateRefundSerializeSize contract (out_value contractTx i) feePerKb v /\
          buildRefund chainParams contract contractTx feePerKb e =
            (Fail (Errorf "refund output value of %v is dust" [FInt v]), e')).
Proof.
  intros Hco Hown Hi. pose proof (co_lock _ _ _ _ _ Hco) as Hl.
  destruct (contract_of_parse _ _ _ _ _ Hco) as (d & Hps & _ & _ & _ & Hsz).
  pose proof Hco as [[_ H20] _ _ _ _].
  destruct (p2sh_address chainParams contract) as (a & Ha & Hs).
  destruct (getUnusedAddress_runs e) as (hr & e1 & E1 & Hok & Hhr & _).
  destruct (payToPubKeyHash_runs hr Hok Hhr) as [script Hscript].
  pose proof (contractPushSize_ok contract Hsz) as Hn.
  unfold buildRefund. rewrite (bind_pure_run _ _ _ _ Ha), (bind_pure_run _ _ _ _ Hs).
  rewrite Hi, (bind_pure_run _ _ _ i) by done.
  erewrite bind_Ret_run; [|unfold errf; by rewrite E1].
  erewrite bind_pure_run by exact Hscript.
  rewrite (contract_of_pushes _ _ _ _ _ Hco). erewrite bind_pure_run by done. cbn [RefundHash160 LockTime].
  erewrite bind_pure_run; [|unfold NewAddressPubKeyHash, newAddressPubKeyHash; by rewrite H20].
  erewrite bind_pure_run; [|unfold estimateRefundSerializeSize; by rewrite Hn].
  match goal with |- context [spend_tx l ?op 0 script ?v ?f] => set (tx := spend_tx l op 0 script v f) end.
  match goal with |- context [guard_err ?b _] => destruct b eqn:Hdust end.
  { eexists. right. right. eexists. split; [|reflexivity].
    exists hr, script. eexists. split_and!; [done|exact Hscript|unfold estimateRefundSerializeSize; by rewrite Hn|reflexivity|exact Hdust]. }
  erewrite bind_pure_run by done.
  destruct (createSig_runs tx contract _ pkhMe (PubKeyHashAddrID chainParams) e1 Hown Hps) as (sig & k & e2 & E2 & Hsig & Hk & _).
  erewrite bind_Ret_run by exact E2.
  destruct (RawTxInSignature_signed _ _ _ _ _ tx k sig (refund_bytes contract sig (SerializeCompressed k)) Hco Hsig) as (Hsigned & Hps1 & Hps2).
  pose proof (refundP2SHContract_bytes contract sig (SerializeCompressed k) Hsz Hps1 Hps2) as Hb.
  erewrite bind_pure_run by exact Hb.
  apply find_output_spec in Hi as (j & o & -> & Ho & Hscr & _). change (0 + j)%nat with j in *.
  assert (accepts ecdsa (out_script contractTx j)
            (sign_input tx (refund_bytes contract sig (SerializeCompressed k))) 0 <-> l < 2 ^ 32) as Hacc.
  { unfold out_script. rewrite Ho, Hscr. etransitivity.
    { eapply (refund_script_iff ecdsa); [exact Hco| |reflexivity|reflexivity|exact Hps1|exact Hps2|exact Hb].
      apply payToScriptHashScript_bytes; [apply Hash160_ok|apply Hash160_length]. }
    subst tx. unfold locktime_reached. cbn [TxLockTime sign_input spend_tx AddTxIn AddTxOut]. split.
    - intros [[Hle _] _]. pose proof (to_uint_range 32 l ltac:(lia)) as Hr. unfold is_uint in Hr. lia.
    - intros Hlt. rewrite to_uint_id by (unfold is_uint; lia). split; [split; lia|]. split; [done|]. by split. }
  exists e2. destruct (Z.lt_ge_cases l (2 ^ 32)) as [Hlt|Hge].
  - left. split; [done|]. do 2 eexists.
    erewrite bind_pure_run; [reflexivity|]. apply (verify_spend_Ret _ _ _ _ tt), Hacc, Hlt.
  - right. left. split; [done|]. destruct (verify_spend_refused ecdsa (out_script contractTx j)
      (sign_input tx (refund_bytes contract sig (SerializeCompressed k))) 0) as [err E].
    { rewrite Hacc. lia. }
    exists err. unfold pure, mbind, cmd_bind. by rewrite E.
Qed.

(** The redemption with some secret is built, unless what is left after the fee
    is dust or the secret is too long to be pushed, and the engine accepts it when
    the secret is the preimage of the hash, and only then. *)
Lemma buildRedeem_runs pkhMe pkhThem h l contract contractTx i secret (e : env N) :
  contract_of pkhMe pkhThem h l contract -> owns pkhThem -> bytes_ok secret ->
  Forall (fun o => bytes_ok (PkScript o)) (TxOuts contractTx) ->
  find_output (p2sh_bytes (Hash160 contract)) (TxOuts contractTx) 0 = Some i ->
  exists e', (zlen secret <= MaxScriptElementSize /\ exists tx fee, buildRedeem chainParams contract contractTx secret e = (Ret (tx, fee, i), e') /\
                (accepts ecdsa (out_script contractTx i) tx 0 <-> zlen secret = secretSize /\ sha256 secret = h))
    \/ (MaxScriptElementSize < zlen secret /\ buildRedeem chainParams contract contractTx secret e = (Fail ErrScriptNotCanonical, e'))
    \/ (exists rate v n n', GetFeeRate n = (Ret rate, n') /\
          dust_after_fee estimateRedeemSerializeSize contract (out_value contractTx i) rate v /\
          buildRedeem chainParams contract contractTx secret e =
            (Fail (Errorf "redeem output value of %v is dust" [FInt v]), e')).
Proof.
  intros Hco Hown Hsec Hall Hi.
  destruct (contract_of_parse _ _ _ _ _ Hco) as (d & Hps & _ & _ & _ & Hsz).
  pose proof Hco as [_ [_ H20] _ _ _].
  destruct (getUnusedAddress_runs e) as (hr & e1 & E1 & Hok & Hhr & _).
  destruct (payToPubKeyHash_runs hr Hok Hhr) as [script Hscript].
  pose proof (contractPushSize_ok contract Hsz) as Hn.
  destruct (known_rate (node e1)) as (rate & n2 & E2).
  unfold buildRedeem. erewrite bind_pure_run by (apply recognised_Ret, (contract_of_pushes _ _ _ _ _ Hco)).
  cbn [RecipientHash160 LockTime].
  erewrite bind_pure_run; [|unfold NewAddressPubKeyHash, newAddressPubKeyHash; by rewrite H20].
  erewrite bind_pure_run; [|rewrite contract_output_find by (apply Hash160_length || done); rewrite Hi; reflexivity].
  erewrite bind_Ret_run; [|unfold errf; by rewrite E1].
  erewrite bind_pure_run by exact Hscript.
  erewrite bind_Ret_run; [|unfold getFeePerKb, ask; by rewrite E2].
  set (e2 := mkEnv n2 _ _ _).
  erewrite bind_pure_run; [|unfold estimateRedeemSerializeSize; by rewrite Hn].
  match goal with |- context [spend_tx l ?op ?q script ?v ?f] => set (tx := spend_tx l op q script v f) end.
  match goal with |- context [guard_err ?b _] => destruct b eqn:Hdust end.
  { eexists. right. right. exists rate. do 3 eexists. split; [exact E2|]. split; [|reflexivity].
    exists hr, script. eexists. split_and!; [done|exact Hscript|unfold estimateRedeemSerializeSize; by rewrite Hn|reflexivity|exact Hdust]. }
  erewrite bind_pure_run by done.
  destruct (createSig_runs tx contract _ pkhThem (PubKeyHashAddrID chainParams) e2 Hown Hps) as (sig & k & e3 & E3 & Hsig & Hk & _).
  erewrite bind_Ret_run by exact E3.
  destruct (RawTxInSignature_signed _ _ _ _ _ tx k sig (redeem_bytes contract sig (SerializeCompressed k) secret) Hco Hsig) as (Hsigned & Hps1 & Hps2).
  pose proof (redeemP2SHContract_any contract sig (SerializeCompressed k) secret Hsz Hps1 Hps2 Hsec) as Hb.
  exists e3. destruct (Z.ltb_spec MaxScriptElementSize (zlen secret)) as [Hlong|Hshort].
  { right. left. split; [done|]. rewrite Hb. reflexivity. }
  erewrite bind_pure_run by exact Hb.
  left. split; [done|]. do 2 eexists. split; [reflexivity|].
  apply find_output_spec in Hi as (j & o & -> & Ho & Hscr & _). change (0 + j)%nat with j in *.
  unfold out_script. rewrite Ho, Hscr.
  etransitivity.
  - by eapply (redeem_script_any ecdsa); [exact Hco|reflexivity|reflexivity|exact Hps1|exact Hps2|exact Hsec|exact Hshort|reflexivity].
  - tauto.
Qed.
End Honest.
