(* ===== verification/BtcTheorems.v ===== *)
(** * What the commands of the Bitcoin tool promise

    A transaction is published only when it can be taken back or is already
    accepted by the script engine, and only with the consent of the user; a
    contract that passes the audit is the contract of the builder, paid by the
    transaction; refund and redemption succeed with an honest wallet. A wallet
    that holds two keys shows that the assumptions can hold. *)

From S2P Require Import Prelude Sha256 Ripemd160 Script ScriptFacts Address Wire SwapContract SwapTheorems Vectors Fees Engine P2shTheorems Cli BtcSwap BtcCommands BtcFacts.

#[local] Opaque sha256 ripemd160 atomicSwapContract.

(** [R] holds across every operation of the wallet other than sending. *)
Class WalletReadsKeep {N} `{!BtcWallet N} (R : N -> N -> Prop) : Prop := {
  keep_address n : R n (GetUnusedAddress n).2;
  keep_dump a n : R n (DumpPrivKey a n).2;
  keep_rate n : R n (GetFeeRate n).2;
  keep_payto d a u n : R n (PayTo d a u n).2;
  keep_list n : R n (ListUnspent n).2;
  keep_random k n : R n (crypto_rand_Read k n).2 }.

(** The commands that need no wallet only print. *)
Lemma keeps_offline {N} (R : N -> N -> Prop) `{!PreOrder R} chainParams automated c (m : cmd N unit) :
  offlineCommand chainParams automated c = Some m -> keeps (quiet R) m.
Proof.
  intros Hm. destruct c; try done; injection Hm as <-.
  - unfold extractSecret_runOfflineCommand. quiet_with idtac.
  - unfold auditContract_runOfflineCommand, show_locktime. quiet_with idtac. apply keeps_Printf, _.
Qed.

Section Publish.
Context {N : Type} `{!BtcWallet N} {curve : Secp256k1} (chainParams : Params) (automated : bool).
Context (R : N -> N -> Prop) `{!PreOrder R, !WalletReadsKeep R}.

Ltac keep_op := first [apply keep_address|apply keep_dump|apply keep_rate|apply keep_payto|apply keep_list|apply keep_random].
Ltac quiet := quiet_with keep_op.

Lemma keeps_getUnusedAddress : keeps (quiet R) (getUnusedAddress chainParams).
Proof. unfold getUnusedAddress. quiet. Qed.
Lemma keeps_getFeePerKb : keeps (quiet R) (getFeePerKb (N := N)).
Proof. unfold getFeePerKb. quiet. Qed.
Lemma keeps_createSig tx i s a : keeps (quiet R) (createSig tx i s a).
Proof. unfold createSig. quiet. Qed.
Lemma keeps_payTo d a : keeps (quiet R) (payTo d a).
Proof. unfold payTo. quiet. Qed.
Lemma keeps_unix_after d : keeps (quiet R) (unix_after d).
Proof. unfold unix_after. quiet. Qed.
Lemma keeps_print_json l : keeps (quiet R) (print_json l).
Proof. apply keeps_Printf, _. Qed.

Lemma keeps_buildRefund c tx f : keeps (quiet R) (buildRefund chainParams c tx f).
Proof.
  unfold buildRefund. quiet; auto using keeps_getUnusedAddress, keeps_createSig.
Qed.
Lemma keeps_buildContract args : keeps (quiet R) (buildContract chainParams args).
Proof.
  unfold buildContract. quiet; auto using keeps_getUnusedAddress, keeps_getFeePerKb, keeps_payTo, keeps_buildRefund.
Qed.
Lemma keeps_buildRedeem c tx s : keeps (quiet R) (buildRedeem chainParams c tx s).
Proof.
  unfold buildRedeem. quiet; auto using keeps_getUnusedAddress, keeps_getFeePerKb, keeps_createSig.
Qed.
Lemma keeps_show_contract b : keeps (quiet R) (show_contract b).
Proof. unfold show_contract. quiet. Qed.

(** Either nothing was sent or one transaction, for which [P] holds, with the
    consent of the user unless the tool runs unattended. *)
Definition published (P : MsgTx -> Prop) (e e' : env N) : Prop :=
  R (node e) (node e')
  \/ exists tx n, P tx /\ R (node e) n /\ R (SendRawTransaction tx n).2 (node e')
       /\ (automated = true \/ Exists (fun line => read_answer line = Some true) (stdin e)).

Lemma published_prompt (P : MsgTx -> Prop) tx name (e e' : env N) r : P tx ->
  promptPublishTx automated tx name e = (r, e') -> published P e e'.
Proof.
  intros HP. unfold promptPublishTx.
  assert (forall w r w', (txHash ← errf (fun er => Errorf "sendrawtransaction: %v" [FErr er]) (ask (SendRawTransaction tx));
    if automated then mret tt else Printf "Published %s transaction (%v)\n" [FStr name; FBytes txHash]) w = (r, w') ->
    node w' = (SendRawTransaction tx (node w)).2) as Hsend.
  { intros w r0 w'. unfold mbind, cmd_bind, errf, ask, Printf.
    destruct (SendRawTransaction tx (node w)) as [[h|er|er] n]; cbn; try (by intros [= _ <-]).
    destruct automated; by intros [= _ <-]. }
  destruct automated eqn:Ea.
  - intros H. erewrite bind_Ret_run in H by reflexivity. cbn [negb] in H. apply Hsend in H. right. exists tx, (node e). rewrite H. split_and!; [done|done|done|by left].
  - unfold mbind at 1, cmd_bind at 1. destruct (Cli.promptPublishTx name e) as [[b|er|er] w] eqn:Ep;
      apply prompt_loop_spec in Ep as (Hn & _ & Ha).
    + destruct b; cbn [negb].
      * intros H. apply Hsend in H. right. exists tx, (node e). rewrite H, Hn. split_and!; [done|done|done|].
        right. destruct Ha as (pre & line & post & Hin & _ & _ & Hyes). rewrite Hin. apply Exists_app. right. by left.
      * intros [= _ <-]. left. by rewrite Hn.
    + intros [= _ <-]. left. by rewrite Hn.
    + done.
Qed.

(** What a quiet start of a command establishes about its result. *)
Lemma published_bind {A B} (P : MsgTx -> Prop) (m : cmd N A) (f : A -> cmd N B) e r e' :
  keeps (quiet R) m ->
  (forall a e1, m e = (Ret a, e1) -> clock e1 = clock e -> f a e1 = (r, e') -> published P e1 e') ->
  (m ≫= f) e = (r, e') -> published P e e'.
Proof.
  intros Hm Hf. unfold mbind, cmd_bind. destruct (m e) as [[a|er|er] e1] eqn:E; pose proof (Hm _ _ _ E) as (H1 & H2 & H3 & _).
  - intros H. destruct (Hf a e1 eq_refl H3 H) as [H'|(tx & n & HP & Hn & Hs & Hy)].
    + left. by etransitivity.
    + right. exists tx, n. rewrite <-H2. split_and!; [done|by etransitivity|done|done].
  - intros [= _ <-]. by left.
  - intros [= _ <-]. by left.
Qed.

(** A contract transaction may be published when its refund is ready: the
    contract has the counterparty, secret hash and lock time it should have,
    the transaction pays it, and the engine accepts the refund. *)
Definition refundable (them h : bytes) (lt : Z) (tx : MsgTx) : Prop :=
  exists me contract refundTx fee,
    atomicSwapContract me them lt h = Ret contract /\ refund_of contract tx lt fee refundTx.

(** Address hashes have 20 bytes: in Go they are arrays. *)
Class WalletTyped : Prop :=
  address_typed (n : N) h id n' : GetUnusedAddress n = (Ret (AddressPubKeyHash h id), n') -> hash_ok 20 h.

Lemma getUnusedAddress_Ret {typed : WalletTyped} (e e' : env N) a : getUnusedAddress chainParams e = (Ret a, e') ->
  exists h, a = AddressPubKeyHash h (PubKeyHashAddrID chainParams) /\ hash_ok 20 h.
Proof.
  unfold getUnusedAddress. intros H. cmd_inv H.
  match goal with Hx : ask _ _ = _ |- _ => apply run_ask in Hx as (n & Hn & ->) end.
  match goal with Hx : GetUnusedAddress _ = (Ret ?x, _) |- _ => destruct x; try done end. cbn [IsForNet] in *.
  match goal with Hx : negb (_ =? _) = false |- _ => apply negb_false_iff, Z.eqb_eq in Hx; subst end.
  eexists. split; [done|]. by eapply address_typed.
Qed.

Lemma buildContract_Ret {typed : WalletTyped} args (e e' : env N) b :
  hash_ok 20 (them args) -> hash_ok 32 (ca_secretHash args) -> 16 < ca_locktime args < 2 ^ 39 ->
  buildContract chainParams args e = (Ret b, e') ->
  refundable (them args) (ca_secretHash args) (ca_locktime args) (bc_contractTx b).
Proof.
  intros [Ht Ht20] [Hh Hh32] Hl. unfold buildContract. intros H.
  cmd_inv H. repeat (match goal with Hx : (let '(_, _) := ?p in _) _ = (Ret _, _) |- _ => destruct p end; cmd_inv H).
  match goal with Hx : getUnusedAddress _ _ = (Ret _, _) |- _ => apply getUnusedAddress_Ret in Hx as (me & -> & Hm & Hm20) end.
  match goal with Hx : buildRefund _ _ _ _ _ = (Ret _, _) |- _ => apply buildRefund_Ret in Hx as (p & size & Hp & -> & Hr) end.
  match goal with Hx : address_Hash160 _ = Some _ |- _ => injection Hx as <- end.
  match goal with Hx : atomicSwapContract _ _ _ _ = Ret _ |- _ => rename Hx into Hc end.
  pose proof (contract_of_pushes me (them args) (ca_secretHash args) (ca_locktime args) _
    ltac:(by constructor)) as Hp'.
  rewrite Hp' in Hp. injection Hp as <-.
  do 4 eexists. split; [exact Hc|exact Hr].
Qed.

(** When a transaction may be sent, per command: a contract with the lock time
    48 or 24 hours from now and the secret hash of a secret that was drawn or
    given, if its refund is ready; a redemption or a refund of the contract
    output, if the engine accepts it. *)
Definition redeemable_by (contract : bytes) (contractTx tx : MsgTx) : Prop :=
  exists i o sigScript script v lt, TxOuts contractTx !! i = Some o /\ PkScript o = p2sh_bytes (Hash160 contract) /\
    tx = mkMsgTx txVersion [mkTxIn (mkOutPoint (TxHash contractTx) (Z.of_nat i)) sigScript [] MaxTxInSequenceNum]
           [mkTxOut v script] lt /\
    accepts ecdsa (PkScript o) tx 0.

Definition ready (now : Z) (c : command) (tx : MsgTx) : Prop :=
  match c with
  | InitiateCmd them _ => exists secret n n', crypto_rand_Read 32 n = (Ret secret, n') /\
      refundable them (sha256 secret) ((now + timings_LockTime) / 10 ^ 9) tx
  | ParticipateCmd them _ h => refundable them h ((now + timings_LockTime / 2) / 10 ^ 9) tx
  | RedeemCmd contract contractTx _ => redeemable_by contract contractTx tx
  | RefundCmd contract contractTx => exists lt fee, refund_of contract contractTx lt fee tx
  | ExtractSecretCmd _ _ | AuditContractCmd _ _ => False
  end.

(** The hashes of the arguments have the sizes [run] checks, and the scripts of
    a decoded transaction are bytes. *)
Definition command_ok (c : command) : Prop :=
  match c with
  | InitiateCmd them _ => hash_ok 20 them
  | ParticipateCmd them _ h => hash_ok 20 them /\ hash_ok 32 h
  | RedeemCmd _ tx _ | RefundCmd _ tx => Forall (fun o => bytes_ok (PkScript o)) (TxOuts tx)
  | ExtractSecretCmd _ _ | AuditContractCmd _ _ => True
  end.

Lemma sha256_hash_ok s : hash_ok 32 (sha256 s).
Proof. split; [apply sha256_ok|apply sha256_length]. Qed.

Lemma unix_after_Ret d (e e' : env N) t : unix_after d e = (Ret t, e') -> t = (clock e + d) / 10 ^ 9.
Proof. unfold unix_after. intros H. by cmd_inv H. Qed.

(** Command by command; the theorem below says what it means. *)
Lemma btc_commands_publish_by {typed : WalletTyped} c e r e' :
  command_ok c -> 0 <= clock e < 2 ^ 63 ->
  runCommand chainParams automated c e = (r, e') ->
  published (ready (clock e) c) e e'.
Proof.
  intros Hok Hclock H. destruct c as [them amount|them amount h|contract ctx secret|contract ctx|tx h|contract ctx];
    cbn [runCommand] in H.
  - unfold initiate_runCommand in H. revert H.
    apply published_bind; [apply keeps_ask, keep_random|]. intros secret e1 Hsec Hc1.
    apply published_bind; [apply keeps_unix_after|]. intros lt e2 Hlt Hc2. apply unix_after_Ret in Hlt.
    apply published_bind; [apply keeps_buildContract|]. intros b e3 Hb _.
    apply published_bind; [destruct automated; [apply keeps_print_json|quiet; apply keeps_show_contract]|].
    intros _ e4 _ _. apply published_prompt. apply run_ask in Hsec as (n' & Hsec & _). exists secret, (node e), n'. split; [exact Hsec|].
    rewrite <-Hc1, <-Hlt. eapply (buildContract_Ret (mkContractArgs them amount lt (sha256Hash secret))); [exact Hok|apply sha256_hash_ok| |exact Hb].
    cbn [ca_locktime]. subst lt. rewrite Hc1. unfold timings_LockTime.
    split; [apply Z.lt_le_trans with 17; [lia|apply Z.div_le_lower_bound; lia]|apply Z.div_lt_upper_bound; lia].
  - unfold participate_runCommand in H. revert H.
    apply published_bind; [apply keeps_unix_after|]. intros lt e2 Hlt Hc2. apply unix_after_Ret in Hlt.
    apply published_bind; [apply keeps_buildContract|]. intros b e3 Hb _.
    apply published_bind; [destruct automated; [apply keeps_print_json|apply keeps_show_contract]|].
    intros _ e4 _ _. apply published_prompt. cbn [ready]. change (timings_LockTime / 2) with (Z.quot timings_LockTime 2).
    rewrite <-Hlt. destruct Hok as [Hok Hh].
    eapply (buildContract_Ret (mkContractArgs them amount lt h)); [exact Hok|exact Hh| |exact Hb].
    cbn [ca_locktime]. subst lt. change (Z.quot timings_LockTime 2) with (24 * (60 * 60 * 10 ^ 9)).
    split; [apply Z.lt_le_trans with 17; [lia|apply Z.div_le_lower_bound; lia]|apply Z.div_lt_upper_bound; lia].
  - unfold redeem_runCommand in H. revert H.
    apply published_bind; [apply keeps_buildRedeem|]. intros [[tx fee] i] e1 Hb _.
    apply published_bind; [destruct automated; [apply keeps_print_json|quiet]|]. intros _ e2 _ _.
    apply published_bind; [quiet|]. intros u e3 Hv _. apply run_pure in Hv as [Hv _]. apply verify_spend_Ret in Hv.
    apply published_prompt. apply buildRedeem_Ret in Hb as (p & script & sig & pk & ss & Hp & Ho & Hs & ->).
    rewrite contract_output_find in Ho by (done || apply Hash160_length). injection Ho as Ho.
    apply find_output_spec in Ho as (j & o & -> & Ho & Hscr & _). change (0 + j)%nat with j in *.
    exists j, o. do 4 eexists. split_and!; [done|done|reflexivity|].
    unfold out_script in Hv. by rewrite Ho in Hv.
  - unfold refund_runCommand in H. revert H.
    apply published_bind; [quiet|]. intros p e1 _ _.
    apply published_bind; [apply keeps_getFeePerKb|]. intros f e2 _ _.
    apply published_bind; [apply keeps_buildRefund|]. intros [tx fee] e3 Hb _.
    apply published_bind; [destruct automated; [apply keeps_print_json|quiet]|]. intros _ e4 _ _.
    apply published_prompt. apply buildRefund_Ret in Hb as (p' & size & _ & -> & Hr). by do 2 eexists.
  - left. by apply (keeps_offline R chainParams automated (ExtractSecretCmd tx h) _ eq_refl _ _ _ H).
  - left. by apply (keeps_offline R chainParams automated (AuditContractCmd contract ctx) _ eq_refl _ _ _ H).
Qed.

(** Nothing is published before it is safe to. Whatever the wallet answers
    and however the command ends, at most one transaction is sent, the user
    agreed to it (unless the tool runs unattended), and: the transaction of
    [initiate] and [participate] pays the contract of the counterparty with the
    lock time 48 or 24 hours from now and the hash of the drawn or given secret,
    and the engine accepts a refund of it that has been built; the transactions
    of [redeem] and [refund] spend the first output that pays the contract, and
    the engine accepts them. The other commands send nothing. *)
Theorem btc_commands_publish {typed : WalletTyped} c e r e' :
  command_ok c -> 0 <= clock e < 2 ^ 63 ->
  runCommand chainParams automated c e = (r, e') ->
  published (ready (clock e) c) e e'.
Proof. apply btc_commands_publish_by. Qed.
End Publish.

(** ** Refund and redemption with an honest wallet *)

Section Settle.
Context {N : Type} `{!BtcWallet N} {curve : Secp256k1} `{!SigningLaws} (chainParams : Params) (automated : bool).
Context (owns : bytes -> Prop) `{!HonestWallet N chainParams owns}.

(** What [redeem] prints changes neither the node nor the result. *)
Lemma show_redeem_runs tx fee (e : env N) : exists shown, node shown = node e /\ forall f : unit -> cmd N unit,
  ((if automated
    then print_json [("redeemFee", FInt fee); ("redeemTransaction", FBytes (TxHash tx))]%string
    else
      _ ← Printf "Redeem fee: %v (%0.8f BTC/kB)\n\n" [FInt fee; FFloat (calcFeePerKb fee (SerializeSize tx))];
      _ ← Printf "Redeem transaction (%v):\n" [FBytes (TxHash tx)];
      Printf "%x\n\n" [FBytes (Serialize tx)]) ≫= f) e = f tt shown.
Proof. destruct automated; eexists; (split; [|intros f; reflexivity]); done. Qed.

(** C12: The author can take the money back when the lock time fits a transaction.
    With a wallet that answers and owns the author's key, [buildRefund] of a
    contract that a transaction pays has one of three results. It returns the
    spend of the first output that pays the contract, with the contract's lock
    time, for the value less the fee, and the engine accepts it: then the lock
    time is less than 2^32. It fails because the value less the fee is dust at
    the fee rate. Or it panics in its own verification: then the lock time is at
    least 2^32 (the recogniser allows it up to 2^39), which the conversion to
    32 bits has truncated. *)
Theorem refund_always_built pkhMe pkhThem h l contract contractTx i feePerKb (e : env N) :
  contract_of pkhMe pkhThem h l contract -> owns pkhMe ->
  find_output (p2sh_bytes (Hash160 contract)) (TxOuts contractTx) 0 = Some i ->
  exists r e', buildRefund chainParams contract contractTx feePerKb e = (r, e') /\
    match r with
    | Ret (tx, fee) => l < 2 ^ 32 /\ refund_of contract contractTx l fee tx
    | Fail err => exists v, err = Errorf "refund output value of %v is dust" [FInt v] /\
        dust_after_fee estimateRefundSerializeSize contract (out_value contractTx i) feePerKb v
    | Panic _ => 2 ^ 32 <= l
    end.
Proof.
  intros Hco Hown Hi.
  destruct (buildRefund_runs chainParams owns pkhMe pkhThem h l contract contractTx i feePerKb e)
    as (e' & [(Hl & tx & fee & E)|[(Hl & err & E)|(v & Hd & E)]]); try done; eexists _, e'; (split; [exact E|]); try done.
  - split; [done|]. apply buildRefund_Ret in E as (p & size & Hp & -> & Hr).
    rewrite (contract_of_pushes _ _ _ _ _ Hco) in Hp. by injection Hp as <-.
  - by exists v.
Qed.

(** C13: [redeem] goes through with the secret and only with it. With a wallet that
    answers and owns the recipient's key, and a contract that the transaction
    pays, one of two things happens. The value less the fee is dust at the
    wallet's fee rate, and the command fails with that error, whatever the secret.
    Or it depends on the secret alone: with 32 bytes that have the contract's
    hash the command comes to the question whether to publish; with any other
    secret of at most 520 bytes it panics in its own verification; and a secret
    of more than 520 bytes, which no script can push, is an error. Only with
    the secret can anything be sent. *)
Theorem redeem_needs_secret pkhMe pkhThem h l contract contractTx i secret (e : env N) :
  contract_of pkhMe pkhThem h l contract -> owns pkhThem -> bytes_ok secret ->
  Forall (fun o => bytes_ok (PkScript o)) (TxOuts contractTx) ->
  find_output (p2sh_bytes (Hash160 contract)) (TxOuts contractTx) 0 = Some i ->
  exists e1 tx, node e1 = node (buildRedeem chainParams contract contractTx secret e).2 /\
    let run := redeem_runCommand chainParams automated contract contractTx secret e in
    ((exists rate v n n', GetFeeRate n = (Ret rate, n') /\
        dust_after_fee estimateRedeemSerializeSize contract (out_value contractTx i) rate v /\
        run = (Fail (Errorf "redeem output value of %v is dust" [FInt v]), e1)) \/
     (zlen secret = secretSize /\ sha256 secret = h -> run = promptPublishTx automated tx "redeem" e1) /\
     (~ (zlen secret = secretSize /\ sha256 secret = h) -> zlen secret <= MaxScriptElementSize ->
        exists err, run = (Panic err, e1)) /\
     (MaxScriptElementSize < zlen secret -> run = (Fail ErrScriptNotCanonical, e1))).
Proof.
  intros Hco Hown Hsec Hall Hi. cbv zeta.
  destruct (buildRedeem_runs chainParams owns pkhMe pkhThem h l contract contractTx i secret e)
    as (e' & [(Hl & tx & fee & E & Hacc)|[(Hl & E)|(rate & v & n & n' & Hr & Hd & E)]]); try done; rewrite E.
  - destruct (show_redeem_runs tx fee e') as (e1 & Hn & Hshow).
    exists e1, tx. split; [exact Hn|]. right.
    assert (redeem_runCommand chainParams automated contract contractTx secret e =
      (pure (verify_spend ecdsa (out_script contractTx i) tx 0) ≫= fun _ => promptPublishTx automated tx "redeem") e1) as Hrun.
    { unfold redeem_runCommand. rewrite (bind_Ret_run _ _ _ _ _ E). apply Hshow. }
    rewrite Hrun. split_and!; [intros Hs|intros Hs _|lia].
    + by rewrite (bind_pure_run _ _ _ tt) by by apply verify_spend_Ret, Hacc.
    + destruct (verify_spend_refused ecdsa (out_script contractTx i) tx 0) as [err Ev]; [by rewrite Hacc|].
      exists err. unfold pure, mbind, cmd_bind. by rewrite Ev.
  - exists e', (NewMsgTx 0). split; [done|]. right. unfold redeem_runCommand, mbind, cmd_bind. rewrite E.
    unfold secretSize, MaxScriptElementSize in *. split_and!; [lia|lia|done].
  - exists e', (NewMsgTx 0). split; [done|]. left. exists rate, v, n, n'. split_and!; [done..|].
    unfold redeem_runCommand, mbind, cmd_bind. by rewrite E.
Qed.
End Settle.

(** ** Paying a contract *)

Definition sum (l : list Z) : Z := foldr Z.add 0 l.

(** What the inputs of a transaction spend, by the wallet's list. *)
Definition input_values (utxos : list UnspentOutput) (ins : list TxIn) (values : list Z) : Prop :=
  Forall2 (fun i v => exists u, findUtxo utxos (PreviousOutPoint i) = Ret u /\ v = utxo_Value u) ins values.

Lemma add_inputs_spec utxos ins a : a = to_int 64 a ->
  match add_inputs utxos ins a with
  | Ret s => exists values, input_values utxos ins values /\ s = to_int 64 (a + sum values)
  | Fail _ => Exists (fun i => forall u, findUtxo utxos (PreviousOutPoint i) <> Ret u) ins
  | Panic _ => False
  end.
Proof.
  revert a. induction ins as [|i ins IH]; intros a Ha; cbn [add_inputs].
  { exists []. split; [constructor|]. cbn [sum foldr]. by rewrite Z.add_0_r. }
  destruct (findUtxo utxos (PreviousOutPoint i)) as [u|e|e] eqn:E; cbn [mbind outcome_bind].
  - specialize (IH (to_int 64 (a + utxo_Value u))). destruct (add_inputs _ _ _) as [s|e|e].
    + destruct IH as (values & Hv & ->); [by rewrite to_int_idem by lia|].
      exists (utxo_Value u :: values). split; [constructor; [by exists u|done]|].
      rewrite to_int_add_l by lia. cbn [sum foldr]. f_equal. unfold sum. lia.
    + right. apply IH. by rewrite to_int_idem by lia.
    + apply IH. by rewrite to_int_idem by lia.
  - left. intros u. by rewrite E.
  - unfold findUtxo in E. by destruct (List.find _ _) in E.
Qed.

Lemma sub_outputs_spec outs a : a = to_int 64 a -> sub_outputs outs a = to_int 64 (a - sum (map Value outs)).
Proof.
  unfold sub_outputs. revert a. induction outs as [|o outs IH]; intros a Ha; cbn [foldl map sum foldr].
  { by rewrite Z.sub_0_r. }
  rewrite IH by (by rewrite to_int_idem by lia).
  replace (to_int 64 (a - Value o) - sum (map Value outs)) with (to_int 64 (a - Value o) + - sum (map Value outs)) by lia.
  rewrite to_int_add_l by lia. f_equal. unfold sum. lia.
Qed.

(** The fee [payTo] shows. Given the wallet's transaction and its list of
    unspent outputs, the call succeeds exactly when every input is in the list
    (it fails otherwise, and never panics); the fee is the value of the inputs
    less that of the outputs, on 64 bits, so it is exact when the difference
    fits. Whether the wallet said that the transaction is complete plays no
    part. *)
Theorem payTo_fee {N} `{!BtcWallet N} destination amount (e : env N) tx complete n utxos n' :
  PayTo destination amount false (node e) = (Ret (tx, complete), n) -> ListUnspent n = (Ret utxos, n') ->
  exists r, payTo destination amount e = (r, mkEnv n' (stdin e) (stdout e) (clock e)) /\
    match r with
    | Ret (tx', fee) => tx' = tx /\ exists values, input_values utxos (TxIns tx) values /\
        let paid := sum values - sum (map Value (TxOuts tx)) in
        fee = to_int 64 paid /\ (is_int 64 paid -> fee = paid)
    | Fail _ => Exists (fun i => forall u, findUtxo utxos (PreviousOutPoint i) <> Ret u) (TxIns tx)
    | Panic _ => False
    end.
Proof.
  intros Hp Hl.
  assert (payTo destination amount e = (pure (add_inputs utxos (TxIns tx) 0) ≫= fun rawfee =>
    mret (tx, sub_outputs (TxOuts tx) rawfee)) (mkEnv n' (stdin e) (stdout e) (clock e))) as ->.
  { unfold payTo. erewrite bind_Ret_run by (unfold ask; by rewrite Hp). cbn [node].
    by erewrite bind_Ret_run by (unfold ask; cbn [node]; by rewrite Hl). }
  pose proof (add_inputs_spec utxos (TxIns tx) 0 eq_refl) as Ha. unfold mbind, cmd_bind, pure.
  destruct (add_inputs utxos (TxIns tx) 0) as [s|er|er]; [|by eexists|done].
  destruct Ha as (values & Hv & ->). eexists. split; [reflexivity|]. split; [done|].
  exists values. split; [done|]. cbv zeta.
  assert (sub_outputs (TxOuts tx) (to_int 64 (0 + sum values)) = to_int 64 (sum values - sum (map Value (TxOuts tx)))) as ->.
  { rewrite sub_outputs_spec by (by rewrite to_int_idem by lia).
    rewrite Z.add_0_l, <-!Z.add_opp_r. apply to_int_add_l. lia. }
  split; [done|]. intros Hi. by apply to_int_id.
Qed.

(** ** The audit *)

(** The line with the lock time: a time or a block. *)
Definition locktime_line (lt : Z) : string * list farg :=
  if LockTimeThreshold <=? lt then ("Locktime: %v\n"%string, [FInt lt]) else ("Locktime: block %v\n"%string, [FInt lt]).

Lemma show_locktime_Ret {N} lt (w w' : env N) u : show_locktime lt w = (Ret u, w') ->
  exists post, stdout w' = post ++ locktime_line lt :: stdout w /\
    Forall (fun line => line.1 = "Locktime reached in %v\n" \/ line.1 = "Contract refund time lock has expired\n")%string post /\
    node w' = node w.
Proof.
  unfold show_locktime, locktime_line. destruct (LockTimeThreshold <=? lt); intros H.
  - cmd_inv H. destruct (0 <? TruncateSecond _); cmd_inv H; eexists [_]; (split; [done|]); (split; [|done]);
      (constructor; [|done]); cbn; auto.
  - cmd_inv H. by exists [].
Qed.

(** What [auditcontract] adds to the output (the last line first) for the value
    of the output, the keys of the author and the recipient, the secret hash
    and the lock time: one line of JSON when it runs unattended, or the text,
    after which it may say how long the lock lasts. *)
Definition audit_shows (chainParams : Params) (automated : bool) (contract : bytes) (value : Z) (me them h : bytes) (lt : Z)
    (before after : list (string * list farg)) : Prop :=
  let contractAddr := address_text (AddressScriptHash (Hash160 contract) (ScriptHashAddrID chainParams)) in
  let recipientAddr := address_text (AddressPubKeyHash them (PubKeyHashAddrID chainParams)) in
  let refundAddr := address_text (AddressPubKeyHash me (PubKeyHashAddrID chainParams)) in
  if automated then
    after = ("json", [FStr "contractAddress"; contractAddr; FStr "contractValue"; FInt value;
      FStr "recipientAddress"; recipientAddr; FStr "refundAddress"; refundAddr;
      FStr "secretHash"; FBytes h; FStr "Locktime"; locktime_text lt])%string :: before
  else exists countdown,
    after = countdown ++
      [locktime_line lt; ("Secret hash: %x\n\n", [FBytes h]); ("Refund address: %v\n\n", [refundAddr]);
       ("Recipient address:       %v\n", [recipientAddr]); ("Contract value:          %v\n", [FInt value]);
       ("Contract address:        %v\n", [contractAddr])]%string ++ before /\
    Forall (fun line => line.1 = "Locktime reached in %v\n" \/ line.1 = "Contract refund time lock has expired\n")%string countdown.

(** C7: A contract that passes [auditcontract] is the contract that is shown. If
    the audit succeeds, with or without [-automated], the first output of the
    transaction that pays the hash of the contract is there; the lines printed
    are its value, the address of the contract, the addresses of a recipient key
    and of a refund key, a secret hash and a lock time, and nothing else but the
    time that is left; the contract is, byte for byte, what
    [atomicSwapContract] makes of these two keys, the hash and the lock time,
    if and only if the lock time is not -1 (which the recogniser reads from a
    push that the builder does not emit); and nothing is sent. *)
Theorem btc_audit_sound {N} `{!BtcWallet N} {curve : Secp256k1} chainParams automated contract contractTx (e e' : env N) :
  bytes_ok contract -> Forall (fun o => bytes_ok (PkScript o)) (TxOuts contractTx) ->
  auditContract_runOfflineCommand chainParams automated contract contractTx e = (Ret tt, e') ->
  exists me them h lt i o,
    TxOuts contractTx !! i = Some o /\ PkScript o = p2sh_bytes (Hash160 contract) /\
    Forall (fun o => PkScript o <> p2sh_bytes (Hash160 contract)) (take i (TxOuts contractTx)) /\
    audit_shows chainParams automated contract (Value o) me them h lt (stdout e) (stdout e') /\
    hash_ok 20 me /\ hash_ok 20 them /\ hash_ok 32 h /\
    (atomicSwapContract me them lt h = Ret contract <-> lt <> -1) /\
    (16 < lt < 2 ^ 39 -> contract_of me them h lt contract) /\ node e' = node e.
Proof.
  intros Hok Hall H. unfold auditContract_runOfflineCommand in H. cmd_inv H.
  match goal with Hx : contract_output _ _ _ _ = Ret _ |- _ =>
    rewrite contract_output_find in Hx by (done || apply Hash160_length); injection Hx as Hx;
    apply find_output_spec in Hx as (j & o & -> & Ho & Hscr & Hfirst) end. change (0 + j)%nat with j in *.
  match goal with Hx : recognised contract = Ret ?q |- _ => apply recognised_Ret in Hx; rename Hx into Hp, q into p end.
  match goal with Hx : negb (SecretSize p =? _) = false |- _ => apply negb_false_iff, Z.eqb_eq in Hx; rename Hx into Hsize end.
  destruct (pushes_hash_ok contract p Hok Hp) as (Hme & Hthem & Hh).
  repeat match goal with Hx : NewAddressPubKeyHash _ _ = Ret _ |- _ =>
    unfold NewAddressPubKeyHash, newAddressPubKeyHash in Hx; rewrite ?(proj2 Hthem), ?(proj2 Hme) in Hx; injection Hx as <- end.
  match goal with Hx : NewAddressScriptHash _ _ = Ret _ |- _ =>
    unfold NewAddressScriptHash, newAddressScriptHashFromHash in Hx; rewrite Hash160_length in Hx; injection Hx as <- end.
  exists (RefundHash160 p), (RecipientHash160 p), (SecretHash p), (LockTime p), j, o.
  pose proof (extract_recognised_iff contract p Hok Hp Hsize) as Hbuilt.
  unfold out_value in H. rewrite Ho in H.
  assert (audit_shows chainParams automated contract (Value o) (RefundHash160 p) (RecipientHash160 p) (SecretHash p) (LockTime p)
    (stdout e) (stdout e') /\ node e' = node e) as [Hshows Hnode].
  { destruct automated; [unfold print_json in H; cbn [flat_map app] in H; by cmd_inv H|]. cmd_inv H.
    apply show_locktime_Ret in H as (post & Hout & Hc & Hnode). by split; [exists post; rewrite Hout|]. }
  split_and!; try done; try apply Hbuilt; try apply Hme; try apply Hthem; try apply Hh.
  intros Hlt. constructor; [done..|]. apply Hbuilt. lia.
Qed.
