(* ===== verification/BtcSim.v ===== *)
(** * A wallet to run the Bitcoin tool on

    A wallet with one key and one unspent output, and a signature scheme in
    which a signature names its key and hash: they satisfy what [BtcFacts] and
    [BtcTheorems] ask of a wallet and of the curve, so the theorems apply to
    the runs below. *)

From S2P Require Import Prelude Sha256 BigEndian Ripemd160 Script Address Wire SwapContract SwapTheorems Vectors Fees Engine P2shTheorems Cli BtcSwap BtcCommands BtcFacts BtcTheorems.

(** ** Signatures *)

(** [n] bytes made from the front of [l]. *)
Definition clean (n : nat) (l : bytes) : bytes := take n (map (to_uint 8) l ++ replicate n 0).

(** A strict DER signature: R holds 15 bytes of the hash and 16 of the key. *)
Definition sim_sig (h key : bytes) : bytes :=
  [0x30; 37; 2; 32; 1] ++ clean 15 h ++ clean 16 (drop 17 key) ++ [2; 1; 1].

#[export] Instance sim_curve : Secp256k1 := {|
  SerializeCompressed d := 2 :: be_put 32 d;
  PrivateKey_Sign d h := Ret (sim_sig h (2 :: be_put 32 d));
  ecdsa h key sig := Some (bool_decide (sig = sim_sig h key)) |}.

Lemma length_clean n l : length (clean n l) = n.
Proof. unfold clean. rewrite length_take, length_app, length_replicate. lia. Qed.
Lemma clean_ok n l : bytes_ok (clean n l).
Proof.
  apply Forall_take, Forall_app_2; [|apply Forall_replicate; unfold is_byte; lia].
  apply Forall_map, Forall_true. intros b. apply (to_uint_range 8 b). lia.
Qed.

Lemma sim_sig_encoding h key :
  bytes_ok (sim_sig h key) /\ zlen (sim_sig h key) = 39 /\ checkSignatureEncoding (sim_sig h key) = Ret tt.
Proof.
  unfold sim_sig. pose proof (length_clean 15 h) as H1. pose proof (length_clean 16 (drop 17 key)) as H2.
  pose proof (clean_ok 15 h) as O1. pose proof (clean_ok 16 (drop 17 key)) as O2.
  revert H1 H2 O1 O2. generalize (clean 15 h) as l1, (clean 16 (drop 17 key)) as l2. intros l1 l2 H1 H2 O1 O2.
  split; [repeat apply Forall_app_2; try done; repeat constructor; unfold is_byte; lia|].
  split; [unfold zlen; rewrite !length_app, H1, H2; simpl; lia|].
  do 15 (destruct l1 as [|? l1]; [done|]). destruct l1; [|done].
  do 16 (destruct l2 as [|? l2]; [done|]). destruct l2; [|done].
  vm_compute. reflexivity.
Qed.

#[export] Instance sim_signing : SigningLaws.
Proof.
  split.
  - intros d h sig Hs. assert (sig = sim_sig h (2 :: be_put 32 d)) as -> by (by injection Hs). destruct (sim_sig_encoding h (2 :: be_put 32 d)) as (? & -> & ?).
    split_and!; [done|lia|lia|done].
  - intros d. cbn [SerializeCompressed sim_curve]. assert (zlen (2 :: be_put 32 d) = 33) as Hl by by rewrite zlen_cons, zlen_be_put.
    split_and!; [constructor; [unfold is_byte; lia|apply be_put_ok]|done|]. unfold checkPubKeyEncoding. by rewrite Hl.
  - by eexists.
  - intros d h sig Hs. assert (sig = sim_sig h (2 :: be_put 32 d)) as -> by (by injection Hs). cbn [ecdsa sim_curve SerializeCompressed]. by rewrite bool_decide_true.
Qed.

(** ** The wallet *)

Record sim := mkSim { sent : list MsgTx }.

Definition sim_key : Z := 20191019.
Definition sim_pkh : bytes := Eval vm_compute in Hash160 (SerializeCompressed sim_key).
Definition sim_coin : UnspentOutput := mkUnspentOutput 1000000 (mkOutPoint (replicate 32 7) 0).

Definition sim_pay (destination : Address) (amount : Z) : outcome (MsgTx * bool) :=
  script ← PayToAddrScript destination;
  Ret (mkMsgTx 2 [NewTxIn (utxo_OutPoint sim_coin) [] []] [mkTxOut amount script] 0, true).

Definition sim_dump (a : Address) : outcome WIF :=
  match a with
  | AddressPubKeyHash h _ =>
      if bool_decide (h = sim_pkh) then Ret (mkWIF sim_key true 0x80) else Fail (ErrNew "unknown address")
  | _ => Fail (ErrNew "unknown address")
  end.

#[export] Instance sim_wallet : BtcWallet sim := {|
  GetUnusedAddress s := (Ret (AddressPubKeyHash sim_pkh (PubKeyHashAddrID MainNetParams)), s);
  DumpPrivKey a s := (sim_dump a, s);
  GetFeeRate s := (Ret 10000, s);
  PayTo destination amount unsigned s := (sim_pay destination amount, s);
  ListUnspent s := (Ret [sim_coin], s);
  SendRawTransaction tx s := (Ret (TxHash tx), mkSim (tx :: sent s));
  crypto_rand_Read n s := (Ret (replicate n 42), s) |}.

Definition sim_owns (h : bytes) : Prop := h = sim_pkh.

Lemma sim_pkh_ok : hash_ok 20 sim_pkh.
Proof. split; decided. Qed.

#[export] Instance sim_honest : HonestWallet sim MainNetParams sim_owns.
Proof.
  split.
  - intros n. exists sim_pkh, n. split; [done|apply sim_pkh_ok].
  - intros n. by exists 10000, n.
  - intros h id n ->. exists (mkWIF sim_key true 0x80), n. split; [|by vm_compute].
    cbn [DumpPrivKey sim_wallet]. unfold sim_dump. by rewrite bool_decide_true.
Qed.
#[export] Instance sim_typed : WalletTyped (N := sim).
Proof. intros n h id n' [= <- _ _]. apply sim_pkh_ok. Qed.
#[export] Instance sim_keeps : WalletReadsKeep (@eq sim).
Proof. split; done. Qed.

(** The start of a command, with the answers typed. *)
Definition start (lines : list string) : env sim := mkEnv (mkSim []) (map bytes_of_string lines) [] (1571400000 * 10 ^ 9).

(** ** Runs *)

(** A contract of the wallet's key with that of the published swap, both ways,
    and transactions that pay them. *)
Definition built (me them : bytes) : bytes :=
  match atomicSwapContract me them Walkthrough.locktime Walkthrough.secretHash with Ret c => c | _ => [] end.
Definition author_contract : bytes := Eval vm_compute in built sim_pkh Walkthrough.pkh.
Definition recipient_contract : bytes := Eval vm_compute in built Walkthrough.pkh sim_pkh.
Definition paying (contract : bytes) : MsgTx :=
  mkMsgTx 2 [NewTxIn (utxo_OutPoint sim_coin) [] []]
    [mkTxOut 5 [0x6a]; mkTxOut 200000 (p2sh_bytes (Hash160 contract))] 0.

Lemma author_contract_of : contract_of sim_pkh Walkthrough.pkh Walkthrough.secretHash Walkthrough.locktime author_contract.
Proof. split; [split; decided|split; decided|split; decided|by vm_compute|by vm_compute]. Qed.
Lemma recipient_contract_of : contract_of Walkthrough.pkh sim_pkh Walkthrough.secretHash Walkthrough.locktime recipient_contract.
Proof. split; [split; decided|split; decided|split; decided|by vm_compute|by vm_compute]. Qed.

(** A contract that is published after an answer that is not understood. *)
Lemma btc_commands_publish_witness :
  let e := start ["what?"; "Yes"] in
  let out := runCommand MainNetParams false (InitiateCmd Walkthrough.pkh 100000) e in
  (out.1 = Ret tt /\ length (sent (node out.2)) = 1%nat) /\
  published false eq (ready (clock e) (InitiateCmd Walkthrough.pkh 100000)) e out.2.
Proof.
  split; [split; by vm_compute|].
  eapply (btc_commands_publish MainNetParams false eq); [split; decided|split; by vm_compute|apply surjective_pairing].
Defined.

(** A contract of the wallet whose lock time is just over 32 bits. *)
Definition late_contract : bytes :=
  Eval vm_compute in match atomicSwapContract sim_pkh Walkthrough.pkh (2 ^ 32 + 5) Walkthrough.secretHash with Ret c => c | _ => [] end.
Lemma late_contract_of : contract_of sim_pkh Walkthrough.pkh Walkthrough.secretHash (2 ^ 32 + 5) late_contract.
Proof. split; [split; decided|split; decided|split; decided|by vm_compute|by vm_compute]. Qed.

Lemma refund_always_built_witness :
  (let out := buildRefund MainNetParams author_contract (paying author_contract) 10000 (start []) in
   exists tx fee e', out = (Ret (tx, fee), e') /\
     refund_of author_contract (paying author_contract) Walkthrough.locktime fee tx) /\
  (let out := buildRefund MainNetParams late_contract (paying late_contract) 10000 (start []) in
   exists err e', out = (Panic err, e') /\ 2 ^ 32 <= 2 ^ 32 + 5).
Proof.
  split; cbv zeta.
  - destruct (refund_always_built MainNetParams sim_owns sim_pkh Walkthrough.pkh Walkthrough.secretHash Walkthrough.locktime
      author_contract (paying author_contract) 1 10000 (start [])) as (r & e' & E & Hr); [apply author_contract_of|done|by vm_compute|].
    assert (match (buildRefund MainNetParams author_contract (paying author_contract) 10000 (start [])).1 with Ret _ => True | _ => False end)
      as Hret by by vm_compute.
    rewrite E in Hret. destruct r as [[tx fee]|er|er]; [|destruct Hret..]. exists tx, fee, e'. split; [exact E|exact (proj2 Hr)].
  - destruct (refund_always_built MainNetParams sim_owns sim_pkh Walkthrough.pkh Walkthrough.secretHash (2 ^ 32 + 5)
      late_contract (paying late_contract) 1 10000 (start [])) as (r & e' & E & Hr); [apply late_contract_of|done|by vm_compute|].
    assert (match (buildRefund MainNetParams late_contract (paying late_contract) 10000 (start [])).1 with Panic _ => True | _ => False end)
      as Hpanic by by vm_compute.
    rewrite E in Hpanic. destruct r as [[tx fee]|er|er]; [destruct Hpanic..|]. exists er, e'. split; [exact E|exact Hr].
Defined.

(** With the secret, [redeem] asks and publishes; with a text of one byte it
    panics; a text of 521 bytes is an error. *)
Lemma redeem_needs_secret_witness :
  let run s := redeem_runCommand MainNetParams false recipient_contract (paying recipient_contract) s (start ["y"]) in
  (exists e1 tx, run Walkthrough.secret = promptPublishTx false tx "redeem" e1) /\
  (exists e1 err, run [7] = (Panic err, e1)) /\
  (exists e1, run (replicate 521 7) = (Fail ErrScriptNotCanonical, e1)).
Proof.
  intros run.
  pose proof (fun s Hs => redeem_needs_secret MainNetParams false sim_owns Walkthrough.pkh sim_pkh Walkthrough.secretHash Walkthrough.locktime
    recipient_contract (paying recipient_contract) 1 s (start ["y"]) recipient_contract_of eq_refl Hs) as H.
  split_and!.
  - destruct (H Walkthrough.secret) as (e1 & tx & _ & [(rate & v & n & n' & _ & _ & E)|(Hok & _)]); [decided|decided|by vm_compute| |].
    + assert (match (run Walkthrough.secret).1 with Fail _ => False | _ => True end) as Hr by by vm_compute. unfold run in Hr. cbv beta in Hr. rewrite E in Hr. destruct Hr.
    + exists e1, tx. apply Hok. split; vm_compute; reflexivity.
  - destruct (H [7]) as (e1 & tx & _ & [(rate & v & n & n' & _ & _ & E)|(_ & Hbad & _)]); [decided|decided|by vm_compute| |].
    + assert (match (run [7]).1 with Fail _ => False | _ => True end) as Hr by by vm_compute. unfold run in Hr. cbv beta in Hr. rewrite E in Hr. destruct Hr.
    + exists e1. apply Hbad; [intros [Hl _]; discriminate Hl|vm_compute; discriminate].
  - destruct (H (replicate 521 7)) as (e1 & tx & _ & [(rate & v & n & n' & _ & _ & E)|(_ & _ & Hlong)]); [decided|decided|by vm_compute| |].
    + assert ((run (replicate 521 7)).1 = Fail ErrScriptNotCanonical) as Hr by by vm_compute. unfold run in Hr. cbv beta in Hr. rewrite E in Hr. discriminate Hr.
    + exists e1. apply Hlong. vm_compute. reflexivity.
Defined.

(** The run with the secret publishes; the run with another one panics. *)
Example redeem_runs :
  let run s := redeem_runCommand MainNetParams false recipient_contract (paying recipient_contract) s (start ["y"]) in
  (run Walkthrough.secret).1 = Ret tt /\ length (sent (node (run Walkthrough.secret).2)) = 1%nat /\
  (exists err, (run (replicate 32 1)).1 = Panic err) /\ sent (node (run (replicate 32 1)).2) = [].
Proof. vm_compute. split_and!; [done|done|by eexists|done]. Qed.

(** The audit of the published swap. *)
Definition walkthrough_tx : MsgTx :=
  Eval vm_compute in match Deserialize Walkthrough.contractTxBytes with Ret (tx, _) => tx | _ => NewMsgTx 0 end.

Definition walkthrough_audited (automated : bool) : Prop :=
  let out := auditContract_runOfflineCommand TestNet3Params automated Walkthrough.contract walkthrough_tx (start []) in
  exists me them h lt i o,
    TxOuts walkthrough_tx !! i = Some o /\ PkScript o = p2sh_bytes (Hash160 Walkthrough.contract) /\
    Forall (fun o => PkScript o <> p2sh_bytes (Hash160 Walkthrough.contract)) (take i (TxOuts walkthrough_tx)) /\
    audit_shows TestNet3Params automated Walkthrough.contract (Value o) me them h lt [] (stdout out.2) /\
    hash_ok 20 me /\ hash_ok 20 them /\ hash_ok 32 h /\
    (atomicSwapContract me them lt h = Ret Walkthrough.contract <-> lt <> -1) /\
    (16 < lt < 2 ^ 39 -> contract_of me them h lt Walkthrough.contract) /\ node out.2 = node (start []).

Lemma btc_audit_sound_witness : walkthrough_audited true /\ walkthrough_audited false.
Proof.
  assert (forall automated, walkthrough_audited automated) as H; [intros automated|by split].
  refine (btc_audit_sound TestNet3Params automated Walkthrough.contract walkthrough_tx (start []) _ _ _ _); [decided|decided|].
  transitivity (Ret tt : outcome unit, (auditContract_runOfflineCommand TestNet3Params automated Walkthrough.contract walkthrough_tx (start [])).2);
    [|reflexivity].
  destruct automated; by vm_compute.
Defined.

(** The fee of a payment of the wallet. *)
Lemma payTo_fee_witness :
  exists r, payTo (AddressPubKeyHash Walkthrough.pkh 0) 999000 (start []) = (r, mkEnv (mkSim []) [] [] (1571400000 * 10 ^ 9)) /\
    match r with
    | Ret (tx', fee) => tx' = mkMsgTx 2 [NewTxIn (utxo_OutPoint sim_coin) [] []]
          [mkTxOut 999000 ([0x76; 0xa9; 20] ++ Walkthrough.pkh ++ [0x88; 0xac])] 0 /\
        exists values, input_values [sim_coin] (TxIns tx') values /\
        let paid := sum values - sum (map Value (TxOuts tx')) in
        fee = to_int 64 paid /\ (is_int 64 paid -> fee = paid)
    | Fail _ => False
    | Panic _ => False
    end.
Proof.
  destruct (payTo_fee (AddressPubKeyHash Walkthrough.pkh 0) 999000 (start [])
    (mkMsgTx 2 [NewTxIn (utxo_OutPoint sim_coin) [] []] [mkTxOut 999000 ([0x76; 0xa9; 20] ++ Walkthrough.pkh ++ [0x88; 0xac])] 0)
    true (mkSim []) [sim_coin] (mkSim [])) as (r & E & Hr); [by vm_compute|done|].
  exists r. split; [exact E|]. destruct r as [[tx fee]|er|er]; [|inversion_clear Hr as [? ? Hu|? ? Hu]; [by apply (Hu sim_coin)|by inversion Hu]|done].
  destruct Hr as [-> Hr]. split; [done|exact Hr].
Defined.
