(* ===== verification/Json.v ===== *)
(** * JSON values

    What [encoding/json] makes of a text, and how it stores a value into a Go
    variable: strings, integers, booleans and structs by field name. The text
    itself is not modelled; a number keeps its literal, or the float64 that was
    written. *)

From S2P Require Import Prelude Decimal Float.

#[warnings="-register-all"]
Inductive json :=
  | JNull
  | JBool (b : bool)
  | JNumber (literal : bytes)
  | JFloat (f : float64)
  | JString (s : bytes)
  | JArray (l : list json)
  | JObject (fields : list (bytes * json)).

(** [json.Unmarshal] of an empty text, and of a value of another type. *)
Definition unexpected_end : error := ErrNew "unexpected end of JSON input".
Definition type_error (type : string) : error := Errorf "json: cannot unmarshal into Go value of type %s" [FStr type].

(** Storing a value in a variable: [null] leaves it as it is. *)
Definition to_string (old : bytes) (j : json) : outcome bytes :=
  match j with JString s => Ret s | JNull => Ret old | _ => Fail (type_error "string") end.

Definition to_bool (old : bool) (j : json) : outcome bool :=
  match j with JBool b => Ret b | JNull => Ret old | _ => Fail (type_error "bool") end.

(** An integer literal within the bounds of the type. *)
Definition to_integer (lo hi : Z) (type : string) (old : Z) (j : json) : outcome Z :=
  match j with
  | JNumber lit =>
      match SetString10 lit with
      | Some z => if (lo <=? z) && (z <? hi) then Ret z else Fail (type_error type)
      | None => Fail (type_error type)
      end
  | JNull => Ret old
  | _ => Fail (type_error type)
  end.
Definition to_int64 := to_integer (- 2 ^ 63) (2 ^ 63) "int64".
Definition to_uint32 := to_integer 0 (2 ^ 32) "uint32".

(** The fields of an object into a struct, in the order of the text: [set] is
    given the name in lower case, since names match without regard to case. *)
Fixpoint set_fields {A} (set : bytes -> json -> A -> outcome A) (fields : list (bytes * json)) (a : A) : outcome A :=
  match fields with
  | [] => Ret a
  | (name, j) :: fields => a ← set (ToLower name) j a; set_fields set fields a
  end.

Definition to_struct {A} (set : bytes -> json -> A -> outcome A) (old : A) (j : json) : outcome A :=
  match j with
  | JObject fields => set_fields set fields old
  | JNull => Ret old
  | _ => Fail (type_error "struct")
  end.

(** [json.Unmarshal(text, &v)] where the text is that of a value, or empty. *)
Definition Unmarshal {A} (store : A -> json -> outcome A) (old : A) (text : option json) : outcome A :=
  match text with Some j => store old j | None => Fail unexpected_end end.

Definition is_field (name : bytes) (s : string) : bool := bool_decide (name = bytes_of_string s).
