(* ===== verification/Rpc.v ===== *)
(** * The JSON-RPC client of the wallet: commands and replies

    Package [cmd/btcatomicswap/rpcclient]: the command structs and their
    registration, the requests made of them ([jsonrpc.go]), and what each
    [Receive] makes of a reply ([commands.go]). The queue and the goroutine that
    carry a request to the server are in [RpcClient]. *)

From S2P Require Import Prelude Sha256 Float Json Address Wire Cli BtcSwap.

(** ** Registered commands *)

(** The types of commands: a pointer to one of the structs of the package, or a
    type that is not a pointer. *)
Inductive cmdtype :=
  | GetUnusedAddressCmd | GetPrivateKeysCmd | GetFeeRateCmd | PayToCmd | ListUnspentCmd | BroadcastCmd
  | OtherCmd (n : nat)
  | NotPointer (n : nat).

#[global] Instance cmdtype_eq_dec : EqDecision cmdtype.
Proof. solve_decision. Defined.
#[global] Instance cmdtype_countable : Countable cmdtype.
Proof.
  refine (inj_countable'
    (fun c => match c with
      | GetUnusedAddressCmd => inl 0 | GetPrivateKeysCmd => inl 1 | GetFeeRateCmd => inl 2
      | PayToCmd => inl 3 | ListUnspentCmd => inl 4 | BroadcastCmd => inl 5
      | OtherCmd n => inr (inl n) | NotPointer n => inr (inr n) end : Z + (nat + nat))
    (fun s => match s with
      | inl 0 => GetUnusedAddressCmd | inl 1 => GetPrivateKeysCmd | inl 2 => GetFeeRateCmd
      | inl 3 => PayToCmd | inl 4 => ListUnspentCmd | inl _ => BroadcastCmd
      | inr (inl n) => OtherCmd n | inr (inr n) => NotPointer n end) _).
  by intros [].
Defined.

Definition is_pointer (t : cmdtype) : bool := match t with NotPointer _ => false | _ => true end.

(** The three maps of the package. *)
Record registry := mkRegistry {
  methodToConcreteType : gmap string cmdtype;
  namedParameters_of : gmap cmdtype string;
  positionalParameters_of : gmap cmdtype string }.

Definition empty_registry : registry := mkRegistry ∅ ∅ ∅.

Definition RegisterCmd (method : string) (rtp : cmdtype) (namedParameters : bool) (r : registry) : outcome registry :=
  match methodToConcreteType r !! method with
  | Some _ => Fail (Errorf "method %q is already registered" [FStr method])
  | None =>
      if negb (is_pointer rtp) then Fail (Errorf "type must be *struct not '%s (%s)'" [])
      else
        let types := <[method := rtp]> (methodToConcreteType r) in
        Ret (if namedParameters
             then mkRegistry types (<[rtp := method]> (namedParameters_of r)) (positionalParameters_of r)
             else mkRegistry types (namedParameters_of r) (<[rtp := method]> (positionalParameters_of r)))
  end.

(** The calls of [init]; an error changes nothing and is ignored. *)
Definition register (calls : list (string * cmdtype * bool)) (r : registry) : registry :=
  foldl (fun r '(method, t, named) => match RegisterCmd method t named r with Ret r' => r' | _ => r end) r calls.

Definition init_calls : list (string * cmdtype * bool) :=
  [("getunusedaddress", GetUnusedAddressCmd, false); ("getprivatekeys", GetPrivateKeysCmd, false);
   ("getfeerate", GetFeeRateCmd, false); ("payto", PayToCmd, true);
   ("listunspent", ListUnspentCmd, false); ("broadcast", BroadcastCmd, false)]%string.
Definition init : registry := register init_calls empty_registry.

(** The method and whether its parameters have names. The error names the
    method, which is empty when the type is unknown. *)
Definition CmdMethod (r : registry) (rt : cmdtype) : outcome (string * bool) :=
  match positionalParameters_of r !! rt with
  | Some method => Ret (method, false)
  | None =>
      match namedParameters_of r !! rt with
      | Some method => Ret (method, true)
      | None => Fail (Errorf "%q is not registered" [FStr ""])
      end
  end.

(** ** Requests *)

(** A field of a command struct: a value, or a pointer to one. *)
Inductive gofield := FieldVal (j : json) | FieldPtr (j : option json).

(** A command: its type and the fields of the struct with their JSON names,
    unless the pointer is nil. *)
Record rpc_command := mkCommand { cmd_type : cmdtype; cmd_fields : option (list (bytes * gofield)) }.

(** [makeParams] stops at the first nil pointer. *)
Fixpoint makeParams (fields : list gofield) : list json :=
  match fields with
  | FieldPtr None :: _ => []
  | FieldPtr (Some j) :: fields => j :: makeParams fields
  | FieldVal j :: fields => j :: makeParams fields
  | [] => []
  end.

(** [json.Marshal] of a struct. *)
Definition marshal_struct (fields : list (bytes * gofield)) : json :=
  JObject (map (fun '(name, f) =>
    (name, match f with FieldVal j => j | FieldPtr o => default JNull o end)) fields).

(** The dynamic types of an id. *)
Inductive id_value := IdInt (z : Z) | IdFloat (f : float64) | IdString (s : bytes) | IdNil | IdOther.

Definition IsValidIDType (id : id_value) : bool := match id with IdOther => false | _ => true end.

Definition json_of_id (id : id_value) : json :=
  match id with
  | IdInt z => JNumber (Decimal.Int_String z)
  | IdFloat f => JFloat f
  | IdString s => JString s
  | IdNil | IdOther => JNull
  end.

Record Request := mkRequest { Jsonrpc : string; Method : string; rq_Params : json; ID : id_value }.

Definition invalid_id : error := Errorf "the id of type '%T' is invalid" [].

Definition NewRequestWithPositionalParameters (id : id_value) (method : string) (params : list json) : outcome Request :=
  if negb (IsValidIDType id) then Fail invalid_id else Ret (mkRequest "1.0" method (JArray params) id).

Definition NewRequestWithNamedParameters (id : id_value) (method : string) (params : json) : outcome Request :=
  if negb (IsValidIDType id) then Fail invalid_id else Ret (mkRequest "1.0" method params id).

Definition marshal_Request (r : Request) : json :=
  JObject [(bytes_of_string "jsonrpc", JString (bytes_of_string (Jsonrpc r)));
           (bytes_of_string "method", JString (bytes_of_string (Method r)));
           (bytes_of_string "params", rq_Params r); (bytes_of_string "id", json_of_id (ID r))].

Definition MarshalCmd (r : registry) (id : id_value) (c : rpc_command) : outcome json :=
  '(method, namedParameters) ← CmdMethod r (cmd_type c);
  fields ← of_option (ErrNew "the specified command is nil") (cmd_fields c);
  rawCmd ← (if negb (namedParameters : bool)
            then NewRequestWithPositionalParameters id method (makeParams (map snd fields))
            else NewRequestWithNamedParameters id method (marshal_struct fields));
  Ret (marshal_Request rawCmd).

(** ** Replies *)

(** What the HTTP client makes of a request: no response, a body that cannot be
    read, or a status and a body, which may not be JSON. *)
Inductive http_result :=
  | HttpError (e : error)
  | HttpReadError (e : error)
  | HttpReply (status : Z) (body : option json).

Record RPCError := mkRPCError { Code : Z; Message : bytes }.
Definition RPCError_Error (e : RPCError) : error := Errorf "%d: %s" [FInt (Code e); FBytes (Message e)].

Definition set_RPCError (name : bytes) (j : json) (e : RPCError) : outcome RPCError :=
  if is_field name "code" then code ← to_int64 (Code e) j; Ret (mkRPCError code (Message e))
  else if is_field name "message" then msg ← to_string (Message e) j; Ret (mkRPCError (Code e) msg)
  else Ret e.

Record rawResponse := mkRawResponse { rr_Result : option json; rr_Error : option RPCError }.

Definition set_rawResponse (name : bytes) (j : json) (r : rawResponse) : outcome rawResponse :=
  if is_field name "result" then Ret (mkRawResponse (Some j) (rr_Error r))
  else if is_field name "error" then
    match j with
    | JNull => Ret (mkRawResponse (rr_Result r) None)
    | _ => e ← to_struct set_RPCError (default (mkRPCError 0 []) (rr_Error r)) j; Ret (mkRawResponse (rr_Result r) (Some e))
    end
  else Ret r.

(** [(rawResponse).result]: the text of the result, which may be absent. *)
Definition rawResponse_result (r : rawResponse) : outcome (option json) :=
  match rr_Error r with Some e => Fail (RPCError_Error e) | None => Ret (rr_Result r) end.

(** The response [handleSendPostMessage] delivers. *)
Definition decode_reply (h : http_result) : outcome (option json) :=
  match h with
  | HttpError e => Fail e
  | HttpReadError e => Fail (Errorf "error reading json reply: %v" [FErr e])
  | HttpReply status body =>
      match Unmarshal (to_struct set_rawResponse) (mkRawResponse None None) body with
      | Ret resp => rawResponse_result resp
      | Fail _ | Panic _ => Fail (Errorf "status code: %d, response: %q" [FInt status])
      end
  end.

(** ** The commands and their results *)

Definition receive_error (name : string) (e : error) : error := Errorf (name +:+ "%v:%s") [FErr e].

Definition GetUnusedAddress_Receive (res : option json) : outcome Address :=
  addr ← mapErr (receive_error "GetUnusedAddress: ") (Unmarshal to_string [] res);
  DecodeAddress addr (Some MainNetParams).

(** [strings.TrimPrefix(s, "p2pkh:")] *)
Definition TrimPrefix (prefix s : bytes) : bytes :=
  if bool_decide (take (length prefix) s = prefix) then drop (length prefix) s else s.

Definition DumpPrivKey_Receive (res : option json) : outcome WIF :=
  rawprivKeyWIF ← mapErr (receive_error "DumpPrivKey:") (Unmarshal to_string [] res);
  DecodeWIF (TrimPrefix (bytes_of_string "p2pkh:") rawprivKeyWIF).

(** [getprivatekeys] with its addresses separated by commas. *)
Fixpoint join_comma (addresses : list bytes) : bytes :=
  match addresses with
  | [] => []
  | [a] => a
  | a :: r => a ++ [44] ++ join_comma r
  end.
Definition NewGetPrivateKeysCmd (addresses : list bytes) : rpc_command :=
  mkCommand GetPrivateKeysCmd (Some [(bytes_of_string "Address", FieldVal (JString (join_comma addresses)))]).

Definition GetFeeRate_Receive (res : option json) : outcome Z :=
  mapErr (receive_error " GetFeeRate: ") (Unmarshal to_int64 0 res).

Record payToReply := mkPayToReply { Complete : bool; Final : bool; Hex : bytes }.
Definition set_payToReply (name : bytes) (j : json) (r : payToReply) : outcome payToReply :=
  if is_field name "complete" then b ← to_bool (Complete r) j; Ret (mkPayToReply b (Final r) (Hex r))
  else if is_field name "final" then b ← to_bool (Final r) j; Ret (mkPayToReply (Complete r) b (Hex r))
  else if is_field name "hex" then s ← to_string (Hex r) j; Ret (mkPayToReply (Complete r) (Final r) s)
  else Ret r.

Definition PayTo_Receive (res : option json) : outcome (MsgTx * bool) :=
  resp ← mapErr (receive_error "PayTo: ") (Unmarshal (to_struct set_payToReply) (mkPayToReply false false []) res);
  fundedTxBytes ← hex_decode (Hex resp);
  '(tx, _) ← Deserialize fundedTxBytes;
  Ret (tx, Complete resp).

Definition NewPayToCmd (destination : Address) (amount : Z) (unsigned : bool) : rpc_command :=
  mkCommand PayToCmd (Some
    [(bytes_of_string "destination", FieldVal (JString (EncodeAddress destination)));
     (bytes_of_string "amount", FieldVal (JFloat (ToBTC amount)));
     (bytes_of_string "unsigned", FieldVal (JBool unsigned))]).

(** [chainhash.NewHashFromStr]: the bytes in reverse, padded with zeros. *)
Definition NewHashFromStr (src : bytes) : outcome bytes :=
  if 64 <? zlen src then Fail (ErrNew "max hash string length is 64 bytes")
  else
    let srcBytes := if zlen src mod 2 =? 0 then src else 48 :: src in
    b ← hex_decode srcBytes;
    Ret (reverse (replicate (32 - length b) 0 ++ b)).

Record respUtxo := mkRespUtxo {
  ru_Address : bytes; ru_Value : bytes; PrevoutN : Z; PrevoutHash : bytes; ru_Height : Z; Coinbase : bool }.
Definition set_respUtxo (name : bytes) (j : json) (u : respUtxo) : outcome respUtxo :=
  let '(mkRespUtxo a v n h height c) := u in
  if is_field name "address" then a ← to_string a j; Ret (mkRespUtxo a v n h height c)
  else if is_field name "value" then v ← to_string v j; Ret (mkRespUtxo a v n h height c)
  else if is_field name "prevout_n" then n ← to_uint32 n j; Ret (mkRespUtxo a v n h height c)
  else if is_field name "prevout_hash" then h ← to_string h j; Ret (mkRespUtxo a v n h height c)
  else if is_field name "height" then height ← to_int64 height j; Ret (mkRespUtxo a v n h height c)
  else if is_field name "coinbase" then c ← to_bool c j; Ret (mkRespUtxo a v n h height c)
  else Ret u.

Fixpoint mapM_outcome {A B} (f : A -> outcome B) (l : list A) : outcome (list B) :=
  match l with
  | [] => Ret []
  | a :: l => b ← f a; bs ← mapM_outcome f l; Ret (b :: bs)
  end.

Definition to_list {A} (f : json -> outcome A) (old : list A) (j : json) : outcome (list A) :=
  match j with JArray l => mapM_outcome f l | JNull => Ret [] | _ => Fail (type_error "[]rpcclient.respUtxo") end.

(** One round of the loop over the outputs; the address is decoded without a
    network and is not used further. *)
Definition read_utxo (u : respUtxo) : outcome UnspentOutput :=
  value ← ParseFloat (ru_Value u);
  amount ← NewAmount value;
  _ ← DecodeAddress (ru_Address u) None;
  hash ← NewHashFromStr (PrevoutHash u);
  Ret (mkUnspentOutput amount (mkOutPoint hash (PrevoutN u))).

Definition ListUnspent_Receive (res : option json) : outcome (list UnspentOutput) :=
  resp ← mapErr (receive_error " ListUnspent: ")
           (Unmarshal (to_list (to_struct set_respUtxo (mkRespUtxo [] [] 0 [] 0 false))) [] res);
  mapM_outcome read_utxo resp.

(** Writing to a buffer does not fail. *)
Definition NewBroadcastCmd (tx : MsgTx) : rpc_command :=
  mkCommand BroadcastCmd (Some [(bytes_of_string "SerializedTransaction", FieldVal (JString (hex_encode (Serialize tx))))]).

Definition Broadcast_Receive (res : option json) : outcome bytes :=
  txID ← mapErr (receive_error "Broadcast :") (Unmarshal to_string [] res);
  NewHashFromStr txID.

Definition NewGetUnusedAddressCmd : rpc_command := mkCommand GetUnusedAddressCmd (Some []).
Definition NewGetFeeRateCmd : rpc_command := mkCommand GetFeeRateCmd (Some []).
Definition NewListUnspentCmd : rpc_command := mkCommand ListUnspentCmd (Some []).
