(* ===== verification/RpcClient.v ===== *)
(** * The JSON-RPC client of the wallet: the queue, the goroutine, shutdown

    [rpcclient.go]: [sendCmd] puts a request into a channel of 100 places, one
    goroutine ([sendPostHandler]) takes the requests out, posts them and sends
    each response to the channel of its request, which has one place. The
    goroutines are a step relation on a state; a call of a command is named by
    the number of its response channel. *)

From S2P Require Import Prelude Sha256 Float Json Address Wire Cli BtcSwap Rpc.

(** ** Configuration and the HTTP client *)

Record ConnConfig := mkConnConfig {
  Host : string; User : string; Pass : string; DisableTLS : bool; Certificates : bytes;
  Proxy : string; ProxyUser : string; ProxyPass : string; HTTPPostMode : bool }.

(** What [newHTTPClient] configures. *)
Record httpClient := mkHttpClient { proxyURL : option string; RootCAs : option bytes }.

Record httpRequest := mkHttpRequest { hr_client : httpClient; hr_URL : string; hr_User : string; hr_Pass : string; hr_Body : json }.

(** The server behind the network and the system: [url.Parse] of a proxy, the
    exchange of a request for a reply, the random source. *)
Class HttpServer (S : Type) := {
  url_Parse : string -> outcome string;
  http_Do (r : httpRequest) : S -> http_result * S;
  os_random (n : nat) : S -> outcome bytes * S }.

Definition ErrClientShutdown : error := ErrNew "the client has been shutdown".
Definition sendPostBufferSize : nat := 100.

Abbreviation response := (outcome (option json)).

Record jsonRequest := mkJsonRequest {
  jr_id : Z; jr_method : string; jr_cmd : rpc_command; marshalledJSON : json; responseChan : nat }.
Record sendPostDetails := mkDetails { httpRequest_of : httpRequest; jsonRequest_of : jsonRequest }.

(** The goroutine [sendPostHandler]: in the first loop, about to send a
    response, in the second loop, about to send an error there, or done. *)
Inductive handler :=
  | Selecting
  | Delivering (r : jsonRequest) (resp : response)
  | Cleanup
  | Cleaning (r : jsonRequest)
  | Done.

(** A call: before the check of [sendPostRequest], before its send to the
    queue, waiting in [receiveFuture], finished. *)
Inductive caller :=
  | Checking (d : sendPostDetails)
  | Enqueuing (d : sendPostDetails)
  | Waiting
  | Received (resp : response).

Section Client.
Context {S : Type} `{!HttpServer S}.

Definition newHTTPClient (config : ConnConfig) : outcome httpClient :=
  proxyFunc ← (if (Proxy config =? "")%string then Ret None
               else proxyURL ← url_Parse (S := S) (Proxy config); Ret (Some proxyURL));
  let tlsConfig :=
    if negb (DisableTLS config) then
      if 0 <? zlen (Certificates config) then Some (Certificates config) else None
    else None in
  Ret (mkHttpClient proxyFunc tlsConfig).

(** The client and everything that runs. [responses] holds the value in each
    response channel, [calls] the calls; [posted] records what was exchanged
    with the server, newest first. *)
Record Client := mkClient {
  id : Z;
  config : ConnConfig;
  http : httpClient;
  requestList : list jsonRequest;
  sendPostChan : list sendPostDetails;
  shutdown : bool;
  goroutine : handler;
  nextChan : nat;
  responses : gmap nat response;
  calls : gmap nat caller;
  posted : list (nat * http_result);
  server : S }.

Definition New (config : ConnConfig) (s : S) : outcome Client :=
  http ← newHTTPClient config;
  Ret (mkClient 0 config http [] [] false Selecting 0 ∅ ∅ [] s).

Definition set_call (ch : nat) (k : caller) (c : Client) : Client :=
  mkClient (id c) (config c) (http c) (requestList c) (sendPostChan c) (shutdown c) (goroutine c) (nextChan c)
    (responses c) (<[ch := k]> (calls c)) (posted c) (server c).
Definition set_response (ch : nat) (o : option response) (c : Client) : Client :=
  mkClient (id c) (config c) (http c) (requestList c) (sendPostChan c) (shutdown c) (goroutine c) (nextChan c)
    (match o with Some r => <[ch := r]> (responses c) | None => delete ch (responses c) end)
    (calls c) (posted c) (server c).
Definition set_queue (q : list sendPostDetails) (c : Client) : Client :=
  mkClient (id c) (config c) (http c) (requestList c) q (shutdown c) (goroutine c) (nextChan c)
    (responses c) (calls c) (posted c) (server c).
Definition set_goroutine (h : handler) (c : Client) : Client :=
  mkClient (id c) (config c) (http c) (requestList c) (sendPostChan c) (shutdown c) h (nextChan c)
    (responses c) (calls c) (posted c) (server c).
Definition set_posted (ch : nat) (h : http_result) (s : S) (c : Client) : Client :=
  mkClient (id c) (config c) (http c) (requestList c) (sendPostChan c) (shutdown c) (goroutine c) (nextChan c)
    (responses c) (calls c) ((ch, h) :: posted c) s.

(** [NextID]: an atomic addition to a [uint64]. *)
Definition NextID (i : Z) : Z := to_uint 64 (i + 1).

(** ** Sending a command *)

(** [sendPost] up to the queue: the HTTP request. *)
Definition sendPost_request (c : Client) (jReq : jsonRequest) : httpRequest :=
  let protocol := if negb (DisableTLS (config c)) then "https"%string else "http"%string in
  mkHttpRequest (http c) (protocol +:+ "://" +:+ Host (config c)) (User (config c)) (Pass (config c)) (marshalledJSON jReq).

(** The request of [sendCmd], and the counter after it; an unknown type does
    not use an id. *)
Definition sendCmd_request (c : Client) (cmd : rpc_command) : outcome jsonRequest * Z :=
  match CmdMethod init (cmd_type cmd) with
  | Ret (method, _) =>
      let i := NextID (id c) in
      (marshalledJSON ← MarshalCmd init (IdInt i) cmd;
       Ret (mkJsonRequest i method cmd marshalledJSON (nextChan c)), i)
  | Fail e => (Fail e, id c)
  | Panic e => (Panic e, id c)
  end.

(** [sendCmd]: a new call, which is about to look at the shutdown channel, or
    has its error in the channel already ([newFutureError]). *)
Definition sendCmd (cmd : rpc_command) (c : Client) : Client :=
  let ch := nextChan c in
  let '(r, i) := sendCmd_request c cmd in
  let c' := mkClient i (config c) (http c) (requestList c) (sendPostChan c) (shutdown c) (goroutine c) (Datatypes.S ch)
              (responses c) (calls c) (posted c) (server c) in
  match r with
  | Ret jReq => set_call ch (Checking (mkDetails (sendPost_request c jReq) jReq)) c'
  | Fail e | Panic e => set_response ch (Some (Fail e)) (set_call ch Waiting c')
  end.

(** [Shutdown] under its lock: the first time, the channel is closed, every
    request in the list gets the error, and the list is emptied. *)
Definition Shutdown (c : Client) : Client :=
  if shutdown c then c
  else
    let c := foldl (fun c req => set_response (responseChan req) (Some (Fail ErrClientShutdown)) c) c (requestList c) in
    mkClient (id c) (config c) (http c) [] (sendPostChan c) true (goroutine c) (nextChan c)
      (responses c) (calls c) (posted c) (server c).

(** ** Steps *)

(** One step of a call or of the goroutine. A send to a response channel waits
    until it is empty, a send to the queue until it has room. *)
Inductive step (c : Client) : Client -> Prop :=
  | step_check_open ch d :
      calls c !! ch = Some (Checking d) -> shutdown c = false ->
      step c (set_call ch (Enqueuing d) c)
  | step_check_shutdown ch d :
      (* the request is sent to the queue all the same *)
      calls c !! ch = Some (Checking d) -> shutdown c = true -> responses c !! ch = None ->
      step c (set_call ch (Enqueuing d) (set_response ch (Some (Fail ErrClientShutdown)) c))
  | step_enqueue ch d :
      calls c !! ch = Some (Enqueuing d) -> (length (sendPostChan c) < sendPostBufferSize)%nat ->
      step c (set_call ch Waiting (set_queue (sendPostChan c ++ [d]) c))
  | step_receive ch resp :
      calls c !! ch = Some Waiting -> responses c !! ch = Some resp ->
      step c (set_call ch (Received resp) (set_response ch None c))
  | step_post d q h s :
      (* [handleSendPostMessage] up to the response *)
      goroutine c = Selecting -> sendPostChan c = d :: q -> http_Do (httpRequest_of d) (server c) = (h, s) ->
      step c (set_goroutine (Delivering (jsonRequest_of d) (decode_reply h))
               (set_queue q (set_posted (responseChan (jsonRequest_of d)) h s c)))
  | step_deliver r resp :
      goroutine c = Delivering r resp -> responses c !! responseChan r = None ->
      step c (set_goroutine Selecting (set_response (responseChan r) (Some resp) c))
  | step_stop :
      goroutine c = Selecting -> shutdown c = true ->
      step c (set_goroutine Cleanup c)
  | step_clean d q :
      goroutine c = Cleanup -> sendPostChan c = d :: q ->
      step c (set_goroutine (Cleaning (jsonRequest_of d)) (set_queue q c))
  | step_clean_deliver r :
      goroutine c = Cleaning r -> responses c !! responseChan r = None ->
      step c (set_goroutine Cleanup (set_response (responseChan r) (Some (Fail ErrClientShutdown)) c))
  | step_done :
      goroutine c = Cleanup -> sendPostChan c = [] ->
      step c (set_goroutine Done c).

(** What the program does with a client: new calls, shutdown, steps. *)
Inductive event (c : Client) : Client -> Prop :=
  | event_call cmd : event c (sendCmd cmd c)
  | event_shutdown : event c (Shutdown c)
  | event_step c' : step c c' -> event c c'.

(** [WaitForShutdown] returns in these states. *)
Definition stopped (c : Client) : Prop := goroutine c = Done.

(** ** One call at a time *)

(** The client of a program that makes one call at a time and no shutdown
    before its end, as the commands do: the whole of a call. *)
Record rpc_node := mkNode { node_id : Z; node_config : ConnConfig; node_http : httpClient; node_server : S }.

Definition client_of (n : rpc_node) : Client :=
  mkClient (node_id n) (node_config n) (node_http n) [] [] false Selecting 0 ∅ ∅ [] (node_server n).

Definition call (cmd : rpc_command) (n : rpc_node) : response * rpc_node :=
  let '(r, i) := sendCmd_request (client_of n) cmd in
  match r with
  | Ret jReq =>
      let '(h, s) := http_Do (sendPost_request (client_of n) jReq) (node_server n) in
      (decode_reply h, mkNode i (node_config n) (node_http n) s)
  | Fail e | Panic e => (Fail e, mkNode i (node_config n) (node_http n) (node_server n))
  end.

(** A method of the client: the call and its [Receive]. *)
Definition rpc_method {A} (cmd : rpc_command) (receive : option json -> outcome A) (n : rpc_node) : outcome A * rpc_node :=
  let '(r, n) := call cmd n in (r ≫= receive, n).

(** The commands, started: the future of the caller is the channel of the call. *)
Definition GetUnusedAddressAsync : Client -> Client := sendCmd NewGetUnusedAddressCmd.
Definition DumpPrivKeyAsync (address : Address) : Client -> Client := sendCmd (NewGetPrivateKeysCmd [EncodeAddress address]).
Definition GetFeeRateAsync : Client -> Client := sendCmd NewGetFeeRateCmd.
Definition PayToAsync (destination : Address) (amount : Z) (unsigned : bool) : Client -> Client :=
  sendCmd (NewPayToCmd destination amount unsigned).
Definition ListUnspentAsync : Client -> Client := sendCmd NewListUnspentCmd.
Definition BroadcastAsync (tx : MsgTx) : Client -> Client := sendCmd (NewBroadcastCmd tx).

(** The commands, one at a time. *)
Definition Client_GetUnusedAddress : rpc_node -> outcome Address * rpc_node := rpc_method NewGetUnusedAddressCmd GetUnusedAddress_Receive.
Definition Client_DumpPrivKey (address : Address) : rpc_node -> outcome WIF * rpc_node :=
  rpc_method (NewGetPrivateKeysCmd [EncodeAddress address]) DumpPrivKey_Receive.
Definition Client_GetFeeRate : rpc_node -> outcome Z * rpc_node := rpc_method NewGetFeeRateCmd GetFeeRate_Receive.
Definition Client_PayTo (destination : Address) (amount : Z) (unsigned : bool) : rpc_node -> outcome (MsgTx * bool) * rpc_node :=
  rpc_method (NewPayToCmd destination amount unsigned) PayTo_Receive.
Definition Client_ListUnspent : rpc_node -> outcome (list UnspentOutput) * rpc_node := rpc_method NewListUnspentCmd ListUnspent_Receive.
Definition Broadcast (tx : MsgTx) : rpc_node -> outcome bytes * rpc_node := rpc_method (NewBroadcastCmd tx) Broadcast_Receive.
(** [SendRawTransaction]; whether high fees are allowed is not used. *)
Definition Client_SendRawTransaction : MsgTx -> rpc_node -> outcome bytes * rpc_node := Broadcast.

(** The client is a wallet for the tool. *)
#[global] Instance rpc_wallet : BtcWallet rpc_node := {|
  GetUnusedAddress := Client_GetUnusedAddress;
  DumpPrivKey := Client_DumpPrivKey;
  GetFeeRate := Client_GetFeeRate;
  PayTo := Client_PayTo;
  ListUnspent := Client_ListUnspent;
  SendRawTransaction := Client_SendRawTransaction;
  crypto_rand_Read k n :=
    let '(r, s) := os_random k (node_server n) in (r, mkNode (node_id n) (node_config n) (node_http n) s) |}.
End Client.
Arguments Client : clear implicits.
Arguments rpc_node : clear implicits.
