(* ===== verification/RpcClientTheorems.v ===== *)
(** * What the JSON-RPC client promises

    Before it is shut down the client answers every call exactly once, with what
    the server said to the request of that call; its steps always come to an
    end; a program that makes one call at a time sees [call]. After a shutdown
    these promises fail. *)

From S2P Require Import Prelude Sha256 Float Json Address Wire Cli BtcSwap Rpc RpcClient.

(** ** Sums over a map *)

Definition total {A} (f : A -> nat) (m : gmap nat A) : nat := sum_list_with (fun p => f p.2) (map_to_list m).

Lemma total_insert_new {A} (f : A -> nat) m i x : m !! i = None -> total f (<[i := x]> m) = (f x + total f m)%nat.
Proof. intros H. unfold total. by rewrite map_to_list_insert by done. Qed.

Lemma total_insert {A} (f : A -> nat) m i x y :
  m !! i = Some x -> (total f (<[i := y]> m) + f x)%nat = (total f m + f y)%nat.
Proof.
  intros H. rewrite <-(insert_delete_id m i x H) at 2. rewrite <-insert_delete_eq.
  rewrite !total_insert_new by apply lookup_delete_eq. lia.
Qed.

Section Theorems.
Context {S : Type} `{!HttpServer S}.
Implicit Types c : Client S.

(** ** Every run ends *)

Definition caller_weight (k : caller) : nat :=
  match k with Checking _ => 6 | Enqueuing _ => 4 | Waiting | Received _ => 0 end.
Definition handler_weight (h : handler) : nat :=
  match h with Selecting => 2 | Delivering _ _ => 4 | Cleanup => 1 | Cleaning _ => 3 | Done => 0 end.

(** What is still to do: for each call, request and response. *)
Definition work c : nat :=
  total caller_weight (calls c) + 3 * length (sendPostChan c) + handler_weight (goroutine c) + size (responses c).

Lemma step_works c c' : step c c' -> (work c' < work c)%nat.
Proof.
  intros Hs. destruct Hs as [ch d Hc _|ch d Hc _ Hr|ch d Hc _|ch resp Hc Hr|d q h s Hg Hq _|r resp Hg Hr|Hg _|d q Hg Hq|r Hg Hr|Hg Hq];
    unfold work; cbn [set_call set_response set_queue set_goroutine set_posted calls sendPostChan goroutine responses];
    rewrite ?length_app, ?Hg, ?Hq; cbn [length handler_weight].
  all: try (match goal with Hc : ?m !! ?i = Some ?x |- context [total _ (<[?i := ?y]> ?m)] =>
              pose proof (total_insert caller_weight _ _ x y Hc) as Ht; cbn [caller_weight] in Ht end).
  all: try (rewrite map_size_insert_None by done).
  all: try match goal with Hr : ?m !! ?i = Some ?r |- context [delete ?i ?m] =>
             rewrite <-(insert_delete_id _ _ _ Hr) at 2; rewrite map_size_insert_None by apply lookup_delete_eq end.
  all: lia.
Qed.

(** ** Before a shutdown *)

Definition chan_of (d : sendPostDetails) : nat := responseChan (jsonRequest_of d).
Definition queued c : list nat := map chan_of (sendPostChan c).
Definition at_handler c : list nat := match goroutine c with Delivering r _ => [responseChan r] | _ => [] end.
Definition in_flight c : list nat := at_handler c ++ queued c.

Definition posted_calls c : list nat := map fst (posted c).

(** The response of a call: what the server said to its one request, or an
    error made before a request was sent. *)
Definition answers c (ch : nat) (resp : response) : Prop :=
  (exists h, (ch, h) ∈ posted c /\ resp = decode_reply h) \/ ((ch ∉ posted_calls c) /\ exists e, resp = Fail e).

Record open_ok c : Prop := {
  ok_open : shutdown c = false;
  ok_running : match goroutine c with Selecting | Delivering _ _ => True | _ => False end;
  ok_calls ch : (ch < nextChan c)%nat <-> is_Some (calls c !! ch);
  ok_before ch d : calls c !! ch = Some (Checking d) \/ calls c !! ch = Some (Enqueuing d) ->
    chan_of d = ch /\ ch ∉ posted_calls c;
  ok_flight : NoDup (in_flight c);
  ok_waiting ch : calls c !! ch = Some Waiting <-> ch ∈ in_flight c \/ is_Some (responses c !! ch);
  ok_apart ch : ch ∈ in_flight c -> responses c !! ch = None;
  ok_once : NoDup (posted_calls c);
  ok_posted ch : ch ∈ posted_calls c -> (ch < nextChan c)%nat /\ ch ∉ queued c;
  ok_handler r resp : goroutine c = Delivering r resp ->
    exists h, (responseChan r, h) ∈ posted c /\ resp = decode_reply h;
  ok_answers ch resp : responses c !! ch = Some resp \/ calls c !! ch = Some (Received resp) -> answers c ch resp }.

(** Calls and steps, without a shutdown. *)
Definition open_event c c' : Prop := (exists cmd, c' = sendCmd cmd c) \/ step c c'.

Lemma ok_fresh c : open_ok c ->
  calls c !! nextChan c = None /\ responses c !! nextChan c = None /\
  (nextChan c ∉ in_flight c) /\ nextChan c ∉ posted_calls c.
Proof.
  intros H. assert (calls c !! nextChan c = None) as Hn.
  { apply eq_None_not_Some. rewrite <-(ok_calls c H). lia. }
  assert (~ (nextChan c ∈ in_flight c \/ is_Some (responses c !! nextChan c))) as Hw by (rewrite <-(ok_waiting c H); congruence).
  split_and!; [done|apply eq_None_not_Some; tauto|tauto|].
  intros Hp. apply (ok_posted c H) in Hp. lia.
Qed.


(** [at_call ch n]: is [ch] the call [n] that changes? *)
Ltac at_call ch n := destruct (decide (ch = n)) as [->|]; simplify_map_eq.

Lemma sendCmd_request_chan c cmd j i : sendCmd_request c cmd = (Ret j, i) -> responseChan j = nextChan c.
Proof.
  unfold sendCmd_request. destruct (CmdMethod _ _) as [[m nm]|e|e]; [|done..].
  destruct (MarshalCmd _ _ _); cbn; [|done..]. by intros [= <- _].
Qed.

(** A new call: [k] and maybe a response at once. *)
Lemma new_call_ok c i k o : open_ok c ->
  match k with
  | Checking d => chan_of d = nextChan c /\ o = None
  | Waiting => exists e, o = Some (Fail e)
  | _ => False
  end ->
  open_ok (mkClient i (config c) (http c) (requestList c) (sendPostChan c) (shutdown c) (goroutine c)
    (Datatypes.S (nextChan c))
    (match o with Some r => <[nextChan c := r]> (responses c) | None => responses c end)
    (<[nextChan c := k]> (calls c)) (posted c) (server c)).
Proof.
  intros H Hk. destruct (ok_fresh c H) as (Hc & Hr & Hf & Hp).
  assert (forall ch, ch <> nextChan c -> (match o with Some r => <[nextChan c := r]> (responses c) | None => responses c end) !! ch = responses c !! ch) as Hold
    by (intros ch Hne; destruct o; by simplify_map_eq).
  split; cbn.
  - apply (ok_open c H).
  - apply (ok_running c H).
  - intros ch. at_call ch (nextChan c); [split; [by eexists|lia]|]. rewrite <-(ok_calls c H). lia.
  - intros ch d Hd. at_call ch (nextChan c); [|by apply (ok_before c H)]. split; [|done].
    destruct k; destruct Hd as [[=]|[=]]; try done. subst. apply Hk.
  - apply (ok_flight c H).
  - intros ch. at_call ch (nextChan c); [|rewrite Hold by done; apply (ok_waiting c H)].
    destruct k; try done; [destruct Hk as [_ ->]; rewrite Hr; split; [done|intros [?|[? ?]]; done]|].
    destruct Hk as [e ->]. split; [|done]. intros _. right. simplify_map_eq. by eexists.
  - intros ch Hch. rewrite Hold by (intros ->; done). by apply (ok_apart c H).
  - apply (ok_once c H).
  - intros ch Hch. apply (ok_posted c H) in Hch as [? ?]. split; [lia|done].
  - apply (ok_handler c H).
  - intros ch resp. at_call ch (nextChan c); [|rewrite Hold by done; apply (ok_answers c H)].
    intros Ha. right. split; [done|].
    destruct k; try done; [destruct Hk as [_ ->], Ha as [Ha|[=]]; congruence|].
    destruct Hk as [e ->], Ha as [Ha|[=]]. simplify_map_eq. by eexists.
Qed.

Lemma sendCmd_ok cmd c : open_ok c -> open_ok (sendCmd cmd c).
Proof.
  intros H. unfold sendCmd. destruct (sendCmd_request c cmd) as [[j|e|e] i] eqn:E.
  - apply (new_call_ok c i (Checking _) None H). split; [by eapply sendCmd_request_chan|done].
  - apply (new_call_ok c i Waiting (Some (Fail e)) H). by eexists.
  - apply (new_call_ok c i Waiting (Some (Fail e)) H). by eexists.
Qed.

Lemma answers_more c c' ch resp :
  (forall x, x ∈ posted c -> x ∈ posted c') -> posted_calls c' = posted_calls c ->
  answers c ch resp -> answers c' ch resp.
Proof. intros H1 H2 [(h & Hh & ->)|[Hn ?]]; [left; eauto|right; by rewrite H2]. Qed.

(** One lemma per step. *)
Lemma check_ok c ch d : open_ok c -> calls c !! ch = Some (Checking d) -> open_ok (set_call ch (Enqueuing d) c).
Proof.
  intros H Hc. destruct (ok_before c H ch d (or_introl Hc)) as [Hd Hp].
  assert (calls c !! ch <> Some Waiting) as Hw by congruence. rewrite (ok_waiting c H) in Hw.
  split; cbn; try apply H.
  - intros ch'. at_call ch' ch; [|apply (ok_calls c H)]. rewrite (ok_calls c H), Hc. split; by eexists.
  - intros ch' d' Hd'. at_call ch' ch; [|by apply (ok_before c H)]. by destruct Hd' as [[=]|[= ->]].
  - intros ch'. at_call ch' ch; [|apply (ok_waiting c H)]. split; [done|by intros Hf; destruct (Hw Hf)].
  - intros ch' resp Ha. at_call ch' ch; [|by apply (ok_answers c H)].
    destruct Ha as [Ha|[=]]. destruct Hw. right. by eexists.
Qed.

Lemma enqueue_ok c ch d : open_ok c -> calls c !! ch = Some (Enqueuing d) ->
  open_ok (set_call ch Waiting (set_queue (sendPostChan c ++ [d]) c)).
Proof.
  intros H Hc. destruct (ok_before c H ch d (or_intror Hc)) as [Hd Hp].
  assert (calls c !! ch <> Some Waiting) as Hw by congruence. rewrite (ok_waiting c H) in Hw.
  assert (in_flight (set_call ch Waiting (set_queue (sendPostChan c ++ [d]) c)) = in_flight c ++ [ch]) as Hfl.
  { unfold in_flight, at_handler, queued. cbn. by rewrite map_app, app_assoc, <-Hd. }
  split; rewrite ?Hfl; cbn; try apply H.
  - intros ch'. at_call ch' ch; [|apply (ok_calls c H)]. rewrite (ok_calls c H), Hc. split; by eexists.
  - intros ch' d' Hd'. at_call ch' ch; [|by apply (ok_before c H)]. by destruct Hd' as [[=]|[=]].
  - apply NoDup_app. split; [apply H|]. split; [|apply NoDup_singleton].
    intros x Hx ->%list_elem_of_singleton. tauto.
  - intros ch'. rewrite elem_of_app, list_elem_of_singleton. at_call ch' ch; [tauto|].
    rewrite (ok_waiting c H). tauto.
  - intros ch' [Hf| ->%list_elem_of_singleton]%elem_of_app; [by apply (ok_apart c H)|].
    apply eq_None_not_Some. tauto.
  - intros ch' Hch. destruct (ok_posted c H ch' Hch) as [? Hnq]. split; [done|].
    unfold queued. cbn. rewrite map_app, elem_of_app. cbn. rewrite list_elem_of_singleton, Hd.
    intros [?| ->]; done.
  - intros ch' resp Ha. at_call ch' ch; [|by apply (ok_answers c H)].
    destruct Ha as [Ha|[=]]. destruct Hw. right. by eexists.
Qed.

Lemma receive_ok c ch resp : open_ok c -> calls c !! ch = Some Waiting -> responses c !! ch = Some resp ->
  open_ok (set_call ch (Received resp) (set_response ch None c)).
Proof.
  intros H Hc Hr.
  assert (ch ∉ in_flight c) as Hnf by (intros Hf; apply (ok_apart c H) in Hf; congruence).
  split; cbn; try apply H.
  - intros ch'. at_call ch' ch; [|apply (ok_calls c H)]. rewrite (ok_calls c H), Hc. split; by eexists.
  - intros ch' d' Hd'. at_call ch' ch; [|by apply (ok_before c H)]. by destruct Hd' as [[=]|[=]].
  - intros ch'. at_call ch' ch; [|apply (ok_waiting c H)]. split; [done|]. intros [?|[? ?]]; done.
  - intros ch' Hf. at_call ch' ch; [done|]. by apply (ok_apart c H).
  - intros ch' resp' Ha. at_call ch' ch; [|by apply (ok_answers c H)].
    destruct Ha as [[=]|[= <-]]. apply (ok_answers c H). by left.
Qed.

Lemma post_ok c d q h s : open_ok c -> goroutine c = Selecting -> sendPostChan c = d :: q ->
  open_ok (set_goroutine (Delivering (jsonRequest_of d) (decode_reply h))
             (set_queue q (set_posted (responseChan (jsonRequest_of d)) h s c))).
Proof.
  intros H Hg Hq. fold (chan_of d). assert (in_flight c = chan_of d :: map chan_of q) as Hfl.
  { unfold in_flight, at_handler, queued. by rewrite Hg, Hq. }
  assert (calls c !! chan_of d = Some Waiting) as Hc by (apply (ok_waiting c H); rewrite Hfl; left; by left).
  assert (chan_of d ∉ posted_calls c) as Hp.
  { intros Hp. apply (ok_posted c H) in Hp as [_ Hp]. apply Hp. unfold queued. rewrite Hq. by left. }
  assert (forall ch, ch ∈ queued c <-> ch ∈ chan_of d :: map chan_of q) as Hqueued by (intros ch; unfold queued; by rewrite Hq).
  pose proof (ok_flight c H) as Hnd. rewrite Hfl in Hnd. apply NoDup_cons in Hnd as [Hnd _].
  split; cbn; try apply H; try done.
  - intros ch d' Hd'. destruct (ok_before c H ch d' Hd') as [? Hnp]. split; [done|].
    intros [->|?]%elem_of_cons; [destruct Hd'; congruence|done].
  - pose proof (ok_flight c H) as Hn. by rewrite Hfl in Hn.
  - intros ch. rewrite (ok_waiting c H), Hfl. done.
  - intros ch Hf. apply (ok_apart c H). by rewrite Hfl.
  - apply NoDup_cons. split; [done|apply H].
  - intros ch [->|Hch]%elem_of_cons.
    + split; [apply (ok_calls c H); by rewrite Hc|done].
    + destruct (ok_posted c H ch Hch) as [? Hnq]. split; [done|]. intros Hin. apply Hnq, Hqueued. by right.
  - intros r resp [= <- <-]. exists h. split; [by left|done].
  - intros ch resp Ha. assert (ch <> chan_of d) as Hne.
    { intros ->. destruct Ha as [Ha|Ha]; [|congruence]. rewrite (ok_apart c H) in Ha; [done|]. rewrite Hfl. by left. }
    destruct (ok_answers c H ch resp Ha) as [(h' & Hh & ->)|[Hn ?]].
    + left. exists h'. split; [by right|done].
    + right. split; [|done]. by intros [?|?]%elem_of_cons.
Qed.

Lemma deliver_ok c r resp : open_ok c -> goroutine c = Delivering r resp ->
  open_ok (set_goroutine Selecting (set_response (responseChan r) (Some resp) c)).
Proof.
  intros H Hg. set (ch := responseChan r). assert (in_flight c = ch :: queued c) as Hfl.
  { unfold in_flight, at_handler. by rewrite Hg. }
  pose proof (ok_flight c H) as Hnd. rewrite Hfl in Hnd. apply NoDup_cons in Hnd as [Hnd Hnd'].
  split; cbn; try apply H; try done.
  - intros ch'. rewrite (ok_waiting c H), Hfl, elem_of_cons. unfold in_flight, at_handler. cbn.
    fold ch. change (queued (set_goroutine _ _)) with (queued c).
    destruct (decide (ch' = ch)) as [->|]; simplify_map_eq; [|tauto]. split; [right; by eexists|by left; left].
  - intros ch' Hf. change (in_flight _) with (queued c) in Hf. rewrite lookup_insert_ne by (intros <-; done).
    apply (ok_apart c H). rewrite Hfl. by right.
  - intros ch' resp' Ha. fold ch in Ha. destruct (decide (ch' = ch)) as [->|]; simplify_map_eq; [|by apply (ok_answers c H)].
    assert (calls c !! ch = Some Waiting) as Hc by (apply (ok_waiting c H); rewrite Hfl; left; by left).
    destruct Ha as [[= <-]|Ha]; [|congruence]. left. apply (ok_handler c H r resp Hg).
Qed.

Lemma step_ok c c' : open_ok c -> step c c' -> open_ok c'.
Proof.
  intros H Hs. pose proof (ok_open c H) as Hopen. pose proof (ok_running c H) as Hrun.
  destruct Hs as [ch d Hc _|ch d Hc Hsh Hr|ch d Hc Hroom|ch resp Hc Hr|d q h s Hg Hq Hdo|r resp Hg Hr|Hg Hsh|d q Hg Hq|r Hg Hr|Hg Hq];
    [by apply check_ok|congruence|by apply enqueue_ok|by apply receive_ok|by apply post_ok|by apply deliver_ok|congruence|..];
    by rewrite Hg in Hrun.
Qed.

Lemma New_ok config s c : New config s = Ret c -> open_ok c.
Proof.
  unfold New. destruct (newHTTPClient config); [|done..]. intros [= <-]. split; cbn; try done.
  - intros ch. split; [lia|]. rewrite lookup_empty. by intros [? ?].
  - intros ch d [Hd|Hd]; by rewrite lookup_empty in Hd.
  - constructor.
  - intros ch. rewrite !lookup_empty. split; [done|]. intros [Hf|[? ?]]; [by apply elem_of_nil in Hf|done].
  - constructor.
  - intros ch Hch. by apply elem_of_nil in Hch.
  - intros ch resp [Hr|Hr]; by rewrite lookup_empty in Hr.
Qed.

Lemma open_events_ok c c' : open_ok c -> rtc open_event c c' -> open_ok c'.
Proof.
  intros H. induction 1 as [|c c1 c2 [[cmd ->]|Hs] _ IH]; [done|by apply IH, sendCmd_ok|by eapply IH, step_ok].
Qed.

(** A state where nothing is left to do has answered every call. *)
Lemma ok_progress c ch k : open_ok c -> nf step c -> calls c !! ch = Some k -> exists resp, k = Received resp.
Proof.
  intros H Hnf Hc. assert (forall c', ~ step c c') as Hno by (intros c' Hs; apply Hnf; by exists c').
  assert (in_flight c = []) as Hidle.
  { pose proof (ok_running c H) as Hrun. unfold in_flight, at_handler, queued. destruct (goroutine c) as [|r resp| |r|] eqn:Hg; try done.
    - destruct (sendPostChan c) as [|d q] eqn:Hq; [done|].
      destruct (http_Do (httpRequest_of d) (server c)) as [h s] eqn:Hd. edestruct Hno. by eapply step_post.
    - edestruct Hno. apply (step_deliver c r resp Hg), (ok_apart c H). unfold in_flight, at_handler. rewrite Hg. by left. }
  destruct k as [d|d| |resp]; [..|by eexists].
  - edestruct Hno. apply (step_check_open c ch d Hc), (ok_open c H).
  - edestruct Hno. apply (step_enqueue c ch d Hc).
    unfold in_flight, queued in Hidle. apply app_eq_nil in Hidle as [_ Hq%map_eq_nil]. rewrite Hq. cbn. unfold sendPostBufferSize. lia.
  - destruct (proj1 (ok_waiting c H ch) Hc) as [Hf|[resp Hr]]; [rewrite Hidle in Hf; by apply elem_of_nil in Hf|].
    edestruct Hno. by eapply step_receive.
Qed.

(** C28: Every run of the client ends. Whatever calls and shutdowns came before, the
    goroutines cannot make steps for ever; and as long as there was no shutdown,
    a state without a next step has answered every call and sent every request
    that was made. *)
Theorem client_runs_end config s c0 : New config s = Ret c0 ->
  (forall c, sn step c) /\
  (forall c, rtc open_event c0 c -> nf step c ->
     sendPostChan c = [] /\ forall ch, (ch < nextChan c)%nat -> exists resp, calls c !! ch = Some (Received resp)).
Proof.
  intros Hnew. split.
  - intros c. apply (wf_projected (R1 := flip step) lt work); [|apply lt_wf].
    intros c1 c2. apply step_works.
  - intros c Hr Hnf. pose proof (open_events_ok _ _ (New_ok _ _ _ Hnew) Hr) as H. split.
    + destruct (sendPostChan c) as [|d q] eqn:Hq; [done|].
      assert (calls c !! chan_of d = Some Waiting) as Hc.
      { apply (ok_waiting c H). left. unfold in_flight, queued. rewrite Hq. apply elem_of_app. right. by left. }
      by destruct (ok_progress c _ _ H Hnf Hc) as [? [=]].
    + intros ch Hch. apply (ok_calls c H) in Hch as [k Hk].
      destruct (ok_progress c ch k H Hnf Hk) as [resp ->]. by exists resp.
Qed.

(** C27: The answer of a call is the server's answer to its request. As long as
    there was no shutdown, whatever the interleaving of calls, queue and
    goroutine: no request is sent twice; a call that has received a response
    received what [decode_reply] makes of the one reply to its own request, or
    the error of a command that could not be sent, in which case nothing was
    sent; and the response of a call is waited for by that call alone. *)
Theorem client_answers config s c0 c : New config s = Ret c0 -> rtc open_event c0 c ->
  NoDup (map fst (posted c)) /\
  (forall ch resp, calls c !! ch = Some (Received resp) ->
     (exists h, (ch, h) ∈ posted c /\ resp = decode_reply h /\ forall h', (ch, h') ∈ posted c -> h' = h) \/
     ((ch ∉ map fst (posted c)) /\ exists e, resp = Fail e)) /\
  (forall ch, is_Some (responses c !! ch) -> calls c !! ch = Some Waiting).
Proof.
  intros Hnew Hr. pose proof (open_events_ok _ _ (New_ok _ _ _ Hnew) Hr) as H.
  split; [apply (ok_once c H)|split].
  - intros ch resp Ha. destruct (ok_answers c H ch resp (or_intror Ha)) as [(h & Hh & ->)|Hn]; [|by right].
    left. exists h. split_and!; [done|done|]. intros h' Hh'.
    assert (NoDup (map fst (posted c))) as Hnd by apply (ok_once c H).
    apply (elem_of_list_to_map_1 (M := gmap nat)) in Hh, Hh'; [|done..]. congruence.
  - intros ch Hs. apply (ok_waiting c H). by right.
Qed.

(** ** One call at a time *)

(** The state of a client with one call, [k]. *)
Definition alone (n : rpc_node S) (i : Z) (k : caller) (q : list sendPostDetails) (g : handler) (o : option response)
    (p : list (nat * http_result)) (s : S) : Client S :=
  mkClient i (node_config n) (node_http n) [] q false g 1
    (match o with Some r => <[0%nat := r]> ∅ | None => ∅ end) (<[0%nat := k]> ∅) p s.

Lemma lookup_alone {A} ch (k k' : A) : (<[0%nat := k]> ∅ : gmap nat A) !! ch = Some k' <-> ch = 0%nat /\ k = k'.
Proof. rewrite lookup_insert_Some, lookup_empty. split; [by intros [[<- ->]|[_ [=]]]|intros [-> ->]; by left]. Qed.

(** The only step of such a state. *)
Inductive alone_step (n : rpc_node S) : Client S -> Client S -> Prop :=
  | alone_check i d s : alone_step n (alone n i (Checking d) [] Selecting None [] s) (alone n i (Enqueuing d) [] Selecting None [] s)
  | alone_enqueue i d s : alone_step n (alone n i (Enqueuing d) [] Selecting None [] s) (alone n i Waiting [d] Selecting None [] s)
  | alone_post i d h s s' : chan_of d = 0%nat -> http_Do (httpRequest_of d) s = (h, s') ->
      alone_step n (alone n i Waiting [d] Selecting None [] s)
        (alone n i Waiting [] (Delivering (jsonRequest_of d) (decode_reply h)) None [(0%nat, h)] s')
  | alone_deliver i r resp p s : responseChan r = 0%nat ->
      alone_step n (alone n i Waiting [] (Delivering r resp) None p s) (alone n i Waiting [] Selecting (Some resp) p s)
  | alone_receive i resp p s :
      alone_step n (alone n i Waiting [] Selecting (Some resp) p s) (alone n i (Received resp) [] Selecting None p s).

Lemma alone_step_only n c c1 c2 : alone_step n c c1 -> step c c2 -> c2 = c1.
Proof.
  intros H Hs. destruct H as [i d s|i d s|i d h s s' Hd Hdo|i r resp p s Hr|i resp p s]; inversion Hs; subst; cbn in *;
    repeat match goal with
    | H : insert _ _ _ !! _ = Some _ |- _ => apply lookup_alone in H as [? ?]
    | H : ∅ !! _ = Some _ |- _ => by rewrite lookup_empty in H
    end; try congruence; simplify_eq;
    unfold set_call, set_queue, set_response, set_goroutine, set_posted, alone; cbn;
    unfold chan_of in *; rewrite ?insert_insert_eq, ?delete_insert_eq, ?delete_empty; congruence.
Qed.

Lemma alone_step_is n c c1 : alone_step n c c1 -> step c c1.
Proof.
  intros H. assert (exists c2, step c c2) as [c2 Hs].
  { destruct H as [i d s|i d s|i d h s s' Hd Hdo|i r resp p s Hr|i resp p s]; eexists;
      [eapply (step_check_open _ 0 d)|eapply (step_enqueue _ 0 d)|eapply (step_post _ d [] h s')|eapply (step_deliver _ r resp)|eapply (step_receive _ 0 resp)];
      cbn; rewrite ?Hr, ?lookup_insert_eq; try done. unfold sendPostBufferSize. lia. }
  by rewrite <-(alone_step_only _ _ _ _ H Hs).
Qed.

Lemma alone_run n c cf : rtc (alone_step n) c cf -> nf step cf ->
  rtc step c cf /\ forall c', rtc step c c' -> nf step c' -> c' = cf.
Proof.
  intros Hr Hnf. induction Hr as [c|c c1 cf H _ IH].
  - split; [done|]. intros c' Hs _. apply rtc_inv in Hs as [<-|(c2 & Hs & _)]; [done|]. by destruct Hnf; exists c2.
  - destruct (IH Hnf) as [Hr Hu]. split; [eapply rtc_l; [by eapply alone_step_is|done]|].
    intros c' Hs Hnf'. apply rtc_inv in Hs as [<-|(c2 & Hs & Hr')].
    + destruct Hnf'. exists c1. by eapply alone_step_is.
    + apply Hu; [|done]. by rewrite <-(alone_step_only _ _ _ _ H Hs).
Qed.

Lemma alone_end n i resp p s : nf step (alone n i (Received resp) [] Selecting None p s).
Proof.
  intros [c' Hs]. inversion Hs; subst; cbn in *;
    repeat match goal with H : insert _ _ _ !! _ = Some _ |- _ => apply lookup_alone in H as [? ?] end; congruence.
Qed.

(** The whole run of a call. *)
Lemma call_alone n cmd : exists i p s,
  rtc (alone_step n) (sendCmd cmd (client_of n)) (alone n i (Received (call cmd n).1) [] Selecting None p s) /\
  s = node_server (call cmd n).2 /\ i = node_id (call cmd n).2.
Proof.
  unfold call, sendCmd. destruct (sendCmd_request (client_of n) cmd) as [[j|e|e] i] eqn:E.
  - pose proof (sendCmd_request_chan _ _ _ _ E) as Hj.
    destruct (http_Do (sendPost_request (client_of n) j) (node_server n)) as [h s'] eqn:Hdo.
    do 3 eexists. split; [|split; reflexivity]. cbn.
    eapply rtc_l; [apply alone_check|]. eapply rtc_l; [apply alone_enqueue|].
    eapply rtc_l; [apply alone_post; [exact Hj|exact Hdo]|]. cbn [jsonRequest_of].
    eapply rtc_l; [apply alone_deliver, Hj|]. apply rtc_once, alone_receive.
  - do 3 eexists. split; [apply rtc_once, (alone_receive n)|done].
  - do 3 eexists. split; [apply rtc_once, (alone_receive n)|done].
Qed.

(** C29: A program that makes one call at a time may read the client as the function
    [call]. A command sent to an idle client runs to exactly one end, by the
    queue, the goroutine and both channels: there the caller has received the
    response of [call], the server is in the state [call] leaves it in, the next
    id is that of [call], and the client is idle again. *)
Theorem call_refines n cmd :
  let finished c' := calls c' = <[0%nat := Received (call cmd n).1]> ∅ /\ server c' = node_server (call cmd n).2 /\
    id c' = node_id (call cmd n).2 /\ sendPostChan c' = [] /\ responses c' = ∅ /\ goroutine c' = Selecting in
  (exists c', rtc step (sendCmd cmd (client_of n)) c' /\ nf step c') /\
  (forall c', rtc step (sendCmd cmd (client_of n)) c' -> nf step c' -> finished c').
Proof.
  destruct (call_alone n cmd) as (i & p & s & Hr & -> & ->).
  destruct (alone_run _ _ _ Hr (alone_end _ _ _ _ _)) as [Hs Hu].
  split; [by eexists; split; [exact Hs|apply alone_end]|].
  intros c' Hc Hnf. by rewrite (Hu c' Hc Hnf).
Qed.
End Theorems.

(** ** A server to run against, and what a shutdown breaks *)

(** A server that gives the replies of a list, then none. *)
#[export] Instance canned : HttpServer (list http_result) := {|
  url_Parse s := Ret s;
  http_Do _ l := match l with h :: l => (h, l) | [] => (HttpError (ErrNew "EOF"), []) end;
  os_random n l := (Ret (replicate n 7), l) |}.

Definition fee_reply : http_result := HttpReply 200 (Some (JObject [(bytes_of_string "result", JNumber (bytes_of_string "1000"))])).
Definition local_config : ConnConfig := mkConnConfig "localhost:7777" "user" "pass" true [] "" "" "" true.
Definition idle_node : rpc_node (list http_result) := mkNode 0 local_config (mkHttpClient None None) [fee_reply].

(** A call of the fee rate, about to look at the shutdown channel. *)
Lemma fee_call : exists j i, responseChan j = 0%nat /\
  sendCmd NewGetFeeRateCmd (client_of idle_node) =
  alone idle_node i (Checking (mkDetails (sendPost_request (client_of idle_node) j) j)) [] Selecting None [] [fee_reply].
Proof.
  destruct (sendCmd_request (client_of idle_node) NewGetFeeRateCmd) as [[j|e|e] i] eqn:E.
  - exists j, i. split; [exact (sendCmd_request_chan _ _ _ _ E)|]. unfold sendCmd. by rewrite E.
  - vm_compute in E. discriminate E.
  - vm_compute in E. discriminate E.
Qed.

(** After a shutdown the promises fail. In one history a call receives the
    shutdown error although its request was posted to the server, which replied;
    in another a request that passed the check of the shutdown channel is queued
    when the goroutine has ended: its call waits for ever, and no step is left. *)
Theorem shutdown_breaks_calls :
  let c0 := client_of idle_node in
  (exists c, rtc event c0 c /\ calls c !! 0%nat = Some (Received (Fail ErrClientShutdown)) /\
     (0%nat, fee_reply) ∈ posted c) /\
  (exists c, rtc event c0 c /\ stopped c /\ calls c !! 0%nat = Some Waiting /\ nf step c).
Proof.
  destruct fee_call as (j & i & Hj & Hc). set (d := mkDetails _ j) in Hc. split; eexists.
  - split; [|split].
    + eapply rtc_l; [apply (event_call _ NewGetFeeRateCmd)|]. rewrite Hc.
      eapply rtc_l; [apply event_shutdown|]. cbn.
      eapply rtc_l; [apply event_step, (step_check_shutdown _ 0 d); done|].
      eapply rtc_l; [apply event_step, (step_enqueue _ 0 d); [done|cbn; unfold sendPostBufferSize; lia]|].
      eapply rtc_l; [apply event_step, (step_post _ d [] fee_reply []); done|].
      apply rtc_once, event_step, (step_receive _ 0 (Fail ErrClientShutdown)); done.
    + done.
    + cbn. rewrite Hj. by left.
  - split; [|split; [|split]].
    + eapply rtc_l; [apply (event_call _ NewGetFeeRateCmd)|]. rewrite Hc.
      eapply rtc_l; [apply event_step, (step_check_open _ 0 d); done|].
      eapply rtc_l; [apply event_shutdown|]. cbn.
      eapply rtc_l; [apply event_step, step_stop; done|].
      eapply rtc_l; [apply event_step, step_done; done|].
      apply rtc_once, event_step, (step_enqueue _ 0 d); [done|cbn; unfold sendPostBufferSize; lia].
    + done.
    + done.
    + intros [c' Hs]. inversion Hs; subst; cbn in *; try done.
      all: match goal with H : insert _ _ (insert _ _ _) !! _ = Some _ |- _ => rewrite !insert_insert_eq in H; apply lookup_alone in H as [? ?]; done end.
Qed.

Lemma client_runs_end_witness :
  (forall c : Client (list http_result), sn step c) /\
  (forall c, rtc open_event (client_of idle_node) c -> nf step c ->
     sendPostChan c = [] /\ forall ch, (ch < nextChan c)%nat -> exists resp, calls c !! ch = Some (Received resp)).
Proof. apply (client_runs_end local_config [fee_reply] (client_of idle_node)). reflexivity. Defined.

Lemma client_answers_witness : exists c : Client (list http_result),
  calls c !! 0%nat = Some (Received (Ret (Some (JNumber (bytes_of_string "1000"))))) /\
  NoDup (map fst (posted c)) /\
  (forall ch resp, calls c !! ch = Some (Received resp) ->
     (exists h, (ch, h) ∈ posted c /\ resp = decode_reply h /\ forall h', (ch, h') ∈ posted c -> h' = h) \/
     ((ch ∉ map fst (posted c)) /\ exists e, resp = Fail e)) /\
  (forall ch, is_Some (responses c !! ch) -> calls c !! ch = Some Waiting).
Proof.
  destruct (call_alone idle_node NewGetFeeRateCmd) as (i & p & s & Hr & _). eexists. split.
  2: { apply (client_answers local_config [fee_reply] (client_of idle_node)); [reflexivity|].
    eapply rtc_l; [left; by exists NewGetFeeRateCmd|]. eapply (rtc_congruence (fun c => c)); [|exact Hr].
    intros c1 c2 Hs. right. by eapply alone_step_is. }
  by vm_compute.
Defined.

(** The whole call, and what its caller makes of the reply. *)
Example fee_rate : (GetFeeRate idle_node).1 = Ret 1000.
Proof. vm_compute. reflexivity. Qed.
