(* ===== verification/RpcTheorems.v ===== *)
(** * Commands and replies: what holds of the package

    The registry keeps methods and types of commands together; what two
    [Receive]s decode addresses with leaves the tool without a wallet on the
    test network, and without unspent outputs of the address type it asks for. *)

From S2P Require Import Prelude Sha256 Float Json Base58 Address AddressTheorems Wire Engine Cli BtcSwap BtcCommands BtcTheorems Rpc RpcClient RpcClientTheorems.

(** ** The registry *)

Definition method_of (r : registry) (t : cmdtype) (m : string) : Prop :=
  positionalParameters_of r !! t = Some m \/ namedParameters_of r !! t = Some m.

(** Every method in the tables of the types is registered for that type, and
    every registered type is a pointer that has a method. *)
Record registry_ok (r : registry) : Prop := {
  ro_method t m : method_of r t m -> methodToConcreteType r !! m = Some t;
  ro_type m t : methodToConcreteType r !! m = Some t -> is_pointer t = true /\ exists m', method_of r t m' }.

Lemma empty_registry_ok : registry_ok empty_registry.
Proof. split; unfold method_of; cbn; intros *; rewrite ?lookup_empty; [by intros [?|?]|done]. Qed.

(** A registration adds a method to its type; the type may lose one of the same
    kind. *)
Lemma RegisterCmd_methods m t named r r' : RegisterCmd m t named r = Ret r' ->
  methodToConcreteType r !! m = None /\ is_pointer t = true /\
  methodToConcreteType r' = <[m := t]> (methodToConcreteType r) /\ method_of r' t m /\
  (forall t' m', method_of r' t' m' -> (t' = t /\ m' = m) \/ method_of r t' m') /\
  (forall t' m', t' <> t -> method_of r t' m' -> method_of r' t' m').
Proof.
  unfold RegisterCmd. destruct (methodToConcreteType r !! m) eqn:Hm; [done|].
  destruct (is_pointer t) eqn:Hp; [|done]. cbn [negb]. unfold method_of.
  intros [= <-]. destruct named; cbn; (split; [done|split; [done|split; [done|split]]]);
    [right; by simplify_map_eq| |left; by simplify_map_eq|]; (split; intros t' m').
  - intros [H|H]; [by right; left|]. destruct (decide (t' = t)) as [->|]; simplify_map_eq; [by left|by right; right].
  - intros Hne [H|H]; [by left|right; by simplify_map_eq].
  - intros [H|H]; [|by right; right]. destruct (decide (t' = t)) as [->|]; simplify_map_eq; [by left|by right; left].
  - intros Hne [H|H]; [left; by simplify_map_eq|by right].
Qed.

Lemma RegisterCmd_ok m t named r r' : registry_ok r -> RegisterCmd m t named r = Ret r' -> registry_ok r'.
Proof.
  intros Hr (Hm & Hp & Ht & Hnew & Hinv & Hkeep)%RegisterCmd_methods. split.
  - intros t' m' [[-> ->]|H]%Hinv; rewrite Ht; [by simplify_map_eq|].
    pose proof (ro_method r Hr _ _ H) as H'. rewrite lookup_insert_ne; [done|]. intros ->. congruence.
  - intros m' t'. rewrite Ht. intros [[-> ->]|[_ H]]%lookup_insert_Some; [by eauto|].
    destruct (ro_type r Hr _ _ H) as [? [m'' H'']]. split; [done|].
    destruct (decide (t' = t)) as [->|]; eauto.
Qed.

Lemma register_ok calls r : registry_ok r -> registry_ok (register calls r).
Proof.
  revert r. induction calls as [|[[m t] named] calls IH]; intros r Hr; [done|]. cbn. apply IH.
  destruct (RegisterCmd m t named r) eqn:E; [by eapply RegisterCmd_ok|done..].
Qed.

(** Methods belong to types. Whatever calls of [RegisterCmd] were made, in any
    order and with errors ignored: the method that [CmdMethod] finds for a type
    was registered for that type, which is a pointer, so commands of two types
    never share a method; and a type that some method was registered for has
    one. *)
Theorem registry_typed calls : let r := register calls empty_registry in
  (forall t m named, CmdMethod r t = Ret (m, named) ->
     methodToConcreteType r !! m = Some t /\ is_pointer t = true /\
     forall t' named', CmdMethod r t' = Ret (m, named') -> t' = t) /\
  (forall m t, methodToConcreteType r !! m = Some t -> exists m' named, CmdMethod r t = Ret (m', named)).
Proof.
  intros r. assert (registry_ok r) as Hr by apply register_ok, empty_registry_ok.
  assert (forall t m named, CmdMethod r t = Ret (m, named) -> method_of r t m) as Hc.
  { intros t m named. unfold CmdMethod, method_of.
    destruct (positionalParameters_of r !! t); [intros [= -> _]; by left|].
    destruct (namedParameters_of r !! t); [intros [= -> _]; by right|done]. }
  split.
  - intros t m named Hm%Hc. pose proof (ro_method r Hr _ _ Hm) as Ht. split; [done|].
    split; [by apply (ro_type r Hr m)|]. intros t' named' Hm'%Hc%(ro_method r Hr). congruence.
  - intros m t Hm. destruct (ro_type r Hr _ _ Hm) as [_ [m' Hm']]. unfold CmdMethod.
    destruct (positionalParameters_of r !! t) as [p|] eqn:E; [by eauto|].
    destruct Hm' as [Hm'|Hm']; [congruence|]. rewrite Hm'. by eauto.
Qed.

(** The requests of the six commands of the package. *)
Example init_methods : map (fun t => CmdMethod init t)
    [GetUnusedAddressCmd; GetPrivateKeysCmd; GetFeeRateCmd; PayToCmd; ListUnspentCmd; BroadcastCmd] =
  map Ret [("getunusedaddress", false); ("getprivatekeys", false); ("getfeerate", false); ("payto", true);
   ("listunspent", false); ("broadcast", false)]%string.
Proof. vm_compute. reflexivity. Qed.

(** ** The test network *)

Section TestNet.
Context {S : Type} `{!HttpServer S} {curve : Secp256k1} (automated : bool).

Lemma testnet_no_address : stops (getUnusedAddress (N := rpc_node S) TestNet3Params).
Proof.
  intros e a e' H. unfold getUnusedAddress in H. cmd_inv H.
  match goal with Hx : ask _ _ = _ |- _ => apply run_ask in Hx as (n & Hn & _) end.
  cbn [GetUnusedAddress rpc_wallet] in Hn. unfold Client_GetUnusedAddress, rpc_method in Hn.
  destruct (call _ _) as [res n']. injection Hn as Hn _.
  destruct res as [res|er|er]; [|done..]. cbn [mbind outcome_bind] in Hn. unfold GetUnusedAddress_Receive in Hn.
  destruct (mapErr _ _) as [s|er|er]; [|done..]. cbn [mbind outcome_bind] in Hn.
  match goal with H : negb (is_P2PKH ?x) = false |- _ => destruct x; try done end.
  by apply decoded_P2PKH in Hn as [-> _].
Qed.

Context (R : rpc_node S -> rpc_node S -> Prop) `{!PreOrder R, !WalletReadsKeep R}.

(** Each online command builds a transaction first, for which it needs an
    address. *)
Lemma testnet_buildContract args : stops (buildContract (N := rpc_node S) TestNet3Params args).
Proof. apply stops_bind_l, stops_errf, testnet_no_address. Qed.
Lemma testnet_buildRefund c tx f : stops (buildRefund (N := rpc_node S) TestNet3Params c tx f).
Proof. do 3 (apply stops_bind_r; intros ?). apply stops_bind_l, stops_errf, testnet_no_address. Qed.
Lemma testnet_buildRedeem c tx s : stops (buildRedeem (N := rpc_node S) TestNet3Params c tx s).
Proof. do 3 (apply stops_bind_r; intros ?). apply stops_bind_l, stops_errf, testnet_no_address. Qed.

(** The tool has no wallet on the test network. With [-testnet] every command
    that talks to the wallet ends in an error, whatever the server answers, and
    it ends before it could send a transaction: [GetUnusedAddress] decodes the
    wallet's address with the parameters of the main network, and the tool then
    asks for an address of the test network. *)
Theorem testnet_commands_fail c (e : env (rpc_node S)) r e' :
  offlineCommand (N := rpc_node S) TestNet3Params automated c = None ->
  runCommand TestNet3Params automated c e = (r, e') ->
  (forall u, r <> Ret u) /\ R (node e) (node e').
Proof.
  intros Hc H.
  assert (stops (runCommand (N := rpc_node S) TestNet3Params automated c) /\
          keeps (quiet R) (runCommand TestNet3Params automated c)) as [Hs Hk].
  { destruct c; try done; cbn [runCommand]; split.
    - do 2 (apply stops_bind_r; intros ?). apply stops_bind_l, testnet_buildContract.
    - apply keeps_bind; [apply _|apply keeps_ask, keep_random|intros ?].
      apply keeps_bind; [apply _|by apply keeps_unix_after|intros ?].
      apply keeps_stops; [apply testnet_buildContract|by apply keeps_buildContract].
    - apply stops_bind_r; intros ?. apply stops_bind_l, testnet_buildContract.
    - apply keeps_bind; [apply _|by apply keeps_unix_after|intros ?].
      apply keeps_stops; [apply testnet_buildContract|by apply keeps_buildContract].
    - apply stops_bind_l, testnet_buildRedeem.
    - apply keeps_stops; [apply testnet_buildRedeem|by apply keeps_buildRedeem].
    - do 2 (apply stops_bind_r; intros ?). apply stops_bind_l, testnet_buildRefund.
    - apply keeps_bind; [apply _|apply keeps_pure, _|intros ?].
      apply keeps_bind; [apply _|by apply keeps_getFeePerKb|intros ?].
      apply keeps_stops; [apply testnet_buildRefund|by apply keeps_buildRefund]. }
  split; [intros u ->; by eapply Hs|by apply (Hk _ _ _ H)].
Qed.
End TestNet.

(** ** Unspent outputs *)

(** A wallet of the address type the tool asks for cannot be listed. A reply to
    [listunspent] in which an output of a public key hash or script hash address
    of either network comes after outputs that were read makes [Receive] panic,
    since it decodes addresses without parameters; so [payTo], and with it
    [initiate] and [participate], panics after the wallet has signed the
    payment. *)
Theorem ListUnspent_panics res net a l u rest value amount :
  Unmarshal (to_list (to_struct set_respUtxo (mkRespUtxo [] [] 0 [] 0 false))) [] res = Ret (l ++ u :: rest) ->
  In net networks -> hash_address net a -> ru_Address u = EncodeAddress a ->
  ParseFloat (ru_Value u) = Ret value -> NewAmount value = Ret amount ->
  (exists us, mapM_outcome read_utxo l = Ret us) ->
  ListUnspent_Receive res = Panic (ErrNew "nil pointer dereference").
Proof.
  intros Hres Hnet Ha Hu Hv Hm [us Hl]. unfold ListUnspent_Receive. rewrite Hres. cbn [mapErr mbind outcome_bind].
  clear Hres. revert us Hl. induction l as [|u0 l IH]; intros us Hl; cbn [mapM_outcome app].
  - unfold read_utxo. rewrite Hv. cbn [mbind outcome_bind]. rewrite Hm. cbn [mbind outcome_bind].
    rewrite Hu, (hash_address_text net a None Hnet Ha). by rewrite (hash_address_nil net a Hnet Ha).
  - cbn [mapM_outcome] in Hl. destruct (read_utxo u0) as [x|er|er]; [|done..]. cbn [mbind outcome_bind] in *.
    destruct (mapM_outcome read_utxo l) as [us'|er|er]; [|done..]. by rewrite (IH us').
Qed.

(** ** Witnesses *)

Lemma registry_typed_witness :
  CmdMethod init PayToCmd = Ret ("payto"%string, true) /\
  methodToConcreteType init !! "payto"%string = Some PayToCmd /\ is_pointer PayToCmd = true /\
  forall t' named', CmdMethod init t' = Ret ("payto"%string, named') -> t' = PayToCmd.
Proof.
  assert (CmdMethod init PayToCmd = Ret ("payto"%string, true)) as H by (vm_compute; reflexivity).
  split; [exact H|]. exact (proj1 (registry_typed init_calls) _ _ _ H).
Defined.

(** Curve operations that are not reached. *)
#[local] Instance no_curve : Secp256k1 := {|
  SerializeCompressed _ := []; PrivateKey_Sign _ _ := Fail (ErrNew "no key"); ecdsa _ _ _ := None |}.

#[local] Instance any_keep : WalletReadsKeep (fun _ _ : rpc_node (list http_result) => True).
Proof. by split. Qed.
#[local] Instance any_preorder : PreOrder (fun _ _ : rpc_node (list http_result) => True).
Proof. by split. Qed.

(** A server that answers with an address of the test network. *)
Definition testnet_start : env (rpc_node (list http_result)) :=
  mkEnv (mkNode 0 local_config (mkHttpClient None None)
    [HttpReply 200 (Some (JObject [(bytes_of_string "result", JString (bytes_of_string "mzQv1c5fatwFw1LoUAp9s8Zt6thzqiCWm2"))]))])
    [] [] 0.

Lemma testnet_commands_fail_witness :
  let c := InitiateCmd (replicate 20 1) 1000 in
  let out := runCommand TestNet3Params true c testnet_start in
  out.1 = Fail (Errorf "getunusedaddress: %v" [FErr ErrUnknownAddressType]) /\
  (forall u, out.1 <> Ret u) /\ True.
Proof.
  split; [vm_compute; reflexivity|].
  eapply (testnet_commands_fail true (fun _ _ => True) (InitiateCmd (replicate 20 1) 1000) testnet_start);
    [done|apply surjective_pairing].
Defined.

(** A reply with one output of a test network address. *)
Definition p2pkh_reply : option json := Some (JArray [JObject
  [(bytes_of_string "address", JString (bytes_of_string "mzQv1c5fatwFw1LoUAp9s8Zt6thzqiCWm2"));
   (bytes_of_string "value", JString (bytes_of_string "0.5"));
   (bytes_of_string "prevout_n", JNumber (bytes_of_string "0"));
   (bytes_of_string "prevout_hash", JString (bytes_of_string "84b175c434d79be5557753bc2222d27fc948673a42a02a7b4e15183b8af1780a"))]]).

Lemma ListUnspent_panics_witness : ListUnspent_Receive p2pkh_reply = Panic (ErrNew "nil pointer dereference").
Proof.
  eapply (ListUnspent_panics p2pkh_reply TestNet3Params
    (AddressPubKeyHash (hexb "cf45fce54ebfcd30681d99fdf060e2ab56478888") 0x6f) []);
    [vm_compute; reflexivity|right; by left| |by vm_compute|vm_compute; reflexivity|vm_compute; reflexivity|by eexists].
  exists (hexb "cf45fce54ebfcd30681d99fdf060e2ab56478888"). split_and!; [decided|done|by left].
Defined.

Lemma call_refines_witness : exists c',
  rtc step (sendCmd NewGetFeeRateCmd (client_of idle_node)) c' /\ nf step c' /\
  calls c' = <[0%nat := Received (Ret (Some (JNumber (bytes_of_string "1000"))))]> ∅ /\ server c' = [].
Proof.
  destruct (call_refines idle_node NewGetFeeRateCmd) as [(c' & Hr & Hnf) Hf].
  exists c'. split; [exact Hr|]. split; [exact Hnf|].
  destruct (Hf c' Hr Hnf) as (Hc & Hs & _). rewrite Hc, Hs. split; vm_compute; reflexivity.
Defined.
