(* ===== verification/Flags.v ===== *)
(** * Command lines: flags and arguments

    Go's package [flag] as the three tools use it (a [FlagSet] that exits on an
    error, parsed twice, before and after the arguments of the command), and
    [checkCmdArgLength], of which each [main.go] holds one copy. Arguments are
    lists of bytes. *)

From S2P Require Import Prelude.

(** ** Flags *)

Section Flags.
(** The values of the flags of a tool. *)
Context {F : Type}.

(** How a flag takes its value: a boolean flag needs none; the others have a
    function that fails on a text they cannot read. *)
Inductive flag_kind :=
  | BoolFlag (set : bool -> F -> F)
  | ValueFlag (set : bytes -> F -> option F).

(** The flags a tool defines. *)
Context (formal : bytes -> option flag_kind).

(** [strconv.ParseBool] *)
Definition ParseBool (s : bytes) : option bool :=
  let eqs := fun l => bool_decide (s ∈ map bytes_of_string l) in
  if eqs ["1"; "t"; "T"; "true"; "TRUE"; "True"]%string then Some true
  else if eqs ["0"; "f"; "F"; "false"; "FALSE"; "False"]%string then Some false
  else None.

(** The name of a flag and the value after the first "=", if any; the sign is
    not looked for at the first byte. *)
Fixpoint cut_value (name : bytes) : bytes * option bytes :=
  match name with
  | [] => ([], None)
  | c :: r => if c =? 61 then ([], Some r) else let '(n, v) := cut_value r in (c :: n, v)
  end.

(** What one argument is: the end of the flags (with the arguments that remain
    from this one on, or after it), a syntax error, or a flag. *)
Inductive flag_arg :=
  | NotFlag
  | Terminator
  | BadFlag
  | FlagArg (name : bytes) (value : option bytes).

Definition classify (s : bytes) : flag_arg :=
  match s with
  | 45 :: c :: r =>
      let name := if c =? 45 then r else c :: r in
      if (c =? 45) && (zlen r =? 0) then Terminator
      else match name with
      | [] => BadFlag
      | c0 :: r0 =>
          if (c0 =? 45) || (c0 =? 61) then BadFlag
          else let '(n, v) := cut_value r0 in FlagArg (c0 :: n) v
      end
  | _ => NotFlag
  end.

(** [(FlagSet).Parse]: the flags and the arguments that remain; [None] when it
    prints a message or the usage and exits with status 2. *)
Fixpoint parse_flags (args : list bytes) (f : F) : option (F * list bytes) :=
  match args with
  | [] => Some (f, [])
  | s :: rest =>
      match classify s with
      | NotFlag => Some (f, args)
      | Terminator => Some (f, rest)
      | BadFlag => None
      | FlagArg name value =>
          match formal name with
          | None => None
          | Some (BoolFlag set) =>
              match value with
              | Some v => b ← ParseBool v; parse_flags rest (set b f)
              | None => parse_flags rest (set true f)
              end
          | Some (ValueFlag set) =>
              match value, rest with
              | Some v, _ => f ← set v f; parse_flags rest f
              | None, v :: rest => f ← set v f; parse_flags rest f
              | None, [] => None
              end
          end
      end
  end.
End Flags.
Arguments flag_kind F : clear implicits.

(** ** Arguments of commands *)

Definition HasPrefixDash (s : bytes) : bool := match s with 45 :: _ => true | _ => false end.

(** The index of the first of the arguments that looks like a flag. *)
Fixpoint first_flag (args : list bytes) (i : nat) : option nat :=
  match args with
  | [] => None
  | arg :: r => if negb (zlen arg =? 1) && HasPrefixDash arg then Some i else first_flag r (S i)
  end.

Definition checkCmdArgLength (args : list bytes) (required : nat) : nat :=
  if (length args <? required)%nat then 0%nat
  else match first_flag (take required args) 0 with
  | Some i => i
  | None => required
  end.

(** The first part of [run] of the three tools: flags, command name, arguments,
    flags again. [cmdArgs] gives the number of arguments of a command, if the
    name is known. *)
Inductive cmdline (F : Type) :=
  | ExitUsage
  | ShowUsage (e : option error)
  | CommandLine (flags : F) (name : bytes) (args : list bytes).
Arguments ExitUsage {F}.
Arguments ShowUsage {F} _.
Arguments CommandLine {F} _ _ _.

Definition parse_cmdline {F} (formal : bytes -> option (flag_kind F)) (cmdArgs : bytes -> option nat)
    (check_flags : F -> outcome unit) (argv : list bytes) (f : F) : cmdline F :=
  match parse_flags formal argv f with
  | None => ExitUsage
  | Some (f, args) =>
      match check_flags f with
      | Fail e | Panic e => ShowUsage (Some e)
      | Ret _ =>
          match args with
          | [] => ShowUsage None
          | name :: args =>
              match cmdArgs name with
              | None => ShowUsage (Some (Errorf "unknown command %v" [FBytes name]))
              | Some n =>
                  let nArgs := checkCmdArgLength args n in
                  match parse_flags formal (drop nArgs args) f with
                  | None => ExitUsage
                  | Some (f, rest) =>
                      if (nArgs <? n)%nat then ShowUsage (Some (Errorf "%s: too few arguments" [FBytes name]))
                      else match rest with
                      | arg :: _ => ShowUsage (Some (Errorf "unexpected argument: %s" [FBytes arg]))
                      | [] => CommandLine f name args
                      end
                  end
              end
          end
      end
  end.

(** A command table, for [cmdArgs]. *)
Fixpoint lookup_command (table : list (string * nat)) (name : bytes) : option nat :=
  match table with
  | [] => None
  | (s, n) :: table => if bool_decide (name = bytes_of_string s) then Some n else lookup_command table name
  end.

(** ** How a tool ends *)

(** The result of [run] and what [main] makes of it: the error and the usage
    text are printed, the exit status is 1 if there is one of them. A failure
    inside package [flag] exits with 2, a panic too. *)
Inductive process_end :=
  | Exited (status : Z) (err : option error) (usage : bool)
  | Crashed (e : error).

Definition main_end (showUsage : bool) (r : outcome unit) : process_end :=
  match r with
  | Panic e => Crashed e
  | Fail e => Exited 1 (Some e) showUsage
  | Ret _ => Exited (if showUsage then 1 else 0) None showUsage
  end.
