(* ===== verification/BtcCli.v ===== *)
(** * The Bitcoin tool from its command line: run and main of cmd/btcatomicswap/main.go

    Flags and arguments become a command, the command runs over the JSON-RPC
    client of [RpcClient], and the process ends with a status. *)

From S2P Require Import Prelude Sha256 Float Json Address Wire Cli Flags BtcSwap BtcCommands Rpc RpcClient.

(** ** Host and port *)

Definition AddrError (why : string) (addr : bytes) : error := Errorf ("address %s: " +:+ why) [FBytes addr].
Definition missingPort : string := "missing port in address".
Definition tooManyColons : string := "too many colons in address".

Definition contains (c : Z) (l : bytes) : bool := existsb (Z.eqb c) l.

(** The index of a byte from the left. *)
Fixpoint byteIndex (c : Z) (l : bytes) : option nat :=
  match l with
  | [] => None
  | x :: r => if x =? c then Some 0%nat else S <$> byteIndex c r
  end.

Definition addrErr {A} (hostport : bytes) (why : string) : outcome A := Fail (AddrError why hostport).

(** [net.SplitHostPort]; 58, 91 and 93 are the colon and the brackets. *)
Definition SplitHostPort (hostport : bytes) : outcome (bytes * bytes) :=
  match Base58.LastIndexByte hostport 58 with
  | None => addrErr hostport missingPort
  | Some i =>
      '(host, j, k) ←
        (if bool_decide (head hostport = Some 91) then
           match byteIndex 93 hostport with
           | None => addrErr hostport "missing ']' in address"%string
           | Some e =>
               if (S e =? length hostport)%nat then addrErr hostport missingPort
               else if (S e =? i)%nat then Ret (take (e - 1) (drop 1 hostport), 1%nat, S e)
               else if bool_decide (hostport !! S e = Some 58) then addrErr hostport tooManyColons
               else addrErr hostport missingPort
           end
         else
           let host := take i hostport in
           if contains 58 host then addrErr hostport tooManyColons else Ret (host, 0%nat, 0%nat));
      if contains 91 (drop j hostport) then addrErr hostport "unexpected '[' in address"%string
      else if contains 93 (drop k hostport) then addrErr hostport "unexpected ']' in address"%string
      else Ret (host, drop (S i) hostport)
  end.

(** [net.JoinHostPort] *)
Definition JoinHostPort (host port : bytes) : bytes :=
  if contains 58 host then [91] ++ host ++ [93; 58] ++ port else host ++ [58] ++ port.

Definition normalizeAddress (addr defaultPort : bytes) : outcome bytes :=
  match SplitHostPort addr with
  | Ret (host, port) => Ret (JoinHostPort host port)
  | Fail origErr | Panic origErr =>
      let addr := JoinHostPort addr defaultPort in
      match SplitHostPort addr with
      | Ret _ => Ret addr
      | Fail _ | Panic _ => Fail origErr
      end
  end.

(** The parameters are one of the two networks, by pointer. *)
Inductive network := MainNet | TestNet3.
Definition params_of (n : network) : Params := match n with MainNet => MainNetParams | TestNet3 => TestNet3Params end.

Definition walletPort (n : network) : bytes :=
  bytes_of_string (match n with MainNet => "8332" | TestNet3 => "18332" end).

(** ** Flags *)

Record flags := mkFlags { connectFlag : bytes; rpcuserFlag : bytes; rpcpassFlag : bytes; testnetFlag : bool; automatedFlag : bool }.

Definition default_flags : flags := mkFlags (bytes_of_string "localhost") [] [] false false.

Definition btc_flag (name : bytes) : option (flag_kind flags) :=
  let eqs := fun s => bool_decide (name = bytes_of_string s) in
  if eqs "s"%string then Some (ValueFlag (fun v f => Some (mkFlags v (rpcuserFlag f) (rpcpassFlag f) (testnetFlag f) (automatedFlag f))))
  else if eqs "rpcuser"%string then Some (ValueFlag (fun v f => Some (mkFlags (connectFlag f) v (rpcpassFlag f) (testnetFlag f) (automatedFlag f))))
  else if eqs "rpcpass"%string then Some (ValueFlag (fun v f => Some (mkFlags (connectFlag f) (rpcuserFlag f) v (testnetFlag f) (automatedFlag f))))
  else if eqs "testnet"%string then Some (BoolFlag (fun b f => mkFlags (connectFlag f) (rpcuserFlag f) (rpcpassFlag f) b (automatedFlag f)))
  else if eqs "automated"%string then Some (BoolFlag (fun b f => mkFlags (connectFlag f) (rpcuserFlag f) (rpcpassFlag f) (testnetFlag f) b))
  else None.

Definition btc_commands : list (string * nat) :=
  [("initiate", 2); ("participate", 3); ("redeem", 3); ("refund", 2); ("extractsecret", 2); ("auditcontract", 2)]%string%nat.

(** ** Commands from arguments *)

(** The address of the counterparty: its hash. [who] is in the messages. *)
Definition parse_counterparty (who : string) (text : bytes) (chainParams : Params) : outcome bytes :=
  addr ← mapErr (fun e => Errorf ("failed to decode " +:+ who +:+ " address: %v") [FErr e]) (DecodeAddress text (Some chainParams));
  _ ← guard_err (negb (IsForNet addr chainParams))
        (Errorf (who +:+ " address is not intended for use on %v") [FStr (Name chainParams)]);
  match addr with
  | AddressPubKeyHash h _ => Ret h
  | _ => Fail (ErrNew (who +:+ " address is not P2PKH"))
  end.

Definition parse_amount (text : bytes) : outcome Z :=
  amountF64 ← mapErr (fun e => Errorf "failed to decode amount: %v" [FErr e]) (ParseFloat text);
  NewAmount amountF64.

Definition parse_secret_hash (text : bytes) : outcome bytes :=
  secretHash ← mapErr (fun _ => ErrNew "secret hash must be hex encoded") (hex_decode text);
  _ ← guard_err (negb (zlen secretHash =? 32)) (ErrNew "secret hash has wrong size");
  Ret secretHash.

Definition parse_hex (what : string) (text : bytes) : outcome bytes :=
  mapErr (fun e => Errorf ("failed to decode " +:+ what +:+ ": %v") [FErr e]) (hex_decode text).

(** Bytes after the transaction are ignored. *)
Definition parse_tx (what : string) (text : bytes) : outcome MsgTx :=
  txBytes ← parse_hex what text;
  '(tx, _) ← mapErr (fun e => Errorf ("failed to decode " +:+ what +:+ ": %v") [FErr e]) (Deserialize txBytes);
  Ret tx.

(** The second [switch] of [run]; the number of arguments was checked. *)
Definition parse_command (name : bytes) (args : list bytes) (chainParams : Params) : outcome command :=
  let arg i := default [] (args !! i) in
  let eqs := fun s => bool_decide (name = bytes_of_string s) in
  if eqs "initiate"%string then
    cp2Addr ← parse_counterparty "participant" (arg 0%nat) chainParams;
    amount ← parse_amount (arg 1%nat);
    Ret (InitiateCmd cp2Addr amount)
  else if eqs "participate"%string then
    cp1Addr ← parse_counterparty "initiator" (arg 0%nat) chainParams;
    amount ← parse_amount (arg 1%nat);
    secretHash ← parse_secret_hash (arg 2%nat);
    Ret (ParticipateCmd cp1Addr amount secretHash)
  else if eqs "redeem"%string then
    contract ← parse_hex "contract" (arg 0%nat);
    contractTx ← parse_tx "contract transaction" (arg 1%nat);
    secret ← parse_hex "secret" (arg 2%nat);
    Ret (RedeemCmd contract contractTx secret)
  else if eqs "refund"%string then
    contract ← parse_hex "contract" (arg 0%nat);
    contractTx ← parse_tx "contract transaction" (arg 1%nat);
    Ret (RefundCmd contract contractTx)
  else if eqs "extractsecret"%string then
    redemptionTx ← parse_tx "redemption transaction" (arg 0%nat);
    secretHash ← parse_secret_hash (arg 1%nat);
    Ret (ExtractSecretCmd redemptionTx secretHash)
  else
    contract ← parse_hex "contract" (arg 0%nat);
    contractTx ← parse_tx "contract transaction" (arg 1%nat);
    Ret (AuditContractCmd contract contractTx).

(** ** run and main *)

Section Run.
Context {S : Type} `{!HttpServer S, !Secp256k1}.

(** The connection of [run]. *)
Definition connConfig (connect : bytes) (f : flags) : ConnConfig :=
  mkConnConfig (string_of_bytes connect) (string_of_bytes (rpcuserFlag f)) (string_of_bytes (rpcpassFlag f))
    true [] "" "" "" true.

(** What the process starts with: the server, the terminal and the clock. *)
Record world := mkWorld { w_server : S; w_stdin : list bytes; w_clock : Z }.

(** The end of the process, the lines it printed (newest first), the server. *)
Definition run (argv : list bytes) (w : world) : process_end * list (string * list farg) * S :=
  match parse_cmdline btc_flag (lookup_command btc_commands) (fun _ => Ret tt) argv default_flags with
  | ExitUsage => (Exited 2 None true, [], w_server w)
  | ShowUsage e => (Exited 1 e true, [], w_server w)
  | CommandLine f name args =>
      let chain := if testnetFlag f then TestNet3 else MainNet in
      let chainParams := params_of chain in
      match parse_command name args chainParams with
      | Fail e => (Exited 1 (Some e) true, [], w_server w)
      | Panic e => (Crashed e, [], w_server w)
      | Ret c =>
          match offlineCommand (N := S) chainParams (automatedFlag f) c with
          | Some m =>
              let '(r, e) := m (mkEnv (w_server w) (w_stdin w) [] (w_clock w)) in
              (main_end false r, stdout e, node e)
          | None =>
              match normalizeAddress (connectFlag f) (walletPort chain) with
              | Fail e | Panic e => (Exited 1 (Some (Errorf "wallet server address: %v" [FErr e])) true, [], w_server w)
              | Ret connect =>
                  match newHTTPClient (S := S) (connConfig connect f) with
                  | Fail e | Panic e => (Exited 1 (Some (Errorf "rpc connect: %v" [FErr e])) false, [], w_server w)
                  | Ret http =>
                      let client := mkNode 0 (connConfig connect f) http (w_server w) in
                      let '(r, e) := runCommand chainParams (automatedFlag f) c
                                       (mkEnv client (w_stdin w) [] (w_clock w)) in
                      (main_end false r, stdout e, node_server (node e))
                  end
              end
          end
      end
  end.
End Run.
Arguments world : clear implicits.
