(* ===== verification/BtcCliTheorems.v ===== *)
(** * The Bitcoin tool as a process

    What a run of the program does to the wallet's server, from the command
    line to the exit: the theorems of [BtcTheorems] over the JSON-RPC client,
    and the address of the server. *)

From S2P Require Import Prelude Sha256 Float Json BigEndian Ripemd160 Base58 Address AddressTheorems Vectors Wire WireTheorems SwapContract SwapTheorems Engine P2shTheorems Cli Flags BtcSwap BtcCommands BtcTheorems BtcSim Rpc RpcClient RpcClientTheorems RpcTheorems BtcCli.

#[local] Opaque sha256.

(** ** Arguments *)

Lemma fromHexChar_range c d : fromHexChar c = Some d -> 0 <= d < 16.
Proof. unfold fromHexChar. repeat case_match; intros [= <-]; lia. Qed.

Lemma hex_decode_ok l b : hex_decode l = Ret b -> bytes_ok b.
Proof.
  revert b. induction l as [[|c1 [|c2 l]] IH] using (induction_ltof1 _ length); intros b; cbn [hex_decode].
  - intros [= <-]. constructor.
  - by destruct (fromHexChar c1).
  - destruct (fromHexChar c1) as [x|] eqn:H1; [|done]. destruct (fromHexChar c2) as [y|] eqn:H2; [|done].
    destruct (hex_decode l) as [r|e|e] eqn:E; [|done..]. cbn [mbind outcome_bind]. intros [= <-].
    pose proof (fromHexChar_range _ _ H1). pose proof (fromHexChar_range _ _ H2). constructor; [unfold is_byte; lia|]. apply (IH l); [unfold ltof; cbn; lia|done].
Qed.

Lemma parse_counterparty_ok who s net h : parse_counterparty who s net = Ret h -> hash_ok 20 h.
Proof.
  unfold parse_counterparty. intros H. go_inv H.
  match goal with H : match ?a with _ => _ end = Ret _ |- _ => destruct a; try done end. go_inv H.
  match goal with H : DecodeAddress _ _ = Ret _ |- _ => apply decoded_P2PKH in H as (_ & ? & ?) end. by split.
Qed.

Lemma parse_secret_hash_ok s h : parse_secret_hash s = Ret h -> hash_ok 32 h.
Proof.
  unfold parse_secret_hash. intros H. go_inv H.
  match goal with H : negb (_ =? _) = false |- _ => apply negb_false_iff, Z.eqb_eq in H end.
  match goal with H : hex_decode _ = Ret _ |- _ => apply hex_decode_ok in H end. by split.
Qed.

Lemma parse_tx_ok what s tx : parse_tx what s = Ret tx -> Forall (fun o => bytes_ok (PkScript o)) (TxOuts tx).
Proof.
  unfold parse_tx, parse_hex. intros H. go_inv H.
  match goal with H : hex_decode _ = Ret _ |- _ => apply hex_decode_ok in H; rename H into Hb end.
  match goal with H : Deserialize _ = Ret ?p |- _ => destruct p as [tx' rest]; apply yields_tx in H as [(_ & _ & _ & _ & Ho & _) _]; [|done] end.
  injection H as ->.
  eapply Forall_impl; [exact Ho|]. intros o [_ [? _]]. done.
Qed.

Lemma parse_command_ok name args net c : parse_command name args net = Ret c -> command_ok c.
Proof.
  unfold parse_command. cbv zeta.
  repeat match goal with |- (if ?b then _ else _) = _ -> _ => destruct b end; intros H; go_inv H; cbn [command_ok];
    eauto using parse_counterparty_ok, parse_secret_hash_ok, parse_tx_ok.
Qed.

(** ** Reading arguments does not panic *)

Definition no_panic {A} (o : outcome A) : Prop := forall e, o <> Panic e.

Lemma no_panic_bind {A B} (o : outcome A) (f : A -> outcome B) : no_panic o -> (forall a, no_panic (f a)) -> no_panic (o ≫= f).
Proof. intros Ho Hf e. destruct o as [a|e'|e']; [apply Hf|done|by edestruct Ho]. Qed.
Lemma no_panic_mapErr {A} g (o : outcome A) : no_panic o -> no_panic (mapErr g o).
Proof. intros Ho e. destruct o as [a|e'|e']; [done|done|by edestruct Ho]. Qed.
Lemma no_panic_guard b e : no_panic (guard_err b e).
Proof. by destruct b. Qed.
Lemma no_panic_option {A} e (o : option A) : no_panic (of_option e o).
Proof. by destruct o. Qed.
Lemma no_panic_read {A B} (m : reader A) (f : A -> reader B) s :
  (forall s, no_panic (m s)) -> (forall a s, no_panic (f a s)) -> no_panic ((m ≫= f) s).
Proof.
  intros Hm Hf e. unfold mbind, reader_bind. specialize (Hm s). destruct (m s) as [[a s']|e'|e']; [apply Hf|done|by edestruct Hm].
Qed.

Ltac calm := repeat match goal with
  | |- no_panic (Ret _) => done
  | |- no_panic (Fail _) => done
  | |- no_panic ((_ ≫= _) _) => apply no_panic_read; [intros ?|intros ? ?]
  | |- no_panic (_ ≫= _) => apply no_panic_bind; [|intros ?]
  | |- no_panic (mapErr _ _) => apply no_panic_mapErr
  | |- no_panic (guard_err _ _) => apply no_panic_guard
  | |- no_panic (of_option _ _) => apply no_panic_option
  | |- no_panic (mret _ _) => done
  | |- no_panic (rfail _ _) => done
  | |- no_panic (if ?b then _ else _) => destruct b
  | |- no_panic ((if ?b then _ else _) _) => destruct b
  | |- no_panic (match ?x with _ => _ end) => destruct x
  | |- no_panic ((match ?x with _ => _ end) _) => destruct x
  end.

Lemma hex_decode_calm l : no_panic (hex_decode l).
Proof.
  induction l as [[|c1 [|c2 l]] IH] using (induction_ltof1 _ length); cbn [hex_decode]; calm.
  apply IH. unfold ltof. cbn. lia.
Qed.

Lemma readScript_calm max name s : no_panic (readScript max name s).
Proof. unfold readScript, ReadVarInt, read_varint_min, read_uint, ReadFull. calm. Qed.
Lemma read_n_calm {A} n (r : reader A) s : (forall s, no_panic (r s)) -> no_panic (read_n n r s).
Proof. intros Hr. revert s. induction n as [|n IH]; intros s; cbn [read_n]; calm; auto. Qed.
Lemma readTxWitness_calm s : no_panic (readTxWitness s).
Proof.
  unfold readTxWitness, ReadVarInt, read_varint_min, read_uint, ReadFull. calm.
  apply read_n_calm. intros. apply readScript_calm.
Qed.
Lemma read_witnesses_calm ins s : no_panic (read_witnesses ins s).
Proof. revert s. induction ins as [|i ins IH]; intros s; cbn [read_witnesses]; calm; auto using readTxWitness_calm. Qed.

Lemma Deserialize_calm s : no_panic (Deserialize s).
Proof.
  unfold Deserialize, readTxInCount, ReadVarInt, read_varint_min, read_uint, ReadFull. calm;
    auto using read_witnesses_calm; apply read_n_calm; intros;
    unfold readTxIn, readTxOut, readOutPoint, read_uint, ReadFull; calm; auto using readScript_calm.
Qed.

Lemma bech32_Decode_calm s : no_panic (bech32_Decode s).
Proof.
  assert (forall l, no_panic (toBytes l)) as Hb by (induction l; cbn [toBytes]; calm; auto).
  unfold bech32_Decode. calm; auto.
Qed.

Lemma DecodeAddress_calm s net : no_panic (DecodeAddress s (Some net)).
Proof.
  unfold DecodeAddress, decode_witness, decodeSegWitAddress, ConvertBits, newAddressWitnessPubKeyHash, newAddressWitnessScriptHash,
    NewAddressPubKey, ParsePubKey, decompressPoint, decode_base58, CheckDecode, newAddressPubKeyHash, newAddressScriptHashFromHash.
  calm; auto using bech32_Decode_calm, hex_decode_calm.
Qed.

Lemma parse_command_calm name args net : no_panic (parse_command name args net).
Proof.
  unfold parse_command, parse_counterparty, parse_amount, ParseFloat, NewAmount, parse_secret_hash, parse_tx, parse_hex.
  calm; auto using DecodeAddress_calm, hex_decode_calm, Deserialize_calm.
Qed.

(** ** The arguments of a command *)

Definition looks_like_flag (arg : bytes) : bool := negb (zlen arg =? 1) && HasPrefixDash arg.

Lemma first_flag_spec args k : match first_flag args k with
  | Some i => exists j arg, i = (k + j)%nat /\ args !! j = Some arg /\ looks_like_flag arg = true /\
                Forall (fun a => looks_like_flag a = false) (take j args)
  | None => Forall (fun a => looks_like_flag a = false) args
  end.
Proof.
  revert k. induction args as [|arg args IH]; intros k; cbn [first_flag]; [constructor|]. fold (looks_like_flag arg).
  destruct (looks_like_flag arg) eqn:Ha.
  - exists 0%nat, arg. split_and!; [lia|done|done|constructor].
  - specialize (IH (S k)). destruct (first_flag args (S k)) as [i|]; [|by constructor].
    destruct IH as (j & a & -> & ? & ? & ?). exists (S j), a. split_and!; [lia|done|done|by constructor].
Qed.

(** [checkCmdArgLength] counts the arguments before the first flag. It returns
    the required number exactly when there are so many arguments and none of them
    looks like a flag (a dash alone does not); otherwise it returns the position
    of the first flag among them, or 0 when there are too few. *)
Theorem checkCmdArgLength_spec args required :
  let k := checkCmdArgLength args required in
  (k <= required)%nat /\
  (k = required <-> required = 0%nat \/
     (required <= length args)%nat /\ Forall (fun a => looks_like_flag a = false) (take required args)) /\
  (k <> required -> (length args < required)%nat /\ k = 0%nat \/
     exists arg, args !! k = Some arg /\ looks_like_flag arg = true /\ Forall (fun a => looks_like_flag a = false) (take k args)).
Proof.
  unfold checkCmdArgLength. cbv zeta. destruct (Nat.ltb_spec (length args) required) as [Hl|Hl].
  { split; [lia|]. split; [split; [lia|intros [->|[? _]]; lia]|]. intros _. by left. }
  pose proof (first_flag_spec (take required args) 0) as H. destruct (first_flag (take required args) 0) as [i|].
  - destruct H as (j & arg & -> & Hj & Ha & Hf). change (0 + j)%nat with j.
    apply lookup_take_Some in Hj as [Hj Hjr]. rewrite take_take, Nat.min_l in Hf by lia.
    split; [lia|]. split; [split; [lia|]|].
    + intros [->|[_ Hall]]; [lia|]. eapply Forall_lookup_1 in Hall; [|by apply lookup_take_Some]. congruence.
    + intros _. right. by exists arg.
  - split; [lia|]. split; [split; [by right|done]|done].
Qed.

(** ** The wallet behind the client *)

(** The method a request names. *)
Definition request_method (j : json) : option bytes :=
  match j with
  | JObject fields =>
      match List.find (fun f => bool_decide (f.1 = bytes_of_string "method")) fields with
      | Some (_, JString s) => Some s
      | _ => None
      end
  | _ => None
  end.

(** [R] holds across every exchange with the server but that of [broadcast]. *)
Class ServerReadsKeep {S} `{!HttpServer S} (R : S -> S -> Prop) : Prop := {
  keep_http r s : request_method (hr_Body r) <> Some (bytes_of_string "broadcast") -> R s (http_Do r s).2;
  keep_system n s : R s (os_random n s).2 }.

Section Process.
Context {S : Type} `{!HttpServer S} {curve : Secp256k1}.

Lemma MarshalCmd_method i cmd j : MarshalCmd init (IdInt i) cmd = Ret j ->
  exists m named, CmdMethod init (cmd_type cmd) = Ret (m, named) /\ request_method j = Some (bytes_of_string m).
Proof.
  unfold MarshalCmd. destruct (CmdMethod init (cmd_type cmd)) as [[m named]|e|e]; [|done..]. cbn [mbind outcome_bind].
  destruct (cmd_fields cmd) as [fields|]; [|done]. cbn [of_option mbind outcome_bind].
  destruct named; intros [= <-]; by eexists _, _.
Qed.

Context (R : S -> S -> Prop) `{!PreOrder R, !ServerReadsKeep R}.
Definition node_keep (n n' : rpc_node S) : Prop := R (node_server n) (node_server n').

#[export] Instance node_keep_preorder : PreOrder node_keep.
Proof. split; [intros n; unfold node_keep; done|intros n1 n2 n3; unfold node_keep; intros; by etransitivity]. Qed.

(** A call of a command other than [broadcast]. *)
Lemma call_keeps cmd n m named :
  CmdMethod init (cmd_type cmd) = Ret (m, named) -> bytes_of_string m <> bytes_of_string "broadcast" -> node_keep n (call cmd n).2.
Proof.
  intros Hm Hne. unfold call, node_keep. destruct (sendCmd_request (client_of n) cmd) as [[j|e|e] i] eqn:E; [|done..].
  destruct (http_Do _ _) as [h s'] eqn:Hdo. cbn. assert (s' = (h, s').2) as -> by done. rewrite <-Hdo. apply keep_http.
  unfold sendCmd_request in E. rewrite Hm in E.
  destruct (MarshalCmd _ _ _) as [body|e|e] eqn:Hb; [|done..]. cbn [mbind outcome_bind] in E. injection E as <- _.
  cbn. apply MarshalCmd_method in Hb as (m' & named' & Hm' & ->). rewrite Hm in Hm'. injection Hm' as -> _.
  intros Heq. apply Hne. by injection Heq.
Qed.

Lemma method_keeps {A} cmd (receive : option json -> outcome A) n m named :
  CmdMethod init (cmd_type cmd) = Ret (m, named) -> bytes_of_string m <> bytes_of_string "broadcast" -> node_keep n (rpc_method cmd receive n).2.
Proof.
  intros Hm Hne. unfold rpc_method. pose proof (call_keeps cmd n m named Hm Hne) as H.
  by destruct (call cmd n).
Qed.

#[export] Instance rpc_keeps : WalletReadsKeep node_keep.
Proof.
  split; intros; cbn [GetUnusedAddress DumpPrivKey GetFeeRate PayTo ListUnspent crypto_rand_Read rpc_wallet];
    try (eapply method_keeps; [vm_compute; reflexivity|discriminate]).
  pose proof (keep_system k (node_server n)) as H. unfold node_keep. by destruct (os_random k (node_server n)).
Qed.

#[export] Instance rpc_typed : WalletTyped (N := rpc_node S).
Proof.
  intros n h id n'. cbn [GetUnusedAddress rpc_wallet]. unfold Client_GetUnusedAddress, rpc_method. destruct (call _ n) as [r n1].
  intros H. assert (r ≫= GetUnusedAddress_Receive = Ret (AddressPubKeyHash h id)) as E by (by injection H).
  unfold GetUnusedAddress_Receive in E. go_inv E.
  match goal with H : DecodeAddress _ _ = Ret _ |- _ => apply decoded_P2PKH in H as (_ & ? & ?) end. by split.
Qed.

(** ** Runs of the program *)

Definition chain_of (f : flags) : Params := params_of (if testnetFlag f then TestNet3 else MainNet).

(** The command that the arguments stand for. *)
Definition command_of (argv : list bytes) (f : flags) (c : command) : Prop :=
  exists name args, parse_cmdline btc_flag (lookup_command btc_commands) (fun _ => Ret tt) argv default_flags = CommandLine f name args /\
    parse_command name args (chain_of f) = Ret c.

(** One transaction is sent, after the consent of the user, when it is ready. *)
Definition process_sends (argv : list bytes) (w : world S) (s' : S) : Prop :=
  exists f c tx n, command_of argv f c /\ ready (N := rpc_node S) (w_clock w) c tx /\
    (automatedFlag f = true \/ Exists (fun line => read_answer line = Some true) (w_stdin w)) /\
    R (w_server w) (node_server n) /\ R (node_server (SendRawTransaction tx n).2) s'.

(** C4: What a run of the program does to the wallet. Whatever the arguments, the
    answers typed and the replies of the server, and however the process ends:
    the server sees no [broadcast], or exactly one, of a transaction that is ready
    for the command the arguments stand for (its refund is built and accepted, or
    it is itself accepted by the script engine), with a line that says yes or
    with the flag [-automated]; nothing is broadcast before or after. *)
Theorem run_publishes argv w exit out s' :
  0 <= w_clock w < 2 ^ 63 -> run argv w = (exit, out, s') -> R (w_server w) s' \/ process_sends argv w s'.
Proof.
  intros Hclock. unfold run.
  destruct (parse_cmdline _ _ _ argv default_flags) as [|e|f name args] eqn:Hargs;
    [intros [= _ _ <-]; by left|intros [= _ _ <-]; by left|].
  destruct (parse_command name args _) as [c|e|e] eqn:Hc; [|intros [= _ _ <-]; by left..].
  destruct (offlineCommand (N := S) _ _ c) as [m|] eqn:Hoff.
  { destruct (m _) as [r e] eqn:Hm. intros [= _ _ <-]. left.
    by apply (keeps_offline R _ _ _ _ Hoff) in Hm as [Hm _]. }
  destruct (normalizeAddress _ _) as [connect|e|e]; [|intros [= _ _ <-]; by left..].
  destruct (newHTTPClient _) as [http|e|e]; [|intros [= _ _ <-]; by left..].
  destruct (runCommand _ _ c _) as [r e] eqn:Hrun. intros [= _ _ <-].
  apply (btc_commands_publish_by _ _ node_keep) in Hrun; [|by eapply parse_command_ok|done].
  destruct Hrun as [Hrun|(tx & n & Hready & H1 & H2 & Hyes)]; [by left|]. right.
  exists f, c, tx, n. split; [by exists name, args|]. by split_and!.
Qed.
End Process.

(** The usage is shown, and nothing else happened. *)
Definition usage_only {S} (w : world S) (exit : process_end) (out : list (string * list farg)) (s' : S) : Prop :=
  (exists e, exit = Exited 1 e true \/ exit = Exited 2 None true) /\ out = [] /\ s' = w_server w.

(** The command of the arguments ran, over the server or offline. *)
Definition command_ran {S} `{!HttpServer S} {curve : Secp256k1} (argv : list bytes) (w : world S)
    (exit : process_end) (out : list (string * list farg)) (s' : S) : Prop :=
  exists f c r, command_of argv f c /\ exit = main_end false r /\
    match offlineCommand (N := S) (chain_of f) (automatedFlag f) c with
    | Some m => exists e, m (mkEnv (w_server w) (w_stdin w) [] (w_clock w)) = (r, e) /\ out = stdout e /\ s' = node e
    | None => exists connect http e,
        normalizeAddress (connectFlag f) (walletPort (if testnetFlag f then TestNet3 else MainNet)) = Ret connect /\
        runCommand (chain_of f) (automatedFlag f) c
          (mkEnv (mkNode 0 (connConfig connect f) http (w_server w)) (w_stdin w) [] (w_clock w)) = (r, e) /\
        out = stdout e /\ s' = node_server (node e)
    end /\
    (exit = Exited 0 None false <-> r = Ret tt) /\ ((exists e, exit = Crashed e) <-> exists e, r = Panic e).

(** C39: How a run ends. When the arguments or flags are wrong, the process prints
    the usage and exits with status 1 (2 for the flags), and it has printed
    nothing else and asked the server nothing; reading them never crashes it.
    Otherwise the command they stand for ran, over the server at the connection
    address or offline, and the status is 0 exactly when it returned without an
    error; the process crashes only when the command panics. *)
Theorem run_ends {S} `{!HttpServer S} {curve : Secp256k1} argv (w : world S) exit out s' :
  run argv w = (exit, out, s') -> usage_only w exit out s' \/ command_ran argv w exit out s'.
Proof.
  assert (forall r, (main_end false r = Exited 0 None false <-> r = Ret tt) /\
    ((exists e, main_end false r = Crashed e) <-> exists e, r = Panic e)) as Hend.
  { intros [[]|e|e]; cbn; split; split; try done; try (intros [e' [=]]); eauto. }
  unfold run.
  destruct (parse_cmdline _ _ _ argv default_flags) as [|e|f name args] eqn:Hargs;
    [intros [= <- <- <-]; left; by split; [exists None; right|]|intros [= <- <- <-]; left; by split; [exists e; left|]|].
  pose proof (parse_command_calm name args (chain_of f)) as Hcalm. fold (chain_of f).
  destruct (parse_command name args (chain_of f)) as [c|e|e] eqn:Hc;
    [|intros [= <- <- <-]; left; by split; [exists (Some e); left|]|by edestruct Hcalm].
  destruct (offlineCommand (N := S) _ _ c) as [m|] eqn:Hoff.
  { destruct (m _) as [r e] eqn:Hm. intros [= <- <- <-]. right. exists f, c, r.
    split; [by exists name, args|]. split; [done|]. split; [|apply Hend]. rewrite Hoff. by exists e. }
  destruct (normalizeAddress _ _) as [connect|e|e] eqn:Hn;
    [|intros [= <- <- <-]; left; (by split; [eexists; left|])..].
  destruct (newHTTPClient _) as [http|e|e] eqn:Hh; [|done..].
  destruct (runCommand _ _ c _) as [r e] eqn:Hrun. intros [= <- <- <-]. right. exists f, c, r.
  split; [by exists name, args|]. split; [done|]. split; [|apply Hend]. rewrite Hoff.
  by exists connect, http, e.
Qed.

(** ** A run of the program *)

(** A server with prepared replies that notes what is broadcast. *)
Record scripted := mkScripted { replies : list http_result; broadcasts : list json }.

#[export] Instance scripted_server : HttpServer scripted := {|
  url_Parse s := Ret s;
  http_Do r s :=
    let log := if bool_decide (request_method (hr_Body r) = Some (bytes_of_string "broadcast"))
               then hr_Body r :: broadcasts s else broadcasts s in
    match replies s with
    | h :: l => (h, mkScripted l log)
    | [] => (HttpError (ErrNew "EOF"), mkScripted [] log)
    end;
  os_random n s := (Ret (replicate n 7), s) |}.

Definition same_broadcasts (s s' : scripted) : Prop := broadcasts s = broadcasts s'.
#[export] Instance same_broadcasts_preorder : PreOrder same_broadcasts.
Proof. split; [done|]. intros s1 s2 s3. unfold same_broadcasts. congruence. Qed.
#[export] Instance scripted_keeps : ServerReadsKeep same_broadcasts.
Proof.
  split; [|done]. intros r s Hr. unfold same_broadcasts. cbn [http_Do scripted_server].
  rewrite bool_decide_false by done. by destruct (replies s).
Qed.

Definition result (j : json) : http_result := HttpReply 200 (Some (JObject [(bytes_of_string "result", j)])).
Definition text (s : string) : json := JString (bytes_of_string s).

(** [initiate] for the key of the published swap, at a fixed time: the wallet's
    own address and key, the payment of the contract, its unspent output. *)
Definition run_clock : Z := 1571400000 * 10 ^ 9.
Definition run_contract : bytes := Eval vm_compute in
  match atomicSwapContract sim_pkh Walkthrough.pkh ((run_clock + timings_LockTime) / 10 ^ 9) (sha256 (replicate 32 7)) with
  | Ret c => c | _ => [] end.
Definition run_payment : MsgTx :=
  mkMsgTx 2 [NewTxIn (mkOutPoint (replicate 32 9) 1) [] []] [mkTxOut 100000 (p2sh_bytes (Hash160 run_contract))] 0.
Definition own_address : json := JString (EncodeAddress (AddressPubKeyHash sim_pkh 0)).
Definition run_replies : list http_result :=
  [result own_address; result (JNumber (bytes_of_string "10000"));
   result (JObject [(bytes_of_string "complete", JBool true); (bytes_of_string "hex", JString (hex_encode (Serialize run_payment)))]);
   result (JArray [JObject
     [(bytes_of_string "address", text "BC1QW508D6QEJXTDG4Y5R3ZARVARY0C5XW7KV8F3T4"); (bytes_of_string "value", text "0.00101");
      (bytes_of_string "prevout_n", JNumber (bytes_of_string "1"));
      (bytes_of_string "prevout_hash", JString (hex_encode (replicate 32 9)))]]);
   result own_address;
   result (JString (bytes_of_string "p2pkh:" ++ CheckEncode (be_put 32 sim_key ++ [1]) 0x80));
   result (JString (hex_encode (reverse (TxHash run_payment))))].

Definition run_argv : list bytes :=
  [bytes_of_string "initiate"; EncodeAddress (AddressPubKeyHash Walkthrough.pkh 0); bytes_of_string "0.001"].
Definition run_world : world scripted := mkWorld (mkScripted run_replies []) [bytes_of_string "y"] run_clock.

Lemma run_publishes_witness :
  let end_ := run run_argv run_world in
  (end_.1.1 = Exited 0 None false /\ length (broadcasts end_.2) = 1%nat) /\
  (same_broadcasts (w_server run_world) end_.2 \/ process_sends same_broadcasts run_argv run_world end_.2).
Proof.
  split; [split; vm_compute; reflexivity|].
  eapply (run_publishes same_broadcasts run_argv run_world); [split; [discriminate|reflexivity]|].
  rewrite (surjective_pairing (run run_argv run_world)) at 1.
  rewrite (surjective_pairing (run run_argv run_world).1) at 1. reflexivity.
Defined.

(** The whole of [extractsecret] on the published redemption. *)
Lemma run_ends_witness :
  let argv := [bytes_of_string "extractsecret"; hex_encode Walkthrough.redeemTxBytes; hex_encode Walkthrough.secretHash] in
  let end_ := run argv run_world in
  end_.1 = (Exited 0 None false, [("Secret: %x\n"%string, [FBytes Walkthrough.secret])]) /\
  (usage_only run_world end_.1.1 end_.1.2 end_.2 \/ command_ran argv run_world end_.1.1 end_.1.2 end_.2).
Proof.
  intros argv. split; [vm_compute; reflexivity|].
  apply (run_ends argv run_world). by destruct (run argv run_world) as [[exit out] s'].
Defined.
