(* ===== verification/EthAmount.v ===== *)
(** * Ether amounts on the command line: cmd/ethatomicswap/main.go

    [parseEthAsWei] and [formatWeiAsEthString], the exact set of decimal
    numbers accepted with the amount they stand for, and the round trip
    between the two functions. *)

From S2P Require Import Prelude Decimal.

(** ** Definitions *)

Definition weiPrecision : Z := 18.

(** The [switch i.Cmp(big.NewInt(0))] of [parseEthAsWei]. *)
Definition check_positive (i : Z) : outcome unit :=
  match i ?= 0 with
  | Lt => Fail (ErrNew "invalid round amount: cannot be negative")
  | Eq => Fail (ErrNew "invalid round amount: cannot be nil")
  | Gt => Ret tt
  end.

Definition parseEthAsWei (str : bytes) : outcome Z :=
  match split_dot str with
  | (whole, None) =>
      i ← of_option (ErrNew "invalid round amount") (SetString10 whole);
      _ ← check_positive i;
      Ret (i * 10 ^ weiPrecision)
  | (whole, Some dac) =>
      let l := zlen dac in
      let sn := if l <? weiPrecision then l else weiPrecision in
      let whole := whole ++ take (Z.to_nat sn) dac in
      let dac := drop (Z.to_nat sn) dac in
      _ ← guard_err (existsb (fun c => negb (c =? 48)) dac) (ErrNew "invalid or too precise amount");
      i ← of_option (ErrNew "invalid amount") (SetString10 whole);
      _ ← check_positive i;
      let i := i * 10 ^ (weiPrecision - sn) in
      _ ← check_positive i;
      Ret i
  end.

Definition formatWeiAsEthString (w : Z) : bytes :=
  if w =? 0 then [48] else
  let str := Int_String w in
  let l := zlen str in
  if weiPrecision <? l then
    let idx := Z.to_nat (l - weiPrecision) in
    let str := TrimRight 48 (take idx str ++ [46] ++ drop idx str) in
    let str := TrimRight 46 str in
    if zlen str =? 0 then [48] else str
  else
    let str := [48; 46] ++ replicate (Z.to_nat (weiPrecision - l)) 48 ++ str in
    let str := TrimRight 48 str in
    TrimRight 46 str.

(** ** The amounts of cmd/ethatomicswap/main_test.go *)

Example parse_main_test :
  map (fun s => match parseEthAsWei (bytes_of_string s) with Ret w => Some w | _ => None end)
    ["-0"; "0"; "-123"; "0.0000000000000000001"; "1"; "1.1"; "1.123"; "0.001";
     "0.000000000000000001"; "123456789.987654321"; "0.00100"; "0001"; "0001.100"]%string
  = [None; None; None; None; Some 1000000000000000000; Some 1100000000000000000;
     Some 1123000000000000000; Some 1000000000000000; Some 1;
     Some 123456789987654321000000000; Some 1000000000000000; Some 1000000000000000000;
     Some 1100000000000000000].
Proof. vm_compute. reflexivity. Qed.

Example format_main_test :
  map (fun w => string_of_bytes (formatWeiAsEthString w))
    [1000000000000000000; 1100000000000000000; 1000000000000000; 1; 123456789987654321000000000]
  = ["1"; "1.1"; "0.001"; "0.000000000000000001"; "123456789.987654321"]%string.
Proof. vm_compute. reflexivity. Qed.

(** A sign after the dot is taken as the sign of the whole amount. *)
Example parse_sign_after_dot : parseEthAsWei (bytes_of_string ".+5") = Ret 50000000000000000.
Proof. vm_compute. reflexivity. Qed.

(** ** Helper lemmas *)

Lemma check_positive_Ret i u : check_positive i = Ret u <-> 0 < i.
Proof. unfold check_positive. destruct u, (Z.compare_spec i 0); split; (lia || done). Qed.

Lemma existsb_not_zero l : existsb (fun c => negb (c =? 48)) l = false <-> Forall (fun c => c = 48) l.
Proof.
  induction l as [|c l IH]; simpl; [split; [constructor|done]|].
  rewrite Forall_cons, <-IH, orb_false_iff, negb_false_iff, Z.eqb_eq. done.
Qed.

Lemma zlen_take_drop {A} (n : nat) (l : list A) : zlen (take n l) + zlen (drop n l) = zlen l.
Proof. by rewrite <-zlen_app, take_drop. Qed.

(** The two branches of [parseEthAsWei] on digit strings. *)
Lemma parse_whole whole w : digits_ok whole -> whole <> [] ->
  parseEthAsWei whole = Ret w <-> w = digits_value whole * 10 ^ 18 /\ 0 < w.
Proof.
  intros H Hne. unfold parseEthAsWei. rewrite split_dot_digits, SetString10_digits by done.
  cbn [of_option mbind outcome_bind]. unfold weiPrecision.
  destruct (check_positive (digits_value whole)) as [u|e|e] eqn:E; cbn [mbind outcome_bind];
    pose proof (check_positive_Ret (digits_value whole) tt) as P; rewrite E in P.
  - destruct u. assert (0 < digits_value whole) by (by apply P). split; [intros [= <-]; lia|intros [-> _]; done].
  - split; [done|intros [-> ?]]. assert (0 < digits_value whole) as Hp by lia. by apply P in Hp.
  - split; [done|intros [-> ?]]. assert (0 < digits_value whole) as Hp by lia. by apply P in Hp.
Qed.

Lemma parse_fraction whole frac w : digits_ok whole -> digits_ok frac -> whole ++ frac <> [] ->
  let sn := Z.min (zlen frac) 18 in
  let front := take (Z.to_nat sn) frac in
  let back := drop (Z.to_nat sn) frac in
  parseEthAsWei (whole ++ [46] ++ frac) = Ret w
    <-> digits_value back = 0 /\ w = digits_value (whole ++ front) * 10 ^ (18 - sn) /\ 0 < w.
Proof.
  intros Hw Hf Hne sn front back. unfold parseEthAsWei. simpl app.
  rewrite split_dot_app by done. cbv zeta.
  replace (if zlen frac <? weiPrecision then zlen frac else weiPrecision) with sn
    by (unfold sn, weiPrecision; destruct (Z.ltb_spec (zlen frac) 18); lia).
  fold front back. change weiPrecision with 18.
  assert (digits_ok front) by (by apply Forall_take).
  assert (digits_ok back) by (by apply Forall_drop).
  assert (whole ++ front <> []) as Hne'.
  { destruct whole; [|done]. simpl in *. unfold front. destruct frac; [done|].
    intros E%(f_equal length). rewrite length_take in E. unfold sn, zlen in E. cbn [length] in E. lia. }
  rewrite SetString10_digits by (done || by apply Forall_app).
  rewrite digits_value_0 by done. rewrite <-existsb_not_zero.
  assert (0 < 10 ^ (18 - sn)) by lia.
  set (V := digits_value (whole ++ front)) in *.
  split.
  - intros Hp. go_inv Hp. repeat match goal with u : unit |- _ => destruct u end.
    rewrite !check_positive_Ret in *. done.
  - intros (-> & -> & Hp). cbn [guard_err mbind outcome_bind of_option].
    assert (0 < V) as HV by nia.
    apply (check_positive_Ret _ tt) in Hp, HV. by rewrite HV; cbn [mbind outcome_bind]; rewrite Hp.
Qed.

(** ** What is accepted *)

(** [parseEthAsWei] reads decimal numbers exactly: an integer [whole] is
    accepted with the amount [w] if and only if [w] is positive and is 10^18
    times the number, and a decimal fraction [whole.frac] is accepted with the
    amount [w] if and only if [w] is positive and is 10^18 times
    [whole + frac / 10^(digits of frac)] (so a fraction finer than one wei is
    refused, while trailing zeros beyond the 18th digit are fine). *)
Theorem parseEthAsWei_spec whole frac w : digits_ok whole -> digits_ok frac -> whole <> [] ->
  (parseEthAsWei whole = Ret w <-> w = digits_value whole * 10 ^ 18 /\ 0 < w)
  /\ (parseEthAsWei (whole ++ [46] ++ frac) = Ret w
      <-> w * 10 ^ zlen frac = (digits_value whole * 10 ^ zlen frac + digits_value frac) * 10 ^ 18
          /\ 0 < w).
Proof.
  intros Hw Hf Hne. split; [by apply parse_whole|].
  rewrite parse_fraction by (done || by destruct whole). cbv zeta.
  remember (Z.min (zlen frac) 18) as sn eqn:Esn.
  pose proof (take_drop (Z.to_nat sn) frac) as Efrac. revert Efrac.
  set (front := take (Z.to_nat sn) frac). set (back := drop (Z.to_nat sn) frac). intros Efrac.
  assert (digits_ok back) as Hb by (by apply Forall_drop).
  assert (zlen front = sn) as Hl by (unfold front, zlen; rewrite length_take; unfold zlen in Esn; lia).
  pose proof (digits_value_range back Hb). pose proof (zlen_nonneg back). pose proof (zlen_nonneg frac).
  assert (digits_value frac = digits_value front * 10 ^ zlen back + digits_value back) as ->
    by (by rewrite <-Efrac, digits_value_app).
  assert (zlen frac = sn + zlen back) as -> by (by rewrite <-Efrac, zlen_app, Hl).
  rewrite digits_value_app, Hl, Z.pow_add_r by lia.
  assert (zlen back = 0 \/ sn = 18) as [E|E].
  { pose proof (zlen_take_drop (Z.to_nat sn) frac) as E. fold front back in E. lia. }
  - rewrite E in *. change (10 ^ 0) with 1 in *. assert (digits_value back = 0) by lia.
    assert (10 ^ 18 = 10 ^ (18 - sn) * 10 ^ sn) as Hpow by (rewrite <-Z.pow_add_r by lia; f_equal; lia).
    rewrite Hpow. assert (0 < 10 ^ sn) by lia. split; [intros (_ & -> & ?)|intros [E' ?]]; [split; [lia|lia]|].
    split; [done|]. split; [|done]. nia.
  - rewrite E. change (18 - 18) with 0. change (10 ^ 0) with 1.
    set (P := 10 ^ zlen back) in *. assert (0 < P) by (unfold P; lia).
    set (V := digits_value whole) in *. set (F := digits_value front) in *. set (T := 10 ^ 18) in *.
    assert (0 < T) by done. split; [intros (-> & -> & ?); split; [lia|lia]|intros [E' ?]].
    assert (w * P = (V * T + F) * P + digits_value back) by nia.
    assert (w = V * T + F) by nia. split; [|split]; nia.
Qed.

Lemma parseEthAsWei_spec_witness :
  parseEthAsWei (bytes_of_string "12") = Ret (12 * 10 ^ 18)
  /\ parseEthAsWei (bytes_of_string "12.50") = Ret (125 * 10 ^ 17).
Proof.
  split.
  - apply (parseEthAsWei_spec [49; 50] [53; 48]); [decided|decided|done|]. by vm_compute.
  - apply (parseEthAsWei_spec [49; 50] [53; 48] (125 * 10 ^ 17)); [decided|decided|done|]. by vm_compute.
Defined.

(** ** Printing and reading back *)

(** [format_trim a b] is what the two calls of [TrimRight] leave of
    the integer digits [a], a dot, and the 18 fractional digits [b]. *)
Lemma format_trim a b : digits_ok a -> a <> [] -> digits_ok b ->
  TrimRight 46 (TrimRight 48 (a ++ [46] ++ b))
  = if decide (TrimRight 48 b = []) then a else a ++ [46] ++ TrimRight 48 b.
Proof.
  intros Ha Hne Hb. destruct (TrimRight_spec 48 b) as (n & Eb & Ht).
  destruct (decide (TrimRight 48 b = [])) as [E|E].
  - rewrite app_assoc, TrimRight_app_nil, TrimRight_snoc_ne, TrimRight_snoc_eq by (done || lia).
    destruct a as [|x a' _] using rev_ind; [done|].
    apply Forall_app in Ha as [_ Hx]. inversion Hx. apply TrimRight_snoc_ne. lia.
  - rewrite app_assoc, TrimRight_app by done. destruct Ht as [?|(p & x & Ep & Hx)]; [done|].
    rewrite Ep in *. rewrite Eb in Hb. apply Forall_app in Hb as [Hb _].
    apply Forall_app in Hb as [_ Hx']. inversion Hx'.
    rewrite app_assoc, TrimRight_snoc_ne by lia. by rewrite <-!app_assoc.
Qed.

(** The string printed consists of digits [a], a dot and 18 digits [b] of the
    amount in wei, before trimming. *)
Lemma format_parts w : 0 < w -> exists a b, digits_ok a /\ a <> [] /\ digits_ok b
  /\ zlen b = 18 /\ digits_value (a ++ b) = w
  /\ formatWeiAsEthString w = TrimRight 46 (TrimRight 48 (a ++ [46] ++ b)).
Proof.
  intros Hw. unfold formatWeiAsEthString, Int_String. change weiPrecision with 18.
  rewrite (proj2 (Z.eqb_neq w 0)), (proj2 (Z.ltb_ge w 0)) by lia. cbv zeta.
  destruct (dec_nat_spec w) as (Hd & Hne & Hv & _); [lia|]. set (s := dec_nat w) in *.
  destruct (Z.ltb_spec 18 (zlen s)) as [Hl|Hl].
  - set (idx := Z.to_nat (zlen s - 18)).
    exists (take idx s), (drop idx s). rewrite take_drop.
    assert (take idx s <> []).
    { intros E%(f_equal length). rewrite length_take in E. unfold idx, zlen in *. simpl in E. lia. }
    assert (digits_ok (take idx s)) by (by apply Forall_take).
    assert (digits_ok (drop idx s)) by (by apply Forall_drop).
    split_and!; [done|done|done| |done|].
    + unfold zlen, idx. rewrite length_drop. unfold zlen in *. lia.
    + rewrite format_trim by done.
      destruct (Z.eqb_spec (zlen (if decide (TrimRight 48 (drop idx s) = [])
         then take idx s else take idx s ++ [46] ++ TrimRight 48 (drop idx s))) 0) as [E|]; [|done].
      apply zlen_0 in E. destruct (decide _); [done|]. by destruct (take idx s).
  - exists [48], (replicate (Z.to_nat (18 - zlen s)) 48 ++ s).
    split_and!; [decided|done| | | |done].
    + apply Forall_app. split; [apply Forall_replicate; lia|done].
    + rewrite zlen_app. unfold zlen at 1. rewrite length_replicate. lia.
    + change ([48] ++ replicate (Z.to_nat (18 - zlen s)) 48 ++ s)
        with (replicate (S (Z.to_nat (18 - zlen s))) 48 ++ s).
      by rewrite digits_value_app, digits_value_zeros.
Qed.

(** An amount printed by [formatWeiAsEthString] is read back as the same
    number of wei by [parseEthAsWei], for every positive amount. *)
Theorem parse_formatWeiAsEthString w : 0 < w -> parseEthAsWei (formatWeiAsEthString w) = Ret w.
Proof.
  intros Hw. destruct (format_parts w Hw) as (a & b & Ha & Hne & Hb & Hl & Hv & ->).
  rewrite format_trim by done. destruct (TrimRight_spec 48 b) as (n & Eb & _).
  rewrite Eb, app_assoc, digits_value_app, digits_value_zeros in Hv.
  unfold zlen in Hv. rewrite length_replicate in Hv.
  pose proof (f_equal zlen Eb) as El. rewrite zlen_app, Hl in El.
  unfold zlen in El at 2. rewrite length_replicate in El.
  destruct (decide (TrimRight 48 b = [])) as [E|E].
  - rewrite E, app_nil_r in Hv. rewrite E, zlen_nil in El. apply parse_whole; [done|done|].
    replace (Z.of_nat n) with 18 in Hv by lia. lia.
  - assert (digits_ok (TrimRight 48 b)) by (rewrite Eb in Hb; by apply Forall_app in Hb as [? _]).
    apply parse_fraction; [done|done|by destruct a|].
    replace (Z.min (zlen (TrimRight 48 b)) 18) with (zlen (TrimRight 48 b)) by lia.
    unfold zlen at 1 2. rewrite !Nat2Z.id, drop_all, firstn_all.
    replace (18 - zlen (TrimRight 48 b)) with (Z.of_nat n) by lia. split_and!; [done|lia|done].
Qed.

Lemma parse_formatWeiAsEthString_witness :
  formatWeiAsEthString 1230000000000000000 = bytes_of_string "1.23"
  /\ parseEthAsWei (formatWeiAsEthString 1230000000000000000) = Ret 1230000000000000000.
Proof. split; [by vm_compute|]. apply parse_formatWeiAsEthString. lia. Defined.
