(* ===== verification/EthContract.v ===== *)
(** * The Solidity contract: cmd/ethatomicswap/contract/src/contracts/AtomicSwap.sol

    The contract's storage, its modifiers and its four functions, run in a
    small model of the chain: account balances, the event log and the block
    time. A [require] that fails, or a transfer that fails, reverts the call:
    it has no effect. The code an account runs when it receives ether is not
    part of the program, so it is the parameter [fallback] of the section. *)

From S2P Require Import Prelude Sha256.

(** ** Storage, events and the chain *)

Inductive Kind := Initiator | Participant.
Inductive State := Empty | Filled | Redeemed | Refunded.

#[global] Instance Kind_eq_dec : EqDecision Kind.
Proof. solve_decision. Defined.
#[global] Instance State_eq_dec : EqDecision State.
Proof. solve_decision. Defined.

(** [struct Swap]. Addresses are 160-bit numbers, [bytes32] are byte lists. *)
Record Swap := mkSwap {
  initTimestamp : Z; refundTime : Z; secretHash : bytes; secret : bytes;
  initiator : Z; participant : Z; value : Z; kind : Kind; state : State }.

Definition zero32 : bytes := replicate 32 0.

(** What an absent key of the mapping reads as. *)
Definition empty_swap : Swap := mkSwap 0 0 zero32 zero32 0 0 0 Initiator Empty.

(** The events, with the arguments of the [emit] statements. *)
Inductive Event :=
  | EvRefunded (time : Z) (hash : bytes) (refunder val : Z)
  | EvRedeemed (time : Z) (hash sec : bytes) (redeemer val : Z)
  | EvParticipated (time refund : Z) (hash : bytes) (init part val : Z)
  | EvInitiated (time refund : Z) (hash : bytes) (init part val : Z).

(** The contract's storage, the ether of every account, and the log (newest
    event first). *)
Record world := mkWorld { swaps : gmap bytes Swap; balances : gmap Z Z; events : list Event }.

Definition swap_at (w : world) (h : bytes) : Swap := default empty_swap (swaps w !! h).
Definition balance (w : world) (a : Z) : Z := default 0 (balances w !! a).

(** The sender, the ether sent, and the time of the block. *)
Record message := mkMsg { sender : Z; msg_value : Z; timestamp : Z }.

Definition revert : error := ErrNew "revert".
Definition require (b : bool) : outcome unit := guard_err (negb b) revert.

(** Moves ether between accounts. *)
Definition move (a b v : Z) (w : world) : world :=
  if v =? 0 then w else
  let bs := <[a := balance w a - v]> (balances w) in
  mkWorld (swaps w) (<[b := default 0 (bs !! b) + v]> bs) (events w).

Definition set_swap (h : bytes) (s : Swap) (w : world) : world :=
  mkWorld (<[h := s]> (swaps w)) (balances w) (events w).
Definition emit (e : Event) (w : world) : world := mkWorld (swaps w) (balances w) (e :: events w).

Section Contract.
(** The contract's own address, and what the receiver of a transfer does:
    [fallback a v w] is [None] if it fails. *)
Context (this : Z) (fallback : Z -> Z -> world -> option world).

(** [to.transfer(v)] *)
Definition transfer (to v : Z) (w : world) : outcome world :=
  _ ← require (v <=? balance w this);
  of_option revert (fallback to v (move this to v w)).

(** ** Modifiers *)

Definition isRefundable (m : message) (h : bytes) (refunder : Z) (w : world) : outcome unit :=
  let s := swap_at w h in
  _ ← require (bool_decide (state s = Filled));
  _ ← (if decide (kind s = Participant) then require (participant s =? refunder)
       else require (initiator s =? refunder));
  let preRefundTimestamp := initTimestamp s in
  let preRefundTimestamp := to_uint 256 (preRefundTimestamp + refundTime s) in
  require (preRefundTimestamp <? timestamp m).

Definition isRedeemable (h sec : bytes) (redeemer : Z) (w : world) : outcome unit :=
  let s := swap_at w h in
  _ ← require (bool_decide (state s = Filled));
  _ ← (if decide (kind s = Participant) then require (initiator s =? redeemer)
       else require (participant s =? redeemer));
  require (bool_decide (sha256 sec = h)).

Definition isNotInitiated (h : bytes) (w : world) : outcome unit :=
  require (bool_decide (state (swap_at w h) = Empty)).

Definition hasNoNilValues (m : message) (refund_time : Z) : outcome unit :=
  _ ← require (0 <? msg_value m);
  require (0 <? refund_time).

(** ** Functions *)

Definition initiate (m : message) (refund_time : Z) (h : bytes) (part : Z) (w : world) : outcome world :=
  _ ← hasNoNilValues m refund_time;
  _ ← isNotInitiated h w;
  let w := set_swap h (mkSwap (timestamp m) refund_time h (secret (swap_at w h))
                         (sender m) part (msg_value m) Initiator Filled) w in
  Ret (emit (EvInitiated (timestamp m) refund_time h (sender m) part (msg_value m)) w).

Definition participate (m : message) (refund_time : Z) (h : bytes) (init : Z) (w : world) : outcome world :=
  _ ← hasNoNilValues m refund_time;
  _ ← isNotInitiated h w;
  let w := set_swap h (mkSwap (timestamp m) refund_time h (secret (swap_at w h))
                         init (sender m) (msg_value m) Participant Filled) w in
  Ret (emit (EvParticipated (timestamp m) refund_time h init (sender m) (msg_value m)) w).

Definition with_state (st : State) (sec : bytes) (s : Swap) : Swap :=
  mkSwap (initTimestamp s) (refundTime s) (secretHash s) sec (initiator s) (participant s)
    (value s) (kind s) st.

Definition redeem (m : message) (sec h : bytes) (w : world) : outcome world :=
  _ ← isRedeemable h sec (sender m) w;
  w ← transfer (sender m) (value (swap_at w h)) w;
  let w := set_swap h (with_state Redeemed (secret (swap_at w h)) (swap_at w h)) w in
  let w := set_swap h (with_state Redeemed sec (swap_at w h)) w in
  let s := swap_at w h in
  Ret (emit (EvRedeemed (timestamp m) (secretHash s) (secret s) (sender m) (value s)) w).

Definition refund (m : message) (h : bytes) (w : world) : outcome world :=
  _ ← isRefundable m h (sender m) w;
  w ← transfer (sender m) (value (swap_at w h)) w;
  let w := set_swap h (with_state Refunded (secret (swap_at w h)) (swap_at w h)) w in
  let s := swap_at w h in
  Ret (emit (EvRefunded (timestamp m) (secretHash s) (sender m) (value s)) w).

(** ** Calls and the life of the contract *)

(** A call of the contract with its arguments. *)
Inductive call :=
  | CInitiate (refund_time : Z) (h : bytes) (part : Z)
  | CParticipate (refund_time : Z) (h : bytes) (init : Z)
  | CRedeem (sec h : bytes)
  | CRefund (h : bytes).

(** The functions marked [payable]; the others refuse ether. *)
Definition payable (c : call) : bool :=
  match c with CInitiate _ _ _ | CParticipate _ _ _ => true | CRedeem _ _ | CRefund _ => false end.

Definition body (m : message) (c : call) : world -> outcome world :=
  match c with
  | CInitiate r h p => initiate m r h p
  | CParticipate r h i => participate m r h i
  | CRedeem s h => redeem m s h
  | CRefund h => refund m h
  end.

(** A transaction sent to the contract: the ether moves first, then the
    function runs. *)
Definition exec (m : message) (c : call) (w : world) : outcome world :=
  _ ← require ((msg_value m =? 0) || (0 <=? msg_value m) && (msg_value m <=? balance w (sender m)));
  _ ← require (payable c || (msg_value m =? 0));
  body m c (move (sender m) this (msg_value m) w).

(** The steps of the chain: a call that succeeds (one that reverts changes
    nothing), and ether moving between accounts other than out of the contract
    (for instance ether forced into it). *)
Inductive step : world -> world -> Prop :=
  | step_call m c w w' : sender m <> this -> exec m c w = Ret w' -> step w w'
  | step_other a b v w : a <> this -> 0 <= v -> step w (move a b v w).

(** The chain after any number of steps from the deployment of the contract. *)
Inductive reachable : world -> Prop :=
  | reach_init bs : 0 <= default 0 (bs !! this) -> reachable (mkWorld ∅ bs [])
  | reach_step w w' : reachable w -> step w w' -> reachable w'.
End Contract.

(** With the 2300 gas [transfer] leaves to the receiver it cannot write to
    storage nor send ether on: it accepts or fails. *)
Class Stipend (fallback : Z -> Z -> world -> option world) : Prop :=
  stipend_no_effect a v w w' : fallback a v w = Some w' -> w' = w.

(** Receivers that accept ether from everyone. *)
Definition accepts_all : Z -> Z -> world -> option world := fun _ _ w => Some w.
#[global] Instance accepts_all_stipend : Stipend accepts_all.
Proof. intros a v w w' [=]. done. Qed.
