(* ===== verification/EthContractTheorems.v ===== *)
(** * Theorems about the Solidity contract

    The functional behaviour of the four functions on every branch, the
    solvency of the contract, the life of one swap, when a refund is possible,
    and why the order of the transfer and the update in [redeem] is safe only
    with the stipend. *)

From S2P Require Import Prelude Sha256 EthContract.

(** ** The world *)

Lemma balance_move a b v w c : balance (move a b v w) c
  = balance w c + (if decide (c = b) then v else 0) - (if decide (c = a) then v else 0).
Proof.
  unfold move, balance. destruct (Z.eqb_spec v 0) as [->|Hv]; [repeat destruct (decide _); lia|].
  simpl. destruct (decide (c = b)) as [->|Hb].
  - rewrite lookup_insert_eq. simpl. destruct (decide (b = a)) as [->|Ha].
    + rewrite lookup_insert_eq. simpl. lia.
    + rewrite lookup_insert_ne by done. lia.
  - rewrite lookup_insert_ne by done. destruct (decide (c = a)) as [->|Ha].
    + rewrite lookup_insert_eq. simpl. lia.
    + rewrite lookup_insert_ne by done. lia.
Qed.

Lemma swap_at_insert h s w h' :
  swap_at (set_swap h s w) h' = if decide (h' = h) then s else swap_at w h'.
Proof.
  unfold swap_at, set_swap. simpl. destruct (decide (h' = h)) as [->|].
  - by rewrite lookup_insert_eq.
  - by rewrite lookup_insert_ne.
Qed.

Lemma set_swap_twice h s1 s2 w : set_swap h s2 (set_swap h s1 w) = set_swap h s2 w.
Proof. unfold set_swap. simpl. by rewrite insert_insert_eq. Qed.

Lemma swap_at_move a b v w h : swap_at (move a b v w) h = swap_at w h.
Proof. unfold move. by destruct (v =? 0). Qed.

Lemma move_0 a b w : move a b 0 w = w.
Proof. done. Qed.

Lemma require_Ret b u : require b = Ret u <-> b = true.
Proof. unfold require. rewrite guard_err_Ret. by destruct b. Qed.

Create Rewrite HintDb eth.
#[export] Hint Rewrite swap_at_insert swap_at_move set_swap_twice : eth.

(** The account a swap pays when redeemed, the one it returns to, its refund
    deadline as the contract computes it, and the event that opened it. *)
Definition redeemer_of (s : Swap) : Z :=
  match kind s with Initiator => participant s | Participant => initiator s end.
Definition author_of (s : Swap) : Z :=
  match kind s with Initiator => initiator s | Participant => participant s end.
Definition deadline (s : Swap) : Z := to_uint 256 (initTimestamp s + refundTime s).
Definition start_event (s : Swap) : Event :=
  match kind s with
  | Initiator => EvInitiated (initTimestamp s) (refundTime s) (secretHash s) (initiator s) (participant s) (value s)
  | Participant => EvParticipated (initTimestamp s) (refundTime s) (secretHash s) (initiator s) (participant s) (value s)
  end.

Lemma isRedeemable_Ret h sec r w u : isRedeemable h sec r w = Ret u <->
  state (swap_at w h) = Filled /\ redeemer_of (swap_at w h) = r /\ sha256 sec = h.
Proof.
  unfold isRedeemable, redeemer_of. split.
  - intros H. go_inv H. rewrite !require_Ret in *. rewrite !bool_decide_eq_true in *.
    destruct (decide _) as [E|E] in *; rewrite require_Ret, Z.eqb_eq in *.
    + by rewrite E.
    + destruct (kind (swap_at w h)); done.
  - intros (-> & H & ->). rewrite !bool_decide_eq_true_2 by done.
    destruct u, (kind (swap_at w h)); simpl; rewrite H, Z.eqb_refl; done.
Qed.

Lemma isRefundable_Ret m h r w u : isRefundable m h r w = Ret u <->
  state (swap_at w h) = Filled /\ author_of (swap_at w h) = r /\ deadline (swap_at w h) < timestamp m.
Proof.
  unfold isRefundable, author_of, deadline. split.
  - intros H. go_inv H. rewrite !require_Ret in *. rewrite !bool_decide_eq_true in *.
    destruct (decide _) as [E|E] in *; rewrite require_Ret, Z.eqb_eq in *.
    + rewrite E. split_and!; [done|done|lia].
    + destruct (kind (swap_at w h)); [split_and!; [done|done|lia]|done].
  - intros (-> & H & Hd). rewrite !bool_decide_eq_true_2 by done.
    apply Z.ltb_lt in Hd. cbv zeta. rewrite Hd.
    destruct u, (kind (swap_at w h)); simpl; rewrite H, Z.eqb_refl; done.
Qed.

Section Facts.
Context (this : Z) (fallback : Z -> Z -> world -> option world).
Context `{!Stipend fallback}.

Lemma transfer_Ret to v w w' : transfer this fallback to v w = Ret w' <->
  v <= balance w this /\ fallback to v (move this to v w) <> None /\ w' = move this to v w.
Proof.
  unfold transfer. split.
  - intros H. go_inv H. rewrite require_Ret in *.
    match goal with E : fallback _ _ _ = Some _ |- _ => rewrite (stipend_no_effect _ _ _ _ E), E end.
    split_and!; [lia|done|done].
  - intros (H & Hf & ->). apply Z.leb_le in H. rewrite H. simpl.
    destruct (fallback to v (move this to v w)) as [w1|] eqn:E; [|done].
    by rewrite (stipend_no_effect _ _ _ _ E).
Qed.

(** ** What each call promises *)

(** When a call succeeds. *)
Definition call_guard (m : message) (c : call) (w : world) : Prop :=
  match c with
  | CInitiate r h _ | CParticipate r h _ =>
      0 < msg_value m <= balance w (sender m) /\ 0 < r /\ state (swap_at w h) = Empty
  | CRedeem sec h =>
      let s := swap_at w h in
      msg_value m = 0 /\ state s = Filled /\ redeemer_of s = sender m /\ sha256 sec = h
      /\ value s <= balance w this
      /\ fallback (sender m) (value s) (move this (sender m) (value s) w) <> None
  | CRefund h =>
      let s := swap_at w h in
      msg_value m = 0 /\ state s = Filled /\ author_of s = sender m /\ deadline s < timestamp m
      /\ value s <= balance w this
      /\ fallback (sender m) (value s) (move this (sender m) (value s) w) <> None
  end.

(** What it then does. *)
Definition call_effect (m : message) (c : call) (w : world) : world :=
  match c with
  | CInitiate r h p =>
      let s := mkSwap (timestamp m) r h (secret (swap_at w h)) (sender m) p (msg_value m) Initiator Filled in
      emit (start_event s) (set_swap h s (move (sender m) this (msg_value m) w))
  | CParticipate r h i =>
      let s := mkSwap (timestamp m) r h (secret (swap_at w h)) i (sender m) (msg_value m) Participant Filled in
      emit (start_event s) (set_swap h s (move (sender m) this (msg_value m) w))
  | CRedeem sec h =>
      let s := swap_at w h in
      emit (EvRedeemed (timestamp m) (secretHash s) sec (sender m) (value s))
        (set_swap h (with_state Redeemed sec s) (move this (sender m) (value s) w))
  | CRefund h =>
      let s := swap_at w h in
      emit (EvRefunded (timestamp m) (secretHash s) (sender m) (value s))
        (set_swap h (with_state Refunded (secret s) s) (move this (sender m) (value s) w))
  end.

(** The checks [exec] and the modifiers of a new swap make. *)
Lemma new_swap_checks m r h w (w1 := move (sender m) this (msg_value m) w) :
  ((msg_value m =? 0) || (0 <=? msg_value m) && (msg_value m <=? balance w (sender m))) = true
    /\ hasNoNilValues m r = Ret tt /\ isNotInitiated h w1 = Ret tt
  <-> 0 < msg_value m <= balance w (sender m) /\ 0 < r /\ state (swap_at w h) = Empty.
Proof.
  unfold hasNoNilValues, isNotInitiated, w1. rewrite swap_at_move, !require_Ret, bool_decide_eq_true.
  assert ((_ ← require (0 <? msg_value m); require (0 <? r)) = Ret tt <-> 0 < msg_value m /\ 0 < r) as ->.
  { rewrite <-!Z.ltb_lt, <-!(require_Ret _ tt). split.
    - intros H. rewrite bind_Ret in H. by destruct H as ([] & ? & ?).
    - by intros [-> ->]. }
  rewrite orb_true_iff, andb_true_iff, Z.eqb_eq, !Z.leb_le. intuition lia.
Qed.

Lemma initiate_Ret m r h p w w' :
  exec this fallback m (CInitiate r h p) w = Ret w'
  <-> call_guard m (CInitiate r h p) w /\ w' = call_effect m (CInitiate r h p) w.
Proof.
  unfold call_guard. rewrite <-(new_swap_checks m r h w). unfold exec, call_effect. cbn [payable body orb].
  split.
  - intros H. go_inv H. rewrite require_Ret in *. unfold initiate in H. go_inv H.
    repeat match goal with u : unit |- _ => destruct u end. by rewrite swap_at_move.
  - intros [(-> & H1 & H2) ->]. simpl. unfold initiate. rewrite H1. simpl. rewrite H2. simpl.
    by rewrite swap_at_move.
Qed.

Lemma participate_Ret m r h i w w' :
  exec this fallback m (CParticipate r h i) w = Ret w'
  <-> call_guard m (CParticipate r h i) w /\ w' = call_effect m (CParticipate r h i) w.
Proof.
  unfold call_guard. rewrite <-(new_swap_checks m r h w). unfold exec, call_effect. cbn [payable body orb].
  split.
  - intros H. go_inv H. rewrite require_Ret in *. unfold participate in H. go_inv H.
    repeat match goal with u : unit |- _ => destruct u end. by rewrite swap_at_move.
  - intros [(-> & H1 & H2) ->]. simpl. unfold participate. rewrite H1. simpl. rewrite H2. simpl.
    by rewrite swap_at_move.
Qed.

Lemma redeem_Ret m sec h w w' :
  exec this fallback m (CRedeem sec h) w = Ret w'
  <-> call_guard m (CRedeem sec h) w /\ w' = call_effect m (CRedeem sec h) w.
Proof.
  unfold exec. cbn [payable body orb call_guard call_effect]. split.
  - intros H. go_inv H. rewrite !require_Ret, ?Z.eqb_eq in *.
    match goal with E : msg_value m = 0 |- _ => rewrite E, move_0 in H end.
    unfold redeem in H. go_inv H. rewrite isRedeemable_Ret, transfer_Ret in *.
    destruct_and!. subst. autorewrite with eth. destruct (decide _); done.
  - intros [(-> & Hs & Hr & Hh & Hb & Hf) ->]. simpl. rewrite move_0. unfold redeem.
    rewrite (proj2 (isRedeemable_Ret h sec (sender m) w tt)) by done. simpl.
    rewrite (proj2 (transfer_Ret _ _ _ _)) by done. simpl. autorewrite with eth.
    destruct (decide _); done.
Qed.

Lemma refund_Ret m h w w' :
  exec this fallback m (CRefund h) w = Ret w'
  <-> call_guard m (CRefund h) w /\ w' = call_effect m (CRefund h) w.
Proof.
  unfold exec. cbn [payable body orb call_guard call_effect]. split.
  - intros H. go_inv H. rewrite !require_Ret, ?Z.eqb_eq in *.
    match goal with E : msg_value m = 0 |- _ => rewrite E, move_0 in H end.
    unfold refund in H. go_inv H. rewrite isRefundable_Ret, transfer_Ret in *.
    destruct_and!. subst. autorewrite with eth. destruct (decide _); done.
  - intros [(-> & Hs & Hr & Hh & Hb & Hf) ->]. simpl. rewrite move_0. unfold refund.
    rewrite (proj2 (isRefundable_Ret m h (sender m) w tt)) by done. simpl.
    rewrite (proj2 (transfer_Ret _ _ _ _)) by done. simpl. autorewrite with eth.
    destruct (decide _); done.
Qed.

Lemma exec_Ret m c w w' :
  exec this fallback m c w = Ret w' <-> call_guard m c w /\ w' = call_effect m c w.
Proof. destruct c; [apply initiate_Ret|apply participate_Ret|apply redeem_Ret|apply refund_Ret]. Qed.
End Facts.

(** ** Ether the contract owes *)

(** What a swap holds, and the sum over the storage. *)
Definition held (s : Swap) : Z := if decide (state s = Filled) then value s else 0.
Definition locked (m : gmap bytes Swap) : Z := map_fold (fun _ s acc => held s + acc) 0 m.

(** Decides the states of the swaps compared. *)
Ltac solve_held :=
  unfold held; cbn; repeat case_decide; try congruence; lia.

Lemma locked_delete (m : gmap bytes Swap) h s :
  m !! h = Some s -> locked m = held s + locked (delete h m).
Proof.
  intros H. unfold locked. apply (map_fold_delete_L (fun (_ : bytes) s acc => held s + acc)); [|done].
  intros. lia.
Qed.

Lemma locked_insert_fresh (m : gmap bytes Swap) h s :
  m !! h = None -> locked (<[h := s]> m) = held s + locked m.
Proof.
  intros H. unfold locked. apply (map_fold_insert_L (fun (_ : bytes) s acc => held s + acc)); [|done].
  intros. lia.
Qed.

(** Writing one swap changes the sum by the difference of the two. *)
Lemma locked_insert w h s :
  locked (<[h := s]> (swaps w)) = locked (swaps w) - held (swap_at w h) + held s.
Proof.
  unfold swap_at. destruct (swaps w !! h) as [s0|] eqn:E.
  - rewrite <-insert_delete_eq, locked_insert_fresh by apply lookup_delete_eq.
    rewrite (locked_delete _ _ _ E). simpl. lia.
  - rewrite locked_insert_fresh by done. simpl. unfold held at 2. simpl. lia.
Qed.

Lemma swaps_move a b v w : swaps (move a b v w) = swaps w.
Proof. unfold move. by destruct (v =? 0). Qed.
Lemma events_move a b v w : events (move a b v w) = events w.
Proof. unfold move. by destruct (v =? 0). Qed.
#[export] Hint Rewrite swaps_move events_move : eth.

Lemma locked_nonneg (m : gmap bytes Swap) :
  (forall h s, m !! h = Some s -> 0 <= held s) -> 0 <= locked m.
Proof.
  induction m as [|h s m Hm IH] using map_ind; [done|]. intros H. rewrite locked_insert_fresh by done.
  pose proof (H h s (lookup_insert_eq _ _ _)). enough (0 <= locked m) by lia.
  apply IH. intros h' s' Hl. apply (H h'). rewrite lookup_insert_ne by congruence. done.
Qed.

(** The events about one swap, newest first. *)
Definition event_hash (e : Event) : bytes :=
  match e with
  | EvRefunded _ h _ _ | EvRedeemed _ h _ _ _ => h
  | EvParticipated _ _ h _ _ _ | EvInitiated _ _ h _ _ _ => h
  end.
Definition log_of (w : world) (h : bytes) : list Event := filter (fun e => event_hash e = h) (events w).

Lemma log_of_emit e w h : log_of (emit e w) h = (if decide (event_hash e = h) then [e] else []) ++ log_of w h.
Proof. unfold log_of, emit. simpl. rewrite filter_cons. by destruct (decide _). Qed.
Lemma log_of_set_swap h s w h' : log_of (set_swap h s w) h' = log_of w h'.
Proof. done. Qed.
Lemma log_of_move a b v w h : log_of (move a b v w) h = log_of w h.
Proof. unfold log_of. by rewrite events_move. Qed.
Lemma swap_at_emit e w h : swap_at (emit e w) h = swap_at w h.
Proof. done. Qed.
#[export] Hint Rewrite log_of_emit log_of_set_swap log_of_move swap_at_emit : eth.

(** The history the log must show of a swap in each state. *)
Definition history (h : bytes) (s : Swap) (log : list Event) : Prop :=
  match state s with
  | Empty => log = [] /\ s = empty_swap
  | Filled => log = [start_event s] /\ secretHash s = h /\ 0 < value s
  | Redeemed => exists t, log = [EvRedeemed t h (secret s) (redeemer_of s) (value s); start_event s]
      /\ secretHash s = h /\ 0 < value s /\ sha256 (secret s) = h
  | Refunded => exists t, log = [EvRefunded t h (author_of s) (value s); start_event s]
      /\ secretHash s = h /\ 0 < value s /\ deadline s < t
  end.

(** The invariant of the contract. *)
Record contract_inv (this : Z) (w : world) : Prop := {
  inv_solvent : locked (swaps w) <= balance w this;
  inv_history h : history h (swap_at w h) (log_of w h) }.

Section Invariant.
Context (this : Z) (fallback : Z -> Z -> world -> option world).
Context `{!Stipend fallback}.

(** One payment, one write of a swap and one event keep the invariant, if the
    event continues the history and the balance pays for the change. *)
Lemma inv_update a b v h s e w : contract_inv this w -> event_hash e = h ->
  held s - held (swap_at w h) <= balance (move a b v w) this - balance w this ->
  history h s (e :: log_of w h) ->
  contract_inv this (emit e (set_swap h s (move a b v w))).
Proof.
  intros [Hsol Hh] He Hb Hist. split.
  - simpl. rewrite locked_insert, swaps_move, swap_at_move.
    change (balance (emit e _) this) with (balance (move a b v w) this). lia.
  - intros h'. autorewrite with eth. destruct (decide (h' = h)) as [->|].
    + by rewrite decide_True by done.
    + rewrite decide_False by congruence. apply Hh.
Qed.

(** A call that succeeds preserves the invariant. *)
Lemma exec_inv m c w w' : sender m <> this ->
  exec this fallback m c w = Ret w' -> contract_inv this w -> contract_inv this w'.
Proof.
  rewrite (exec_Ret this fallback). intros Hs [G ->] I.
  assert (forall h, history h (swap_at w h) (log_of w h)) as Hh by apply I.
  destruct c as [r h p|r h i|sec h|h]; cbn [call_guard call_effect] in G |- *; specialize (Hh h);
    unfold history in Hh.
  1, 2: destruct G as (Hv & Hr & He); rewrite He in Hh; destruct Hh as [Hlog Hemp];
    apply inv_update; [done|done| |by rewrite Hlog; split_and!; [done|done|simpl; lia]];
    rewrite balance_move, decide_True, decide_False, Hemp by done; solve_held.
  - destruct G as (H0 & Hf & Hr & Hsec & Hb & _). rewrite Hf in Hh. destruct Hh as (Hlog & Hkey & Hpos).
    apply inv_update; [done|done| |].
    + rewrite balance_move, decide_False, decide_True by done. solve_held.
    + rewrite Hlog. cbn. exists (timestamp m). by rewrite Hkey, <-Hr.
  - destruct G as (H0 & Hf & Hr & Hd & Hb & _). rewrite Hf in Hh. destruct Hh as (Hlog & Hkey & Hpos).
    apply inv_update; [done|done| |].
    + rewrite balance_move, decide_False, decide_True by done. solve_held.
    + rewrite Hlog. cbn. exists (timestamp m). by rewrite Hkey, <-Hr.
Qed.

Lemma reachable_inv w : reachable this fallback w -> contract_inv this w.
Proof.
  induction 1 as [bs Hbs|w w' _ IH Hst].
  - split; [done|]. intros h. unfold swap_at. simpl. by rewrite lookup_empty.
  - destruct Hst as [m c w w' Hs He|a b v w Ha Hv].
    + by eapply exec_inv.
    + destruct IH as [Hsol Hh]. split.
      * rewrite swaps_move, balance_move. rewrite (decide_False (P := this = a)) by done.
        destruct (decide _); lia.
      * intros h. autorewrite with eth. apply Hh.
Qed.

Lemma reachable_locked w h : reachable this fallback w ->
  state (swap_at w h) = Filled -> value (swap_at w h) <= locked (swaps w).
Proof.
  intros Hr Hf. destruct (reachable_inv w Hr) as [_ Hh].
  assert (forall h s, swaps w !! h = Some s -> 0 <= held s) as Hpos.
  { intros h' s E. specialize (Hh h'). unfold swap_at in Hh. rewrite E in Hh. simpl in Hh.
    unfold held. destruct (decide (state s = Filled)) as [Es|]; [|lia].
    unfold history in Hh. rewrite Es in Hh. lia. }
  unfold swap_at in *. destruct (swaps w !! h) as [s|] eqn:E; [|done]. simpl in *.
  rewrite (locked_delete _ _ _ E). unfold held. rewrite decide_True by done.
  enough (0 <= locked (delete h (swaps w))) by lia.
  apply locked_nonneg. intros h' s' [_ E']%lookup_delete_Some. by apply (Hpos h').
Qed.

Lemma reachable_pays w h : reachable this fallback w ->
  state (swap_at w h) = Filled -> value (swap_at w h) <= balance w this.
Proof.
  intros Hr Hf. destruct (reachable_inv w Hr) as [Hsol _]. etransitivity; [|exact Hsol].
  by apply reachable_locked.
Qed.

(** C3: In every state the contract can reach, whatever calls were made and
    whatever ether was forced in, its balance covers all the swaps that are
    still filled, and the log shows for every secret hash exactly the life of
    its swap: nothing before it exists; the opening event alone while it is
    filled; then one single payment of its whole value, either to the
    counterparty with a published secret that hashes to the key, or back to the
    author after the deadline. *)
Theorem contract_life w h : reachable this fallback w ->
  locked (swaps w) <= balance w this /\ history h (swap_at w h) (log_of w h).
Proof. intros H. by destruct (reachable_inv w H). Qed.

(** C16: Whether a call succeeds and what it does is given by [call_guard] and
    [call_effect]: an initiator or participant pays a positive amount into an
    unused key with a non-zero lock duration; the counterparty alone redeems,
    with a preimage of the key; the author alone refunds, after the deadline;
    both move exactly the value of the swap, change the state and log one
    event. In every other case the call reverts. *)
Theorem exec_spec m c w w' :
  exec this fallback m c w = Ret w' <-> call_guard this fallback m c w /\ w' = call_effect this m c w.
Proof. apply exec_Ret, _. Qed.

(** C17: Funds are never stuck: in every reachable state the author of a filled
    swap can take its value back in any block after the deadline, and the
    counterparty who knows a preimage of the key can redeem it at any time, if
    the account accepts ether. *)
Theorem swap_settles w h m : reachable this fallback w ->
  let s := swap_at w h in
  state s = Filled -> msg_value m = 0 ->
  fallback (sender m) (value s) (move this (sender m) (value s) w) <> None ->
  (sender m = author_of s -> deadline s < timestamp m ->
    exec this fallback m (CRefund h) w = Ret (call_effect this m (CRefund h) w))
  /\ (forall sec, sender m = redeemer_of s -> sha256 sec = h ->
    exec this fallback m (CRedeem sec h) w = Ret (call_effect this m (CRedeem sec h) w)).
Proof.
  intros Hr s Hf Hm Hacc. pose proof (reachable_pays w h Hr Hf).
  split; intros; apply (exec_Ret this fallback); (split; [|done]); split_and!; done.
Qed.
End Invariant.

(** ** A run of the contract *)

Module Run.
Definition this : Z := 1000.
Definition secret1 : bytes := zero32.
Definition hash1 : bytes := Eval vm_compute in sha256 secret1.
Definition hash2 : bytes := Eval vm_compute in sha256 hash1.
(** Accounts 1 and 3 own ether; 2 is the counterparty. *)
Definition start : world := mkWorld ∅ {[1 := 50; 3 := 50]} [].

Definition get (o : outcome world) : world := match o with Ret w => w | _ => start end.

Definition is_ret (o : outcome world) : bool := match o with Ret _ => true | _ => false end.
Lemma ret_get o : is_ret o = true -> o = Ret (get o).
Proof. by destruct o. Qed.

(** Two swaps, of 5 for account 2 and of 7 for account 4. *)
Definition w1 : world := get (exec this accepts_all (mkMsg 1 5 100) (CInitiate 60 hash1 2) start).
Definition w2 : world := get (exec this accepts_all (mkMsg 3 7 110) (CParticipate 60 hash2 4) w1).

(** The states below are reachable with any receivers: they pay nobody. *)
Lemma w2_reachable fallback : reachable this fallback w2.
Proof.
  apply (reach_step _ _ w1).
  - apply (reach_step _ _ start); [by apply reach_init|].
    apply (step_call _ _ (mkMsg 1 5 100) (CInitiate 60 hash1 2)); [done|apply ret_get; by vm_compute].
  - apply (step_call _ _ (mkMsg 3 7 110) (CParticipate 60 hash2 4)); [done|apply ret_get; by vm_compute].
Qed.

(** A receiver that calls [redeem] again while it is being paid. *)
Definition reenter : Z -> Z -> world -> option world := fun a v w =>
  match exec this accepts_all (mkMsg a 0 120) (CRedeem secret1 hash1) w with
  | Ret w' => Some w' | _ => None end.
End Run.

Lemma contract_life_witness :
  locked (swaps Run.w2) = 12 /\ locked (swaps Run.w2) <= balance Run.w2 Run.this
  /\ history Run.hash1 (swap_at Run.w2 Run.hash1) (log_of Run.w2 Run.hash1).
Proof.
  split; [by vm_compute|]. apply (contract_life Run.this accepts_all). apply Run.w2_reachable.
Defined.

Lemma exec_spec_witness :
  exec Run.this accepts_all (mkMsg 2 0 120) (CRedeem Run.secret1 Run.hash1) Run.w2
  = Ret (call_effect Run.this (mkMsg 2 0 120) (CRedeem Run.secret1 Run.hash1) Run.w2).
Proof.
  apply (exec_spec Run.this accepts_all). split; [|done].
  cbn [call_guard]. split_and!; [by vm_compute..|done].
Defined.

Lemma swap_settles_witness :
  exec Run.this accepts_all (mkMsg 1 0 161) (CRefund Run.hash1) Run.w2
  = Ret (call_effect Run.this (mkMsg 1 0 161) (CRefund Run.hash1) Run.w2).
Proof.
  refine (proj1 (swap_settles Run.this accepts_all Run.w2 Run.hash1 (mkMsg 1 0 161) _ _ _ _) _ _);
    [apply Run.w2_reachable|by vm_compute|done|intros [=]|by vm_compute|by vm_compute].
Defined.

(** [redeem] pays before it records the redemption, so the solvency of the
    contract rests on the stipend: a receiver that could call back while it is
    paid would be paid twice, out of the ether of another swap. *)
Theorem redeem_needs_stipend :
  exists w, exec Run.this Run.reenter (mkMsg 2 0 120) (CRedeem Run.secret1 Run.hash1) Run.w2 = Ret w
    /\ reachable Run.this Run.reenter w
    /\ balance w 2 = 2 * value (swap_at Run.w2 Run.hash1)
    /\ balance w Run.this < locked (swaps w).
Proof.
  assert (exec Run.this Run.reenter (mkMsg 2 0 120) (CRedeem Run.secret1 Run.hash1) Run.w2
    = Ret (Run.get (exec Run.this Run.reenter (mkMsg 2 0 120) (CRedeem Run.secret1 Run.hash1) Run.w2)))
    as E by (apply Run.ret_get; by vm_compute).
  eexists. split; [exact E|]. split; [|split; by vm_compute].
  apply (reach_step _ _ Run.w2); [apply Run.w2_reachable|].
  apply (step_call _ _ (mkMsg 2 0 120) (CRedeem Run.secret1 Run.hash1)); [done|exact E].
Qed.
