(* ===== verification/Keccak.v ===== *)
(** * Keccak-256

    [crypto.Keccak256] of the vendored go-ethereum, over the vendored
    [golang.org/x/crypto/sha3]: the sponge with rate 136 and the Keccak-f[1600]
    permutation. The permutation is written with its
    five steps (theta, rho, pi, chi, iota) on a list of 25 lanes, lane
    [x + 5 y]; the Go code runs the same steps in place, four rounds at a time. *)

From S2P Require Import Prelude Sha256 BigEndian.

(** ** The permutation *)

Definition mask64 (x : Z) : Z := Z.land x 0xffffffffffffffff.
Definition rotl64 (x s : Z) : Z := Z.lor (mask64 (Z.shiftl x s)) (Z.shiftr x (64 - s)).

Fixpoint be_words64 (l : bytes) (fuel : nat) : list Z :=
  match fuel, l with
  | S f, _ :: _ => be_get (take 8 l) :: be_words64 (drop 8 l) f
  | _, _ => []
  end.

(** The round constants. *)
Definition keccak_rc : list Z := Eval vm_compute in be_words64 (hexb
  "00000000000000010000000000008082800000000000808a8000000080008000000000000000808b000000008000000180000000800080818000000000008009000000000000008a00000000000000880000000080008009000000008000000a000000008000808b800000000000008b8000000000008089800000000000800380000000000080028000000000000080000000000000800a800000008000000a8000000080008081800000000000808000000000800000018000000080008008") 24.

(** The rotation of each lane. *)
Definition keccak_rot : list Z :=
  [0; 1; 62; 28; 27; 36; 44; 6; 55; 20; 3; 10; 43; 25; 39; 41; 45; 15; 21; 8; 18; 2; 61; 56; 14].

Definition lane (a : list Z) (x y : nat) : Z := default 0 (a !! (x mod 5 + 5 * (y mod 5))%nat).

(** A state from its lanes. *)
Definition lanes (f : nat -> nat -> Z) : list Z :=
  map (fun i => f (i mod 5)%nat (i / 5)%nat) (seq 0 25).

Definition theta (a : list Z) : list Z :=
  let c := map (fun x => foldl (fun r y => Z.lxor r (lane a x y)) 0 (seq 0 5)) (seq 0 5) in
  let cx i := default 0 (c !! (i mod 5)%nat) in
  lanes (fun x y => Z.lxor (lane a x y) (Z.lxor (cx (x + 4)%nat) (rotl64 (cx (x + 1)%nat) 1))).

(** Rho rotates the lanes, pi moves lane [(x, y)] to [(y, 2 x + 3 y)]. *)
Definition rho_pi (a : list Z) : list Z :=
  lanes (fun x y => let x' := (x + 3 * y)%nat in rotl64 (lane a x' x) (lane keccak_rot x' x)).

Definition chi (a : list Z) : list Z :=
  lanes (fun x y => Z.lxor (lane a x y)
    (Z.land (Z.lxor (lane a (x + 1) y) 0xffffffffffffffff) (lane a (x + 2) y))).

Definition iota (rc : Z) (a : list Z) : list Z :=
  match a with [] => [] | l :: r => Z.lxor l rc :: r end.

Definition keccakF1600 (a : list Z) : list Z :=
  foldl (fun a rc => iota rc (chi (rho_pi (theta a)))) a keccak_rc.

(** ** The sponge *)

(** The bytes of a lane, least significant first. *)
Definition le_lane (z : Z) : bytes := reverse (be_put 8 z).
Definition lane_le (b : bytes) : Z := be_get (reverse b).

Fixpoint le_lanes (fuel : nat) (b : bytes) : list Z :=
  match fuel, b with
  | S f, _ :: _ => lane_le (take 8 b) :: le_lanes f (drop 8 b)
  | _, _ => []
  end.

(** [xorIn]: a block of 136 bytes is 17 lanes. *)
Definition xorIn (a : list Z) (block : bytes) : list Z :=
  zip_with Z.lxor a (le_lanes 17 block ++ replicate 8 0).

Definition keccak_rate : nat := 136.

(** The domain byte 1, zeros, and the last bit of the block. *)
Definition keccak_pad (msg : bytes) : bytes :=
  let n := (keccak_rate - length msg mod keccak_rate)%nat in
  let p := [1] ++ replicate (n - 1) 0 in
  msg ++ take (n - 1) p ++ [Z.lxor (default 0 (p !! (n - 1)%nat)) 0x80].

Fixpoint absorb (fuel : nat) (a : list Z) (b : bytes) : list Z :=
  match fuel, b with
  | S f, _ :: _ => absorb f (keccakF1600 (xorIn a (take keccak_rate b))) (drop keccak_rate b)
  | _, _ => a
  end.

Definition Keccak256 (msg : bytes) : bytes :=
  let b := keccak_pad msg in
  take 32 (concat (map le_lane (absorb (length b) (replicate 25 0) b))).

(** The digest of the empty message, as Ethereum documents it. *)
Example Keccak256_empty :
  Keccak256 [] = hexb "c5d2460186f7233c927e7db2dcc703c0e500b653ca82273b7bfad8045d85a470".
Proof. vm_compute. reflexivity. Qed.

#[global] Arguments Keccak256 : simpl never.
