(* ===== verification/EthAbi.v ===== *)
(** * Calls in the ABI encoding: accounts/abi of the vendored go-ethereum

    The methods of the contract's ABI (cmd/ethatomicswap/contract/atomicswap.go),
    their 4-byte identifiers, [Pack], [MethodById], and unpacking: of the
    arguments of a call and of what a call returns; and its events. Only the four static types of
    this contract are modelled; addresses are 160-bit numbers. *)

From S2P Require Import Prelude Sha256 BigEndian Keccak.

(** ** Types, values, methods *)

(** [uint256], [uint8], [bytes32] and [address]. *)
Inductive Typ := UintTy | Uint8Ty | FixedBytesTy | AddressTy.
#[global] Instance Typ_eq_dec : EqDecision Typ.
Proof. solve_decision. Defined.

(** The Go values of these types: a [*big.Int], a [uint8], a [[32]byte], a
    [common.Address]. *)
Inductive GoValue :=
  | VBig (z : Z)
  | VUint8 (z : Z)
  | VBytes32 (b : bytes)
  | VAddress (a : Z).

Definition type_of (v : GoValue) : Typ :=
  match v with VBig _ => UintTy | VUint8 _ => Uint8Ty | VBytes32 _ => FixedBytesTy | VAddress _ => AddressTy end.

Record Argument := mkArgument { ArgName : string; ArgType : Typ }.
Record Method := mkMethod { Name : string; Inputs : list Argument; Outputs : list Argument }.

(** The functions of [ContractABI], in the order of the JSON text. *)
Definition Methods : list Method :=
  [mkMethod "participate" [mkArgument "refundTime" UintTy; mkArgument "secretHash" FixedBytesTy; mkArgument "initiator" AddressTy] [];
   mkMethod "refund" [mkArgument "secretHash" FixedBytesTy] [];
   mkMethod "initiate" [mkArgument "refundTime" UintTy; mkArgument "secretHash" FixedBytesTy; mkArgument "participant" AddressTy] [];
   mkMethod "redeem" [mkArgument "secret" FixedBytesTy; mkArgument "secretHash" FixedBytesTy] [];
   mkMethod "swaps" [mkArgument "" FixedBytesTy]
     [mkArgument "initTimestamp" UintTy; mkArgument "refundTime" UintTy; mkArgument "secretHash" FixedBytesTy;
      mkArgument "secret" FixedBytesTy; mkArgument "initiator" AddressTy; mkArgument "participant" AddressTy;
      mkArgument "value" UintTy; mkArgument "kind" Uint8Ty; mkArgument "state" Uint8Ty]]%string.

(** The events of [ContractABI]: none is anonymous, and no argument is indexed. *)
Record AbiEvent := mkAbiEvent { RawName : string; EventInputs : list Argument }.
Definition Events : list AbiEvent :=
  [mkAbiEvent "Refunded" [mkArgument "refundTime" UintTy; mkArgument "secretHash" FixedBytesTy; mkArgument "refunder" AddressTy; mkArgument "value" UintTy];
   mkAbiEvent "Redeemed" [mkArgument "redeemTime" UintTy; mkArgument "secretHash" FixedBytesTy; mkArgument "secret" FixedBytesTy;
     mkArgument "redeemer" AddressTy; mkArgument "value" UintTy];
   mkAbiEvent "Participated" [mkArgument "initTimestamp" UintTy; mkArgument "refundTime" UintTy; mkArgument "secretHash" FixedBytesTy;
     mkArgument "initiator" AddressTy; mkArgument "participant" AddressTy; mkArgument "value" UintTy];
   mkAbiEvent "Initiated" [mkArgument "initTimestamp" UintTy; mkArgument "refundTime" UintTy; mkArgument "secretHash" FixedBytesTy;
     mkArgument "initiator" AddressTy; mkArgument "participant" AddressTy; mkArgument "value" UintTy]]%string.

(** [Type.String] *)
Definition stringKind (t : Typ) : string :=
  match t with UintTy => "uint256" | Uint8Ty => "uint8" | FixedBytesTy => "bytes32" | AddressTy => "address" end.

(** [Method.Sig] and [Method.ID], [Event.Sig] and [Event.ID] *)
Definition Sig (m : Method) : string :=
  (Name m +:+ "(" +:+ String.concat "," (map (fun a => stringKind (ArgType a)) (Inputs m)) +:+ ")")%string.
Definition ID (m : Method) : bytes := take 4 (Keccak256 (bytes_of_string (Sig m))).
Definition Event_Sig (e : AbiEvent) : string :=
  (RawName e +:+ "(" +:+ String.concat "," (map (fun a => stringKind (ArgType a)) (EventInputs e)) +:+ ")")%string.
Definition Event_ID (e : AbiEvent) : bytes := Keccak256 (bytes_of_string (Event_Sig e)).

(** ** Packing *)

(** [U256]: the two's complement of the number on 32 bytes. *)
Definition U256 (n : Z) : bytes := be_put 32 (to_uint 256 n).

(** [common.LeftPadBytes(b, 32)], [common.RightPadBytes(b, 32)] *)
Definition LeftPad32 (b : bytes) : bytes := if 32 <=? zlen b then b else replicate (32 - length b) 0 ++ b.
Definition RightPad32 (b : bytes) : bytes := if 32 <=? zlen b then b else b ++ replicate (32 - length b) 0.

(** The 20 bytes of an address. *)
Definition address_bytes (a : Z) : bytes := be_put 20 a.

(** [Type.pack]: the kind of the value is checked (arrays of any size are of
    the same kind, but a fixed byte array must have the right size). *)
Definition pack (t : Typ) (v : GoValue) : outcome bytes :=
  match t, v with
  | UintTy, VBig z | Uint8Ty, VUint8 z => Ret (U256 z)
  | FixedBytesTy, VBytes32 b => Ret (RightPad32 b)
  | AddressTy, VAddress a => Ret (LeftPad32 (address_bytes a))
  | AddressTy, VBytes32 b => Ret (LeftPad32 b)
  | _, _ => Fail (ErrNew "abi: cannot use type as argument")
  end.

Fixpoint pack_all (args : list Argument) (vs : list GoValue) : outcome bytes :=
  match args, vs with
  | a :: args, v :: vs =>
      packed ← pack (ArgType a) v;
      r ← pack_all args vs;
      Ret (packed ++ r)
  | _, _ => Ret []
  end.

Definition Arguments_Pack (args : list Argument) (vs : list GoValue) : outcome bytes :=
  _ ← guard_err (negb (zlen vs =? zlen args)) (Errorf "argument count mismatch: %d for %d" [FInt (zlen vs); FInt (zlen args)]);
  pack_all args vs.

(** [ABI.Pack] *)
Definition Pack (name : string) (vs : list GoValue) : outcome bytes :=
  match List.find (fun m => String.eqb (Name m) name) Methods with
  | None => Fail (Errorf "method '%s' not found" [FStr name])
  | Some m => arguments ← Arguments_Pack (Inputs m) vs; Ret (ID m ++ arguments)
  end.

(** ** Unpacking *)

(** [ABI.MethodById] *)
Definition MethodById (sigdata : bytes) : outcome Method :=
  _ ← guard_err (zlen sigdata <? 4) (Errorf "data too short (%d bytes) for abi method lookup" [FInt (zlen sigdata)]);
  of_option (Errorf "no method with id: %#x" [FBytes (take 4 sigdata)])
    (List.find (fun m => bool_decide (ID m = take 4 sigdata)) Methods).

(** [common.BytesToAddress]: the last 20 bytes. *)
Definition BytesToAddress (b : bytes) : Z :=
  be_get (if 20 <? zlen b then drop (length b - 20) b else b).

(** [toGoType] at a byte offset, for the static types. *)
Definition toGoType (index : Z) (t : Typ) (output : bytes) : outcome GoValue :=
  _ ← guard_err (zlen output <? index + 32)
        (Errorf "abi: cannot marshal in to go type: length insufficient %d require %d"
           [FInt (zlen output); FInt (index + 32)]);
  let returnOutput := take 32 (drop (Z.to_nat index) output) in
  Ret (match t with
       | UintTy => VBig (be_get returnOutput)
       | Uint8Ty => VUint8 (default 0 (last returnOutput))
       | FixedBytesTy => VBytes32 returnOutput
       | AddressTy => VAddress (BytesToAddress returnOutput)
       end).

(** [Arguments.UnpackValues] *)
Fixpoint unpack_values (index : Z) (args : list Argument) (data : bytes) : outcome (list GoValue) :=
  match args with
  | [] => Ret []
  | a :: args =>
      v ← toGoType (index * 32) (ArgType a) data;
      vs ← unpack_values (index + 1) args data;
      Ret (v :: vs)
  end.
Definition UnpackValues (args : list Argument) (data : bytes) : outcome (list GoValue) :=
  unpack_values 0 args data.

Definition cannot_unmarshal : error := ErrNew "abi: cannot unmarshal".

(** [method.Inputs.Unpack(&paramSlice, data)] of [unpackContractInputParams]:
    the destination is a slice of three interfaces that hold pointers to a
    [*big.Int], a [[32]byte] and an address. A single argument cannot be
    stored in a slice; more than three do not fit; each value must have the
    type of its destination. *)
Definition Unpack_slice (args : list Argument) (data : bytes) : outcome (Z * bytes * Z) :=
  vs ← UnpackValues args data;
  _ ← guard_err (negb (1 <? zlen args)) cannot_unmarshal;
  _ ← guard_err (3 <? zlen args)
        (Errorf "abi: insufficient number of elements in the list/array for unpack, want %d, got %d"
           [FInt (zlen args); FInt 3]);
  match vs with
  | [VBig z; VBytes32 b; VAddress a] => Ret (z, b, a)
  | [VBig z; VBytes32 b] => Ret (z, b, 0)
  | _ => Fail cannot_unmarshal
  end.

(** A struct to unpack into is given by its fields and their types, none with a
    tag; what is stored into it is a map from fields to values. *)
Abbreviation fields := (list (string * Typ)).
Abbreviation go_struct := (gmap string GoValue).

(** [ToCamelCase]: an underscore (character 95) is dropped and what follows begins
    with a capital letter. *)
Definition upper_ascii (c : Ascii.ascii) : Ascii.ascii :=
  let n := Ascii.nat_of_ascii c in
  if (97 <=? n)%nat && (n <=? 122)%nat then Ascii.ascii_of_nat (n - 32) else c.
Fixpoint camel_case (first : bool) (s : string) : string :=
  match s with
  | EmptyString => EmptyString
  | String c r => if Ascii.eqb c (Ascii.ascii_of_nat 95) then camel_case true r
                  else String (if first then upper_ascii c else c) (camel_case false r)
  end.
Definition ToCamelCase : string -> string := camel_case true.

(** Reading a Go map from strings to strings. *)
Definition name_at (m : gmap string string) (k : string) : string := default ""%string (m !! k).
Definition has_field (fs : fields) (f : string) : bool := existsb (fun p => String.eqb p.1 f) fs.

(** The second round of [mapArgNamesToStructFields]; the first is about tags. *)
Fixpoint pair_names (argNames : list string) (fs : fields) (abi2struct struct2abi : gmap string string) : outcome (gmap string string) :=
  match argNames with
  | [] => Ret abi2struct
  | argName :: rest =>
      let f := ToCamelCase argName in
      if String.eqb f "" then Fail (ErrNew "abi: purely underscored output cannot unpack to struct")
      else if negb (String.eqb (name_at abi2struct argName) "") then
        if negb (String.eqb (name_at abi2struct argName) f) && String.eqb (name_at struct2abi f) "" && has_field fs f
        then Fail (Errorf "abi: multiple variables maps to the same abi field '%s'" [FStr argName])
        else pair_names rest fs abi2struct struct2abi
      else if negb (String.eqb (name_at struct2abi f) "") then
        Fail (Errorf "abi: multiple outputs mapping to the same struct field '%s'" [FStr f])
      else pair_names rest fs (if has_field fs f then <[argName := f]> abi2struct else abi2struct) (<[f := argName]> struct2abi)
  end.
Definition mapArgNamesToStructFields (argNames : list string) (fs : fields) : outcome (gmap string string) :=
  pair_names argNames fs ∅ ∅.

(** One turn of the loop of [unpackTuple] for a struct, with [set]. *)
Definition set_field (fs : fields) (abi2struct : gmap string string) (argName : string) (v : GoValue) (st : go_struct) : outcome go_struct :=
  match List.find (fun p => String.eqb p.1 (name_at abi2struct argName)) fs with
  | None => Fail (Errorf "abi: field %s can't be found in the given value" [FStr argName])
  | Some (f, t) => if decide (type_of v = t) then Ret (<[f := v]> st) else Fail cannot_unmarshal
  end.
Fixpoint set_fields (fs : fields) (abi2struct : gmap string string) (args : list Argument) (vs : list GoValue) (st : go_struct) : outcome go_struct :=
  match args, vs with
  | a :: args, v :: vs => st ← set_field fs abi2struct (ArgName a) v st; set_fields fs abi2struct args vs st
  | _, _ => Ret st
  end.

(** [Arguments.Unpack] into a struct. A tuple and a single argument are stored
    alike; without arguments there is no first value. *)
Definition Unpack_struct (fs : fields) (args : list Argument) (data : bytes) : outcome go_struct :=
  vs ← UnpackValues args data;
  match args with
  | [] => Panic (ErrNew "index out of range")
  | _ => abi2struct ← mapArgNamesToStructFields (map ArgName args) fs; set_fields fs abi2struct args vs ∅
  end.

(** Reading the fields of a struct: those not stored have their zero value. *)
Definition big_field (st : go_struct) (f : string) : option Z := match st !! f with Some (VBig z) => Some z | _ => None end.
Definition uint8_field (st : go_struct) (f : string) : Z := match st !! f with Some (VUint8 z) => z | _ => 0 end.
Definition bytes32_field (st : go_struct) (f : string) : bytes := match st !! f with Some (VBytes32 b) => b | _ => replicate 32 0 end.
Definition address_field (st : go_struct) (f : string) : Z := match st !! f with Some (VAddress a) => a | _ => 0 end.

(** [method.Inputs.Unpack(&params, data)] of [extractSecretCmd], for a struct
    with the fields [Secret] and [SecretHash]. *)
Definition redeem_fields : fields := [("Secret", FixedBytesTy); ("SecretHash", FixedBytesTy)]%string.
Definition Unpack_redeem (args : list Argument) (data : bytes) : outcome (bytes * bytes) :=
  st ← Unpack_struct redeem_fields args data;
  Ret (bytes32_field st "Secret", bytes32_field st "SecretHash").

(** [ABI.Unpack], into a struct: of what a method returns, or of the data of an
    event. *)
Definition ABI_Unpack (fs : fields) (name : string) (data : bytes) : outcome go_struct :=
  _ ← guard_err (zlen data =? 0) (ErrNew "abi: unmarshalling empty output");
  match List.find (fun m => String.eqb (Name m) name) Methods with
  | Some m =>
      _ ← guard_err (negb (zlen data mod 32 =? 0)) (Errorf "abi: improperly formatted output: %s - Bytes: [%+v]" [FBytes data; FBytes data]);
      Unpack_struct fs (Outputs m) data
  | None =>
      match List.find (fun e => String.eqb (RawName e) name) Events with
      | Some e => Unpack_struct fs (EventInputs e) data
      | None => Fail (ErrNew "abi: could not locate named method or event")
      end
  end.

(** ** The identifiers *)

(** The identifiers are those of the generated binding, all different. *)
Lemma method_ids : map ID Methods =
  [hexb "1aa02853"; hexb "7249fbb6"; hexb "ae052147"; hexb "b31597ad"; hexb "eb84e7f2"].
Proof. vm_compute. reflexivity. Qed.

(** Those of the events too. *)
Lemma event_ids : map Event_ID Events =
  [hexb "adb1dca52dfad065e50a1e25c2ee47ae54013a1f2d6f8ea5abace52eb4b7a4c8";
   hexb "e4da013d8c42cdfa76ab1d5c08edcdc1503d2da88d7accc854f0e57ebe45c591";
   hexb "e5571d467a528d7481c0e3bdd55ad528d0df6b457b07bab736c3e245c3aa16f4";
   hexb "75501a491c11746724d18ea6e5ac6a53864d886d653da6b846fdecda837cf576"].
Proof. vm_compute. reflexivity. Qed.

#[global] Arguments ID : simpl never.
#[global] Arguments Event_ID : simpl never.
#[global] Arguments U256 : simpl never.
#[global] Arguments LeftPad32 : simpl never.
#[global] Arguments RightPad32 : simpl never.
#[global] Arguments address_bytes : simpl never.

Lemma ID_length m : In m Methods -> length (ID m) = 4%nat.
Proof. intros H. repeat destruct H as [<-|H]; [by vm_compute..|done]. Qed.

Lemma MethodById_ID m d : In m Methods -> MethodById (ID m ++ d) = Ret m.
Proof.
  intros H. unfold MethodById. pose proof (ID_length m H) as Hl.
  rewrite zlen_app. unfold zlen at 1. rewrite Hl.
  destruct (Z.ltb_spec (Z.of_nat 4 + zlen d) 4) as [Hlt|_]; [pose proof (zlen_nonneg d); lia|]. simpl mbind.
  rewrite take_app_length' by done.
  repeat destruct H as [<-|H]; [by vm_compute..|done].
Qed.
