(* ===== verification/EthTx.v ===== *)
(** * Ethereum transactions in RLP

    [types.Transaction] of the vendored go-ethereum (core/types/transaction.go)
    and its encoding with package rlp, in both directions, the hash, and the
    round trip that lets a printed contract transaction be read back by the
    other commands. *)

From S2P Require Import Prelude Sha256 BigEndian Keccak.

(** ** Transactions *)

(** [txdata], without the field used only for JSON. *)
Record Transaction := mkTransaction {
  AccountNonce : Z; Price : Z; GasLimit : Z; Recipient : option Z; Amount : Z;
  Payload : bytes; V : Z; R : Z; S_ : Z }.

(** [NewTransaction] and [NewContractCreation]: not signed yet. *)
Definition NewTransaction (nonce to amount gasLimit gasPrice : Z) (data : bytes) : Transaction :=
  mkTransaction nonce gasPrice gasLimit (Some to) amount data 0 0 0.
Definition NewContractCreation (nonce amount gasLimit gasPrice : Z) (data : bytes) : Transaction :=
  mkTransaction nonce gasPrice gasLimit None amount data 0 0 0.

(** ** Encoding *)

(** [puthead] *)
Definition puthead (smalltag largetag size : Z) : bytes :=
  if size <? 56 then [smalltag + size]
  else let b := int_bytes size in (largetag + zlen b) :: b.

(** [encbuf.encodeString] *)
Definition encodeString (b : bytes) : bytes :=
  match b with
  | [c] => if c <=? 0x7f then [c] else puthead 0x80 0xb7 1 ++ b
  | _ => puthead 0x80 0xb7 (zlen b) ++ b
  end.

Definition writeUint (i : Z) : bytes :=
  if i =? 0 then [0x80]
  else if i <? 128 then [i]
  else let b := int_bytes i in (0x80 + zlen b) :: b.

Definition writeBigInt (i : Z) : outcome bytes :=
  if i <? 0 then Fail (ErrNew "rlp: cannot encode negative *big.Int")
  else if i =? 0 then Ret [0x80]
  else Ret (encodeString (int_bytes i)).

(** [writeByteArray] behind the pointer writer for a nil address. *)
Definition writeAddressPtr (a : option Z) : bytes :=
  match a with None => [0x80] | Some a => encodeString (be_put 20 a) end.

(** [rlp.EncodeToBytes(tx)] *)
Definition EncodeToBytes (tx : Transaction) : outcome bytes :=
  price ← writeBigInt (Price tx);
  amount ← writeBigInt (Amount tx);
  v ← writeBigInt (V tx);
  r ← writeBigInt (R tx);
  s ← writeBigInt (S_ tx);
  let content := writeUint (AccountNonce tx) ++ price ++ writeUint (GasLimit tx)
    ++ writeAddressPtr (Recipient tx) ++ amount ++ encodeString (Payload tx) ++ v ++ r ++ s in
  Ret (puthead 0xc0 0xf7 (zlen content) ++ content).

(** [tx.Hash()] : [rlpHash] ignores the error of [rlp.Encode]. *)
Definition Hash (tx : Transaction) : bytes :=
  Keccak256 (match EncodeToBytes tx with Ret b => b | _ => [] end).

(** ** Decoding *)

Inductive RlpKind := KByte | KString | KList.
#[global] Instance RlpKind_eq_dec : EqDecision RlpKind.
Proof. solve_decision. Defined.

Definition ErrCanonInt : error := ErrNew "rlp: non-canonical integer format".
Definition ErrCanonSize : error := ErrNew "rlp: non-canonical size information".
Definition ErrElemTooLarge : error := ErrNew "rlp: element is larger than containing list".
Definition ErrValueTooLarge : error := ErrNew "rlp: value size exceeds available input length".
Definition ErrExpectedList : error := ErrNew "rlp: expected List".
Definition ErrExpectedString : error := ErrNew "rlp: expected String or Byte".
Definition errUintOverflow : error := ErrNew "rlp: uint overflow".
Definition errTooFew : error := ErrNew "rlp: too few elements".
Definition errNotAtEOL : error := ErrNew "rlp: input list has too many elements".
Definition ErrMoreThanOneValue : error := ErrNew "rlp: input contains more than one value".
Definition errStringLength : error := ErrNew "rlp: input string has the wrong length".

Section Decode.
(** The error for a value that does not fit what is left to read, which is
    different at the top level and inside a list. *)
Context (too_large at_end : error).

(** [Stream.readUint]: a number of [n] bytes. *)
Definition readUint (n : Z) (l : bytes) : outcome (Z * bytes) :=
  if n =? 0 then Ret (0, l)
  else
    _ ← guard_err (zlen l <? n) too_large;
    let b := take (Z.to_nat n) l in
    _ ← guard_err ((1 <? n) && (default 0 (head b) =? 0)) ErrCanonSize;
    Ret (be_get b, drop (Z.to_nat n) l).

Definition readSize (n : Z) (l : bytes) : outcome (Z * bytes) :=
  '(size, l) ← readUint n l;
  _ ← guard_err (size <? 56) ErrCanonSize;
  Ret (size, l).

(** [Stream.Kind]: the kind, the size and the single byte, and what follows
    the header. *)
Definition stream_Kind (l : bytes) : outcome (RlpKind * Z * Z * bytes) :=
  match l with
  | [] => Fail at_end
  | b :: l =>
      '(k, size, byteval, l) ←
        (if b <? 0x80 then Ret (KByte, 0, b, l)
         else if b <? 0xb8 then Ret (KString, b - 0x80, 0, l)
         else if b <? 0xc0 then '(size, l) ← readSize (b - 0xb7) l; Ret (KString, size, 0, l)
         else if b <? 0xf8 then Ret (KList, b - 0xc0, 0, l)
         else '(size, l) ← readSize (b - 0xf7) l; Ret (KList, size, 0, l));
      _ ← guard_err (zlen l <? size) too_large;
      Ret (k, size, byteval, l)
  end.
End Decode.

(** Inside the transaction's list. *)
Definition Kind_in := stream_Kind ErrElemTooLarge errTooFew.

(** [Stream.Bytes] *)
Definition stream_Bytes (l : bytes) : outcome (bytes * bytes) :=
  '(k, size, byteval, l) ← Kind_in l;
  match k with
  | KByte => Ret ([byteval], l)
  | KString =>
      let b := take (Z.to_nat size) l in
      _ ← guard_err ((size =? 1) && (default 0 (head b) <? 128)) ErrCanonSize;
      Ret (b, drop (Z.to_nat size) l)
  | KList => Fail ErrExpectedString
  end.

(** [Stream.uint(64)]; the number fits, so [readUint] can only object to a
    leading zero. *)
Definition stream_uint64 (l : bytes) : outcome (Z * bytes) :=
  '(k, size, byteval, l) ← Kind_in l;
  match k with
  | KByte => _ ← guard_err (byteval =? 0) ErrCanonInt; Ret (byteval, l)
  | KString =>
      _ ← guard_err (64 / 8 <? size) errUintOverflow;
      '(v, l) ← mapErr (fun _ => ErrCanonInt) (readUint ErrElemTooLarge size l);
      _ ← guard_err ((0 <? size) && (v <? 128)) ErrCanonSize;
      Ret (v, l)
  | KList => Fail ErrExpectedString
  end.

Definition decodeBigInt (l : bytes) : outcome (Z * bytes) :=
  '(b, l) ← stream_Bytes l;
  _ ← guard_err ((0 <? zlen b) && (default 0 (head b) =? 0)) ErrCanonInt;
  Ret (be_get b, l).

(** [makeNilPtrDecoder] around [decodeByteArray], for [*common.Address]. *)
Definition decodeAddressPtr (l : bytes) : outcome (option Z * bytes) :=
  '(k, size, byteval, l) ← Kind_in l;
  if negb (bool_decide (k = KByte)) && (size =? 0) then
    _ ← guard_err (negb (bool_decide (k = KString))) (ErrNew "rlp: wrong kind of empty value");
    Ret (None, l)
  else match k with
  | KByte => Fail errStringLength
  | KString =>
      _ ← guard_err (negb (size =? 20)) errStringLength;
      Ret (Some (be_get (take 20 l)), drop 20 l)
  | KList => Fail ErrExpectedString
  end.

(** [rlp.DecodeBytes(slice, &tx)] *)
Definition DecodeBytes (l : bytes) : outcome Transaction :=
  '(k, size, _, l) ← stream_Kind ErrValueTooLarge (ErrNew "EOF") l;
  _ ← guard_err (negb (bool_decide (k = KList))) ErrExpectedList;
  let rest := drop (Z.to_nat size) l in
  let l := take (Z.to_nat size) l in
  '(nonce, l) ← stream_uint64 l;
  '(price, l) ← decodeBigInt l;
  '(gas, l) ← stream_uint64 l;
  '(to, l) ← decodeAddressPtr l;
  '(amount, l) ← decodeBigInt l;
  '(data, l) ← stream_Bytes l;
  '(v, l) ← decodeBigInt l;
  '(r, l) ← decodeBigInt l;
  '(s, l) ← decodeBigInt l;
  _ ← guard_err (0 <? zlen l) errNotAtEOL;
  _ ← guard_err (0 <? zlen rest) ErrMoreThanOneValue;
  Ret (mkTransaction nonce price gas to amount data v r s).

(** ** Reading back what was written *)

Section RoundTrip.
Context (te ae : error).

Lemma zlen_app_ltb {A} (b r : list A) : (zlen (b ++ r) <? zlen b) = false.
Proof. rewrite zlen_app. pose proof (zlen_nonneg r). lia. Qed.

Lemma readUint_int_bytes z r : 0 <= z -> readUint te (zlen (int_bytes z)) (int_bytes z ++ r) = Ret (z, r).
Proof.
  intros Hz. destruct (decide (z = 0)) as [->|]; [done|]. unfold readUint.
  destruct (int_bytes_head z) as (b & l & E & Hb); [lia|].
  rewrite (proj2 (Z.eqb_neq _ 0)) by (rewrite E, zlen_cons; pose proof (zlen_nonneg l); lia).
  rewrite zlen_app_ltb. simpl. rewrite take_zlen_app, drop_zlen_app, be_get_int_bytes by done.
  rewrite E at 2. simpl. rewrite (proj2 (Z.eqb_neq b 0)) by done. by rewrite andb_false_r.
Qed.

Lemma readSize_int_bytes z r : 56 <= z -> readSize te (zlen (int_bytes z)) (int_bytes z ++ r) = Ret (z, r).
Proof.
  intros Hz. unfold readSize. rewrite readUint_int_bytes by lia. simpl.
  by rewrite (proj2 (Z.ltb_ge z 56)).
Qed.

(** A header is read back as the kind and the size it was written for. *)
Lemma Kind_string b r : zlen b < 2 ^ 64 ->
  stream_Kind te ae (puthead 0x80 0xb7 (zlen b) ++ b ++ r) = Ret (KString, zlen b, 0, b ++ r).
Proof.
  intros Hb. unfold puthead. pose proof (zlen_nonneg b) as H0. destruct (Z.ltb_spec (zlen b) 56).
  - unfold stream_Kind. cbn [app]. rewrite (proj2 (Z.ltb_ge _ 0x80)), (proj2 (Z.ltb_lt _ 0xb8)) by lia.
    cbn [mbind outcome_bind]. replace (128 + zlen b - 128) with (zlen b) by lia. by rewrite zlen_app_ltb.
  - pose proof (zlen_int_bytes (zlen b) 8 ltac:(lia) ltac:(lia)).
    destruct (int_bytes_head (zlen b)) as (c & l & E & _); [lia|].
    assert (1 <= zlen (int_bytes (zlen b))) by (rewrite E, zlen_cons; pose proof (zlen_nonneg l); lia).
    unfold stream_Kind. cbn [app].
    rewrite (proj2 (Z.ltb_ge _ 0x80)), (proj2 (Z.ltb_ge _ 0xb8)), (proj2 (Z.ltb_lt _ 0xc0)) by lia.
    rewrite Z.add_simpl_l, readSize_int_bytes by lia. cbn [mbind outcome_bind]. by rewrite zlen_app_ltb.
Qed.

Lemma Kind_list b r : zlen b < 2 ^ 64 ->
  stream_Kind te ae (puthead 0xc0 0xf7 (zlen b) ++ b ++ r) = Ret (KList, zlen b, 0, b ++ r).
Proof.
  intros Hb. unfold puthead. pose proof (zlen_nonneg b) as H0. destruct (Z.ltb_spec (zlen b) 56).
  - unfold stream_Kind. cbn [app].
    rewrite (proj2 (Z.ltb_ge _ 0x80)), (proj2 (Z.ltb_ge _ 0xb8)), (proj2 (Z.ltb_ge _ 0xc0)), (proj2 (Z.ltb_lt _ 0xf8)) by lia.
    cbn [mbind outcome_bind]. replace (192 + zlen b - 192) with (zlen b) by lia. by rewrite zlen_app_ltb.
  - pose proof (zlen_int_bytes (zlen b) 8 ltac:(lia) ltac:(lia)).
    destruct (int_bytes_head (zlen b)) as (c & l & E & _); [lia|].
    assert (1 <= zlen (int_bytes (zlen b))) by (rewrite E, zlen_cons; pose proof (zlen_nonneg l); lia).
    unfold stream_Kind. cbn [app].
    rewrite (proj2 (Z.ltb_ge _ 0x80)), (proj2 (Z.ltb_ge _ 0xb8)), (proj2 (Z.ltb_ge _ 0xc0)), (proj2 (Z.ltb_ge _ 0xf8)) by lia.
    rewrite Z.add_simpl_l, readSize_int_bytes by lia. cbn [mbind outcome_bind]. by rewrite zlen_app_ltb.
Qed.
End RoundTrip.

(** A single byte below 128 is its own encoding. *)
Lemma Kind_byte te ae c r : 0 <= c < 0x80 -> stream_Kind te ae (c :: r) = Ret (KByte, 0, c, r).
Proof.
  intros Hc. unfold stream_Kind. rewrite (proj2 (Z.ltb_lt c 0x80)) by lia. cbn [mbind outcome_bind].
  by rewrite (proj2 (Z.ltb_ge _ 0)) by apply zlen_nonneg.
Qed.

(** The two forms of an encoded string. *)
Lemma encodeString_cases b : bytes_ok b ->
  (exists c, b = [c] /\ 0 <= c < 0x80 /\ encodeString b = [c])
  \/ (encodeString b = puthead 0x80 0xb7 (zlen b) ++ b /\ ((zlen b =? 1) && (default 0 (head b) <? 128) = false)).
Proof.
  intros Hok. destruct b as [|c [|d l]].
  - right. done.
  - unfold encodeString. apply Forall_inv in Hok. unfold is_byte in Hok. destruct (Z.leb_spec c 0x7f).
    + left. exists c. split_and!; [done|lia|lia|done].
    + right. split; [done|]. simpl. lia.
  - right. split; [done|]. rewrite !zlen_cons. pose proof (zlen_nonneg l). lia.
Qed.

Lemma stream_Bytes_encode b r : bytes_ok b -> zlen b < 2 ^ 64 ->
  stream_Bytes (encodeString b ++ r) = Ret (b, r).
Proof.
  intros Hok Hb. unfold stream_Bytes, Kind_in.
  destruct (encodeString_cases b Hok) as [(c & -> & Hc & ->)|[-> Hs]].
  - cbn [app]. by rewrite Kind_byte.
  - rewrite <-app_assoc, Kind_string by done. cbn [mbind outcome_bind].
    rewrite take_zlen_app, Hs. cbn [guard_err mbind outcome_bind]. by rewrite drop_zlen_app.
Qed.

Lemma decodeBigInt_write z r w : writeBigInt z = Ret w -> zlen (int_bytes z) < 2 ^ 64 ->
  decodeBigInt (w ++ r) = Ret (z, r).
Proof.
  unfold writeBigInt. destruct (Z.ltb_spec z 0); [done|]. destruct (Z.eqb_spec z 0) as [->|Hz].
  - intros [= <-] _. unfold decodeBigInt. change [128] with (encodeString []).
    by rewrite stream_Bytes_encode by (try constructor; done).
  - intros [= <-] Hl. unfold decodeBigInt. rewrite stream_Bytes_encode by (done || apply int_bytes_ok).
    cbn [mbind outcome_bind]. rewrite be_get_int_bytes by lia.
    destruct (int_bytes_head z) as (b & l & -> & Hb); [lia|]. simpl.
    rewrite (proj2 (Z.eqb_neq b 0)) by done. by rewrite ?andb_false_r.
Qed.

Lemma stream_uint64_write z r : is_uint 64 z -> stream_uint64 (writeUint z ++ r) = Ret (z, r).
Proof.
  unfold is_uint. intros Hz. unfold writeUint. destruct (Z.eqb_spec z 0) as [->|].
  - unfold stream_uint64, Kind_in, stream_Kind. simpl.
    rewrite (proj2 (Z.ltb_ge _ 0)) by apply zlen_nonneg. done.
  - destruct (Z.ltb_spec z 128).
    + unfold stream_uint64, Kind_in. cbn [app]. rewrite Kind_byte by lia. simpl.
      by rewrite (proj2 (Z.eqb_neq z 0)).
    + cbv zeta. pose proof (zlen_int_bytes z 8 ltac:(lia) ltac:(lia)).
      destruct (int_bytes_head z) as (c & l & E & _); [lia|].
      assert (1 <= zlen (int_bytes z)) by (rewrite E, zlen_cons; pose proof (zlen_nonneg l); lia).
      replace ((128 + zlen (int_bytes z)) :: int_bytes z) with (puthead 0x80 0xb7 (zlen (int_bytes z)) ++ int_bytes z)
        by (unfold puthead; by rewrite (proj2 (Z.ltb_lt _ 56)) by lia).
      rewrite <-app_assoc. unfold stream_uint64, Kind_in. rewrite Kind_string by lia. cbn [mbind outcome_bind].
      change (64 / 8) with 8. rewrite (proj2 (Z.ltb_ge 8 _)) by lia. cbn [guard_err mbind outcome_bind].
      rewrite readUint_int_bytes by lia. cbn [mapErr mbind outcome_bind].
      by rewrite (proj2 (Z.ltb_ge z 128)), andb_false_r by lia.
Qed.

Lemma decodeAddressPtr_write a r : match a with Some a => is_uint 160 a | None => True end ->
  decodeAddressPtr (writeAddressPtr a ++ r) = Ret (a, r).
Proof.
  intros Ha. unfold decodeAddressPtr, Kind_in, writeAddressPtr. destruct a as [a|].
  - assert (zlen (be_put 20 a) = 20) as El by apply zlen_be_put.
    replace (encodeString (be_put 20 a)) with (puthead 0x80 0xb7 (zlen (be_put 20 a)) ++ be_put 20 a) by done.
    rewrite <-app_assoc, Kind_string by (rewrite El; done). cbn [mbind outcome_bind].
    rewrite El. cbn [Z.eqb Pos.eqb negb bool_decide guard_err mbind outcome_bind andb].
    rewrite take_app_length', drop_app_length', be_get_put by (by rewrite be_put_length).
    unfold is_uint in Ha. rewrite Z.mod_small by (change (256 ^ Z.of_nat 20) with (2 ^ 160); lia). done.
  - simpl. rewrite (proj2 (Z.ltb_ge _ 0)) by apply zlen_nonneg. done.
Qed.

(** The numbers of a transaction fit their fields, and its content a 64-bit size. *)
Record tx_ok (tx : Transaction) : Prop := {
  ok_nonce : is_uint 64 (AccountNonce tx);
  ok_gas : is_uint 64 (GasLimit tx);
  ok_to : match Recipient tx with Some a => is_uint 160 a | None => True end;
  ok_payload : bytes_ok (Payload tx);
  ok_size b : EncodeToBytes tx = Ret b -> zlen b < 2 ^ 64 }.

(** Parts are no longer than the whole. *)
Lemma zlen_encodeString b : zlen b <= zlen (encodeString b).
Proof. unfold encodeString. destruct b as [|c [|d l]]; [|destruct (c <=? 127)|]; zlen_lia. Qed.

Lemma writeBigInt_len z w : writeBigInt z = Ret w -> zlen (int_bytes z) <= zlen w.
Proof.
  unfold writeBigInt. destruct (z <? 0); [done|]. destruct (Z.eqb_spec z 0) as [->|]; intros [= <-]; [done|].
  apply zlen_encodeString.
Qed.

Lemma decode_encode tx b : tx_ok tx -> EncodeToBytes tx = Ret b -> DecodeBytes b = Ret tx.
Proof.
  intros [Hn Hg Ht Hp Hs] H. specialize (Hs b H). unfold EncodeToBytes in H.
  apply bind_Ret in H as (price & Hprice & H). apply bind_Ret in H as (amount & Hamount & H).
  apply bind_Ret in H as (v & Hv & H). apply bind_Ret in H as (r & Hr & H).
  apply bind_Ret in H as (s & Hsig & H). cbv zeta in H. injection H as <-.
  rewrite zlen_app in Hs. set (content := writeUint (AccountNonce tx) ++ _) in *.
  pose proof (zlen_nonneg (puthead 192 247 (zlen content))).
  assert (zlen content < 2 ^ 64) as Hc by lia.
  unfold DecodeBytes. rewrite <-(app_nil_r content) at 2. rewrite Kind_list by done. cbn [mbind outcome_bind].
  rewrite bool_decide_eq_true_2 by done. cbn [negb guard_err mbind outcome_bind].
  rewrite take_zlen_app, drop_zlen_app. unfold content in *. rewrite !zlen_app in Hc.
  pose proof (writeBigInt_len _ _ Hprice). pose proof (writeBigInt_len _ _ Hamount).
  pose proof (writeBigInt_len _ _ Hv). pose proof (writeBigInt_len _ _ Hr). pose proof (writeBigInt_len _ _ Hsig).
  pose proof (zlen_encodeString (Payload tx)).
  repeat match type of Hc with context [zlen ?l] =>
    lazymatch goal with _ : 0 <= zlen l |- _ => fail | _ => pose proof (zlen_nonneg l) end end.
  rewrite stream_uint64_write by done. cbn [mbind outcome_bind].
  erewrite decodeBigInt_write by (done || lia). cbn [mbind outcome_bind].
  rewrite stream_uint64_write by done. cbn [mbind outcome_bind].
  rewrite decodeAddressPtr_write by done. cbn [mbind outcome_bind].
  erewrite decodeBigInt_write by (done || lia). cbn [mbind outcome_bind].
  rewrite stream_Bytes_encode by (done || lia). cbn [mbind outcome_bind].
  erewrite decodeBigInt_write by (done || lia). cbn [mbind outcome_bind].
  erewrite decodeBigInt_write by (done || lia). cbn [mbind outcome_bind].
  rewrite <-(app_nil_r s). erewrite decodeBigInt_write by (done || lia). cbn. by destruct tx.
Qed.

(** C35: Reading a transaction back: every transaction whose fields fit their
    types is decoded by [rlp.DecodeBytes] from its encoding to the same
    transaction, so the hexadecimal contract transaction the tool prints is the
    one [redeem], [refund] and [auditcontract] work on; and a transaction fails
    to encode only if one of its big integers is negative. *)
Theorem DecodeBytes_EncodeToBytes tx : tx_ok tx ->
  (0 <= Price tx -> 0 <= Amount tx -> 0 <= V tx -> 0 <= R tx -> 0 <= S_ tx ->
    exists b, EncodeToBytes tx = Ret b)
  /\ (forall b, EncodeToBytes tx = Ret b -> DecodeBytes b = Ret tx).
Proof.
  intros Hok. split; [|intros b; by apply decode_encode].
  intros H1 H2 H3 H4 H5. assert (forall z, 0 <= z -> exists w, writeBigInt z = Ret w) as Hw.
  { intros z Hz. unfold writeBigInt. rewrite (proj2 (Z.ltb_ge z 0)) by done. destruct (z =? 0); eauto. }
  unfold EncodeToBytes. destruct (Hw _ H1) as [? ->], (Hw _ H2) as [? ->], (Hw _ H3) as [? ->],
    (Hw _ H4) as [? ->], (Hw _ H5) as [? ->]. simpl. eauto.
Qed.

(** The example transaction of EIP 155 and its published encoding. *)
Module Eip155.
Definition tx : Transaction :=
  mkTransaction 9 20000000000 21000 (Some 0x3535353535353535353535353535353535353535)
    1000000000000000000 [] 37 0x28ef61340bd939bc2195fe537567866003e1a15d3c71ff63e1590620aa636276
    0x67cbe9d8997f761aecb703304b3800ccf555c9f3dc64214b297fb1966a3b6d83.
End Eip155.

Example EncodeToBytes_eip155 : EncodeToBytes Eip155.tx = Ret (hexb
  "f86c098504a817c800825208943535353535353535353535353535353535353535880de0b6b3a76400008025a028ef61340bd939bc2195fe537567866003e1a15d3c71ff63e1590620aa636276a067cbe9d8997f761aecb703304b3800ccf555c9f3dc64214b297fb1966a3b6d83").
Proof. vm_compute. reflexivity. Qed.

Lemma DecodeBytes_EncodeToBytes_witness : exists b,
  EncodeToBytes Eip155.tx = Ret b /\ DecodeBytes b = Ret Eip155.tx.
Proof.
  destruct (DecodeBytes_EncodeToBytes Eip155.tx) as [H1 H2].
  - split; [done|done|done|constructor|]. intros b Hb. vm_compute in Hb. injection Hb as <-. by vm_compute.
  - destruct H1 as [b Hb]; [done..|]. exists b. split; [done|]. by apply H2.
Defined.
