(* ===== verification/EthBinding.v ===== *)
(** * The contract binding

    The generated binding (cmd/ethatomicswap/contract/atomicswap.go) over
    [BoundContract] of the vendored accounts/abi/bind: [Swaps], which the tool
    uses to read a swap, and the transactors, whose work the tool does with
    functions of its own. The events are in [EthEvents]. *)

From S2P Require Import Prelude BigEndian Keccak EthAbi EthTx Cli.

(** ** The node, as the binding sees it *)

(** [ethereum.CallMsg]; without gas limit and price, which are never set. *)
Record CallMsg := mkCallMsg { msg_From : Z; msg_To : option Z; msg_Value : Z; msg_Data : bytes }.

(** [bind.ContractCaller], at the latest block. *)
Class ContractCaller (N : Type) := {
  CallContract (m : CallMsg) : N -> outcome bytes * N;
  CodeAt (addr : Z) : N -> outcome bytes * N }.

(** [bind.ContractTransactor] *)
Class ContractTransactor (N : Type) := {
  PendingCodeAt (addr : Z) : N -> outcome bytes * N;
  PendingNonceAt (addr : Z) : N -> outcome Z * N;
  SuggestGasPrice : N -> outcome Z * N;
  EstimateGas (m : CallMsg) : N -> outcome Z * N;
  SendTransaction (tx : Transaction) : N -> outcome unit * N }.

Definition ErrNoCode : error := ErrNew "no contract code at given address".

(** ** Calls *)

Section Binding.
Context {N : Type} `{!ContractCaller N}.

(** A [BoundContract] is known by its address: all use [ContractABI], and the
    node that is given. *)
Record BoundContract := mkBoundContract { bound_address : Z }.
Definition NewContract (address : Z) : BoundContract := mkBoundContract address.

(** [BoundContract.Call], into a struct; [from] is the account of the options,
    which do not ask for the pending state. *)
Definition BoundContract_Call (c : BoundContract) (from : Z) (fs : fields) (method : string) (params : list GoValue) : cmd N go_struct :=
  input ← pure (Pack method params);
  output ← ask (CallContract (mkCallMsg from (Some (bound_address c)) 0 input));
  _ ← (if zlen output =? 0 then
         code ← ask (CodeAt (bound_address c));
         pure (guard_err (zlen code =? 0) ErrNoCode)
       else mret tt);
  pure (ABI_Unpack fs method output).

(** The struct of [Swaps]; the numbers are pointers, nil when nothing was stored. *)
Record SwapView := mkSwapView {
  InitTimestamp : option Z; RefundTime : option Z; SecretHash : bytes; Secret : bytes;
  Initiator : Z; Participant : Z; Value : option Z; Kind : Z; State : Z }.
Definition swap_fields : fields :=
  [("InitTimestamp", UintTy); ("RefundTime", UintTy); ("SecretHash", FixedBytesTy); ("Secret", FixedBytesTy);
   ("Initiator", AddressTy); ("Participant", AddressTy); ("Value", UintTy); ("Kind", Uint8Ty); ("State", Uint8Ty)]%string.
Definition swap_of_struct (st : go_struct) : SwapView :=
  mkSwapView (big_field st "InitTimestamp") (big_field st "RefundTime")
    (bytes32_field st "SecretHash") (bytes32_field st "Secret")
    (address_field st "Initiator") (address_field st "Participant") (big_field st "Value")
    (uint8_field st "Kind") (uint8_field st "State").

(** [Swaps(opts, hash)] *)
Definition Swaps (c : BoundContract) (from : Z) (hash : bytes) : cmd N SwapView :=
  ret ← BoundContract_Call c from swap_fields "swaps" [VBytes32 hash];
  mret (swap_of_struct ret).
End Binding.

(** ** Transactions *)

(** [bind.TransactOpts]: what is nil is asked of the node, a gas limit of 0 too. *)
Record TransactOpts := mkTransactOpts {
  opts_From : Z; opts_Nonce : option Z; opts_Signer : option (Z -> Transaction -> outcome Transaction);
  opts_Value : option Z; opts_GasPrice : option Z; opts_GasLimit : Z }.

(** [crypto.CreateAddress]: the RLP list of the account and the nonce is hashed. *)
Definition CreateAddress (b nonce : Z) : Z :=
  let content := encodeString (address_bytes b) ++ writeUint nonce in
  BytesToAddress (drop 12 (Keccak256 (puthead 0xc0 0xf7 (zlen content) ++ content))).

(** A contract's address. *)
Example CreateAddress_known :
  CreateAddress 0x6ac7ea33f8831ea9dcc53393aaa88b25a785dbf0 0 = 0xcd234a471b72ba2f1ccf0a70fcaba648a5eecd8d.
Proof. vm_compute. reflexivity. Qed.

Section Transactor.
Context {N : Type} `{!ContractTransactor N}.

(** [BoundContract.transact]; without a contract the transaction creates one. *)
Definition transact (c : BoundContract) (opts : TransactOpts) (contract : option Z) (input : bytes) : cmd N Transaction :=
  let value := default 0 (opts_Value opts) in
  nonce ← match opts_Nonce opts with
          | None => errf (fun e => Errorf "failed to retrieve account nonce: %v" [FErr e]) (ask (PendingNonceAt (opts_From opts)))
          | Some n => mret (to_uint 64 n)
          end;
  gasPrice ← match opts_GasPrice opts with
             | None => errf (fun e => Errorf "failed to suggest gas price: %v" [FErr e]) (ask SuggestGasPrice)
             | Some p => mret p
             end;
  gasLimit ← (if opts_GasLimit opts =? 0 then
                _ ← match contract with
                    | Some _ => code ← ask (PendingCodeAt (bound_address c)); pure (guard_err (zlen code =? 0) ErrNoCode)
                    | None => mret tt
                    end;
                errf (fun e => Errorf "failed to estimate gas needed: %v" [FErr e])
                  (ask (EstimateGas (mkCallMsg (opts_From opts) contract value input)))
              else mret (opts_GasLimit opts));
  let rawTx := match contract with
               | None => NewContractCreation nonce value gasLimit gasPrice input
               | Some _ => NewTransaction nonce (bound_address c) value gasLimit gasPrice input
               end in
  sign ← pure (of_option (ErrNew "no signer to authorize the transaction with") (opts_Signer opts));
  signedTx ← pure (sign (opts_From opts) rawTx);
  _ ← ask (SendTransaction signedTx);
  mret signedTx.

Definition Transact (c : BoundContract) (opts : TransactOpts) (method : string) (params : list GoValue) : cmd N Transaction :=
  input ← pure (Pack method params);
  transact c opts (Some (bound_address c)) input.
Definition Transfer (c : BoundContract) (opts : TransactOpts) : cmd N Transaction :=
  transact c opts (Some (bound_address c)) [].

(** [DeployContract] of the binding, [bytecode] being that of its constant; the
    constructor has no arguments. *)
Definition DeployContract (opts : TransactOpts) (bytecode : bytes) : cmd N (Z * Transaction * BoundContract) :=
  tx ← transact (mkBoundContract 0) opts None bytecode;
  let address := CreateAddress (opts_From opts) (AccountNonce tx) in
  mret (address, tx, mkBoundContract address).

(** The methods of [ContractTransactor]. *)
Definition Initiate (c : BoundContract) (opts : TransactOpts) (refundTime : Z) (secretHash : bytes) (participant : Z) : cmd N Transaction :=
  Transact c opts "initiate" [VBig refundTime; VBytes32 secretHash; VAddress participant].
Definition Participate (c : BoundContract) (opts : TransactOpts) (refundTime : Z) (secretHash : bytes) (initiator : Z) : cmd N Transaction :=
  Transact c opts "participate" [VBig refundTime; VBytes32 secretHash; VAddress initiator].
Definition Redeem (c : BoundContract) (opts : TransactOpts) (secret secretHash : bytes) : cmd N Transaction :=
  Transact c opts "redeem" [VBytes32 secret; VBytes32 secretHash].
Definition Refund (c : BoundContract) (opts : TransactOpts) (secretHash : bytes) : cmd N Transaction :=
  Transact c opts "refund" [VBytes32 secretHash].
End Transactor.

(** A [ContractSession]: the contract with options set once. *)
Record ContractSession := mkContractSession { Session_Contract : BoundContract; Session_CallFrom : Z; Session_TransactOpts : TransactOpts }.

Section Session.
Context {N : Type} `{!ContractCaller N, !ContractTransactor N} (s : ContractSession).
Definition Session_Swaps (hash : bytes) : cmd N SwapView := Swaps (Session_Contract s) (Session_CallFrom s) hash.
Definition Session_Initiate (refundTime : Z) (secretHash : bytes) (participant : Z) : cmd N Transaction :=
  Initiate (Session_Contract s) (Session_TransactOpts s) refundTime secretHash participant.
Definition Session_Participate (refundTime : Z) (secretHash : bytes) (initiator : Z) : cmd N Transaction :=
  Participate (Session_Contract s) (Session_TransactOpts s) refundTime secretHash initiator.
Definition Session_Redeem (secret secretHash : bytes) : cmd N Transaction :=
  Redeem (Session_Contract s) (Session_TransactOpts s) secret secretHash.
Definition Session_Refund (secretHash : bytes) : cmd N Transaction :=
  Refund (Session_Contract s) (Session_TransactOpts s) secretHash.
End Session.

(** Sessions for calls only and for transactions only. *)
Record ContractCallerSession := mkCallerSession { CallerSession_Contract : BoundContract; CallerSession_From : Z }.
Record ContractTransactorSession := mkTransactorSession {
  TransactorSession_Contract : BoundContract; TransactorSession_Opts : TransactOpts }.

Definition CallerSession_Swaps {N} `{!ContractCaller N} (s : ContractCallerSession) (hash : bytes) : cmd N SwapView :=
  Swaps (CallerSession_Contract s) (CallerSession_From s) hash.

Section TransactorSession.
Context {N : Type} `{!ContractTransactor N} (s : ContractTransactorSession).
Definition TransactorSession_Initiate (refundTime : Z) (secretHash : bytes) (participant : Z) : cmd N Transaction :=
  Initiate (TransactorSession_Contract s) (TransactorSession_Opts s) refundTime secretHash participant.
Definition TransactorSession_Participate (refundTime : Z) (secretHash : bytes) (initiator : Z) : cmd N Transaction :=
  Participate (TransactorSession_Contract s) (TransactorSession_Opts s) refundTime secretHash initiator.
Definition TransactorSession_Redeem (secret secretHash : bytes) : cmd N Transaction :=
  Redeem (TransactorSession_Contract s) (TransactorSession_Opts s) secret secretHash.
Definition TransactorSession_Refund (secretHash : bytes) : cmd N Transaction :=
  Refund (TransactorSession_Contract s) (TransactorSession_Opts s) secretHash.
End TransactorSession.

(** The raw bindings give the methods of the bound contract. *)
Definition ContractRaw_Call {N} `{!ContractCaller N} : BoundContract -> Z -> fields -> string -> list GoValue -> cmd N go_struct :=
  BoundContract_Call.
Definition ContractRaw_Transfer {N} `{!ContractTransactor N} : BoundContract -> TransactOpts -> cmd N Transaction := Transfer.
Definition ContractRaw_Transact {N} `{!ContractTransactor N} : BoundContract -> TransactOpts -> string -> list GoValue -> cmd N Transaction :=
  Transact.
Definition ContractCallerRaw_Call {N} `{!ContractCaller N} : BoundContract -> Z -> fields -> string -> list GoValue -> cmd N go_struct :=
  BoundContract_Call.
Definition ContractTransactorRaw_Transfer {N} `{!ContractTransactor N} : BoundContract -> TransactOpts -> cmd N Transaction := Transfer.
Definition ContractTransactorRaw_Transact {N} `{!ContractTransactor N} :
  BoundContract -> TransactOpts -> string -> list GoValue -> cmd N Transaction := Transact.
