(* ===== verification/EthEvents.v ===== *)
(** * Events of the contract: filters, iterators, watchers

    The event part of the generated binding
    (cmd/ethatomicswap/contract/atomicswap.go) over [BoundContract] of the
    vendored accounts/abi/bind and the subscriptions of package event. The
    binding has one copy of the code for each event; here it is written once,
    for an [event_type]. The goroutines (the producer behind a filter, the one
    that forwards a watched event, the user of an iterator) are step
    relations; a channel is the list of what it holds. *)

From S2P Require Import Prelude BigEndian Keccak EthAbi Cli EthBinding.

(** ** Logs and queries *)

(** [types.Log] *)
Record Log := mkLog {
  log_Address : Z; Topics : list bytes; Data : bytes;
  log_BlockNumber : Z; log_TxHash : bytes; log_TxIndex : Z; log_BlockHash : bytes; log_Index : Z; log_Removed : bool }.
Definition zero_log : Log := mkLog 0 [] [] 0 (replicate 32 0) 0 (replicate 32 0) 0 false.

(** [ethereum.FilterQuery], without the hash of a block, which is never set. *)
Record FilterQuery := mkFilterQuery {
  FromBlock : option Z; ToBlock : option Z; Addresses : list Z; query_Topics : list (list bytes) }.

(** [bind.ContractFilterer]. What a subscription delivers later is part of
    [watch_step]. *)
Class ContractFilterer (N : Type) := {
  FilterLogs (q : FilterQuery) : N -> outcome (list Log) * N;
  SubscribeFilterLogs (q : FilterQuery) : N -> outcome unit * N }.

(** [bind.FilterOpts], [bind.WatchOpts] *)
Record FilterOpts := mkFilterOpts { filter_Start : Z; filter_End : option Z }.
Record WatchOpts := mkWatchOpts { watch_Start : option Z }.

(** [abi.Events[name]] *)
Definition event_at (name : string) : AbiEvent :=
  default (mkAbiEvent "" []) (List.find (fun e => String.eqb (RawName e) name) Events).

(** ** Unpacking a log *)

(** An event of the binding: its name, and its struct. The field [Raw] of the
    struct, which holds the log, is kept apart. *)
Record event_type := mkEventType { ev_name : string; ev_fields : fields }.
Record ContractEvent := mkContractEvent { ev_struct : go_struct; Raw : Log }.

(** [parseTopics] for an event without indexed arguments. *)
Definition parseTopics (topics : list bytes) : outcome unit :=
  guard_err (negb (zlen topics =? 0)) (ErrNew "topic/field count mismatch").

(** [BoundContract.UnpackLog]; the slice [log.Topics[1:]] panics without topics. *)
Definition UnpackLog (ev : event_type) (log : Log) : outcome go_struct :=
  st ← (if 0 <? zlen (Data log) then ABI_Unpack (ev_fields ev) (ev_name ev) (Data log) else Ret ∅);
  match Topics log with
  | [] => Panic (ErrNew "slice bounds out of range")
  | _ :: rest => _ ← parseTopics rest; Ret st
  end.

(** ** Subscriptions: event.NewSubscription *)

(** The error channel: open, closed with an error in it, closed. *)
Inductive err_chan := ErrOpen | ErrValue (e : error) | ErrClosed.
Record subscription := mkSub { sub_err : err_chan; unsub : bool; unsubscribed : bool }.
Definition new_subscription : subscription := mkSub ErrOpen false false.

(** The goroutine after its producer returned. *)
Definition producer_returns (r : option error) (s : subscription) : subscription :=
  mkSub (match r with Some e => if unsubscribed s then ErrClosed else ErrValue e | None => ErrClosed end) (unsub s) true.

(** A receive from [sub.Err()]: [None] if it has to wait. *)
Definition recv_err (s : subscription) : option (option error * subscription) :=
  match sub_err s with
  | ErrOpen => None
  | ErrValue e => Some (Some e, mkSub ErrClosed (unsub s) (unsubscribed s))
  | ErrClosed => Some (None, s)
  end.

(** [Unsubscribe] up to its wait for the error channel. *)
Definition Unsubscribe (s : subscription) : subscription :=
  if unsubscribed s then s else mkSub (sub_err s) true true.

(** The channel of logs has this capacity. *)
Definition log_capacity : nat := 128.

(** ** Iterators *)

Record iterator := mkIterator {
  Event : option ContractEvent; logs : list Log; sub : subscription; done : bool; fail : option error }.

(** The body of a [case log := <-it.logs]. After a failure the event is a new
    one, of which some fields may have been set: nothing reads them. *)
Definition deliver (ev : event_type) (log : Log) (rest : list Log) (it : iterator) : outcome bool * iterator :=
  match UnpackLog ev log with
  | Ret st => (Ret true, mkIterator (Some (mkContractEvent st log)) rest (sub it) (done it) (fail it))
  | Fail e => (Ret false, mkIterator (Some (mkContractEvent ∅ zero_log)) rest (sub it) (done it) (Some e))
  | Panic e => (Panic e, mkIterator (Some (mkContractEvent ∅ zero_log)) rest (sub it) (done it) (fail it))
  end.

(** [Next] when the subscription is done: it does not wait. *)
Definition drain (ev : event_type) (it : iterator) : outcome bool * iterator :=
  match logs it with
  | log :: rest => deliver ev log rest it
  | [] => (Ret false, it)
  end.

(** [Next]: [None] if it waits. When both channels are ready the choice of
    [select] is arbitrary: [pick] chooses the log. After an error was received,
    [Next] calls itself, and finds the failure or the end of the subscription. *)
Definition Next (ev : event_type) (pick : bool) (it : iterator) : option (outcome bool * iterator) :=
  match fail it with
  | Some _ => Some (Ret false, it)
  | None =>
      if done it then Some (drain ev it)
      else
        let on_log := match logs it with log :: rest => Some (deliver ev log rest it) | [] => None end in
        let on_err :=
          match recv_err (sub it) with
          | None => None
          | Some (err, s) =>
              let it := mkIterator (Event it) (logs it) s true err in
              Some (match err with Some _ => (Ret false, it) | None => drain ev it end)
          end in
        match on_log, on_err with
        | None, o | o, None => o
        | Some l, Some e => Some (if pick then l else e)
        end
  end.

Definition iterator_Error (it : iterator) : option error := fail it.
Definition iterator_Close (it : iterator) : iterator :=
  mkIterator (Event it) (logs it) (Unsubscribe (sub it)) (done it) (fail it).

(** *** The producer and the user of an iterator *)

(** What the user is about: a loop [for it.Next() { ... }], which may be left
    early, and [Close]. *)
Inductive user := Iterating | Stopped | Crashed | Closing | Closed.

(** [buff] is what [FilterLogs] has still to send, [got] what the user saw. *)
Record filter_run := mkRun { buff : list Log; it : iterator; got : list ContractEvent; state_of : user }.

Definition set_logs (l : list Log) (it : iterator) : iterator := mkIterator (Event it) l (sub it) (done it) (fail it).
Definition set_sub (s : subscription) (it : iterator) : iterator := mkIterator (Event it) (logs it) s (done it) (fail it).

(** The iterator [Filter...] returns for the logs of the node. *)
Definition start_run (l : list Log) : filter_run := mkRun l (mkIterator None [] new_subscription false None) [] Iterating.

Inductive filter_step (ev : event_type) : filter_run -> filter_run -> Prop :=
  | producer_sends l rest it got u :
      sub_err (sub it) = ErrOpen -> (length (logs it) < log_capacity)%nat ->
      filter_step ev (mkRun (l :: rest) it got u) (mkRun rest (set_logs (logs it ++ [l]) it) got u)
  | producer_quits l rest it got u :
      sub_err (sub it) = ErrOpen -> unsub (sub it) = true ->
      filter_step ev (mkRun (l :: rest) it got u) (mkRun (l :: rest) (set_sub (producer_returns None (sub it)) it) got u)
  | producer_ends it got u :
      sub_err (sub it) = ErrOpen ->
      filter_step ev (mkRun [] it got u) (mkRun [] (set_sub (producer_returns None (sub it)) it) got u)
  | user_next pick b it it' e got :
      Next ev pick it = Some (Ret true, it') -> Event it' = Some e ->
      filter_step ev (mkRun b it got Iterating) (mkRun b it' (got ++ [e]) Iterating)
  | user_stops pick b it it' got :
      Next ev pick it = Some (Ret false, it') ->
      filter_step ev (mkRun b it got Iterating) (mkRun b it' got Stopped)
  | user_crashes pick b it it' e got :
      Next ev pick it = Some (Panic e, it') ->
      filter_step ev (mkRun b it got Iterating) (mkRun b it' got Crashed)
  | user_closes b it got u :
      u = Iterating \/ u = Stopped ->
      filter_step ev (mkRun b it got u) (mkRun b (iterator_Close it) got Closing)
  | user_closed b it got :
      (* [Unsubscribe] waited, unless it had nothing to do *)
      sub_err (sub it) <> ErrOpen ->
      filter_step ev (mkRun b it got Closing) (mkRun b it got Closed).

(** ** Watchers *)

(** The goroutine of [Watch...]: at its first [select], with an event to send,
    or at an end, which may be a panic. *)
Inductive forwarder := Selecting | Sending (e : ContractEvent) | Returned | Panicked.

(** [w_node] is the subscription of the node, [w_sub] that of the user; the logs
    the node has sent in all are kept in [w_sent], and [w_sink] is what was sent
    to the user's channel. *)
Record watcher := mkWatcher {
  w_logs : list Log; w_node : subscription; w_sub : subscription; w_state : forwarder; w_sink : list ContractEvent; w_sent : list Log }.

Definition start_watch : watcher := mkWatcher [] new_subscription new_subscription Selecting [] [].

(** [return r], with the deferred [sub.Unsubscribe()]. *)
Definition forwarder_returns (r : option error) (w : watcher) : watcher :=
  mkWatcher (w_logs w) (Unsubscribe (w_node w)) (producer_returns r (w_sub w)) Returned (w_sink w) (w_sent w).

Definition set_forwarder (f : forwarder) (w : watcher) : watcher :=
  mkWatcher (w_logs w) (w_node w) (w_sub w) f (w_sink w) (w_sent w).

Inductive watch_step (ev : event_type) (w : watcher) : watcher -> Prop :=
  | node_sends l :
      sub_err (w_node w) = ErrOpen -> (length (w_logs w) < log_capacity)%nat ->
      watch_step ev w (mkWatcher (w_logs w ++ [l]) (w_node w) (w_sub w) (w_state w) (w_sink w) (w_sent w ++ [l]))
  | node_ends r :
      sub_err (w_node w) = ErrOpen ->
      watch_step ev w (mkWatcher (w_logs w) (producer_returns r (w_node w)) (w_sub w) (w_state w) (w_sink w) (w_sent w))
  | user_unsubscribes :
      watch_step ev w (mkWatcher (w_logs w) (w_node w) (Unsubscribe (w_sub w)) (w_state w) (w_sink w) (w_sent w))
  | select_log log rest :
      w_state w = Selecting -> w_logs w = log :: rest ->
      watch_step ev w
        (let w := mkWatcher rest (w_node w) (w_sub w) (w_state w) (w_sink w) (w_sent w) in
         match UnpackLog ev log with
         | Ret st => set_forwarder (Sending (mkContractEvent st log)) w
         | Fail e => forwarder_returns (Some e) w
         | Panic _ => set_forwarder Panicked w
         end)
  | send_event e :
      w_state w = Sending e ->
      watch_step ev w (mkWatcher (w_logs w) (w_node w) (w_sub w) Selecting (w_sink w ++ [e]) (w_sent w))
  | select_err r s :
      (* at either of the two [select]s *)
      w_state w = Selecting \/ (exists e, w_state w = Sending e) -> recv_err (w_node w) = Some (r, s) ->
      watch_step ev w (forwarder_returns r (mkWatcher (w_logs w) s (w_sub w) (w_state w) (w_sink w) (w_sent w)))
  | select_quit :
      w_state w = Selecting \/ (exists e, w_state w = Sending e) -> unsub (w_sub w) = true ->
      watch_step ev w (forwarder_returns None w).

(** ** Filters and watches *)

Section Filterer.
Context {N : Type} `{!ContractFilterer N}.

(** [BoundContract.FilterLogs]: the start of the subscription. [makeTopics] of
    the identifier alone is that identifier. *)
Definition BoundContract_FilterLogs (c : BoundContract) (opts : option FilterOpts) (name : string) : cmd N filter_run :=
  let opts := default (mkFilterOpts 0 None) opts in
  let config := mkFilterQuery (Some (filter_Start opts)) (filter_End opts) [bound_address c] [[Event_ID (event_at name)]] in
  found ← ask (FilterLogs config);
  mret (start_run found).

(** [BoundContract.WatchLogs] *)
Definition BoundContract_WatchLogs (c : BoundContract) (opts : option WatchOpts) (name : string) : cmd N watcher :=
  let opts := default (mkWatchOpts None) opts in
  let config := mkFilterQuery (watch_Start opts) None [bound_address c] [[Event_ID (event_at name)]] in
  _ ← ask (SubscribeFilterLogs config);
  mret start_watch.

Definition Filter (ev : event_type) (c : BoundContract) (opts : option FilterOpts) : cmd N filter_run :=
  BoundContract_FilterLogs c opts (ev_name ev).
Definition Watch (ev : event_type) (c : BoundContract) (opts : option WatchOpts) : cmd N watcher :=
  BoundContract_WatchLogs c opts (ev_name ev).
End Filterer.

(** ** The four events *)

Definition ContractInitiated : fields :=
  [("InitTimestamp", UintTy); ("RefundTime", UintTy); ("SecretHash", FixedBytesTy); ("Initiator", AddressTy);
   ("Participant", AddressTy); ("Value", UintTy)]%string.
Definition Initiated_event : event_type := mkEventType "Initiated" ContractInitiated.
Definition ContractInitiatedIterator_Next : bool -> iterator -> option (outcome bool * iterator) := Next Initiated_event.
Definition ContractInitiatedIterator_Error : iterator -> option error := iterator_Error.
Definition ContractInitiatedIterator_Close : iterator -> iterator := iterator_Close.

Definition ContractParticipated : fields :=
  [("InitTimestamp", UintTy); ("RefundTime", UintTy); ("SecretHash", FixedBytesTy); ("Initiator", AddressTy);
   ("Participant", AddressTy); ("Value", UintTy)]%string.
Definition Participated_event : event_type := mkEventType "Participated" ContractParticipated.
Definition ContractParticipatedIterator_Next : bool -> iterator -> option (outcome bool * iterator) := Next Participated_event.
Definition ContractParticipatedIterator_Error : iterator -> option error := iterator_Error.
Definition ContractParticipatedIterator_Close : iterator -> iterator := iterator_Close.

Definition ContractRedeemed : fields :=
  [("RedeemTime", UintTy); ("SecretHash", FixedBytesTy); ("Secret", FixedBytesTy); ("Redeemer", AddressTy); ("Value", UintTy)]%string.
Definition Redeemed_event : event_type := mkEventType "Redeemed" ContractRedeemed.
Definition ContractRedeemedIterator_Next : bool -> iterator -> option (outcome bool * iterator) := Next Redeemed_event.
Definition ContractRedeemedIterator_Error : iterator -> option error := iterator_Error.
Definition ContractRedeemedIterator_Close : iterator -> iterator := iterator_Close.

Definition ContractRefunded : fields :=
  [("RefundTime", UintTy); ("SecretHash", FixedBytesTy); ("Refunder", AddressTy); ("Value", UintTy)]%string.
Definition Refunded_event : event_type := mkEventType "Refunded" ContractRefunded.
Definition ContractRefundedIterator_Next : bool -> iterator -> option (outcome bool * iterator) := Next Refunded_event.
Definition ContractRefundedIterator_Error : iterator -> option error := iterator_Error.
Definition ContractRefundedIterator_Close : iterator -> iterator := iterator_Close.

Section Methods.
Context {N : Type} `{!ContractFilterer N}.
Definition FilterInitiated : BoundContract -> option FilterOpts -> cmd N filter_run := Filter Initiated_event.
Definition WatchInitiated : BoundContract -> option WatchOpts -> cmd N watcher := Watch Initiated_event.
Definition FilterParticipated : BoundContract -> option FilterOpts -> cmd N filter_run := Filter Participated_event.
Definition WatchParticipated : BoundContract -> option WatchOpts -> cmd N watcher := Watch Participated_event.
Definition FilterRedeemed : BoundContract -> option FilterOpts -> cmd N filter_run := Filter Redeemed_event.
Definition WatchRedeemed : BoundContract -> option WatchOpts -> cmd N watcher := Watch Redeemed_event.
Definition FilterRefunded : BoundContract -> option FilterOpts -> cmd N filter_run := Filter Refunded_event.
Definition WatchRefunded : BoundContract -> option WatchOpts -> cmd N watcher := Watch Refunded_event.
End Methods.
