(* ===== verification/EthSwap.v ===== *)
(** * The Ethereum tool: cmd/ethatomicswap/main.go

    The transactor that builds the transactions, the commands, and the decoding
    of their arguments. The node (client, key store, random source) is behind
    the interface [EthNode]; the command monad is that of [Cli]. *)

From S2P Require Import Prelude Sha256 Decimal EthAmount EthAbi EthTx Cli EthBinding.

(** ** What the tool asks of the node *)

(** The argument of [eth_signTransaction]. *)
Record SignRequest := mkSignRequest {
  req_From : Z; req_To : option Z; req_Gas : Z; req_GasPrice : Z; req_Value : Z; req_Nonce : Z; req_Data : bytes }.

(** The part of [eth_getTransactionByHash] the tool reads. *)
Record RpcTransaction := mkRpcTransaction {
  BlockNumber : option string; BlockHash : option bytes; From : option Z }.

Class EthNode (N : Type) := {
  node_caller :: ContractCaller N;
  node_transactor :: ContractTransactor N;
  eth_signTransaction (r : SignRequest) : N -> outcome Transaction * N;
  eth_getTransactionByHash (h : bytes) : N -> outcome RpcTransaction * N;
  (* the time of a block *)
  BlockByHash (h : bytes) : N -> outcome Z * N;
  eth_accounts : N -> outcome (list Z) * N;
  (* the random source: the bytes, if it does not fail *)
  rand_Read (n : nat) : N -> outcome bytes * N;
  (* key files: content, passphrase, decrypted key, its address, signatures *)
  ReadFile (path : bytes) : N -> outcome bytes * N;
  speakeasy_Ask : N -> outcome bytes * N;
  DecryptKey (json passphrase : bytes) : outcome bytes;
  PubkeyToAddress (key : bytes) : Z;
  Sign (tx : Transaction) (key : bytes) : outcome (Z * Z * Z) }.

(** The swap contract's constants. *)
Definition initiateLockPeriodInSeconds : Z := 48 * 60 * 60.
Definition participateLockPeriodInSeconds : Z := 24 * 60 * 60.
Definition maxGasLimit : Z := 210000.
Definition swapStateEmpty : Z := 0.
Definition swapStateFilled : Z := 1.
Definition swapKindInitiator : Z := 0.
Definition swapKindParticipant : Z := 1.

(** The two networks of [chainConfig]. *)
Inductive ChainConfig := MainnetChainConfig | RinkebyChainConfig.
Definition ChainID (c : ChainConfig) : string :=
  match c with MainnetChainConfig => "1" | RinkebyChainConfig => "4" end.

(** ** Hexadecimal arguments *)

(** [strings.TrimPrefix(str, "0x")] *)
Definition TrimPrefix0x (s : bytes) : bytes :=
  match s with 48 :: 120 :: r => r | _ => s end.

Definition hexDecodeSha256Hash (name : string) (str : bytes) : outcome bytes :=
  slice ← mapErr (fun _ => ErrNew (name +:+ " must be hex encoded")) (hex_decode (TrimPrefix0x str));
  _ ← guard_err (negb (zlen slice =? 32)) (ErrNew (name +:+ " has wrong size"));
  Ret slice.

Definition hexDecodeTransaction (str : bytes) : outcome Transaction :=
  slice ← mapErr (fun _ => ErrNew "transaction must be hex encoded") (hex_decode (TrimPrefix0x str));
  mapErr (fun e => Errorf "failed to decode transaction: %v" [FErr e]) (DecodeBytes slice).

(** [common.FromHex]: the bytes before the first error of [hex.DecodeString]. *)
Fixpoint hex_prefix (l : bytes) : bytes :=
  match l with
  | c1 :: c2 :: r =>
      match fromHexChar c1, fromHexChar c2 with
      | Some a, Some b => (16 * a + b) :: hex_prefix r
      | _, _ => []
      end
  | _ => []
  end.
Definition has0xPrefix (s : bytes) : bool :=
  match s with 48 :: c :: _ => (c =? 120) || (c =? 88) | _ => false end.
Definition FromHex (s : bytes) : bytes :=
  let s := if has0xPrefix s then drop 2 s else s in
  let s := if zlen s mod 2 =? 1 then 48 :: s else s in
  hex_prefix s.
Definition HexToAddress (s : bytes) : Z := BytesToAddress (FromHex s).
Definition IsHexAddress (s : bytes) : bool :=
  let s := if has0xPrefix s then drop 2 s else s in
  (zlen s =? 40) && forallb (fun c => match fromHexChar c with Some _ => true | None => false end) s.

Definition getDeployedContractAddress (contractFlag : bytes) (cfg : ChainConfig) : outcome Z :=
  if negb (zlen contractFlag =? 0) then Ret (HexToAddress contractFlag)
  else match cfg with
  | MainnetChainConfig => Fail (ErrNew "no default contract exist yet for the main net")
  | RinkebyChainConfig => Ret (HexToAddress (bytes_of_string "2661CBAa149721f7c5FAB3FA88C1EA564A683631"))
  end.

(** ** Numbers of the contract binding *)

(** [Int64] of a [big.Int], and [bigIntPtrToUint64], which returns an [int64]. *)
Definition Int64 (i : Z) : Z := to_int 64 i.
Definition bigIntPtrToUint64 (i : option Z) : Z := match i with None => 0 | Some i => Int64 i end.

#[global] Arguments Int64 : simpl never.
#[global] Arguments bigIntPtrToUint64 : simpl never.

(** ** Reading calls *)

Definition slice_panic : error := ErrNew "slice bounds out of range".

(** The arguments of a contract transaction. [txData[:4]] panics on short data. *)
Definition unpackContractInputParams (tx : Transaction) : outcome (Z * bytes * Z) :=
  let txData := Payload tx in
  if zlen txData <? 4 then Panic slice_panic else
  method ← mapErr (fun e => Errorf "failed to get method using its parsed id: %v" [FErr e])
             (MethodById (take 4 txData));
  mapErr (fun e => Errorf "failed to unpack method's input params: %v" [FErr e])
    (Unpack_slice (Inputs method) (drop 4 txData)).

(** The checks of [extractsecret], and the secret it prints. *)
Definition extractSecret (redemptionTx : Transaction) (secretHash : bytes) : outcome bytes :=
  let txData := Payload redemptionTx in
  if zlen txData <? 4 then Panic slice_panic else
  method ← mapErr (fun e => Errorf "failed to get method using its parsed id: %v" [FErr e])
             (MethodById (take 4 txData));
  _ ← guard_err (negb (Name method =? "redeem")%string)
        (Errorf "unexpected name for unpacked method ID: %s" [FStr (Name method)]);
  '(secret, hash) ← mapErr (fun e => Errorf "failed to unpack method's input params: %v" [FErr e])
    (Unpack_redeem (Inputs method) (drop 4 txData));
  _ ← guard_err (negb (bool_decide (secretHash = hash))) (Errorf "unexpected secret hash found: %x" [FBytes hash]);
  _ ← guard_err (negb (bool_decide (hash = sha256 secret))) (Errorf "unexpected secret found: %x" [FBytes secret]);
  Ret secret.

(** ** The transactor *)

(** [signer] is [None] when the daemon signs. *)
Record swapContractTransactor := mkTransactor {
  signer : option (Z -> Transaction -> outcome Transaction);
  fromAddr : Z; contractAddr : Z; autoAccount : bool }.

Definition errNotExists : error := ErrNew "atomic swap contract does not exist".
Definition is_errNotExists (e : error) : bool :=
  match e with ErrNew m => (m =? "atomic swap contract does not exist")%string | _ => false end.

Section Transactor.
Context {N : Type} `{!EthNode N}.
Context (sct : swapContractTransactor).

Definition getSwapContract (secretHash : bytes) : cmd N SwapView :=
  sc ← errf (fun e => Errorf "failed to get swap contract from smart contract (at %x): %v" [FInt (contractAddr sct); FErr e])
         (Swaps (NewContract (contractAddr sct)) (fromAddr sct) secretHash);
  _ ← pure (guard_err (State sc =? swapStateEmpty) errNotExists);
  mret sc.

(** What [initiateTx] and [participateTx] make of its result. *)
Definition checkNotExists (secretHash : bytes) : cmd N unit := fun w =>
  match getSwapContract secretHash w with
  | (Ret _, w) => (Fail (ErrNew "secret hash is already used for another atomic swap contract"), w)
  | (Fail e, w) =>
      if is_errNotExists e then (Ret tt, w)
      else (Fail (Errorf "unexpected error while checking for an existing contract: %v" [FErr e]), w)
  | (Panic e, w) => (Panic e, w)
  end.

(** [bind.TransactOpts]: the nonce and the gas price, for a given value. *)
Definition calcBaseOpts : cmd N (Z * Z) :=
  nonce ← errf (fun e => Errorf "failed to retrieve account (%x) nonce: %v" [FInt (fromAddr sct); FErr e])
            (ask (PendingNonceAt (fromAddr sct)));
  gasPrice ← errf (fun e => Errorf "failed to suggest gas price: %v" [FErr e]) (ask SuggestGasPrice);
  mret (nonce, gasPrice).

Definition calcGasLimit (amount : Z) (contractCall : bool) (input : bytes) : cmd N Z :=
  let failed e := Errorf "failed to estimate gas needed: %v" [FErr e] in
  _ ← (if contractCall then
         code ← errf failed (ask (PendingCodeAt (contractAddr sct)));
         pure (guard_err (zlen code =? 0) (failed ErrNoCode))
       else mret tt);
  let to := if contractCall then Some (contractAddr sct) else None in
  gasLimit ← errf failed (ask (EstimateGas (mkCallMsg (fromAddr sct) to amount input)));
  _ ← pure (guard_err (contractCall && (maxGasLimit <? gasLimit))
        (Errorf "%d exceeds the hardcoded code-call gas limit of %d" [FInt gasLimit; FInt maxGasLimit]));
  mret gasLimit.

Definition newTransactionWithInput (amount : option Z) (contractCall : bool) (input : bytes) : cmd N Transaction :=
  let value := default 0 amount in
  '(nonce, gasPrice) ← calcBaseOpts;
  gasLimit ← calcGasLimit value contractCall input;
  match signer sct with
  | None =>
      let toAddr := if contractCall then Some (contractAddr sct) else None in
      errf (fun e => Errorf "failed to sign transaction from daemon: %v" [FErr e])
        (ask (eth_signTransaction (mkSignRequest (fromAddr sct) toAddr gasLimit gasPrice value nonce input)))
  | Some sign =>
      let rawTx :=
        if contractCall then NewTransaction nonce (contractAddr sct) value gasLimit gasPrice input
        else NewContractCreation nonce value gasLimit gasPrice input in
      errf (fun e => Errorf "failed to sign transaction from client: %v" [FErr e])
        (pure (sign (fromAddr sct) rawTx))
  end.

Definition newTransaction (amount : option Z) (name : string) (params : list GoValue) : cmd N Transaction :=
  input ← pure (mapErr (fun _ => ErrNew "failed to pack input") (Pack name params));
  newTransactionWithInput amount true input.

Definition initiateTx (amount : Z) (secretHash : bytes) (participant : Z) : cmd N Transaction :=
  _ ← checkNotExists secretHash;
  newTransaction (Some amount) "initiate"
    [VBig initiateLockPeriodInSeconds; VBytes32 secretHash; VAddress participant].

Definition participateTx (amount : Z) (secretHash : bytes) (initiator : Z) : cmd N Transaction :=
  _ ← checkNotExists secretHash;
  newTransaction (Some amount) "participate"
    [VBig participateLockPeriodInSeconds; VBytes32 secretHash; VAddress initiator].

Definition redeemTx (secretHash secret : bytes) : cmd N Transaction :=
  sc ← getSwapContract secretHash;
  _ ← pure (guard_err (negb (bool_decide (SecretHash sc = secretHash))) (ErrNew "invalid secret hash registered"));
  _ ← pure (guard_err (negb (bool_decide (SecretHash sc = sha256 secret))) (ErrNew "secret does not match secret hash"));
  _ ← pure (if Kind sc =? swapKindInitiator then
              guard_err (negb (Participant sc =? fromAddr sct))
                (Errorf "only the participant can redeem: unexpected address: %x" [FInt (fromAddr sct)])
            else if Kind sc =? swapKindParticipant then
              guard_err (negb (Initiator sc =? fromAddr sct))
                (Errorf "only the initiator can redeem: unexpected address: %x" [FInt (fromAddr sct)])
            else Fail (Errorf "invalid atomic swap contract kind: %d" [FInt (Kind sc)]));
  _ ← pure (guard_err (negb (State sc =? swapStateFilled)) (ErrNew "inactive atomic swap contract"));
  newTransaction None "redeem" [VBytes32 secret; VBytes32 secretHash].

Definition refundTx (secretHash : bytes) : cmd N Transaction :=
  sc ← getSwapContract secretHash;
  _ ← pure (guard_err (negb (bool_decide (SecretHash sc = secretHash))) (ErrNew "invalid secret hash registered"));
  _ ← pure (if Kind sc =? swapKindInitiator then
              guard_err (negb (Initiator sc =? fromAddr sct))
                (Errorf "only the participant can refund: unexpected address: %x" [FInt (fromAddr sct)])
            else if Kind sc =? swapKindParticipant then
              guard_err (negb (Participant sc =? fromAddr sct))
                (Errorf "only the initiator can refund: unexpected address: %x" [FInt (fromAddr sct)])
            else Fail (Errorf "invalid atomic swap contract kind: %d" [FInt (Kind sc)]));
  _ ← pure (guard_err (negb (State sc =? swapStateFilled)) (ErrNew "inactive atomic swap contract"));
  let lockTime := time_Unix (to_int 64 (bigIntPtrToUint64 (InitTimestamp sc) + bigIntPtrToUint64 (RefundTime sc))) in
  now ← Now;
  let dur := TruncateSecond (Until lockTime now) in
  _ ← pure (guard_err (0 <=? dur) (Errorf "contract is still locked for %v" [FInt (dur + 10 ^ 9)]));
  newTransaction None "refund" [VBytes32 secretHash].

(** [calcGasCost(limit, client)]; the tool does not use it. *)
Definition calcGasCost (limit : Z) : cmd N Z :=
  price ← ask SuggestGasPrice;
  mret (price * to_int 64 limit).

(** [contractBin] is the byte code of the binding. *)
Definition deployTx (contractBin : bytes) : cmd N Transaction :=
  newTransactionWithInput None false contractBin.

Definition maxGasCost : cmd N Z :=
  gasPrice ← errf (fun e => Errorf "failed to suggest gas price: %v" [FErr e]) (ask SuggestGasPrice);
  mret (gasPrice * maxGasLimit).
End Transactor.

(** [newSigner]: a signing function for the key in a file. *)
Definition newSigner {N} `{!EthNode N} (path : bytes) : cmd N ((Z -> Transaction -> outcome Transaction) * Z) :=
  json ← errf (fun e => Errorf "failed to read encrypted account/key file (%s) content: %v" [FBytes path; FErr e])
           (ask (ReadFile path));
  passphrase ← errf (fun e => Errorf "failed to get passphrase from STDIN: %v" [FErr e]) (ask speakeasy_Ask);
  key ← pure (mapErr (fun e => Errorf "failed to decrypt (JSON) account/key file (%s): %v" [FBytes path; FErr e])
          (DecryptKey json passphrase));
  let keyAddr := PubkeyToAddress key in
  let sign address tx :=
    _ ← guard_err (negb (address =? keyAddr)) (ErrNew "not authorized to sign this account");
    '(r, s, v) ← Sign tx key;
    Ret (mkTransaction (AccountNonce tx) (Price tx) (GasLimit tx) (Recipient tx) (Amount tx) (Payload tx) v r s) in
  mret (sign, keyAddr).

Definition newSwapContractTransactor {N} `{!EthNode N} (account : bytes) (addr : Z) : cmd N swapContractTransactor :=
  if zlen account =? 0 then
    accounts ← errf (fun e => Errorf "failed to list unlocked accounts: %v" [FErr e]) (ask eth_accounts);
    match accounts with
    | [] => pure (Fail (ErrNew "no unlocked accounts were found"))
    | a :: _ => mret (mkTransactor None a addr true)
    end
  else if IsHexAddress account then mret (mkTransactor None (HexToAddress account) addr false)
  else
    '(sign, from) ← errf (fun e => Errorf "failed to create tx signer: %v" [FErr e]) (newSigner account);
    mret (mkTransactor (Some sign) from addr false).
