(* ===== verification/EthAbiTheorems.v ===== *)
(** * Encoded calls, and swaps read from the chain

    The data of a call is unpacked to the arguments it was packed from, and what
    the contract's getter returns for a swap is unpacked to the fields of that
    swap. *)

From S2P Require Import Prelude Sha256 BigEndian Keccak EthContract EthAbi EthTx Cli EthBinding EthSwap.

#[local] Opaque ID sha256 Keccak256.

(** ** Encoded calls *)

(** The data of the transaction that makes a call of the contract. *)
Definition call_args (c : call) : string * list GoValue :=
  match c with
  | CInitiate r h p => ("initiate"%string, [VBig r; VBytes32 h; VAddress p])
  | CParticipate r h i => ("participate"%string, [VBig r; VBytes32 h; VAddress i])
  | CRedeem s h => ("redeem"%string, [VBytes32 s; VBytes32 h])
  | CRefund h => ("refund"%string, [VBytes32 h])
  end.
Definition call_data (c : call) : outcome bytes := Pack (call_args c).1 (call_args c).2.

Definition is_bytes32 (b : bytes) : Prop := zlen b = 32.

Lemma RightPad32_id b : is_bytes32 b -> RightPad32 b = b.
Proof. unfold is_bytes32, RightPad32. by intros ->. Qed.

Lemma zlen_U256 z : zlen (U256 z) = 32.
Proof. apply zlen_be_put. Qed.
Lemma be_get_U256 z : be_get (U256 z) = to_uint 256 z.
Proof.
  unfold U256. rewrite be_get_put. change (256 ^ Z.of_nat 32) with (2 ^ 256).
  apply Z.mod_small. apply to_uint_range. lia.
Qed.

Lemma zlen_address a : zlen (LeftPad32 (address_bytes a)) = 32.
Proof.
  unfold LeftPad32, address_bytes. rewrite zlen_be_put, be_put_length.
  change (32 <=? Z.of_nat 20) with false. cbv iota. by rewrite zlen_app, zlen_be_put.
Qed.
Lemma BytesToAddress_pad a : is_uint 160 a -> BytesToAddress (LeftPad32 (address_bytes a)) = a.
Proof.
  intros Ha. unfold BytesToAddress. rewrite zlen_address.
  change (20 <? 32) with true. cbv iota.
  pose proof (zlen_address a) as El. unfold zlen in El.
  replace (length (LeftPad32 (address_bytes a)) - 20)%nat with 12%nat by lia.
  unfold LeftPad32, address_bytes. rewrite zlen_be_put, be_put_length.
  change (32 <=? Z.of_nat 20) with false. cbv iota. change (32 - 20)%nat with 12%nat.
  rewrite drop_app_length' by done. rewrite be_get_put.
  apply Z.mod_small, Ha.
Qed.

(** The value of a word of 32 bytes. *)
Definition go_value (t : Typ) (w : bytes) : GoValue :=
  match t with
  | UintTy => VBig (be_get w) | Uint8Ty => VUint8 (default 0 (last w))
  | FixedBytesTy => VBytes32 w | AddressTy => VAddress (BytesToAddress w)
  end.

(** Words of 32 bytes are read where they were written. *)
Lemma toGoType_word i t w pre r : zlen pre = i * 32 -> zlen w = 32 ->
  toGoType (i * 32) t (pre ++ w ++ r) = Ret (go_value t w).
Proof.
  intros Hp Hw. unfold toGoType. rewrite !zlen_app, Hp, Hw.
  destruct (Z.ltb_spec (i * 32 + (32 + zlen r)) (i * 32 + 32)) as [H|_]; [pose proof (zlen_nonneg r); lia|].
  cbn [guard_err mbind outcome_bind]. rewrite drop_app_length' by (unfold zlen in Hp; lia).
  rewrite take_app_length' by (unfold zlen in Hw; lia). done.
Qed.

Lemma unpack_values_words args ws i pre r : length ws = length args -> Forall is_bytes32 ws ->
  zlen pre = i * 32 ->
  unpack_values i args (pre ++ concat ws ++ r) = Ret (zip_with (fun a w => go_value (ArgType a) w) args ws).
Proof.
  revert i pre args. induction ws as [|w ws IH]; intros i pre [|a args] Hl Hws Hp; simplify_eq/=; [done|].
  apply Forall_cons in Hws as [Hw Hws]. rewrite <-app_assoc. rewrite toGoType_word by done.
  cbn [mbind outcome_bind]. rewrite app_assoc, IH; [done|done|done|].
  rewrite zlen_app, Hw. lia.
Qed.

(** The data of each call, written out. *)
Definition method (name : string) : Method :=
  match List.find (fun m => String.eqb (Name m) name) Methods with Some m => m | None => mkMethod "" [] [] end.

Definition call_words (c : call) : list bytes :=
  match c with
  | CInitiate r h a | CParticipate r h a => [U256 r; RightPad32 h; LeftPad32 (address_bytes a)]
  | CRedeem s h => [RightPad32 s; RightPad32 h]
  | CRefund h => [RightPad32 h]
  end.

Lemma call_data_eq c d : call_data c = Ret d <-> d = ID (method (call_args c).1) ++ concat (call_words c).
Proof.
  assert (forall d', Ret d' = Ret d <-> d = d') as Hinj by (split; [congruence|by intros ->]).
  destruct c; unfold call_data, Pack, method; simpl; by rewrite Hinj.
Qed.

Lemma call_method_in c : In (method (call_args c).1) Methods.
Proof. destruct c; vm_compute; tauto. Qed.

(** Decoding the identifier of a call finds its method and leaves the arguments. *)
Lemma call_header c d : call_data c = Ret d ->
  (zlen d <? 4) = false /\ MethodById (take 4 d) = Ret (method (call_args c).1)
  /\ drop 4 d = concat (call_words c).
Proof.
  rewrite call_data_eq. intros ->. pose proof (call_method_in c) as Hm.
  set (m := method _) in *. pose proof (ID_length m Hm) as E.
  rewrite take_app_length', drop_app_length' by done. split_and!; [|by rewrite <-(app_nil_r (ID m)), MethodById_ID|done].
  rewrite zlen_app. assert (zlen (ID m) = 4) as -> by (unfold zlen; by rewrite E).
  pose proof (zlen_nonneg (concat (call_words c))). lia.
Qed.

(** The arguments a call is made with have the sizes of their types. *)
Definition call_ok (c : call) : Prop :=
  match c with
  | CInitiate r h a | CParticipate r h a => is_uint 256 r /\ is_bytes32 h /\ is_uint 160 a
  | CRedeem s h => is_bytes32 s /\ is_bytes32 h
  | CRefund h => is_bytes32 h
  end.

Lemma call_words_ok c : call_ok c -> Forall is_bytes32 (call_words c).
Proof.
  destruct c; cbn [call_ok call_words]; intros H; destruct_and?; repeat constructor;
    first [apply zlen_U256|apply zlen_address|by rewrite RightPad32_id].
Qed.

(** The values [UnpackValues] gives back are those the call was made with. *)
Lemma unpack_call c : call_ok c ->
  UnpackValues (Inputs (method (call_args c).1)) (concat (call_words c)) = Ret (call_args c).2.
Proof.
  intros Hok. unfold UnpackValues. rewrite <-(app_nil_r (concat _)), <-(app_nil_l (_ ++ _)).
  rewrite (unpack_values_words _ (call_words c)); [|by destruct c|by apply call_words_ok|done].
  destruct c; cbn [call_ok] in Hok; destruct_and?; unfold method;
    cbn [call_args fst snd call_words Inputs List.find Methods Name String.eqb Ascii.eqb Bool.eqb
         zip_with go_value ArgType];
    rewrite ?RightPad32_id, ?be_get_U256, ?BytesToAddress_pad, ?to_uint_id by done; done.
Qed.

(** What [redeem], [refund] and [auditcontract] read from a transaction: the
    arguments of [initiate] and [participate]; any other call is refused. *)
Lemma unpackContractInputParams_call c tx : call_ok c -> call_data c = Ret (Payload tx) ->
  match c with
  | CInitiate r h a | CParticipate r h a => unpackContractInputParams tx = Ret (r, h, a)
  | CRedeem _ _ | CRefund _ => exists e, unpackContractInputParams tx = Fail e
  end.
Proof.
  intros Hok Hd. destruct (call_header c _ Hd) as (H4 & Hm & Hdrop). unfold unpackContractInputParams.
  rewrite H4, Hm, Hdrop. cbn [mapErr mbind outcome_bind]. unfold Unpack_slice. rewrite (unpack_call c Hok).
  destruct c; cbn; eauto.
Qed.

Definition redeem_method : Method := Eval vm_compute in method "redeem".

(** The only method called "redeem". *)
Lemma MethodById_redeem sig m : MethodById sig = Ret m -> (Name m =? "redeem")%string = true ->
  m = redeem_method /\ take 4 sig = ID redeem_method.
Proof.
  unfold MethodById. intros H Hn. apply bind_Ret in H as ([] & _ & H). apply of_option_Ret in H.
  apply find_some in H as [Hin E]. apply bool_decide_eq_true in E. repeat destruct Hin as [<-|Hin]; try done.
Qed.

(** Reading two words. *)
Lemma toGoType_bytes32 i d v : 0 <= i -> toGoType i FixedBytesTy d = Ret v ->
  exists w, v = VBytes32 w /\ is_bytes32 w /\ w = take 32 (drop (Z.to_nat i) d) /\ i + 32 <= zlen d.
Proof.
  unfold toGoType. intros Hi H. go_inv H. eexists. split; [done|]. split; [|split; [done|lia]].
  unfold is_bytes32, zlen in *. rewrite length_take, length_drop. lia.
Qed.

Lemma split_words (d : bytes) : d = take 32 d ++ take 32 (drop 32 d) ++ drop 64 d.
Proof. rewrite <-(take_drop 32 d) at 1. f_equal. rewrite <-(take_drop 32 (drop 32 d)) at 1. by rewrite drop_drop. Qed.

(** The names of arguments, with a capital letter, are those of the fields. *)
Lemma redeem_names : mapArgNamesToStructFields ["secret"; "secretHash"] redeem_fields =
  Ret (<["secretHash" := "SecretHash"]> (<["secret" := "Secret"]> ∅))%string.
Proof. vm_compute. reflexivity. Qed.

(** A struct whose fields are stored one by one. *)
Lemma set_field_Ret fs names a f t v st : name_at names a = f -> List.find (fun p => String.eqb p.1 f) fs = Some (f, t) ->
  type_of v = t -> set_field fs names a v st = Ret (<[f := v]> st).
Proof. intros Hn Hf Ht. unfold set_field. rewrite Hn, Hf. by destruct (decide (type_of v = t)). Qed.

Lemma Unpack_redeem_values d : Unpack_redeem (Inputs redeem_method) d =
  (vs ← UnpackValues (Inputs redeem_method) d;
   match vs with [VBytes32 s; VBytes32 h] => Ret (s, h) | _ => Fail cannot_unmarshal end).
Proof.
  unfold Unpack_redeem, Unpack_struct, UnpackValues. cbn [redeem_method Inputs unpack_values ArgType ArgName map].
  destruct (toGoType (0 * 32) FixedBytesTy d) as [v1|e|e] eqn:E1; [|done..].
  cbn [mbind outcome_bind]. destruct (toGoType ((0 + 1) * 32) FixedBytesTy d) as [v2|e|e] eqn:E2; [|done..].
  cbn [mbind outcome_bind]. rewrite redeem_names. cbn [mbind outcome_bind set_fields ArgName].
  unfold toGoType in E1, E2. go_inv E1. go_inv E2. simplify_eq.
  rewrite (set_field_Ret _ _ _ "Secret" FixedBytesTy) by (vm_compute; reflexivity). cbn [mbind outcome_bind].
  rewrite (set_field_Ret _ _ _ "SecretHash" FixedBytesTy) by (vm_compute; reflexivity). cbn [mbind outcome_bind].
  unfold bytes32_field. rewrite lookup_insert_ne, !lookup_insert_eq by done. done.
Qed.

Lemma Unpack_redeem_Ret d s h : Unpack_redeem (Inputs redeem_method) d = Ret (s, h) <->
  exists extra, d = s ++ h ++ extra /\ is_bytes32 s /\ is_bytes32 h.
Proof.
  split.
  - rewrite Unpack_redeem_values. unfold UnpackValues. cbn [redeem_method Inputs unpack_values ArgType]. intros H. go_inv H.
    repeat match goal with E : toGoType _ _ _ = Ret _ |- _ =>
      apply toGoType_bytes32 in E; [|lia]; destruct E as (? & -> & ? & ? & ?) end.
    simplify_eq/=. exists (drop 64 d). split; [exact (split_words d)|done].
  - intros (extra & -> & Hs & Hh). rewrite Unpack_redeem_values. unfold UnpackValues.
    pose proof (unpack_values_words (Inputs redeem_method) [s; h] 0 [] extra) as E.
    cbn [concat app] in E. rewrite app_nil_r, <-app_assoc in E. rewrite E by (done || by repeat constructor). done.
Qed.

(** ** Swaps *)

Definition kind_number (k : EthContract.Kind) : Z := match k with EthContract.Initiator => 0 | EthContract.Participant => 1 end.
Definition state_number (s : EthContract.State) : Z := match s with Empty => 0 | Filled => 1 | Redeemed => 2 | Refunded => 3 end.

(** The getter [swaps(bytes32)] of the contract: the fields of the struct, in the
    ABI encoding; enums are [uint8]. *)
Definition swaps_getter (s : Swap) : outcome bytes :=
  Arguments_Pack (Outputs (method "swaps"))
    [VBig (initTimestamp s); VBig (refundTime s); VBytes32 (secretHash s); VBytes32 (secret s);
     VAddress (initiator s); VAddress (participant s); VBig (value s);
     VUint8 (kind_number (kind s)); VUint8 (state_number (state s))].

(** The struct the binding makes of a stored swap. *)
Definition view_of_swap (s : Swap) : SwapView :=
  mkSwapView (Some (initTimestamp s)) (Some (refundTime s)) (secretHash s) (secret s)
    (initiator s) (participant s) (Some (value s)) (kind_number (kind s)) (state_number (state s)).

(** The data of a call of the getter. *)
Lemma swaps_input h input : is_bytes32 h -> Pack "swaps" [VBytes32 h] = Ret input -> input = ID (method "swaps") ++ h.
Proof.
  intros Hh. unfold Pack, method. simpl. rewrite app_nil_r, RightPad32_id by done. congruence.
Qed.

(** The fields have the widths of their types. *)
Definition swap_typed (s : Swap) : Prop :=
  is_uint 256 (initTimestamp s) /\ is_uint 256 (refundTime s) /\ is_bytes32 (secretHash s) /\ is_bytes32 (secret s)
  /\ is_uint 160 (initiator s) /\ is_uint 160 (participant s) /\ is_uint 256 (value s).

Definition event_typed (e : EthContract.Event) : Prop :=
  match e with
  | EvRefunded t h r v => is_uint 256 t /\ is_bytes32 h /\ is_uint 160 r /\ is_uint 256 v
  | EvRedeemed t h s r v => is_uint 256 t /\ is_bytes32 h /\ is_bytes32 s /\ is_uint 160 r /\ is_uint 256 v
  | EvParticipated t r h i p v | EvInitiated t r h i p v =>
      is_uint 256 t /\ is_uint 256 r /\ is_bytes32 h /\ is_uint 160 i /\ is_uint 160 p /\ is_uint 256 v
  end.

Definition swap_words (s : Swap) : list bytes :=
  [U256 (initTimestamp s); U256 (refundTime s); RightPad32 (secretHash s); RightPad32 (secret s);
   LeftPad32 (address_bytes (initiator s)); LeftPad32 (address_bytes (participant s)); U256 (value s);
   U256 (kind_number (kind s)); U256 (state_number (state s))].

Lemma swaps_getter_eq s : swaps_getter s = Ret (concat (swap_words s)).
Proof. reflexivity. Qed.

Lemma swap_words_ok s : swap_typed s -> Forall is_bytes32 (swap_words s).
Proof.
  intros (_ & _ & H1 & H2 & _). repeat constructor; first [apply zlen_U256|apply zlen_address|by rewrite RightPad32_id].
Qed.

Lemma zlen_swaps_getter s d : swap_typed s -> swaps_getter s = Ret d -> zlen d = 288.
Proof.
  intros Hs Hd. rewrite swaps_getter_eq in Hd. assert (d = concat (swap_words s)) as -> by congruence.
  pose proof (swap_words_ok s Hs) as Hw. cbn [swap_words concat]. rewrite !zlen_app. unfold swap_words in Hw.
  repeat match goal with H : Forall _ (_ :: _) |- _ => apply Forall_cons in H as [?E H] end.
  unfold is_bytes32 in *. change (zlen (@nil Z)) with 0. lia.
Qed.

(** What the getter returns for a swap is read as that swap. *)
Lemma unpack_swap s d : swap_typed s -> swaps_getter s = Ret d ->
  (st ← ABI_Unpack swap_fields "swaps" d; Ret (swap_of_struct st)) = Ret (view_of_swap s).
Proof.
  intros Hs Hd. rewrite swaps_getter_eq in Hd. assert (d = concat (swap_words s)) as -> by congruence. clear Hd.
  pose proof (swap_words_ok s Hs) as Hw.
  pose proof (zlen_swaps_getter s _ Hs (swaps_getter_eq s)) as Hlen.
  unfold ABI_Unpack. rewrite Hlen. cbn [guard_err mbind outcome_bind Z.eqb].
  change (List.find (fun m => String.eqb (Name m) "swaps") Methods) with (Some (method "swaps")).
  change (negb (288 mod 32 =? 0)) with false. cbn [guard_err mbind outcome_bind].
  unfold Unpack_struct, UnpackValues. rewrite <-(app_nil_r (concat _)), <-(app_nil_l (_ ++ _)).
  rewrite (unpack_values_words _ (swap_words s)); [|done|done|done].
  destruct Hs as (H1 & H2 & H3 & H4 & H5 & H6 & H7).
  cbn [mbind outcome_bind swap_words zip_with Outputs method List.find Methods Name String.eqb Ascii.eqb Bool.eqb ArgType go_value].
  rewrite !be_get_U256, !to_uint_id, !RightPad32_id, !BytesToAddress_pad by done.
  assert (forall k, 0 <= k < 4 -> default 0 (last (U256 k)) = k) as Hsmall.
  { intros k Hk. assert (k = 0 \/ k = 1 \/ k = 2 \/ k = 3) as [->|[->|[->| ->]]] by lia; by vm_compute. }
  rewrite !Hsmall by (destruct (kind s), (state s); vm_compute; split; congruence).
  unfold view_of_swap. clear.
  generalize (initTimestamp s) (refundTime s) (secretHash s) (secret s) (initiator s) (participant s) (value s).
  generalize (kind_number (kind s)) (state_number (state s)). intros.
  vm_compute. reflexivity.
Qed.
