(* ===== verification/EthCommands.v ===== *)
(** * The commands of the Ethereum tool: cmd/ethatomicswap/main.go

    [runCommand] of each command: what is printed, when the user is asked, and
    when a transaction is sent to the node. *)

From S2P Require Import Prelude Sha256 Decimal EthAmount EthAbi EthTx Cli EthBinding EthSwap.

Section Commands.
Context {N : Type} `{!EthNode N}.
Context (chainConfig : ChainConfig).

(** [rand.Read] fills the secret; its error is ignored, which leaves zeros. *)
Definition generateSecretHashPair : cmd N (bytes * bytes) := fun w =>
  let '(r, w) := ask (rand_Read 32) w in
  let secret := match r with Ret b => b | _ => replicate 32 0 end in
  (Ret (secret, sha256 secret), w).

(** [(swapTransaction).Send] *)
Definition Send (tx : Transaction) : cmd N unit :=
  errf (fun e => Errorf "failed to send transaction: %v" [FErr e]) (ask (SendTransaction tx)).

Definition ether (wei : Z) : farg := FBytes (formatWeiAsEthString wei).
Definition txCost (tx : Transaction) : Z := Price tx * GasLimit tx.

(** The end of every command: the transaction is shown, and sent if the user
    agrees. [label] is the name in the messages, [Label] its capitalised form. *)
Definition showAndSend (sct : swapContractTransactor) (Label label : string) (tx : Transaction) : cmd N unit :=
  _ ← Printf "Chain ID:         %s\n" [FStr (ChainID chainConfig)];
  _ ← Printf "Contract Address: %x\n" [FInt (contractAddr sct)];
  _ ← Printf (Label +:+ " transaction (%x):\n") [FBytes (Hash tx)];
  txBytes ← pure (mapErr (fun e => Errorf ("failed to encode " +:+ label +:+ " TX: %v") [FErr e]) (EncodeToBytes tx));
  _ ← Printf "%x\n\n" [FBytes txBytes];
  publish ← promptPublishTx label;
  if negb publish then mret tt else
  _ ← Send tx;
  Printf ("Published " +:+ label +:+ " transaction (%x)\n") [FBytes (Hash tx)].

(** The costs [initiate] and [participate] print. *)
Definition showContractCosts (sct : swapContractTransactor) (tx : Transaction) : cmd N unit :=
  _ ← (if autoAccount sct then Printf "Author's refund address: %x\n\n" [FInt (fromAddr sct)] else mret tt);
  _ ← Printf "Contract fee: %s ETH\n" [ether (txCost tx)];
  refundTxCost ← errf (fun e => Errorf "failed to estimate max gas cost for refund tx: %v" [FErr e]) maxGasCost;
  Printf "Refund fee:   %s ETH (max)\n\n" [ether refundTxCost].

Definition initiateCmd (amount cp2Addr : Z) (sct : swapContractTransactor) : cmd N unit :=
  '(secret, secretHash) ← generateSecretHashPair;
  tx ← errf (fun e => Errorf "failed to create initiate TX: %v" [FErr e]) (initiateTx sct amount secretHash cp2Addr);
  _ ← Printf "Amount: %s Wei (%s ETH)\n\n" [FBytes (Int_String amount); ether amount];
  _ ← Printf "Secret:      %x\n" [FBytes secret];
  _ ← Printf "Secret hash: %x\n\n" [FBytes secretHash];
  _ ← showContractCosts sct tx;
  showAndSend sct "Contract" "contract" tx.

Definition participateCmd (amount cp1Addr : Z) (secretHash : bytes) (sct : swapContractTransactor) : cmd N unit :=
  tx ← errf (fun e => Errorf "failed to create participate TX: %v" [FErr e]) (participateTx sct amount secretHash cp1Addr);
  _ ← Printf "Amount: %s Wei (%s ETH)\n\n" [FBytes (Int_String amount); ether amount];
  _ ← showContractCosts sct tx;
  showAndSend sct "Contract" "contract" tx.

Definition redeemCmd (contractTx : Transaction) (secret : bytes) (sct : swapContractTransactor) : cmd N unit :=
  '(_, secretHash, _) ← pure (unpackContractInputParams contractTx);
  tx ← errf (fun e => Errorf "failed to create redeem TX: %v" [FErr e]) (redeemTx sct secretHash secret);
  _ ← Printf "Redeem fee: %s ETH\n\n" [ether (txCost tx)];
  showAndSend sct "Redeem" "redeem" tx.

Definition refundCmd (contractTx : Transaction) (sct : swapContractTransactor) : cmd N unit :=
  '(_, secretHash, _) ← pure (unpackContractInputParams contractTx);
  tx ← errf (fun e => Errorf "failed to create refund TX: %v" [FErr e]) (refundTx sct secretHash);
  _ ← Printf "Refund fee: %s ETH\n\n" [ether (txCost tx)];
  showAndSend sct "Refund" "refund" tx.

Definition deployContractCmd (contractBin : bytes) (sct : swapContractTransactor) : cmd N unit :=
  tx ← errf (fun e => Errorf "failed to create deploy TX: %v" [FErr e]) (deployTx sct contractBin);
  _ ← Printf "Deploy fee: %s ETH\n\n" [ether (txCost tx)];
  showAndSend sct "Deploy" "deploy" tx.

Definition extractSecretCmd (redemptionTx : Transaction) (secretHash : bytes) : cmd N unit :=
  secret ← pure (extractSecret redemptionTx secretHash);
  Printf "Secret: %x\n" [FBytes secret].

Definition validateDeployedContractCmd (contractBin : bytes) (tx : Transaction) : cmd N unit :=
  _ ← pure (guard_err (negb (bool_decide (Payload tx = contractBin)))
        (ErrNew "deployed contract is invalid (make sure to use the same Solidity contract source code and Compiler version (0.4.24))"));
  Printf "Contract is valid\n" [].

(** The lock time [auditcontract] shows, in seconds as given to [time.Unix]. *)
Definition audit_lockTime (blockTime lockDuration : Z) : Z :=
  to_int 64 (to_int 64 blockTime + Int64 lockDuration).

Definition auditContractCmd (contractTx : Transaction) (sct : swapContractTransactor) : cmd N unit :=
  '(lockDuration, secretHash, toAddress) ← pure (unpackContractInputParams contractTx);
  let contractHash := Hash contractTx in
  rpcTx ← errf (fun e => Errorf "failed to find transaction (%x): %v" [FBytes contractHash; FErr e])
            (ask (eth_getTransactionByHash contractHash));
  _ ← pure (guard_err (match BlockNumber rpcTx with
                       | None => true | Some n => (n =? "")%string || (n =? "0")%string end)
              (Errorf "transaction (%x) is pending" [FBytes contractHash]));
  (* the pointer to the block hash is dereferenced *)
  blockHash ← pure (match BlockHash rpcTx with Some h => Ret h | None => Panic (ErrNew "nil pointer dereference") end);
  blockTime ← errf (fun e => Errorf "failed to find block (%x): %v" [FBytes blockHash; FErr e])
                (ask (BlockByHash blockHash));
  let lockTime := audit_lockTime blockTime lockDuration in
  _ ← Printf "Contract address:        %x\n" [match Recipient contractTx with Some a => FInt a | None => FStr "<nil>" end];
  _ ← Printf "Contract value:          %s ETH\n" [ether (Amount contractTx)];
  _ ← Printf "Recipient address:       %x\n" [FInt toAddress];
  _ ← Printf "Author's refund address: %x\n\n" [match From rpcTx with Some a => FInt a | None => FStr "<nil>" end];
  _ ← Printf "Secret hash: %x\n\n" [FBytes secretHash];
  _ ← Printf "Locktime: %v\n" [FInt lockTime];
  now ← Now;
  let reachedAt := TruncateSecond (Until (time_Unix lockTime) now) in
  if 0 <? reachedAt then Printf "Locktime reached in %v\n" [FInt reachedAt]
  else Printf "Contract refund time lock has expired\n" [].
End Commands.
