(* ===== verification/EthTheorems.v ===== *)
(** * Theorems about the Ethereum tool

    The transactions the tool builds do what the contract accepts: a redeem or
    refund that passes the tool's checks succeeds on chain, the calls are read
    back by [extractsecret] and [auditcontract], the lock time shown is never
    later than the contract's, and a command sends at most one transaction,
    the one shown, after the user agreed. *)

From S2P Require Import Prelude Sha256 BigEndian Keccak Decimal EthAmount EthContract EthContractTheorems EthAbi EthTx Cli EthBinding EthAbiTheorems EthSwap EthCommands.

#[local] Opaque ID sha256 Keccak256.
#[local] Arguments to_int : simpl never.
#[local] Arguments to_uint : simpl never.

(** ** Calls read back *)

Lemma eth_extractSecret_Ret tx h s :
  extractSecret tx h = Ret s <->
  exists extra, Payload tx = ID redeem_method ++ s ++ h ++ extra
    /\ is_bytes32 s /\ is_bytes32 h /\ sha256 s = h.
Proof.
  unfold extractSecret. split.
  - destruct (Z.ltb_spec (zlen (Payload tx)) 4) as [|H4]; [done|]. intros H. go_inv H.
    match goal with E : negb (Name _ =? _)%string = false |- _ => apply negb_false_iff in E end.
    match goal with E : MethodById _ = Ret _ |- _ => apply MethodById_redeem in E as [-> E]; [|done] end.
    match goal with E : Unpack_redeem _ _ = Ret ?p |- _ => destruct p as [s' h'] end.
    match goal with E : Unpack_redeem _ _ = Ret _ |- _ => apply Unpack_redeem_Ret in E as (extra & Ed & ? & ?) end.
    go_inv H. repeat match goal with E : negb (bool_decide _) = false |- _ =>
      apply negb_false_iff, bool_decide_eq_true in E; subst end.
    exists extra. split; [|done]. rewrite <-(take_drop 4 (Payload tx)), Ed.
    match goal with E : take 4 (take 4 _) = _ |- _ => rewrite take_take in E; simpl in E; by rewrite E end.
  - intros (extra & -> & Hs & Hh & <-).
    assert (length (ID redeem_method) = 4%nat) as E by (apply ID_length; vm_compute; tauto).
    rewrite zlen_app. assert (zlen (ID redeem_method) = 4) as -> by (unfold zlen; by rewrite E).
    destruct (Z.ltb_spec (4 + zlen (s ++ sha256 s ++ extra)) 4) as [H|_];
      [pose proof (zlen_nonneg (s ++ sha256 s ++ extra)); lia|].
    rewrite take_app_length', drop_app_length' by done.
    assert (In redeem_method Methods) as Hin by (vm_compute; tauto).
    pose proof (MethodById_ID redeem_method [] Hin) as Em. rewrite app_nil_r in Em. rewrite Em.
    cbn [mapErr mbind outcome_bind].
    rewrite (proj2 (Unpack_redeem_Ret _ s (sha256 s))) by eauto. cbn [redeem_method Name negb String.eqb Ascii.eqb Bool.eqb].
    cbn [guard_err mapErr mbind outcome_bind]. rewrite !bool_decide_eq_true_2 by done. done.
Qed.

(** C30: [extractsecret] succeeds on a transaction exactly when its data is a
    call of [redeem] with a 32-byte secret and the 32-byte hash asked for, and
    the secret is a preimage of that hash; it then prints that secret. *)
Theorem eth_extractSecret_spec tx h s :
  extractSecret tx h = Ret s <->
  exists extra, Payload tx = ID redeem_method ++ s ++ h ++ extra
    /\ is_bytes32 s /\ is_bytes32 h /\ sha256 s = h.
Proof. apply eth_extractSecret_Ret. Qed.

(** The contract transactions the tool builds are read back by [redeem],
    [refund] and [auditcontract]: they find the lock duration, the secret hash
    and the counterparty in the data of [initiate] and [participate], and
    refuse the data of the two other calls. *)
Theorem contract_calls_read_back c tx : call_ok c -> call_data c = Ret (Payload tx) ->
  match c with
  | CInitiate r h a | CParticipate r h a => unpackContractInputParams tx = Ret (r, h, a)
  | CRedeem _ _ | CRefund _ => exists e, unpackContractInputParams tx = Fail e
  end.
Proof. apply unpackContractInputParams_call. Qed.

(** ** Lock times *)

Lemma Int64_cases D : 0 <= D < 2 ^ 256 ->
  Int64 D <= D /\ (2 ^ 256 - 2 ^ 63 <= D -> Int64 D = D - 2 ^ 256) /\ (D < 2 ^ 63 -> Int64 D = D).
Proof.
  intros HD. unfold Int64. split_and!.
  - unfold to_int. pose proof (Z.div_mod (D + 2 ^ (64 - 1)) (2 ^ 64) ltac:(lia)).
    assert (0 <= (D + 2 ^ (64 - 1)) / 2 ^ 64) by (apply Z.div_pos; lia). lia.
  - intros H. unfold to_int. replace (D + 2 ^ (64 - 1)) with (D - 2 ^ 256 + 2 ^ 63 + 2 ^ 192 * 2 ^ 64) by lia.
    rewrite Z.mod_add, Z.mod_small by lia. lia.
  - intros H. apply to_int_id; [lia|]. unfold is_int. lia.
Qed.

(** C11: Auditing never shows a lock time later than the moment from which the
    contract refunds. For every 256-bit lock duration, also those chosen so
    that the contract's addition wraps around or that do not fit 64 bits, the
    lock time [auditcontract] computes from the time of the block is at most
    the deadline the contract compares the block time with; and for durations
    that stay below 2^63 the two agree. *)
Theorem audit_lockTime_sound s : 0 <= initTimestamp s < 2 ^ 63 -> is_uint 256 (refundTime s) ->
  audit_lockTime (initTimestamp s) (refundTime s) <= deadline s
  /\ (initTimestamp s + refundTime s < 2 ^ 63 ->
        audit_lockTime (initTimestamp s) (refundTime s) = deadline s).
Proof.
  unfold is_uint, audit_lockTime, deadline. intros Ht HD.
  destruct (Int64_cases (refundTime s) HD) as (H1 & H2 & H3).
  assert (is_int 64 (Int64 (refundTime s))) as Hr by (apply to_int_range; lia). unfold is_int in Hr.
  rewrite (to_int_id 64 (initTimestamp s)) by (unfold is_int; lia).
  set (t := initTimestamp s) in *. set (D := refundTime s) in *. set (d := Int64 D) in *.
  pose proof (to_uint_range 256 (t + D) ltac:(lia)) as Hrange. unfold is_uint in Hrange.
  assert (to_int 64 (t + d) <= Z.max 0 (t + d) /\ (t + d < 0 -> to_int 64 (t + d) = t + d)) as [Hw Hn].
  { destruct (decide (t + d < 2 ^ 63)).
    - rewrite to_int_id by (unfold is_int; lia). lia.
    - unfold to_int. replace (t + d + 2 ^ (64 - 1)) with (t + d - 2 ^ 63 + 1 * 2 ^ 64) by lia.
      rewrite Z.mod_add, Z.mod_small by lia. lia. }
  split.
  - destruct (decide (t + D < 2 ^ 256)).
    + rewrite (to_uint_id 256 (t + D)) by (unfold is_uint; lia). lia.
    + assert (to_uint 256 (t + D) = t + D - 2 ^ 256) as E.
      { unfold to_uint. replace (t + D) with (t + D - 2 ^ 256 + 1 * 2 ^ 256) at 1 by lia.
        rewrite Z.mod_add by lia. apply Z.mod_small. lia. }
      rewrite E. lia.
  - intros Hlt. rewrite (H3 ltac:(lia)), to_int_id, to_uint_id by (unfold is_int, is_uint; lia). done.
Qed.

(** A duration that makes the contract's addition wrap: refundable at once. *)
Definition wrapping_swap : Swap :=
  mkSwap 1500000000 (2 ^ 256 - 1000) zero32 zero32 1 2 5 EthContract.Initiator Filled.

Lemma audit_lockTime_sound_witness :
  deadline wrapping_swap = 1499999000
  /\ audit_lockTime (initTimestamp wrapping_swap) (refundTime wrapping_swap) <= deadline wrapping_swap.
Proof. split; [by vm_compute|]. apply audit_lockTime_sound; by vm_compute. Defined.

(** ** What passes the tool's checks succeeds on chain *)

(** A node that shows the storage of the contract at [this]: a call of [swaps]
    returns the encoded swap. *)
Class ServesChain (N : Type) `{!EthNode N} (this : Z) (chain : N -> world) : Prop :=
  serves_swaps from h n input d n' : is_bytes32 h -> Pack "swaps" [VBytes32 h] = Ret input ->
    CallContract (mkCallMsg from (Some this) 0 input) n = (Ret d, n') -> swaps_getter (swap_at (chain n) h) = Ret d.

(** A daemon that signs the transaction it is given. *)
Class DaemonSigns (N : Type) `{!EthNode N} : Prop :=
  daemon_signs r n tx n' : eth_signTransaction r n = (Ret tx, n') ->
    Recipient tx = req_To r /\ Amount tx = req_Value r /\ Payload tx = req_Data r.

(** A signing function that only adds a signature; those of [newSigner] do. *)
Definition signer_ok (sct : swapContractTransactor) : Prop :=
  match signer sct with
  | None => True
  | Some f => forall a tx tx', f a tx = Ret tx' ->
      Recipient tx' = Recipient tx /\ Amount tx' = Amount tx /\ Payload tx' = Payload tx
  end.

(** A transaction that makes a call of a contract, with some ether. *)
Definition tx_calls (tx : Transaction) (this v : Z) (c : call) : Prop :=
  Recipient tx = Some this /\ Amount tx = v /\ call_data c = Ret (Payload tx).

Lemma newTransactor_signs {N} `{!EthNode N} account addr (e e' : env N) sct :
  newSwapContractTransactor account addr e = (Ret sct, e') -> signer_ok sct /\ contractAddr sct = addr.
Proof.
  unfold newSwapContractTransactor. intros H. destruct (zlen account =? 0).
  { cmd_inv H. destruct a as [|a0 l]; cmd_inv H. by subst. }
  destruct (IsHexAddress account); [by cmd_inv H; subst|]. cmd_inv H.
  destruct a as [sign from]. cmd_inv H. subst. split; [|done].
  unfold newSigner in Hc. cmd_inv Hc. simplify_eq. intros b tx tx' Hs. go_inv Hs.
  match goal with p : (Z * Z * Z)%type |- _ => destruct p as [[r s] v] end. by simplify_eq/=.
Qed.

Section Accepted.
Context {N : Type} `{!EthNode N} (sct : swapContractTransactor) (chain : N -> world).
Context `{!ServesChain N (contractAddr sct) chain, !DaemonSigns N}.
Context (Hsigner : signer_ok sct).

Lemma newTransaction_calls amount c e tx e' :
  newTransaction sct amount (call_args c).1 (call_args c).2 e = (Ret tx, e') ->
  tx_calls tx (contractAddr sct) (default 0 amount) c.
Proof.
  unfold newTransaction, newTransactionWithInput. intros H. cmd_inv H. destruct a0 as [nonce gasPrice].
  cmd_inv H. unfold signer_ok in Hsigner. unfold tx_calls, call_data.
  destruct (signer sct) as [f|]; cmd_inv H.
  - match goal with E : f _ _ = Ret _ |- _ => apply Hsigner in E as (-> & -> & ->) end. by rewrite Hc.
  - apply run_ask in H as (n & H & _). apply daemon_signs in H as (-> & -> & ->). by rewrite Hc.
Qed.

(** What the binding reads is the stored swap. *)
Lemma Swaps_Ret from h e sc e' : is_bytes32 h -> swap_typed (swap_at (chain (node e)) h) -> Swaps (NewContract (contractAddr sct)) from h e = (Ret sc, e') ->
  sc = view_of_swap (swap_at (chain (node e)) h) /\ clock e' = clock e.
Proof.
  unfold Swaps, BoundContract_Call. intros Hh Hty H. cmd_inv H.
  match goal with E : ask (CallContract _) _ = _ |- _ => apply run_ask in E as (n & E & ->); eapply serves_swaps in E; [|done|done] end.
  match goal with E : swaps_getter ?s = Ret ?d |- _ =>
    pose proof (zlen_swaps_getter s d Hty E) as Hlen;
    pose proof (unpack_swap s d Hty E) as Hu end.
  rewrite Hlen in *. change (288 =? 0) with false in *.
  match goal with E : (if false then _ else mret tt) _ = _ |- _ => cbn [mret] in E; apply run_ret in E as [_ ->] end.
  match goal with E : ABI_Unpack _ _ _ = Ret _ |- _ => rewrite E in Hu end.
  cbn [mbind outcome_bind] in Hu. split; [congruence|done].
Qed.

Lemma getSwapContract_Ret h e sc e' : is_bytes32 h -> swap_typed (swap_at (chain (node e)) h) -> getSwapContract sct h e = (Ret sc, e') ->
  sc = view_of_swap (swap_at (chain (node e)) h) /\ State sc <> 0 /\ clock e' = clock e.
Proof.
  unfold getSwapContract. intros Hh Hty H. apply run_bind in H as (sc' & e1 & Hs & H). apply run_errf, Swaps_Ret in Hs as [-> Hclk]; [|done..].
  cmd_inv H. subst.
  split_and!; [done|by apply Z.eqb_neq|done].
Qed.

Lemma checkNotExists_Ret h e e' : is_bytes32 h -> swap_typed (swap_at (chain (node e)) h) -> checkNotExists sct h e = (Ret tt, e') ->
  state (swap_at (chain (node e)) h) = Empty.
Proof.
  intros Hh Hty. unfold checkNotExists. destruct (getSwapContract sct h e) as [[sc|er|er] e1] eqn:E; [done| |done].
  destruct (is_errNotExists er) eqn:Hn; [|done]. intros _. revert E. unfold getSwapContract, errf, mbind at 1, cmd_bind at 1.
  destruct (Swaps _ _ h e) as [[sc|er'|er'] e2] eqn:E; cbn; [|intros [= <- _]; done|done].
  apply Swaps_Ret in E as [-> _]; [|done..]. unfold pure, guard_err. cbn.
  destruct (state (swap_at (chain (node e)) h)); cbn; done.
Qed.

(** [redeemTx] and [refundTx] pass their checks only for a filled swap and the
    right account. *)
Lemma redeemTx_Ret h sec e tx e' : is_bytes32 h -> swap_typed (swap_at (chain (node e)) h) -> redeemTx sct h sec e = (Ret tx, e') ->
  let s := swap_at (chain (node e)) h in
  state s = Filled /\ redeemer_of s = fromAddr sct /\ secretHash s = h /\ sha256 sec = h
  /\ tx_calls tx (contractAddr sct) 0 (CRedeem sec h).
Proof.
  unfold redeemTx. intros Hh Hty H. set (s := swap_at (chain (node e)) h). apply run_bind in H as (sc & e1 & Hsc & H).
  apply getSwapContract_Ret in Hsc as (-> & Hne & _); [|done..]. fold s in H, Hne. cmd_inv H.
  apply (newTransaction_calls None (CRedeem sec h)) in H.
  repeat match goal with E : negb (bool_decide _) = false |- _ => apply negb_false_iff, bool_decide_eq_true in E end.
  unfold swapKindInitiator, swapKindParticipant, swapStateFilled in *. cbn [view_of_swap SecretHash Kind State Participant Initiator] in *.
  unfold redeemer_of. split_and!; [|destruct (kind s); simplify_eq/=|done|congruence|done].
  - destruct (state s); simplify_eq/=; done.
  - match goal with E : guard_err _ _ = Ret _ |- _ => apply guard_err_Ret in E; lia end.
  - match goal with E : guard_err _ _ = Ret _ |- _ => apply guard_err_Ret in E; lia end.
Qed.

Lemma Until_negative t now : TruncateSecond (Until t now) < 0 <-> t * 10 ^ 9 + 10 ^ 9 <= now + unixToInternal * 10 ^ 9.
Proof.
  unfold TruncateSecond, Until. set (d := t * 10 ^ 9 - (now + unixToInternal * 10 ^ 9)).
  assert (d <= - 10 ^ 9 <-> clamp64 d <= - 10 ^ 9) as Hc by (unfold clamp64; lia).
  transitivity (clamp64 d <= - 10 ^ 9); [|rewrite <-Hc; unfold d; lia].
  generalize (clamp64 d) as c. clear. intros c. change (10 ^ 9) with 1000000000.
  pose proof (Z.quot_rem c 1000000000 ltac:(lia)). destruct (Z.le_gt_cases 0 c) as [Hc|Hc].
  - pose proof (Z.quot_pos c 1000000000 ltac:(lia) ltac:(lia)). lia.
  - pose proof (Z.rem_bound_pos (- c) 1000000000 ltac:(lia) ltac:(lia)) as Hr.
    rewrite Z.rem_opp_l in Hr by lia. lia.
Qed.

(** The lock time [refundTx] compares the clock with. *)
Lemma refund_lockTime s : 0 <= initTimestamp s -> 0 <= refundTime s -> initTimestamp s + refundTime s < 2 ^ 62 ->
  time_Unix (to_int 64 (bigIntPtrToUint64 (Some (initTimestamp s)) + bigIntPtrToUint64 (Some (refundTime s))))
  = deadline s + unixToInternal.
Proof.
  intros H1 H2 H3. unfold time_Unix, bigIntPtrToUint64, Int64, deadline. change unixToInternal with 62135596800.
  rewrite (to_int_id 64 (initTimestamp s)), (to_int_id 64 (refundTime s)) by (unfold is_int; lia).
  rewrite (to_int_id 64 (initTimestamp s + refundTime s)) by (unfold is_int; lia).
  by rewrite to_int_id, to_uint_id by (unfold is_int, is_uint; lia).
Qed.

Lemma refundTx_Ret h e tx e' : is_bytes32 h -> swap_typed (swap_at (chain (node e)) h) -> refundTx sct h e = (Ret tx, e') ->
  let s := swap_at (chain (node e)) h in
  state s = Filled /\ author_of s = fromAddr sct /\ tx_calls tx (contractAddr sct) 0 (CRefund h)
  /\ (initTimestamp s + refundTime s < 2 ^ 62 -> (deadline s + 1) * 10 ^ 9 <= clock e).
Proof.
  unfold refundTx. intros Hh Hty H. set (s := swap_at (chain (node e)) h) in *.
  assert (0 <= initTimestamp s) as Ht1 by apply Hty. assert (0 <= refundTime s) as Ht2 by apply Hty. apply run_bind in H as (sc & e1 & Hsc & H).
  apply getSwapContract_Ret in Hsc as (-> & Hne & Hclk); [|done..]. fold s in H, Hne.
  change (InitTimestamp (view_of_swap s)) with (Some (initTimestamp s)) in H.
  change (RefundTime (view_of_swap s)) with (Some (refundTime s)) in H.
  pose proof (refund_lockTime s Ht1 Ht2) as Hlock.
  match type of Hlock with _ -> ?t = _ => set (lockTime := t) in *; clearbody lockTime end. cmd_inv H.
  apply (newTransaction_calls None (CRefund h)) in H.
  unfold swapKindInitiator, swapKindParticipant, swapStateFilled in *.
  cbn [view_of_swap SecretHash Kind State Participant Initiator] in *.
  unfold author_of. split_and!; [|destruct (kind s); simplify_eq/=|done|intros Ht3].
  - destruct (state s); simplify_eq/=; done.
  - match goal with E : guard_err _ _ = Ret _ |- _ => apply guard_err_Ret in E; lia end.
  - match goal with E : guard_err _ _ = Ret _ |- _ => apply guard_err_Ret in E; lia end.
  - match goal with E : (0 <=? TruncateSecond _) = false |- _ =>
      rewrite Hlock in E by done; apply Z.leb_gt, Until_negative in E; rewrite Hclk in E; lia end.
Qed.

(** C24: What becomes on chain of a redemption or refund the tool agrees to build.
    Let the node show the contract's storage, in a reachable state, and let the
    account of the tool accept ether. If [redeemTx] returns a transaction, then
    it calls [redeem] with the secret and no ether, and this call succeeds in
    any later block as long as the state is unchanged. If [refundTx] returns a
    transaction, it calls [refund], and the call succeeds in a block exactly
    when the block's time is after the deadline of the swap. The tool has checked
    that before, for periods that end before the second 2^62: then every block
    whose time is not before the second at which the tool looked at its clock is
    after the deadline, so the call succeeds. (For longer periods, which the
    contract stores in 256 bits, the tool computes the lock time in 64 bits.) *)
Theorem settlements_accepted (fallback : Z -> Z -> world -> option world) `{!Stipend fallback} h e :
  let w := chain (node e) in
  let s := swap_at w h in
  reachable (contractAddr sct) fallback w -> is_bytes32 h -> swap_typed s ->
  fallback (fromAddr sct) (value s) (move (contractAddr sct) (fromAddr sct) (value s) w) <> None ->
  (forall sec tx e' ts, redeemTx sct h sec e = (Ret tx, e') ->
     tx_calls tx (contractAddr sct) 0 (CRedeem sec h)
     /\ exec (contractAddr sct) fallback (mkMsg (fromAddr sct) 0 ts) (CRedeem sec h) w
        = Ret (call_effect (contractAddr sct) (mkMsg (fromAddr sct) 0 ts) (CRedeem sec h) w))
  /\ (forall tx e' ts, refundTx sct h e = (Ret tx, e') ->
     tx_calls tx (contractAddr sct) 0 (CRefund h)
     /\ (exec (contractAddr sct) fallback (mkMsg (fromAddr sct) 0 ts) (CRefund h) w
         = Ret (call_effect (contractAddr sct) (mkMsg (fromAddr sct) 0 ts) (CRefund h) w) <-> deadline s < ts)
     /\ (initTimestamp s + refundTime s < 2 ^ 62 -> clock e < (ts + 1) * 10 ^ 9 ->
        deadline s < ts
        /\ exec (contractAddr sct) fallback (mkMsg (fromAddr sct) 0 ts) (CRefund h) w
           = Ret (call_effect (contractAddr sct) (mkMsg (fromAddr sct) 0 ts) (CRefund h) w))).
Proof.
  intros w s Hr Hh Hty Hacc. split.
  - intros sec tx e' ts H. apply redeemTx_Ret in H as (Hf & Ha & _ & Hs & Hc); [|done..]. split; [done|].
    apply (exec_Ret _ fallback). split; [|done].
    split_and!; [done|done|done|done|by apply (reachable_pays _ fallback)|done].
  - intros tx e' ts H. apply refundTx_Ret in H as (Hf & Ha & Hc & Hd); [|done..]. split; [done|]. fold w s in Hf, Ha, Hd.
    assert (exec (contractAddr sct) fallback (mkMsg (fromAddr sct) 0 ts) (CRefund h) w
         = Ret (call_effect (contractAddr sct) (mkMsg (fromAddr sct) 0 ts) (CRefund h) w) <-> deadline s < ts) as Hiff.
    { rewrite (exec_Ret _ fallback). split; [intros [Hg _]; apply Hg|intros Hts; split; [|done]].
      split_and!; [done|done|done|exact Hts|by apply (reachable_pays _ fallback)|done]. }
    split; [exact Hiff|]. intros Ht3 Hts. assert (deadline s < ts) as Hlt by (specialize (Hd Ht3); lia).
    split; [exact Hlt|]. by apply Hiff.
Qed.

(** C25: A swap the tool agrees to open is accepted by the contract: if the node
    shows the contract's storage, a transaction of [initiateTx] (or
    [participateTx]) calls [initiate] ([participate]) with 48 (24) hours, the
    hash, the counterparty and the amount, and the call succeeds for a positive
    amount the account has; the swap stored then is the one [auditcontract]
    reads from the transaction. *)
Theorem openings_accepted (fallback : Z -> Z -> world -> option world) `{!Stipend fallback} amount h who ts e :
  let w := chain (node e) in
  0 < amount <= balance w (fromAddr sct) -> is_bytes32 h -> is_uint 160 who -> swap_typed (swap_at w h) ->
  (forall tx e', initiateTx sct amount h who e = (Ret tx, e') ->
     tx_calls tx (contractAddr sct) amount (CInitiate 172800 h who)
     /\ unpackContractInputParams tx = Ret (172800, h, who)
     /\ exists w', exec (contractAddr sct) fallback (mkMsg (fromAddr sct) amount ts) (CInitiate 172800 h who) w = Ret w'
        /\ swap_at w' h = mkSwap ts 172800 h (secret (swap_at w h)) (fromAddr sct) who amount EthContract.Initiator Filled)
  /\ (forall tx e', participateTx sct amount h who e = (Ret tx, e') ->
     tx_calls tx (contractAddr sct) amount (CParticipate 86400 h who)
     /\ unpackContractInputParams tx = Ret (86400, h, who)
     /\ exists w', exec (contractAddr sct) fallback (mkMsg (fromAddr sct) amount ts) (CParticipate 86400 h who) w = Ret w'
        /\ swap_at w' h = mkSwap ts 86400 h (secret (swap_at w h)) who (fromAddr sct) amount EthContract.Participant Filled).
Proof.
  intros w Hamt Hh Hwho Hty. split; intros tx e' H; apply run_bind in H as ([] & e1 & Hn & H);
    (apply checkNotExists_Ret in Hn; [|done..]).
  - apply (newTransaction_calls (Some amount) (CInitiate 172800 h who)) in H. split; [done|].
    split; [by apply (unpackContractInputParams_call (CInitiate 172800 h who)); [|apply H]|].
    eexists. split; [apply (exec_Ret _ fallback); split; [cbn [call_guard msg_value sender]; by split_and!; try apply Hamt|done]|].
    simpl. autorewrite with eth. by rewrite decide_True.
  - apply (newTransaction_calls (Some amount) (CParticipate 86400 h who)) in H. split; [done|].
    split; [by apply (unpackContractInputParams_call (CParticipate 86400 h who)); [|apply H]|].
    eexists. split; [apply (exec_Ret _ fallback); split; [cbn [call_guard msg_value sender]; by split_and!; try apply Hamt|done]|].
    simpl. autorewrite with eth. by rewrite decide_True.
Qed.

(** C36: What the tool sees of a swap is what the contract stores. If the node
    shows the contract's storage and answers the call, [getSwapContract] packs
    the hash, and unpacks the encoding of the contract's getter to exactly the
    nine fields of the stored swap, or finds that there is none; nothing is
    printed or read. *)
Theorem getSwapContract_spec h e input d n (s := swap_at (chain (node e)) h) :
  is_bytes32 h -> swap_typed s -> Pack "swaps" [VBytes32 h] = Ret input ->
  CallContract (mkCallMsg (fromAddr sct) (Some (contractAddr sct)) 0 input) (node e) = (Ret d, n) ->
  getSwapContract sct h e =
    (if decide (state s = Empty) then Fail errNotExists else Ret (view_of_swap s), mkEnv n (stdin e) (stdout e) (clock e)).
Proof.
  intros Hh Hty Hi Hc. pose proof (serves_swaps _ _ _ _ _ _ Hh Hi Hc) as Hg.
  pose proof (zlen_swaps_getter s d Hty Hg) as Hlen. pose proof (unpack_swap s d Hty Hg) as Hu.
  unfold getSwapContract, Swaps, BoundContract_Call, errf, ask, pure, mbind, cmd_bind. rewrite Hi.
  cbn [bound_address NewContract]. rewrite Hc, Hlen. change (288 =? 0) with false. cbn [mret cmd_ret].
  destruct (ABI_Unpack _ _ d) as [st|er|er]; cbn [mbind outcome_bind] in Hu; [|congruence..].
  assert (swap_of_struct st = view_of_swap s) as -> by congruence.
  cbn [mapErr]. unfold swapStateEmpty. destruct (state s) eqn:E; unfold view_of_swap; rewrite E; done.
Qed.
End Accepted.

(** ** A simulated node *)

Module Sim.
(** The state of the chain and the transactions sent. *)
Record sim := mkSim { storage : world; sent : list Transaction }.

Definition sign (r : SignRequest) : Transaction :=
  mkTransaction (req_Nonce r) (req_GasPrice r) (req_Gas r) (req_To r) (req_Value r) (req_Data r) 27 1 1.

(** A call of [swaps], with its 4 bytes of identifier. *)
#[global] Instance sim_caller : ContractCaller sim := {|
  CallContract m n := (swaps_getter (swap_at (storage n) (drop 4 (msg_Data m))), n);
  CodeAt _ n := (Ret [0x60], n) |}.

#[global] Instance sim_transactor : ContractTransactor sim := {|
  PendingCodeAt _ n := (Ret [0x60], n);
  PendingNonceAt _ n := (Ret 7, n);
  SuggestGasPrice n := (Ret 20000000000, n);
  EstimateGas _ n := (Ret 90000, n);
  SendTransaction tx n := (Ret tt, mkSim (storage n) (tx :: sent n)) |}.

#[global] Instance sim_node : EthNode sim := {|
  eth_signTransaction r n := (Ret (sign r), n);
  eth_getTransactionByHash _ n := (Ret (mkRpcTransaction (Some "0x10"%string) (Some zero32) (Some 1)), n);
  BlockByHash _ n := (Ret 100, n);
  eth_accounts n := (Ret [2], n);
  rand_Read k n := (Ret (replicate k 1), n);
  ReadFile _ n := (Ret [], n);
  speakeasy_Ask n := (Ret [], n);
  DecryptKey _ _ := Ret [];
  PubkeyToAddress _ := 2;
  Sign _ _ := Ret (1, 1, 27) |}.

#[global] Instance sim_serves this : ServesChain sim this storage.
Proof.
  intros from h n input d n' Hh Hi. cbn [CallContract node_caller sim_node sim_caller msg_Data].
  rewrite (swaps_input h input Hh Hi). rewrite drop_app_length' by (symmetry; apply ID_length; vm_compute; tauto). congruence.
Qed.
#[global] Instance sim_signs : DaemonSigns sim.
Proof. intros r n tx n'. simpl. intros [= <- _]. done. Qed.

(** Account 2 looks at the two swaps of [Run.w2], 30 seconds after the second. *)
Definition start : env sim := mkEnv (mkSim Run.w2 []) [bytes_of_string "yes"] [] (140 * 10 ^ 9).
Definition sct (from : Z) : swapContractTransactor := mkTransactor None from Run.this true.

Lemma w2_typed : swap_typed (swap_at Run.w2 Run.hash1).
Proof. by repeat (split; [by vm_compute|]). Qed.

Lemma start_typed : swap_typed (swap_at Run.start Run.hash1).
Proof. by repeat (split; [by vm_compute|]). Qed.

Definition is_ret {A B} (p : outcome A * B) : bool := match p.1 with Ret _ => true | _ => false end.
Lemma is_ret_run {A B} (p : outcome A * B) : is_ret p = true -> exists a b, p = (Ret a, b).
Proof. destruct p as [[a|e|e] b]; [eauto|done|done]. Qed.
End Sim.

(** A swap of account 1 opened at 100 for 2^64 seconds, which 64 bits truncate
    to nothing: a minute later the tool builds its refund, and the contract refuses
    it. *)
Definition long_swap : world := Eval vm_compute in
  Run.get (exec Run.this accepts_all (mkMsg 1 5 100) (CInitiate (2 ^ 64) Run.hash1 2) Run.start).
Definition long_start : env Sim.sim := mkEnv (Sim.mkSim long_swap []) [] [] (161 * 10 ^ 9).

Lemma long_swap_reachable : reachable Run.this accepts_all long_swap.
Proof.
  apply (reach_step _ _ Run.start); [by apply reach_init|].
  apply (step_call _ _ (mkMsg 1 5 100) (CInitiate (2 ^ 64) Run.hash1 2)); [done|by vm_compute].
Qed.

Example long_refund_reverts :
  Sim.is_ret (refundTx (Sim.sct 1) Run.hash1 long_start) = true /\
  deadline (swap_at long_swap Run.hash1) = 2 ^ 64 + 100 /\
  Run.is_ret (exec Run.this accepts_all (mkMsg 1 0 161) (CRefund Run.hash1) long_swap) = false.
Proof. split; [|split]; vm_compute; reflexivity. Qed.

Lemma settlements_accepted_witness :
  (exists tx e', redeemTx (Sim.sct 2) Run.hash1 Run.secret1 Sim.start = (Ret tx, e')
     /\ tx_calls tx Run.this 0 (CRedeem Run.secret1 Run.hash1))
  /\ (exists tx e', refundTx (Sim.sct 1) Run.hash1 (mkEnv (Sim.mkSim Run.w2 []) [] [] (161 * 10 ^ 9)) = (Ret tx, e')
     /\ tx_calls tx Run.this 0 (CRefund Run.hash1)
     /\ deadline (swap_at Run.w2 Run.hash1) < 161).
Proof.
  split.
  - destruct (Sim.is_ret_run (redeemTx (Sim.sct 2) Run.hash1 Run.secret1 Sim.start)) as (tx & e' & E); [by vm_compute|].
    exists tx, e'. split; [done|].
    refine (proj1 (proj1 (settlements_accepted (Sim.sct 2) Sim.storage I accepts_all Run.hash1 Sim.start _ _ _ _) _ _ _ 150 E));
      [apply Run.w2_reachable|by vm_compute|apply Sim.w2_typed|intros [=]].
  - destruct (Sim.is_ret_run (refundTx (Sim.sct 1) Run.hash1 (mkEnv (Sim.mkSim Run.w2 []) [] [] (161 * 10 ^ 9)))) as (tx & e' & E); [by vm_compute|].
    exists tx, e'. split; [done|].
    destruct (proj2 (settlements_accepted (Sim.sct 1) Sim.storage I accepts_all Run.hash1 (mkEnv (Sim.mkSim Run.w2 []) [] [] (161 * 10 ^ 9))
      (Run.w2_reachable _) ltac:(by vm_compute) Sim.w2_typed ltac:(intros [=])) _ _ 161 E) as (Hc & _ & Hd).
    split; [exact Hc|]. apply Hd; by vm_compute.
Defined.

Lemma openings_accepted_witness : exists tx e', initiateTx (Sim.sct 1) 5 Run.hash1 2
    (mkEnv (Sim.mkSim Run.start []) [] [] (161 * 10 ^ 9)) = (Ret tx, e')
  /\ tx_calls tx Run.this 5 (CInitiate 172800 Run.hash1 2).
Proof.
  destruct (Sim.is_ret_run (initiateTx (Sim.sct 1) 5 Run.hash1 2 (mkEnv (Sim.mkSim Run.start []) [] [] (161 * 10 ^ 9)))) as (tx & e' & E); [by vm_compute|].
  exists tx, e'. split; [done|].
  refine (proj1 (proj1 (openings_accepted (Sim.sct 1) Sim.storage I accepts_all 5 Run.hash1 2 100 (mkEnv (Sim.mkSim Run.start []) [] [] (161 * 10 ^ 9)) _ _ _ _) _ _ E));
    [by vm_compute..|exact Sim.start_typed].
Defined.

Lemma contract_calls_read_back_witness : exists d,
  call_data (CInitiate 172800 Run.hash1 2) = Ret d
  /\ unpackContractInputParams (NewTransaction 0 Run.this 5 90000 1 d) = Ret (172800, Run.hash1, 2).
Proof.
  eexists. split; [reflexivity|].
  by apply (contract_calls_read_back (CInitiate 172800 Run.hash1 2)).
Defined.

Lemma getSwapContract_spec_witness :
  (getSwapContract (Sim.sct 2) Run.hash1 Sim.start).1 = Ret (view_of_swap (swap_at Run.w2 Run.hash1)).
Proof.
  destruct (Pack "swaps" [VBytes32 Run.hash1]) as [input|er|er] eqn:Ei; [|vm_compute in Ei; discriminate Ei..].
  destruct (swaps_getter (swap_at Run.w2 Run.hash1)) as [d|er|er] eqn:Ed; [|discriminate Ed..].
  rewrite (getSwapContract_spec (Sim.sct 2) Sim.storage Run.hash1 Sim.start input d (Sim.mkSim Run.w2 []));
    [reflexivity|by vm_compute|apply Sim.w2_typed|exact Ei|].
  rewrite (swaps_input Run.hash1 input eq_refl Ei). rewrite <-Ed. reflexivity.
Defined.
