(* ===== verification/EthBindingTheorems.v ===== *)
(** * The transactor of the tool and that of the binding

    The tool builds its transactions with functions of its own instead of the
    generated ones, in order to show a transaction before it is sent. Apart from
    that, and from a limit on gas, the two do the same. *)

From S2P Require Import Prelude Sha256 BigEndian Keccak Decimal EthAmount EthContract EthContractTheorems EthAbi EthTx Cli EthBinding EthAbiTheorems EthSwap EthCommands EthTheorems.

#[local] Opaque ID sha256 Keccak256.

Section Transactor.
Context {N : Type} `{!EthNode N} (sct : swapContractTransactor).

(** Options that leave nonce, gas price and gas limit to the node. *)
Definition default_opts (amount : option Z) : TransactOpts :=
  mkTransactOpts (fromAddr sct) None (signer sct) amount None 0.

Definition gas_error (gas : Z) : error :=
  Errorf "%d exceeds the hardcoded code-call gas limit of %d" [FInt gas; FInt maxGasLimit].

(** A transaction that is built, of a call or of a creation, and then sent. *)
Lemma newTransactionWithInput_transact c amount contractCall input e :
  signer sct <> None -> (contractCall = true -> bound_address c = contractAddr sct) ->
  let built := newTransactionWithInput sct amount contractCall input e in
  let sent := transact c (default_opts amount) (if contractCall then Some (contractAddr sct) else None) input e in
  match built with
  | (Ret tx, e') => sent = (_ ← ask (SendTransaction tx); mret tx) e'
  | (r, e') => (sent.2 = e' /\ forall tx, sent.1 <> Ret tx)
               \/ (contractCall = true /\ exists gas, maxGasLimit < gas /\ r = Fail (gas_error gas))
  end.
Proof.
  intros Hs Hc. destruct (signer sct) as [sign|] eqn:Esign; [|done].
  unfold newTransactionWithInput, calcBaseOpts, calcGasLimit, transact, default_opts. rewrite Esign.
  cbn [opts_Nonce opts_From opts_GasPrice opts_GasLimit opts_Value opts_Signer of_option Z.eqb].
  unfold errf, ask, pure, mbind, cmd_bind, mret, cmd_ret.
  destruct (PendingNonceAt (fromAddr sct) (node e)) as [[nonce|er|er] n1]; cbn; [|by left..].
  destruct (SuggestGasPrice n1) as [[price|er|er] n2]; cbn; [|by left..].
  destruct contractCall; cbn.
  - rewrite (Hc eq_refl).
    destruct (PendingCodeAt (contractAddr sct) n2) as [[code|er|er] n3]; cbn; [|by left..].
    destruct (zlen code =? 0); cbn; [by left|].
    destruct (EstimateGas _ n3) as [[gas|er|er] n4]; cbn; [|by left..].
    destruct (Z.ltb_spec maxGasLimit gas) as [Hg|Hg]; cbn; [right; eauto|].
    destruct (sign (fromAddr sct) _) as [tx|er|er]; cbn; [done|by left..].
  - destruct (EstimateGas _ n2) as [[gas|er|er] n4]; cbn; [|by left..].
    destruct (sign (fromAddr sct) _) as [tx|er|er]; cbn; [done|by left..].
Qed.

Lemma newTransaction_transact amount name params (e : env N) : signer sct <> None ->
  let sent := Transact (NewContract (contractAddr sct)) (default_opts amount) name params e in
  match newTransaction sct amount name params e with
  | (Ret tx, e') => sent = (_ ← ask (SendTransaction tx); mret tx) e'
  | (r, e') => (sent.2 = e' /\ forall tx, sent.1 <> Ret tx)
               \/ exists gas, maxGasLimit < gas /\ r = Fail (gas_error gas)
  end.
Proof.
  intros Hs. unfold newTransaction, Transact, pure, mbind, cmd_bind. destruct (Pack name params) as [input|er|er]; cbn; [|by left..].
  pose proof (newTransactionWithInput_transact (NewContract (contractAddr sct)) amount true input e Hs (fun _ => eq_refl)) as H.
  cbv zeta in H. destruct (newTransactionWithInput sct amount true input e) as [[tx|er|er] e']; [exact H| |];
    (destruct H as [H|[_ H]]; [left; exact H|right; exact H]).
Qed.

Lemma deployTx_deploys bin (e : env N) : signer sct <> None ->
  let sent := DeployContract (default_opts None) bin e in
  match deployTx sct bin e with
  | (Ret tx, e') => sent = (_ ← ask (SendTransaction tx);
      mret (CreateAddress (fromAddr sct) (AccountNonce tx), tx, NewContract (CreateAddress (fromAddr sct) (AccountNonce tx)))) e'
  | (_, e') => sent.2 = e' /\ forall d, sent.1 <> Ret d
  end.
Proof.
  intros Hs.
  pose proof (newTransactionWithInput_transact (mkBoundContract 0) None false bin e Hs ltac:(discriminate)) as H.
  cbv zeta in H. cbv zeta. unfold deployTx, DeployContract. unfold ask, mbind, cmd_bind, mret, cmd_ret in *.
  destruct (newTransactionWithInput sct None false bin e) as [[tx|er|er] e'];
    [|destruct H as [[H1 H2]|[H _]]; [|discriminate H]..].
  + rewrite H. by destruct (SendTransaction tx (node e')) as [[u|er|er] n].
  + destruct (transact _ _ _ bin e) as [[tx|x|x] e2]; [by destruct (H2 tx)|done..].
  + destruct (transact _ _ _ bin e) as [[tx|x|x] e2]; [by destruct (H2 tx)|done..].
Qed.

(** Without a key, the tool asks the daemon to sign exactly where the binding
    fails for lack of a signer. *)
Definition no_signer : error := ErrNew "no signer to authorize the transaction with".

(** The answer of the daemon to a request to sign what the binding would have
    signed, in the state in which the binding [failed]. *)
Definition signed_by_daemon {A} (failed : outcome A * env N) (to amount : option Z) (input : bytes)
    (built : outcome Transaction * env N) : Prop :=
  exists gas price nonce e1, failed = (Fail no_signer, e1) /\
    built = errf (fun e => Errorf "failed to sign transaction from daemon: %v" [FErr e])
              (ask (eth_signTransaction (mkSignRequest (fromAddr sct) to gas price (default 0 amount) nonce input))) e1.

Lemma newTransactionWithInput_daemon c amount contractCall input e :
  signer sct = None -> (contractCall = true -> bound_address c = contractAddr sct) ->
  let to := if contractCall then Some (contractAddr sct) else None in
  let built := newTransactionWithInput sct amount contractCall input e in
  let sent := transact c (default_opts amount) to input e in
  (forall tx, sent.1 <> Ret tx) /\
  (signed_by_daemon sent to amount input built \/ (forall tx, built.1 <> Ret tx)).
Proof.
  intros Hs Hc. cbv zeta. unfold signed_by_daemon.
  unfold newTransactionWithInput, calcBaseOpts, calcGasLimit, transact, default_opts. rewrite Hs.
  cbn [opts_Nonce opts_From opts_GasPrice opts_GasLimit opts_Value opts_Signer of_option Z.eqb].
  unfold errf, ask, pure, mbind, cmd_bind, mret, cmd_ret.
  destruct (PendingNonceAt (fromAddr sct) (node e)) as [[nonce|er|er] n1]; cbn; [|by split; [|right]..].
  destruct (SuggestGasPrice n1) as [[price|er|er] n2]; cbn; [|by split; [|right]..].
  destruct contractCall; cbn.
  - rewrite (Hc eq_refl).
    destruct (PendingCodeAt (contractAddr sct) n2) as [[code|er|er] n3]; cbn; [|by split; [|right]..].
    destruct (zlen code =? 0); cbn; [by split; [|right]|].
    destruct (EstimateGas _ n3) as [[gas|er|er] n4]; cbn; [|by split; [|right]..].
    split; [done|]. destruct (Z.ltb_spec maxGasLimit gas); cbn; [by right|left]. by eexists gas, price, nonce, _.
  - destruct (EstimateGas _ n2) as [[gas|er|er] n4]; cbn; [|by split; [|right]..].
    split; [done|]. left. by eexists gas, price, nonce, _.
Qed.

(** C21: The tool's transactor is the binding's, as far as it has a key of its own.
    With a key, building a call and sending the transaction has the result and the
    effects of the generated [Transact] with default options: the same questions
    to the node in the same order, the same transaction signed and sent. When
    building fails, so does [Transact], at the same point and with nothing sent,
    except for the limit of 210000 gas that only the tool has. Deploying the
    contract agrees likewise with [DeployContract].
    Without a key, when the daemon signs (the default), the two differ: the
    generated functions never succeed, and whenever the tool builds a transaction
    they fail for lack of a signer, in the very state in which the tool asks the
    daemon to sign the same call of the same account. *)
Theorem transactor_is_binding amount name params bin (e : env N) :
  let sent := Transact (NewContract (contractAddr sct)) (default_opts amount) name params e in
  let deployed := DeployContract (default_opts None) bin e in
  match signer sct with
  | Some _ =>
      match newTransaction sct amount name params e with
      | (Ret tx, e') => sent = (_ ← ask (SendTransaction tx); mret tx) e'
      | (r, e') => (sent.2 = e' /\ forall tx, sent.1 <> Ret tx)
                   \/ exists gas, maxGasLimit < gas /\ r = Fail (gas_error gas)
      end /\
      match deployTx sct bin e with
      | (Ret tx, e') => deployed = (_ ← ask (SendTransaction tx);
          mret (CreateAddress (fromAddr sct) (AccountNonce tx), tx, NewContract (CreateAddress (fromAddr sct) (AccountNonce tx)))) e'
      | (_, e') => deployed.2 = e' /\ forall d, deployed.1 <> Ret d
      end
  | None =>
      (forall tx, sent.1 <> Ret tx) /\ (forall d, deployed.1 <> Ret d) /\
      (forall tx e', newTransaction sct amount name params e = (Ret tx, e') ->
         exists input, Pack name params = Ret input /\
           signed_by_daemon sent (Some (contractAddr sct)) amount input (Ret tx, e')) /\
      (forall tx e', deployTx sct bin e = (Ret tx, e') -> signed_by_daemon deployed None None bin (Ret tx, e'))
  end.
Proof.
  cbv zeta. destruct (signer sct) as [sign|] eqn:Hsign.
  { assert (signer sct <> None) as Hs by congruence. split; [by apply newTransaction_transact|by apply deployTx_deploys]. }
  unfold newTransaction, Transact, deployTx, DeployContract.
  pose proof (newTransactionWithInput_daemon (mkBoundContract 0) None false bin e Hsign ltac:(discriminate)) as [Hd1 Hd2].
  assert (forall d, (DeployContract (default_opts None) bin e).1 <> Ret d) as Hd.
  { intros d. unfold DeployContract, mbind, cmd_bind. by destruct (transact _ _ _ bin e) as [[tx|er|er] e2]; [destruct (Hd1 tx)|..]. }
  split_and!; [| exact Hd| |].
  - intros tx. unfold pure, mbind, cmd_bind. destruct (Pack name params) as [input|er|er]; [|done..].
    by apply (newTransactionWithInput_daemon (NewContract (contractAddr sct)) amount true input e Hsign).
  - intros tx e'. unfold pure, mbind, cmd_bind. destruct (Pack name params) as [input|er|er]; [|done..]. cbn.
    pose proof (newTransactionWithInput_daemon (NewContract (contractAddr sct)) amount true input e Hsign (fun _ => eq_refl)) as [_ H].
    intros E. rewrite E in H. exists input. split; [done|]. by destruct H as [H|H]; [|destruct (H tx)].
  - intros tx e' E. rewrite E in Hd2. destruct Hd2 as [(gas & price & nonce & e1 & Hf & Hb)|Hno]; [|by destruct (Hno tx)].
    exists gas, price, nonce, e1. split; [|done]. unfold mbind, cmd_bind. by rewrite Hf.
Qed.
End Transactor.

(** A transactor with a key of its own: the signature is three ones. *)
Definition keyed_sct : swapContractTransactor :=
  mkTransactor (Some (fun _ tx => Ret (mkTransaction (AccountNonce tx) (Price tx) (GasLimit tx) (Recipient tx) (Amount tx) (Payload tx) 1 1 1)))
    2 Run.this true.

Lemma transactor_is_binding_witness : (exists tx e',
  newTransaction keyed_sct None "refund" [VBytes32 Run.hash1] Sim.start = (Ret tx, e')
  /\ Transact (NewContract Run.this) (default_opts keyed_sct None) "refund" [VBytes32 Run.hash1] Sim.start
     = (Ret tx, mkEnv (Sim.mkSim Run.w2 [tx]) (stdin e') (stdout e') (clock e')))
  /\ (exists e1, Transact (NewContract Run.this) (default_opts (Sim.sct 1) None) "refund" [VBytes32 Run.hash1] Sim.start = (Fail no_signer, e1)).
Proof.
  split; cycle 1.
  { destruct (Sim.is_ret_run (newTransaction (Sim.sct 1) None "refund" [VBytes32 Run.hash1] Sim.start)) as (tx & e' & E); [by vm_compute|].
    destruct (transactor_is_binding (Sim.sct 1) None "refund" [VBytes32 Run.hash1] [] Sim.start) as (_ & _ & H & _).
    destruct (H tx e' E) as (input & _ & (gas & price & nonce & e1 & Hf & _)). exists e1. exact Hf. }
  destruct (Sim.is_ret_run (newTransaction keyed_sct None "refund" [VBytes32 Run.hash1] Sim.start)) as (tx & e' & E); [by vm_compute|].
  exists tx, e'. split; [exact E|].
  pose proof (proj1 (transactor_is_binding keyed_sct None "refund" [VBytes32 Run.hash1] [] Sim.start)) as H.
  cbv zeta in H. rewrite E in H. change (contractAddr keyed_sct) with Run.this in H.
  refine (eq_trans H _). assert (node e' = Sim.mkSim Run.w2 []) as Hn.
  { change e' with (Ret (A := Transaction) tx, e').2. rewrite <-E. vm_compute. reflexivity. }
  unfold ask, mbind, cmd_bind, mret, cmd_ret. rewrite Hn. reflexivity.
Defined.
