(* ===== verification/EthEventsTheorems.v ===== *)
(** * What the iterators and watchers of events promise

    Whatever the interleaving of the producer and the user, an iterator gives
    what a plain walk over the logs gives, and never waits for ever; over a chain
    with the contract these are the events of the contract, in order. A watcher
    forwards the logs of the node in order. *)

From S2P Require Import Prelude Sha256 BigEndian Keccak EthContract EthContractTheorems EthAbi EthTx Cli EthBinding EthEvents EthSwap EthAbiTheorems EthTheorems.

#[local] Opaque ID sha256 Keccak256 Event_ID.

(** ** Iterators *)

Section Iteration.
Context (ev : event_type).

(** The specification: the logs are unpacked in order, up to the first that is
    not a log of the event. *)
Fixpoint iterate (l : list Log) : list ContractEvent * outcome unit :=
  match l with
  | [] => ([], Ret tt)
  | log :: l =>
      match UnpackLog ev log with
      | Ret st => let '(es, r) := iterate l in (mkContractEvent st log :: es, r)
      | Fail e => ([], Fail e)
      | Panic e => ([], Panic e)
      end
  end.

(** What is still to come: [rest] gives [(es, r)], after the events [got]. *)
Definition after (got : list ContractEvent) (p : list ContractEvent * outcome unit) : list ContractEvent * outcome unit :=
  (got ++ p.1, p.2).

Record run_ok (l : list Log) (r : filter_run) : Prop := {
  ok_got : match state_of r, fail (it r) with
           | Crashed, _ => exists e, iterate l = (got r, Panic e)
           | _, None => iterate l = after (got r) (iterate (logs (it r) ++ buff r))
           | _, Some e => iterate l = (got r, Fail e)
           end;
  ok_err : sub_err (sub (it r)) = ErrOpen \/ sub_err (sub (it r)) = ErrClosed;
  ok_buff : sub_err (sub (it r)) = ErrClosed -> unsub (sub (it r)) = false -> buff r = [];
  ok_unsub : unsub (sub (it r)) = true -> state_of r = Closing \/ state_of r = Closed;
  ok_unsubscribed : unsubscribed (sub (it r)) = true -> unsub (sub (it r)) = true \/ sub_err (sub (it r)) = ErrClosed;
  ok_iterating : state_of r = Iterating -> fail (it r) = None;
  ok_done : done (it r) = true -> sub_err (sub (it r)) = ErrClosed;
  ok_stopped : state_of r = Stopped -> fail (it r) = None -> logs (it r) = [] /\ buff r = [] }.

Lemma iterate_step log l : iterate (log :: l) =
  match UnpackLog ev log with
  | Ret st => after [mkContractEvent st log] (iterate l) | Fail e => ([], Fail e) | Panic e => ([], Panic e)
  end.
Proof. simpl. destruct (UnpackLog ev log); [|done..]. by destruct (iterate l). Qed.

Lemma after_app a b p : after a (after b p) = after (a ++ b) p.
Proof. unfold after. simpl. by rewrite app_assoc. Qed.

(** What [Next] does, whatever it picks: it takes the next log, or finds none
    after the end of the subscription. *)
Inductive next_does (i : iterator) : outcome bool -> iterator -> Prop :=
  | next_event log rest st s d : logs i = log :: rest -> UnpackLog ev log = Ret st ->
      next_does i (Ret true) (mkIterator (Some (mkContractEvent st log)) rest s d None)
  | next_fails log rest e s d : logs i = log :: rest -> UnpackLog ev log = Fail e ->
      next_does i (Ret false) (mkIterator (Some (mkContractEvent ∅ zero_log)) rest s d (Some e))
  | next_panics log rest e s d : logs i = log :: rest -> UnpackLog ev log = Panic e ->
      next_does i (Panic e) (mkIterator (Some (mkContractEvent ∅ zero_log)) rest s d None)
  | next_end s d : logs i = [] -> sub_err (sub i) = ErrClosed -> next_does i (Ret false) (mkIterator (Event i) [] s d None).

Lemma deliver_does log rest i b i' : logs i = log :: rest -> fail i = None -> deliver ev log rest i = (b, i') ->
  next_does i b i' /\ sub i' = sub i /\ done i' = done i.
Proof.
  intros Hl Hf. unfold deliver. destruct (UnpackLog ev log) as [st|e|e] eqn:E; intros [= <- <-]; (split; [|done]);
    rewrite ?Hf; by econstructor.
Qed.

Lemma drain_does i b i' : fail i = None -> sub_err (sub i) = ErrClosed -> drain ev i = (b, i') ->
  next_does i b i' /\ sub i' = sub i /\ done i' = done i.
Proof.
  intros Hf Hs. unfold drain. destruct (logs i) as [|log rest] eqn:E; [|by apply deliver_does].
  intros [= <- <-]. split; [|done]. destruct i; simpl in *; subst. by constructor.
Qed.

Lemma Next_does pick i b i' : fail i = None -> sub_err (sub i) = ErrOpen \/ sub_err (sub i) = ErrClosed ->
  (done i = true -> sub_err (sub i) = ErrClosed) -> Next ev pick i = Some (b, i') ->
  next_does i b i' /\ sub i' = sub i /\ (done i' = true -> sub_err (sub i) = ErrClosed).
Proof.
  intros Hf Herr Hd. unfold Next. rewrite Hf. destruct (done i) eqn:Ed.
  { intros [= H]. apply drain_does in H as (H1 & H2 & H3); auto. }
  unfold recv_err. destruct Herr as [Herr|Herr]; rewrite Herr.
  - destruct (logs i) as [|log rest] eqn:El; [done|]. intros [= H]. apply deliver_does in H as (H1 & H2 & H3); [|done..].
    split_and!; [done|done|congruence].
  - assert (forall b i', drain ev (mkIterator (Event i) (logs i) (sub i) true None) = (b, i') ->
      next_does i b i' /\ sub i' = sub i) as Hdrain.
    { intros b0 i0 H. apply drain_does in H as (H1 & H2 & H3); [|done..]. split; [|done]. destruct H1; cbn in *; [by eapply next_event|by eapply next_fails|by eapply next_panics|by apply next_end]. }
    destruct (logs i) as [|log rest] eqn:El; [|destruct pick]; intros H.
    + destruct (Hdrain b i') as [??]; [cbn in *; congruence|done].
    + injection H as H. apply deliver_does in H as (H1 & H2 & H3); [|done..]. done.
    + destruct (Hdrain b i') as [??]; [cbn in *; congruence|done].
Qed.

Lemma start_ok l : run_ok l (start_run l).
Proof. constructor; cbn; try done; [by destruct (iterate l)|by left]. Qed.

Lemma producer_ok l b b' i i' g u : run_ok l (mkRun b i g u) -> logs i' ++ b' = logs i ++ b -> fail i' = fail i ->
  sub_err (sub i) = ErrOpen -> (logs i' = logs i /\ done i' = done i /\ sub i' = producer_returns None (sub i) /\
    (b' = [] \/ unsub (sub i) = true)) \/ (sub i' = sub i /\ done i' = done i /\ b <> []) ->
  run_ok l (mkRun b' i' g u).
Proof.
  intros [Hg Herr Hb Hu Hun Hit Hd Hs] Hl Hf Ho Hc; cbn in *. constructor; cbn; rewrite ?Hl, ?Hf; try done.
  - destruct Hc as [(_ & _ & -> & _)|(-> & _ & _)]; [by right|by left].
  - destruct Hc as [(_ & _ & -> & [->|Hq])|(-> & _ & _)]; [done|cbn; congruence|congruence].
  - destruct Hc as [(_ & _ & -> & _)|(-> & _ & _)]; done.
  - destruct Hc as [(_ & _ & -> & _)|(-> & _ & _)]; [by right|done].
  - destruct Hc as [(_ & -> & -> & _)|(-> & -> & _)]; [done|]. exact Hd.
  - intros E1 E2. destruct (Hs E1 E2) as [H1 H2]. rewrite H1, H2 in Hl. apply app_eq_nil in Hl. done.
Qed.

Lemma next_ok l b i g pick r i' : run_ok l (mkRun b i g Iterating) -> Next ev pick i = Some (r, i') ->
  run_ok l (match r with
            | Ret true => mkRun b i' (g ++ option_list (Event i')) Iterating
            | Ret false => mkRun b i' g Stopped
            | Fail _ | Panic _ => mkRun b i' g Crashed
            end).
Proof.
  intros [Hg Herr Hb Hu Hun Hit Hd Hs] HN; cbn in *. pose proof (Hit eq_refl) as Hf. rewrite Hf in Hg.
  apply Next_does in HN as (HN & Esub & Hdone); [|done..].
  assert (unsub (sub i) = false) as Hq by (destruct (unsub (sub i)); [destruct (Hu eq_refl); done|done]).
  destruct HN as [log rest st s d El E|log rest e s d El E|log rest e s d El E|s d El Ec]; cbn in *; subst;
    rewrite El in Hg; cbn [app] in Hg; rewrite ?iterate_step, ?E in Hg; constructor; cbn; try done; try congruence; auto.
  - rewrite Hg. apply after_app.
  - rewrite Hg. unfold after. cbn. by rewrite app_nil_r.
  - exists e. rewrite Hg. unfold after. cbn. by rewrite app_nil_r.
Qed.

Lemma filter_step_ok l r r' : run_ok l r -> filter_step ev r r' -> run_ok l r'.
Proof.
  intros Hok H. destruct H.
  - eapply producer_ok; [exact Hok|cbn; by rewrite <-app_assoc|done|done|by right].
  - eapply producer_ok; [exact Hok|done|done|done|left; cbn; auto].
  - eapply producer_ok; [exact Hok|done|done|done|left; cbn; auto].
  - match goal with H : Next _ _ _ = _ |- _ => apply (next_ok _ _ _ _ _ _ _ Hok) in H end.
    match goal with H : Event _ = _ |- _ => rewrite H in * end. done.
  - match goal with H : Next _ _ _ = _ |- _ => by apply (next_ok _ _ _ _ _ _ _ Hok) in H end.
  - match goal with H : Next _ _ _ = _ |- _ => by apply (next_ok _ _ _ _ _ _ _ Hok) in H end.
  - destruct Hok as [Hg Herr Hb Hu Hun Hit Hd Hs]; cbn in *. unfold iterator_Close, Unsubscribe.
    constructor; cbn; destruct (unsubscribed (sub it)) eqn:E; cbn; try done; auto.
    all: by destruct H as [->| ->].
  - destruct Hok as [Hg Herr Hb Hu Hun Hit Hd Hs]; cbn in *. constructor; cbn; try done. by right.
Qed.

Lemma reachable_ok l r : rtc (filter_step ev) (start_run l) r -> run_ok l r.
Proof. intros H. pose proof (start_ok l) as Hok. revert Hok. induction H; eauto using filter_step_ok. Qed.

(** Every step uses up something: a log that is moved or delivered, the life of
    the subscription, or a stage of the user. *)
Definition user_rank (u : user) : nat :=
  match u with Iterating => 3 | Stopped => 2 | Closing => 1 | Crashed | Closed => 0 end.
Definition run_measure (r : filter_run) : nat :=
  (2 * length (buff r) + length (logs (it r)) + (match sub_err (sub (it r)) with ErrOpen => 1 | _ => 0 end) + user_rank (state_of r))%nat.

Lemma step_measure l r r' : run_ok l r -> filter_step ev r r' -> (run_measure r' < run_measure r)%nat.
Proof.
  intros Hok H. pose proof (filter_step_ok _ _ _ Hok H) as Hok'. unfold run_measure.
  destruct H as [l0 rest i g u Ho Hc|l0 rest i g u Ho Hq|i g u Ho|pick b i i' e g HN He|pick b i i' g HN|pick b i i' e g HN|b i g u Hst|b i g Ho];
    cbn in *; [rewrite Ho, length_app; cbn; lia|rewrite Ho; cbn; lia|rewrite Ho; cbn; lia| | | | |lia].
  1,2,3: pose proof (ok_iterating _ _ Hok eq_refl) as Hf; apply Next_does in HN as (HN & -> & _);
    [|exact Hf|apply (ok_err _ _ Hok)|apply (ok_done _ _ Hok)].
  1,2,3: inversion HN; subst; cbn; (match goal with H : logs _ = _ |- _ => rewrite H end); cbn; lia.
  unfold Unsubscribe. destruct (unsubscribed (sub i)), Hst as [->| ->]; cbn; lia.
Qed.

Lemma run_ok_sn l r : run_ok l r -> sn (filter_step ev) r.
Proof.
  remember (run_measure r) as n eqn:Hn. revert r Hn. induction (lt_wf n) as [n _ IH]. intros r -> Hok.
  constructor. intros r' H. eapply IH; [by eapply step_measure|done|by eapply filter_step_ok].
Qed.

(** The user never waits for ever: a log is there, or the producer can move. *)
Lemma run_progress l r : run_ok l r -> state_of r = Iterating ->
  exists r', filter_step ev r r' /\ state_of r' <> Closing.
Proof.
  destruct r as [b i g u]. intros Hok. cbn. intros ->. pose proof (ok_iterating _ _ Hok eq_refl) as Hf. cbn in Hf.
  destruct (Next ev true i) as [[o i']|] eqn:HN.
  { pose proof HN as HN'. apply Next_does in HN' as (H & _); [|exact Hf|apply (ok_err _ _ Hok)|apply (ok_done _ _ Hok)].
    destruct H; (eexists; split; [first [by eapply user_next|by eapply user_stops|by eapply user_crashes]|done]). }
  unfold Next in HN. rewrite Hf in HN. destruct (done i); [done|].
  destruct (logs i) as [|log rest] eqn:El; [|by destruct (recv_err (sub i)) as [[]|]].
  assert (sub_err (sub i) = ErrOpen) as Ho by (unfold recv_err in HN; by destruct (sub_err (sub i))).
  destruct b as [|l0 b].
  - eexists. split; [by apply producer_ends|done].
  - eexists. split; [apply producer_sends; [done|rewrite El; cbn; unfold log_capacity; lia]|done].
Qed.

(** When the walk has no error, neither has the run. *)
Lemma run_without_error l r es : run_ok l r -> iterate l = (es, Ret tt) ->
  state_of r <> Crashed /\ fail (it r) = None /\ exists later, es = got r ++ later /\ (state_of r = Stopped -> later = []).
Proof.
  intros H Hl. pose proof (ok_got _ _ H) as Hg. pose proof (ok_stopped _ _ H) as Hs. rewrite Hl in Hg.
  destruct (state_of r); destruct (fail (it r)); try done; try (by destruct Hg); (split; [done|split; [done|]]);
    unfold after in Hg; injection Hg as ->; (eexists; split; [done|]); try done.
  intros _. destruct (Hs eq_refl eq_refl) as [-> ->]. done.
Qed.

(** C23: An iterator over the logs of a filter gives what a walk over the list of
    logs gives, whatever the interleaving of the goroutine that sends the logs,
    the subscription's error channel and the user. A user who calls [Next] until
    it is false saw exactly the events of the walk, and [Error] is nil or the
    error of the first log that is not one of the event; a user who is not
    there yet, or closed the iterator, saw the first of them; [Next] never waits
    for ever; and every run ends. *)
Theorem filter_refines_walk l r : rtc (filter_step ev) (start_run l) r ->
  sn (filter_step ev) r /\
  match state_of r with
  | Stopped => iterate l = (got r, match iterator_Error (it r) with None => Ret tt | Some e => Fail e end)
  | Crashed => exists e, iterate l = (got r, Panic e)
  | Iterating => (exists more, (iterate l).1 = got r ++ more) /\
                 exists r', filter_step ev r r' /\ state_of r' <> Closing
  | Closing | Closed => exists more, (iterate l).1 = got r ++ more
  end.
Proof.
  intros H%reachable_ok. split; [by eapply run_ok_sn|].
  pose proof (ok_got _ _ H) as Hg. pose proof (run_progress _ _ H) as Hp. unfold iterator_Error.
  assert ((state_of r = Crashed -> False) -> exists more, (iterate l).1 = got r ++ more) as Hmore.
  { intros Hc. destruct (state_of r); try (by destruct Hc);
      (destruct (fail (it r)); rewrite Hg; [exists []; by rewrite app_nil_r|by eexists]). }
  destruct (state_of r) eqn:E; [split; auto; by apply Hmore| |done|by apply Hmore..].
  destruct (fail (it r)) eqn:Ef; [done|]. destruct (ok_stopped _ _ H E Ef) as [H1 H2].
  rewrite H1, H2 in Hg. rewrite Hg. unfold after. cbn. by rewrite app_nil_r.
Qed.
End Iteration.

(** ** The events of the contract *)

(** The event of the binding for an event of the contract, and its arguments in
    the order of the [emit]. *)
Definition event_values (e : EthContract.Event) : event_type * list GoValue :=
  match e with
  | EvRefunded t h r v => (Refunded_event, [VBig t; VBytes32 h; VAddress r; VBig v])
  | EvRedeemed t h s r v => (Redeemed_event, [VBig t; VBytes32 h; VBytes32 s; VAddress r; VBig v])
  | EvParticipated t r h i p v => (Participated_event, [VBig t; VBig r; VBytes32 h; VAddress i; VAddress p; VBig v])
  | EvInitiated t r h i p v => (Initiated_event, [VBig t; VBig r; VBytes32 h; VAddress i; VAddress p; VBig v])
  end.
Definition event_name (e : EthContract.Event) : string := ev_name (event_values e).1.

(** The log of an event in the ABI encoding. *)
Definition event_log (this : Z) (e : EthContract.Event) (l : Log) : Prop :=
  log_Address l = this /\ Topics l = [Event_ID (event_at (event_name e))] /\
  Arguments_Pack (EventInputs (event_at (event_name e))) (event_values e).2 = Ret (Data l).

(** The struct of an event: the values, field by field. *)
Definition event_struct (e : EthContract.Event) : go_struct :=
  list_to_map (rev (zip (ev_fields (event_values e).1).*1 (event_values e).2)).

Definition word_of (v : GoValue) : bytes :=
  match v with VBig z | VUint8 z => U256 z | VBytes32 b => RightPad32 b | VAddress a => LeftPad32 (address_bytes a) end.

Lemma event_data e : Arguments_Pack (EventInputs (event_at (event_name e))) (event_values e).2 =
  Ret (concat (map word_of (event_values e).2)).
Proof. destruct e; reflexivity. Qed.

Lemma event_words_ok e : event_typed e -> Forall is_bytes32 (map word_of (event_values e).2).
Proof.
  destruct e; cbn [event_typed event_values snd map word_of]; intros H; destruct_and?; repeat constructor;
    first [apply zlen_U256|apply zlen_address|by rewrite RightPad32_id].
Qed.

Lemma zlen_words ws : Forall is_bytes32 ws -> zlen (concat ws) = 32 * zlen ws.
Proof.
  induction 1 as [|w ws Hw _ IH]; [done|]. cbn [concat]. rewrite zlen_app, IH, Hw, zlen_cons. lia.
Qed.

Lemma ABI_Unpack_event fs e data : zlen data <> 0 ->
  ABI_Unpack fs (event_name e) data = Unpack_struct fs (EventInputs (event_at (event_name e))) data.
Proof. intros H%Z.eqb_neq. unfold ABI_Unpack. rewrite H. by destruct e. Qed.

Lemma unpack_event_values e : event_typed e ->
  UnpackValues (EventInputs (event_at (event_name e))) (concat (map word_of (event_values e).2)) = Ret (event_values e).2.
Proof.
  intros Hty. pose proof (event_words_ok e Hty) as Hw. unfold UnpackValues.
  rewrite <-(app_nil_r (concat _)), <-(app_nil_l (_ ++ _)).
  rewrite (unpack_values_words _ (map word_of (event_values e).2)); [|by destruct e|done|done].
  destruct e; cbn [event_typed] in Hty; destruct_and?;
    cbn [event_values fst snd map word_of event_name ev_name Refunded_event Redeemed_event Participated_event Initiated_event
         event_at List.find Events RawName String.eqb Ascii.eqb Bool.eqb default id EventInputs zip_with go_value ArgType];
    rewrite ?RightPad32_id, ?be_get_U256, ?BytesToAddress_pad, ?to_uint_id by done; done.
Qed.

(** The arguments of an event have the names of the fields, in the same order. *)
Definition same_names (m : gmap string string) (args : list Argument) (fs : fields) : Prop :=
  map (fun a => List.find (fun p => String.eqb p.1 (name_at m (ArgName a))) fs) args = map Some fs.
#[local] Instance same_names_dec m args fs : Decision (same_names m args fs).
Proof. unfold same_names. apply _. Defined.
Definition names_fit (ev : event_type) : bool :=
  let args := EventInputs (event_at (ev_name ev)) in
  match mapArgNamesToStructFields (map ArgName args) (ev_fields ev) with
  | Ret m => bool_decide (same_names m args (ev_fields ev))
  | _ => false
  end.

Lemma event_names_fit : forallb names_fit [Refunded_event; Redeemed_event; Participated_event; Initiated_event] = true.
Proof. vm_compute. reflexivity. Qed.

Lemma event_field_names e : exists m,
  mapArgNamesToStructFields (map ArgName (EventInputs (event_at (event_name e)))) (ev_fields (event_values e).1) = Ret m
  /\ same_names m (EventInputs (event_at (event_name e))) (ev_fields (event_values e).1).
Proof.
  assert (names_fit (event_values e).1 = true) as H.
  { pose proof event_names_fit as H. cbn [forallb] in H. rewrite !andb_true_iff in H. destruct_and?. by destruct e. }
  unfold names_fit in H. change (ev_name (event_values e).1) with (event_name e) in H.
  destruct (mapArgNamesToStructFields _ _) as [m|?|?]; [|done..]. exists m. split; [done|]. by apply bool_decide_eq_true in H.
Qed.

Lemma set_fields_all fs m args fts vs st :
  map (fun a => List.find (fun p => String.eqb p.1 (name_at m (ArgName a))) fs) args = map Some fts -> map type_of vs = fts.*2 ->
  set_fields fs m args vs st = Ret (list_to_map (rev (zip fts.*1 vs)) ∪ st).
Proof.
  revert fts vs st. induction args as [|a args IH]; intros [|[f t] fts] [|v vs] st; try done; cbn [map set_fields fmap list_fmap].
  - intros _ _. cbn. by rewrite (left_id_L ∅ (∪)).
  - intros [= Ha Hargs] [= Ht Hts]. unfold set_field. rewrite Ha. subst t. rewrite decide_True by done. cbn [mbind outcome_bind].
    rewrite (IH fts vs _ Hargs Hts). cbn [zip zip_with rev fst]. f_equal.
    rewrite list_to_map_app. rewrite <-(assoc_L (∪)). f_equal. cbn. by rewrite <-insert_union_l, (left_id_L ∅ (∪)).
Qed.

Lemma event_fields_set e :
  (abi2struct ← mapArgNamesToStructFields (map ArgName (EventInputs (event_at (event_name e)))) (ev_fields (event_values e).1);
   set_fields (ev_fields (event_values e).1) abi2struct (EventInputs (event_at (event_name e))) (event_values e).2 ∅)
  = Ret (event_struct e).
Proof.
  destruct (event_field_names e) as (m & -> & H). cbn [mbind outcome_bind].
  rewrite (set_fields_all _ m _ _ _ _ H) by (by destruct e). by rewrite (right_id_L ∅ (∪)).
Qed.

(** The log of an event is unpacked to that event. *)
Lemma UnpackLog_event this e l : event_typed e -> event_log this e l -> UnpackLog (event_values e).1 l = Ret (event_struct e).
Proof.
  intros Hty (_ & Ht & Hd). rewrite event_data in Hd. pose proof (zlen_words _ (event_words_ok e Hty)) as Hlen.
  assert (Data l = concat (map word_of (event_values e).2)) as Ed by congruence.
  assert (0 < zlen (Data l)) as Hpos by (rewrite Ed, Hlen; by destruct e).
  unfold UnpackLog. change (ev_name (event_values e).1) with (event_name e).
  rewrite Ht, (proj2 (Z.ltb_lt _ _) Hpos), ABI_Unpack_event by lia. rewrite Ed.
  unfold Unpack_struct. rewrite (unpack_event_values e Hty). cbn [mbind outcome_bind].
  pose proof (event_fields_set e) as Hs. destruct (EventInputs (event_at (event_name e))) eqn:E; [by destruct e|].
  rewrite Hs. reflexivity.
Qed.

(** ** Filters over a chain *)

Definition contract_events : list event_type := [Refunded_event; Redeemed_event; Participated_event; Initiated_event].

Lemma event_values_name e ev : In ev contract_events -> event_name e = ev_name ev -> (event_values e).1 = ev.
Proof. unfold event_name. intros H. cbn in H. destruct_or?; subst; destruct e; cbn; intros E; try done. Qed.

(** The events of a chain of one kind, the oldest first. *)
Definition events_of (name : string) (w : world) : list EthContract.Event :=
  filter (fun e => event_name e = name) (rev (events w)).

(** A node that gives the logs of the contract at [this] from the beginning, in
    the order of the chain. *)
Class ServesLogs (N : Type) `{!ContractFilterer N} (this : Z) (chain : N -> world) : Prop :=
  serves_logs ev n l n' : In ev contract_events ->
    FilterLogs (mkFilterQuery (Some 0) None [this] [[Event_ID (event_at (ev_name ev))]]) n = (Ret l, n') ->
    Forall2 (event_log this) (events_of (ev_name ev) (chain n)) l.

Lemma iterate_events this ev es l : Forall (fun e => event_typed e /\ (event_values e).1 = ev) es -> Forall2 (event_log this) es l ->
  iterate ev l = (zip_with (fun e log => mkContractEvent (event_struct e) log) es l, Ret tt).
Proof.
  intros Hes H. revert Hes. induction H as [|e log es l He _ IH]; intros Hes; [done|].
  apply Forall_cons in Hes as [[Hty Hev] Hes]. rewrite iterate_step, <-Hev at 1.
  rewrite (UnpackLog_event this e log Hty He), (IH Hes). reflexivity.
Qed.

Lemma events_of_typed ev w : In ev contract_events -> Forall event_typed (events w) ->
  Forall (fun e => event_typed e /\ (event_values e).1 = ev) (events_of (ev_name ev) w).
Proof.
  intros Hev H. unfold events_of. apply Forall_forall. intros e [E He]%list_elem_of_filter. rewrite Forall_forall in H. split.
  - apply H. apply list_elem_of_In. apply in_rev. by apply list_elem_of_In.
  - by apply event_values_name.
Qed.

Lemma zip_structs es l : length es = length l ->
  map ev_struct (zip_with (fun e log => mkContractEvent (event_struct e) log) es l) = map event_struct es.
Proof. revert l. induction es as [|e es IH]; intros [|log l]; try done. cbn. intros [= H]. by rewrite IH. Qed.

Lemma contract_walk this ev w l : In ev contract_events -> Forall event_typed (events w) ->
  Forall2 (event_log this) (events_of (ev_name ev) w) l -> exists es,
  iterate ev l = (es, Ret tt) /\ map ev_struct es = map event_struct (events_of (ev_name ev) w).
Proof.
  intros Hev Hty Hl. rewrite (iterate_events this ev _ l (events_of_typed ev w Hev Hty) Hl). eexists. split; [done|].
  apply zip_structs. by eapply Forall2_length.
Qed.

(** C22: [FilterInitiated] and the three others show the events of the contract.
    Over a node that serves the logs of the chain, the events an iterator gives
    are, field by field, a prefix of the events of its kind the contract emitted,
    the oldest first, and all of them when [Next] has said false; no [Next]
    fails or panics, [Error] is nil, and every run ends. *)
Theorem filter_sees_events {N} `{!ContractFilterer N} this chain `{!ServesLogs N this chain} ev (e e' : env N) r0 r :
  In ev contract_events -> Forall event_typed (events (chain (node e))) ->
  Filter ev (NewContract this) None e = (Ret r0, e') -> rtc (filter_step ev) r0 r ->
  sn (filter_step ev) r /\ state_of r <> Crashed /\ iterator_Error (it r) = None
  /\ exists later, map event_struct (events_of (ev_name ev) (chain (node e))) = map ev_struct (got r) ++ later
       /\ (state_of r = Stopped -> later = []).
Proof.
  intros Hev Hty HF Hr. unfold Filter, BoundContract_FilterLogs, mbind, cmd_bind, mret, cmd_ret, ask in HF.
  cbn [filter_Start filter_End default id from_option bound_address NewContract] in HF.
  destruct (FilterLogs (mkFilterQuery (Some 0) None [this] [[Event_ID (event_at (ev_name ev))]]) (node e))
    as [[l|er|er] n'] eqn:El; try discriminate HF. injection HF as <- _.
  pose proof (serves_logs _ _ _ _ Hev El) as Hlogs. destruct (contract_walk _ _ _ _ Hev Hty Hlogs) as (es & Hes & Hst).
  pose proof (reachable_ok _ _ _ Hr) as Hok. split; [by eapply run_ok_sn|].
  destruct (run_without_error _ _ _ _ Hok Hes) as (Hc & Hf & later & -> & Hl). split; [done|]. split; [done|].
  exists (map ev_struct later). rewrite <-Hst, map_app. split; [done|]. intros H. by rewrite (Hl H).
Qed.

(** ** Watchers *)

(** What the goroutine holds of the logs it took: while it has an event to send
    that event's log, and after its end at most one. *)
Definition holds (f : forwarder) (pending : list Log) : Prop :=
  match f with
  | Selecting => pending = []
  | Sending e => pending = [Raw e]
  | Returned | Panicked => (length pending <= 1)%nat
  end.

Definition unpacked (ev : event_type) (e : ContractEvent) : Prop := UnpackLog ev (Raw e) = Ret (ev_struct e).

Record watch_ok (ev : event_type) (w : watcher) : Prop := {
  watch_sink : Forall (unpacked ev) (w_sink w);
  watch_pending : exists pending, w_sent w = map Raw (w_sink w) ++ pending ++ w_logs w /\ holds (w_state w) pending;
  watch_sending : forall e, w_state w = Sending e -> unpacked ev e;
  watch_alive : w_state w = Returned \/ sub_err (w_sub w) = ErrOpen }.

Lemma holds_length f pending : holds f pending -> (length pending <= 1)%nat.
Proof. destruct f; cbn; intros; subst; cbn; lia. Qed.

Lemma returns_ok ev w r s : watch_ok ev w ->
  watch_ok ev (forwarder_returns r (mkWatcher (w_logs w) s (w_sub w) (w_state w) (w_sink w) (w_sent w))).
Proof.
  intros [Hk (p & Hp & Hh) _ _]. constructor; cbn; [done| |done|by left]. exists p. split; [done|by eapply holds_length].
Qed.

Lemma watch_step_ok ev w w' : watch_ok ev w -> watch_step ev w w' -> watch_ok ev w'.
Proof.
  intros Hok H. destruct H as [l Ho Hc|r Ho| |log rest Hst Hl|e Hst|r s Hst Hr|Hst Hu];
    [..|by apply returns_ok|by destruct w; eapply (returns_ok _ _ _ _ Hok)];
    destruct Hok as [Hk (p & Hp & Hh) He Ha].
  - constructor; cbn; try done. exists p. by rewrite Hp, <-!app_assoc.
  - constructor; cbn; eauto.
  - constructor; cbn; eauto. destruct Ha as [?|Ha]; [by left|]. right. unfold Unsubscribe. by destruct (unsubscribed _).
  - rewrite Hst in Hh, Ha. cbn in Hh. subst p. rewrite Hl in Hp. cbn [app] in Hp.
    destruct (UnpackLog ev log) as [st|e|e] eqn:E; constructor; cbn; try done; try (destruct Ha; [done|by right]); try by left.
    all: try (exists [log]; cbn; split; [done|lia]). { by exists [log]. } intros ? [= <-]. exact E.
  - rewrite Hst in Hh, Ha. cbn in Hh. subst p. constructor; cbn; try done; [|exists []|destruct Ha; [done|by right]].
    + apply Forall_app. auto.
    + by rewrite map_app, <-app_assoc.
Qed.

(** C40: A watcher forwards what the node sends. At any moment of any interleaving
    of the node, the goroutine and the user, the events sent to the user's
    channel are the first of the logs the node sent, in order and each unpacked
    by [UnpackLog]; at most one log was taken and not forwarded, none while the
    goroutine waits for the next. After [Unsubscribe] of the user the goroutine
    can always end, and then both subscriptions are closed or told to quit. *)
Theorem watch_in_order ev w : rtc (watch_step ev) start_watch w ->
  Forall (unpacked ev) (w_sink w)
  /\ (exists pending, w_sent w = map Raw (w_sink w) ++ pending ++ w_logs w /\ (length pending <= 1)%nat
       /\ (w_state w = Selecting -> pending = []))
  /\ (unsub (w_sub w) = true -> w_state w = Selecting \/ (exists e, w_state w = Sending e) ->
       exists w', watch_step ev w w' /\ w_state w' = Returned /\ w_sink w' = w_sink w
         /\ sub_err (w_sub w') = ErrClosed /\ unsubscribed (w_node w') = true).
Proof.
  intros H. assert (watch_ok ev w) as [Hk (p & Hp & Hh) _ _].
  { assert (watch_ok ev start_watch) as H0 by (constructor; cbn; [done|by exists []|done|by right]).
    revert H0. induction H; eauto using watch_step_ok. }
  split; [done|]. split.
  - exists p. split; [done|]. split; [by eapply holds_length|]. intros E. by rewrite E in Hh.
  - intros Hu Hst. eexists. split; [by apply select_quit|]. cbn. split_and!; try done.
    unfold Unsubscribe. by destruct (unsubscribed (w_node w)) eqn:E.
Qed.

(** ** A run over the simulated node *)

Module SimEvents.
Definition encode (this : Z) (e : EthContract.Event) : Log :=
  mkLog this [Event_ID (event_at (event_name e))] (concat (map word_of (event_values e).2)) 0 (replicate 32 0) 0 (replicate 32 0) 0 false.

#[global] Instance sim_filterer : ContractFilterer Sim.sim := {|
  FilterLogs q n :=
    (Ret (map (encode (default 0 (head (Addresses q))))
       (filter (fun e => query_Topics q = [[Event_ID (event_at (event_name e))]]) (rev (events (Sim.storage n))))), n);
  SubscribeFilterLogs _ n := (Ret tt, n) |}.

(** The identifiers of two kinds differ, by the list of them. *)
Lemma event_id_nth i : Event_ID (nth i Events (mkAbiEvent "" [])) = nth i (map Event_ID Events) (Event_ID (mkAbiEvent "" [])).
Proof. symmetry. apply map_nth. Qed.

Lemma event_id_name e ev : In ev contract_events ->
  Event_ID (event_at (ev_name ev)) = Event_ID (event_at (event_name e)) <-> event_name e = ev_name ev.
Proof.
  intros Hev. split; [|by intros ->].
  pose proof (event_id_nth 0) as H0. pose proof (event_id_nth 1) as H1. pose proof (event_id_nth 2) as H2. pose proof (event_id_nth 3) as H3.
  rewrite event_ids in H0, H1, H2, H3. cbn [nth Events] in H0, H1, H2, H3.
  cbn [In contract_events] in Hev. repeat destruct Hev as [<-|Hev]; [..|destruct Hev]; destruct e; try (intros _; reflexivity);
    unfold event_name, event_at; cbn [event_values fst ev_name Refunded_event Redeemed_event Participated_event Initiated_event
      List.find Events RawName String.eqb Ascii.eqb Bool.eqb default id];
    rewrite ?H0, ?H1, ?H2, ?H3; vm_compute; discriminate.
Qed.

#[global] Instance sim_logs this : ServesLogs Sim.sim this Sim.storage.
Proof.
  intros ev n l n' Hev. cbn [FilterLogs sim_filterer Addresses head default from_option query_Topics]. intros [= <- _].
  unfold events_of.
  rewrite (list_filter_iff _ (fun e => [[Event_ID (event_at (ev_name ev))]] = [[Event_ID (event_at (event_name e))]])).
  - apply Forall2_fmap_r, Forall_Forall2_diag, Forall_true. intros e. split; [done|]. split; [done|apply event_data].
  - intros e. rewrite <-event_id_name by done. split; [by intros ->|congruence].
Qed.

(** A schedule: the producer first, then the user. *)
Definition turn (ev : event_type) (r : filter_run) : option filter_run :=
  match sub_err (sub (it r)), buff r with
  | ErrOpen, l :: rest =>
      if decide (length (logs (it r)) < log_capacity)%nat
      then Some (mkRun rest (set_logs (logs (it r) ++ [l]) (it r)) (got r) (state_of r)) else None
  | ErrOpen, [] => Some (mkRun [] (set_sub (producer_returns None (sub (it r))) (it r)) (got r) (state_of r))
  | _, b =>
      match state_of r, Next ev true (it r) with
      | Iterating, Some (Ret true, i) => e ← Event i; Some (mkRun b i (got r ++ [e]) Iterating)
      | Iterating, Some (Ret false, i) => Some (mkRun b i (got r) Stopped)
      | _, _ => None
      end
  end.
Fixpoint turns (ev : event_type) (n : nat) (r : filter_run) : filter_run :=
  match n with O => r | S n => match turn ev r with Some r => turns ev n r | None => r end end.

Lemma turn_step ev r r' : turn ev r = Some r' -> filter_step ev r r'.
Proof.
  destruct r as [b i g u]. unfold turn. cbn.
  destruct (sub_err (sub i)) eqn:Es; [destruct b as [|l rest]; [|destruct (decide _); [|done]]; intros [= <-]; by constructor|..];
    destruct u; try done; destruct (Next ev true i) as [[[[]|?|?] i']|] eqn:En; try done.
  all: try (intros [= <-]; by eapply user_stops).
  all: destruct (Event i') eqn:Ee; [|done]; intros [= <-]; by eapply user_next.
Qed.

Lemma turns_run ev n r : rtc (filter_step ev) r (turns ev n r).
Proof.
  revert r. induction n as [|n IH]; intros r; [done|]. simpl. destruct (turn ev r) as [r'|] eqn:E; [|done].
  eapply rtc_l; [by apply turn_step|apply IH].
Qed.

Definition get_run (p : outcome filter_run * env Sim.sim) : filter_run := match p.1 with Ret r => r | _ => start_run [] end.
Definition start : env Sim.sim := mkEnv (Sim.mkSim Run.w2 []) [] [] 0.

Lemma w2_events_typed : Forall event_typed (events Run.w2).
Proof.
  assert (Run.w2 = mkWorld (swaps Run.w2) (balances Run.w2) (events Run.w2)) as -> by reflexivity. cbn [events].
  repeat (apply Forall_cons; split); [..|by apply Forall_nil]; by repeat (split; [by vm_compute|]).
Qed.
End SimEvents.

Lemma filter_sees_events_witness :
  let r := SimEvents.turns Initiated_event 10
    (SimEvents.get_run (Filter Initiated_event (NewContract Run.this) None SimEvents.start)) in
  state_of r = Stopped /\ length (got r) = 1%nat
  /\ map event_struct (events_of "Initiated" Run.w2) = map ev_struct (got r).
Proof.
  destruct (Filter Initiated_event (NewContract Run.this) None SimEvents.start) as [[r0|e|e] e'] eqn:E; [|discriminate E..].
  pose proof (SimEvents.turns_run Initiated_event 10 r0) as Hr.
  assert (r0 = SimEvents.get_run (Filter Initiated_event (NewContract Run.this) None SimEvents.start)) as E0 by (by rewrite E).
  cbv zeta. unfold SimEvents.get_run at 1 2 3. cbn [fst].
  destruct (filter_sees_events Run.this Sim.storage Initiated_event SimEvents.start e' r0 _ ltac:(vm_compute; tauto)
    SimEvents.w2_events_typed E Hr) as (_ & _ & _ & later & El & H).
  assert (state_of (SimEvents.turns Initiated_event 10 r0) = Stopped) as Hs by (rewrite E0; vm_compute; reflexivity).
  rewrite (H Hs), app_nil_r in El. split; [done|]. split; [|exact El]. rewrite E0. vm_compute. reflexivity.
Defined.

(** A log that is cut short ends the walk, after the event before it. *)
Lemma filter_refines_walk_witness :
  let l := map (SimEvents.encode Run.this) (take 1 (rev (events Run.w2))) ++ [mkLog Run.this [[]] [0] 0 [] 0 [] 0 false] in
  let r := SimEvents.turns Initiated_event 10 (start_run l) in
  state_of r = Stopped /\ length (got r) = 1%nat
  /\ exists e, iterator_Error (it r) = Some e /\ iterate Initiated_event l = (got r, Fail e).
Proof.
  intros l r. destruct (filter_refines_walk Initiated_event l r (SimEvents.turns_run _ _ _)) as [_ H].
  assert (state_of r = Stopped) as Hs by (vm_compute; reflexivity). rewrite Hs in H.
  split; [done|]. split; [vm_compute; reflexivity|].
  assert (is_Some (iterator_Error (it r))) as [e E] by (apply option.is_Some_alt; vm_compute; exact I).
  rewrite E in H. exists e. split; [exact E|exact H].
Defined.

Lemma watch_in_order_witness :
  let ev := EvInitiated 100 60 Run.hash1 1 2 5 in let l := SimEvents.encode Run.this ev in
  exists w e, w_sent w = [l] /\ w_sink w = [e] /\ unpacked Initiated_event e /\ Raw e = l.
Proof.
  intros ev l. set (st := event_struct ev).
  assert (UnpackLog Initiated_event l = Ret st) as E.
  { apply (UnpackLog_event Run.this ev); [by repeat (split; [by vm_compute|])|]. split; [done|]. split; [done|apply event_data]. }
  set (w := mkWatcher [] new_subscription new_subscription Selecting [mkContractEvent st l] [l]).
  assert (rtc (watch_step Initiated_event) start_watch w) as H.
  { eapply rtc_l; [apply (node_sends _ _ l); [done|cbn; unfold log_capacity; lia]|].
    eapply rtc_l; [by apply (select_log _ _ l [])|]. cbn. rewrite E.
    eapply rtc_l; [by apply send_event|]. apply rtc_refl. }
  exists w, (mkContractEvent st l). destruct (watch_in_order Initiated_event w H) as (Hk & _).
  split; [done|]. split; [done|]. split; [|done]. by apply (Forall_inv Hk).
Defined.
