(* ===== verification/EthCommandTheorems.v ===== *)
(** * Theorems about the Ethereum commands

    A command sends at most one transaction to the node: the one whose bytes it
    printed, and only after a line that answers yes. A simulated node shows
    that the assumptions about nodes can hold. *)

From S2P Require Import Prelude Sha256 BigEndian Keccak Decimal EthAmount EthContract EthContractTheorems EthAbi EthTx Cli EthBinding EthSwap EthCommands EthTheorems.

#[local] Opaque ID sha256 Keccak256.

(** [R] holds across every operation of the node other than sending. *)
Class ReadsKeep {N} `{!EthNode N} (R : N -> N -> Prop) : Prop := {
  keep_nonce a n : R n (PendingNonceAt a n).2;
  keep_price n : R n (SuggestGasPrice n).2;
  keep_code a n : R n (PendingCodeAt a n).2;
  keep_gas m n : R n (EstimateGas m n).2;
  keep_sign r n : R n (eth_signTransaction r n).2;
  keep_get h n : R n (eth_getTransactionByHash h n).2;
  keep_block h n : R n (BlockByHash h n).2;
  keep_call m n : R n (CallContract m n).2;
  keep_codeat a n : R n (CodeAt a n).2;
  keep_rand k n : R n (rand_Read k n).2;
  keep_accounts n : R n (eth_accounts n).2;
  keep_file path n : R n (ReadFile path n).2;
  keep_ask n : R n (speakeasy_Ask n).2 }.

Section Quiet.
Context {N : Type} `{!EthNode N} (R : N -> N -> Prop) `{!PreOrder R, !ReadsKeep R}.

Lemma keeps_generate : keeps (quiet R) (generateSecretHashPair (N := N)).
Proof.
  intros e r e'. unfold generateSecretHashPair. destruct (ask (rand_Read 32) e) as [r1 e1] eqn:E.
  intros [= _ <-]. eapply keeps_ask; [|exact E]. intros n. apply keep_rand.
Qed.

Ltac keep_op := first [apply keep_nonce|apply keep_price|apply keep_code|apply keep_gas|apply keep_sign
  |apply keep_get|apply keep_block|apply keep_call|apply keep_codeat|apply keep_rand|apply keep_accounts|apply keep_file|apply keep_ask].

Ltac quiet := quiet_with keep_op; try apply keeps_generate.

Lemma keeps_getSwapContract sct h : keeps (quiet R) (getSwapContract sct h).
Proof. unfold getSwapContract, Swaps, BoundContract_Call. quiet. Qed.

Lemma keeps_checkNotExists sct h : keeps (quiet R) (checkNotExists sct h).
Proof.
  intros e r e'. unfold checkNotExists. destruct (getSwapContract sct h e) as [[sc|er|er] e1] eqn:E;
    apply keeps_getSwapContract in E; [|destruct (is_errNotExists er)|]; by intros [= _ <-].
Qed.

Lemma keeps_newTransactionWithInput sct amount b input : keeps (quiet R) (newTransactionWithInput sct amount b input).
Proof. unfold newTransactionWithInput, calcBaseOpts, calcGasLimit. quiet. Qed.

Lemma keeps_newTransaction sct amount name params : keeps (quiet R) (newTransaction sct amount name params).
Proof. unfold newTransaction. quiet. apply keeps_newTransactionWithInput. Qed.

Lemma keeps_initiateTx sct amount h p : keeps (quiet R) (initiateTx sct amount h p).
Proof. unfold initiateTx. quiet; [apply keeps_checkNotExists|apply keeps_newTransaction]. Qed.
Lemma keeps_participateTx sct amount h p : keeps (quiet R) (participateTx sct amount h p).
Proof. unfold participateTx. quiet; [apply keeps_checkNotExists|apply keeps_newTransaction]. Qed.
Lemma keeps_redeemTx sct h s : keeps (quiet R) (redeemTx sct h s).
Proof. unfold redeemTx. quiet; [apply keeps_getSwapContract|apply keeps_newTransaction]. Qed.
Lemma keeps_refundTx sct h : keeps (quiet R) (refundTx sct h).
Proof. unfold refundTx. quiet; [apply keeps_getSwapContract|apply keeps_newTransaction]. Qed.
Lemma keeps_deployTx sct b : keeps (quiet R) (deployTx sct b).
Proof. apply keeps_newTransactionWithInput. Qed.
Lemma keeps_showContractCosts sct tx : keeps (quiet R) (showContractCosts sct tx).
Proof. unfold showContractCosts, maxGasCost. quiet. Qed.

(** Either nothing was sent, or exactly one transaction: its encoding had been
    printed before, and some line read from the terminal says yes. *)
Definition sends_once (e e' : env N) : Prop :=
  R (node e) (node e')
  \/ exists tx b n, R (node e) n /\ EncodeToBytes tx = Ret b /\ In ("%x\n\n"%string, [FBytes b]) (stdout e')
       /\ R (SendTransaction tx n).2 (node e')
       /\ Exists (fun line => read_answer line = Some true) (stdin e).

Lemma prompt_stdout name lines (e : env N) r e' : prompt_loop name lines e = (r, e') ->
  exists new, stdout e' = new ++ stdout e.
Proof.
  revert e. induction lines as [|l rest IH]; intros e; cbn [prompt_loop].
  - intros [= _ <-]. simpl. by exists [("Publish %s transaction? [y/N] ", [FStr name])%string].
  - destruct (read_answer l); [intros [= _ <-]; simpl; by exists [("Publish %s transaction? [y/N] ", [FStr name])%string]|].
    intros (new & E)%IH. rewrite E. simpl. eexists (new ++ [_; _]). by rewrite <-app_assoc.
Qed.

Lemma showAndSend_once cfg sct Label label tx e r e' :
  showAndSend cfg sct Label label tx e = (r, e') -> sends_once e e'.
Proof.
  unfold showAndSend, mbind, cmd_bind, Printf, pure. cbn -[promptPublishTx].
  destruct (EncodeToBytes tx) as [b|er|er] eqn:Eb; cbn -[promptPublishTx]; [|intros [= _ <-]; left; done..].
  match goal with |- context [promptPublishTx label ?w] => destruct (promptPublishTx label w) as [ans e1] eqn:Ep end.
  unfold promptPublishTx in Ep. cbn in Ep.
  destruct (prompt_stdout _ _ _ _ _ Ep) as [new Hout]. cbn in Hout.
  apply prompt_loop_spec in Ep as (Hn & _ & Ha). cbn in Hn.
  destruct ans as [[]|er|er]; cbn -[Send]; [| |intros [= _ <-]; left; by rewrite Hn..].
  2: { intros [= _ <-]. left. by rewrite Hn. }
  destruct Ha as (pre & line & post & Hin & _ & _ & Hyes). unfold Send, errf, ask. rewrite Hn.
  destruct (SendTransaction tx (node e)) as [sr n] eqn:Es.
  intros H. right. exists tx, b, (node e). split; [done|]. split; [done|]. split_and!.
  - enough (In ("%x\n\n"%string, [FBytes b]) (stdout e1)).
    { destruct sr; simpl in H; injection H as _ <-; simpl; auto. }
    rewrite Hout. apply in_app_iff. right. by left.
  - rewrite Es. destruct sr; simpl in H; injection H as _ <-; done.
  - rewrite Hin. apply Exists_app. right. by left.
Qed.

Lemma quiet_then_once (e e1 e' : env N) : quiet R e e1 -> sends_once e1 e' -> sends_once e e'.
Proof.
  intros (H1 & H2 & _ & _) [H|(tx & b & n & Hn & Hrest)].
  - left. by etransitivity.
  - right. exists tx, b, n. rewrite <-H2. split; [by etransitivity|done].
Qed.

Lemma once_bind {A B} (m : cmd N A) (f : A -> cmd N B) e r e' :
  keeps (quiet R) m -> (forall a e1 r e', f a e1 = (r, e') -> sends_once e1 e') ->
  (m ≫= f) e = (r, e') -> sends_once e e'.
Proof.
  intros Hm Hf. unfold mbind, cmd_bind. destruct (m e) as [[a|er|er] e1] eqn:E; apply Hm in E.
  - intros H. eapply quiet_then_once; [done|by eapply Hf].
  - intros [= _ <-]. left. apply E.
  - intros [= _ <-]. left. apply E.
Qed.

(** The commands that build a transaction. *)
Definition building_commands (cfg : ChainConfig) (bin : bytes) (sct : swapContractTransactor) (c : cmd N unit) : Prop :=
  (exists amount to, c = initiateCmd cfg amount to sct)
  \/ (exists amount to h, c = participateCmd cfg amount to h sct)
  \/ (exists tx s, c = redeemCmd cfg tx s sct)
  \/ (exists tx, c = refundCmd cfg tx sct)
  \/ c = deployContractCmd cfg bin sct.

Ltac solve_once := repeat match goal with
  | H : (_ ≫= _) _ = (_, _) |- _ => revert H; apply once_bind; [quiet|intros ? ? ? ? H]
  | H : (let '(_, _) := ?p in _) _ = _ |- _ => destruct p
  | H : showAndSend _ _ _ _ _ _ = _ |- _ => by eapply showAndSend_once
  end.

(** Command by command. *)
Lemma building_once cfg bin sct c e r e' :
  building_commands cfg bin sct c -> c e = (r, e') -> sends_once e e'.
Proof.
  intros [(amount & to & ->)|[(amount & to & h & ->)|[(tx & s & ->)|[(tx & ->)| ->]]]] H.
  - unfold initiateCmd in H. solve_once; auto using keeps_initiateTx, keeps_showContractCosts.
  - unfold participateCmd in H. solve_once; auto using keeps_participateTx, keeps_showContractCosts.
  - unfold redeemCmd in H. solve_once; auto using keeps_redeemTx.
  - unfold refundCmd in H. solve_once; auto using keeps_refundTx.
  - unfold deployContractCmd in H. solve_once; auto using keeps_deployTx.
Qed.
Lemma keeps_newTransactor account addr : keeps (quiet R) (newSwapContractTransactor account addr).
Proof. unfold newSwapContractTransactor, newSigner. quiet. Qed.
Lemma keeps_extractSecretCmd tx h : keeps (quiet R) (extractSecretCmd (N := N) tx h).
Proof. unfold extractSecretCmd. quiet. Qed.
Lemma keeps_validate bin tx : keeps (quiet R) (validateDeployedContractCmd (N := N) bin tx).
Proof. unfold validateDeployedContractCmd. quiet. Qed.
Lemma keeps_auditContractCmd tx sct : keeps (quiet R) (auditContractCmd tx sct).
Proof. unfold auditContractCmd. quiet. Qed.

(** A command publishes nothing behind the user's back. Whatever the node
    answers and whether or not the command succeeds, [initiate], [participate],
    [redeem], [refund] and [deploycontract] call [SendTransaction] at most once,
    with a transaction whose encoding the command has printed, and only if some
    line of the input answers yes; everything else they do leaves the node in a
    state reached by reads and signing alone. *)
Theorem commands_send_once cfg bin sct c e r e' :
  building_commands cfg bin sct c -> c e = (r, e') -> sends_once e e'.
Proof. apply building_once. Qed.
End Quiet.

(** On the simulated node, sending is the only operation that changes it. *)
#[local] Instance sim_reads : ReadsKeep (N := Sim.sim) eq.
Proof. by split. Qed.

Lemma commands_send_once_witness :
  exists r e', deployContractCmd MainnetChainConfig [0x60] (Sim.sct 2) Sim.start = (r, e')
    /\ Sim.sent (node e') <> []
    /\ sends_once eq Sim.start e'.
Proof.
  destruct (deployContractCmd MainnetChainConfig [0x60] (Sim.sct 2) Sim.start) as [r e'] eqn:E.
  exists r, e'. split; [done|]. split.
  - intros Hs. assert (Sim.sent (node (deployContractCmd MainnetChainConfig [0x60] (Sim.sct 2) Sim.start).2) = []) as Hn
      by (rewrite E; exact Hs).
    vm_compute in Hn. discriminate Hn.
  - apply (commands_send_once eq MainnetChainConfig [0x60] (Sim.sct 2) (deployContractCmd MainnetChainConfig [0x60] (Sim.sct 2)) Sim.start r); [|exact E].
    do 4 right. done.
Defined.
