(* ===== verification/EthCli.v ===== *)
(** * The Ethereum tool from its command line: run and main of cmd/ethatomicswap/main.go

    Flags and arguments become a command, the command runs over a node that is
    dialled, and the process ends with a status. *)

From S2P Require Import Prelude Sha256 Decimal Float EthAmount EthAbi EthTx Cli Flags EthBinding EthSwap EthCommands.

(** ** Durations *)

(** [leadingInt]: the number and the rest; [None] when it exceeds an [int64]. *)
Fixpoint leadingInt (l : bytes) (x : Z) : option (Z * bytes) :=
  match l with
  | c :: r =>
      if is_digit c then
        if (2 ^ 63 - 1) / 10 <? x then None
        else let x := x * 10 + (c - 48) in if 2 ^ 63 <=? x then None else leadingInt r x
      else Some (x, l)
  | [] => Some (x, l)
  end.

(** [leadingFraction]: digits beyond an [int64] are dropped. *)
Fixpoint leadingFraction (l : bytes) (x scale : Z) (overflow : bool) : Z * Z * bytes :=
  match l with
  | c :: r =>
      if is_digit c then
        let y := x * 10 + (c - 48) in
        if overflow || ((2 ^ 63 - 1) / 10 <? x) || (2 ^ 63 <=? y) then leadingFraction r x scale true
        else leadingFraction r y (scale * 10) false
      else (x, scale, l)
  | [] => (x, scale, l)
  end.

(** [unitMap], in nanoseconds; both letters for micro are known. *)
Definition unit_of (u : bytes) : option Z :=
  let eqs := fun s => bool_decide (u = s) in
  if eqs (bytes_of_string "ns") then Some 1
  else if eqs (bytes_of_string "us") || eqs [0xc2; 0xb5; 115] || eqs [0xce; 0xbc; 115] then Some 1000
  else if eqs (bytes_of_string "ms") then Some (10 ^ 6)
  else if eqs (bytes_of_string "s") then Some (10 ^ 9)
  else if eqs (bytes_of_string "m") then Some (60 * 10 ^ 9)
  else if eqs (bytes_of_string "h") then Some (3600 * 10 ^ 9)
  else None.

(** The unit is up to the next digit or point. *)
Fixpoint span_unit (l : bytes) : bytes * bytes :=
  match l with
  | c :: r => if is_digit c || (c =? 46) then ([], l) else let '(u, r) := span_unit r in (c :: u, r)
  | [] => ([], [])
  end.

(** The loop of [time.ParseDuration], a number and a unit per round. *)
Fixpoint duration_loop (fuel : nat) (s : bytes) (d : Z) : option Z :=
  match fuel, s with
  | _, [] => Some d
  | O, _ => None
  | S fuel, c :: _ =>
      if negb (is_digit c || (c =? 46)) then None
      else
        '(v, s1) ← leadingInt s 0;
        let pre := negb (length s1 =? length s)%nat in
        let '(f, scale, s2, post) :=
          match s1 with
          | 46 :: r => let '(f, scale, s2) := leadingFraction r 0 1 false in (f, scale, s2, negb (length s2 =? length r)%nat)
          | _ => (0, 1, s1, false)
          end in
        if negb pre && negb post then None
        else
          let '(u, s3) := span_unit s2 in
          unit ← unit_of u;
          if (2 ^ 63 - 1) / unit <? v then None
          else
            let v := v * unit in
            let v := if 0 <? f then to_int 64 (v + f64_to_int64 (f64_mul (f64_of_int f) (f64_div (f64_of_int unit) (f64_of_int scale)))) else v in
            if v <? 0 then None
            else let d := to_int 64 (d + v) in if d <? 0 then None else duration_loop fuel s3 d
  end.

(** [time.ParseDuration] of Go 1.12. *)
Definition ParseDuration (s : bytes) : option Z :=
  let '(neg, s) := read_sign s in
  if bool_decide (s = [48]) then Some 0
  else match s with
  | [] => None
  | _ => d ← duration_loop (length s) s 0; Some (if neg then - d else d)
  end.

Example durations : map (fun s => ParseDuration (bytes_of_string s)) ["1h30m"; "-1.5s"; "0"; "100ms"; ".5"; "3"; "9223372036s"; "9223372037s"; "2m.5s"]%string =
  [Some (5400 * 10 ^ 9); Some (- 15 * 10 ^ 8); Some 0; Some (10 ^ 8); None; None; Some (9223372036 * 10 ^ 9); None; Some (1205 * 10 ^ 8)].
Proof. vm_compute. reflexivity. Qed.

(** ** Flags *)

Record eth_flags := mkEthFlags { connectFlag : bytes; contractFlag : bytes; accountFlag : bytes; timeoutFlag : Z; testnetFlag : bool }.

Definition default_eth_flags : eth_flags := mkEthFlags (bytes_of_string "http://localhost:8545") [] [] 0 false.

Definition eth_flag (name : bytes) : option (flag_kind eth_flags) :=
  let eqs := fun s => bool_decide (name = bytes_of_string s) in
  if eqs "s"%string then Some (ValueFlag (fun v f => Some (mkEthFlags v (contractFlag f) (accountFlag f) (timeoutFlag f) (testnetFlag f))))
  else if eqs "c"%string then Some (ValueFlag (fun v f => Some (mkEthFlags (connectFlag f) v (accountFlag f) (timeoutFlag f) (testnetFlag f))))
  else if eqs "account"%string then Some (ValueFlag (fun v f => Some (mkEthFlags (connectFlag f) (contractFlag f) v (timeoutFlag f) (testnetFlag f))))
  else if eqs "t"%string then Some (ValueFlag (fun v f => t ← ParseDuration v; Some (mkEthFlags (connectFlag f) (contractFlag f) (accountFlag f) t (testnetFlag f))))
  else if eqs "testnet"%string then Some (BoolFlag (fun b f => mkEthFlags (connectFlag f) (contractFlag f) (accountFlag f) (timeoutFlag f) b))
  else None.

Definition eth_command_args : list (string * nat) :=
  [("initiate", 2); ("participate", 3); ("redeem", 2); ("refund", 1); ("extractsecret", 2); ("auditcontract", 1);
   ("deploycontract", 0); ("validatedeployedcontract", 1)]%string%nat.

(** ** Commands *)

Inductive eth_command :=
  | InitiateCmd (cp2Addr amount : Z)
  | ParticipateCmd (cp1Addr amount : Z) (secretHash : bytes)
  | RedeemCmd (contractTx : Transaction) (secret : bytes)
  | RefundCmd (contractTx : Transaction)
  | ExtractSecretCmd (redemptionTx : Transaction) (secretHash : bytes)
  | AuditContractCmd (contractTx : Transaction)
  | DeployContractCmd
  | ValidateDeployedContractCmd (deployTx : Transaction).

Definition parse_wei (text : bytes) : outcome Z :=
  mapErr (fun e => Errorf "unexpected amount argument (%v): %v" [FBytes text; FErr e]) (parseEthAsWei text).

(** The second [switch] of [run]. An address is whatever its text gives: it is
    not checked. *)
Definition parse_eth_command (name : bytes) (args : list bytes) : outcome eth_command :=
  let arg i := default [] (args !! i) in
  let eqs := fun s => bool_decide (name = bytes_of_string s) in
  if eqs "initiate"%string then
    amount ← parse_wei (arg 1%nat);
    Ret (InitiateCmd (HexToAddress (arg 0%nat)) amount)
  else if eqs "participate"%string then
    amount ← parse_wei (arg 1%nat);
    secretHash ← hexDecodeSha256Hash "secret hash" (arg 2%nat);
    Ret (ParticipateCmd (HexToAddress (arg 0%nat)) amount secretHash)
  else if eqs "redeem"%string then
    contractTx ← hexDecodeTransaction (arg 0%nat);
    secret ← hexDecodeSha256Hash "secret" (arg 1%nat);
    Ret (RedeemCmd contractTx secret)
  else if eqs "refund"%string then
    contractTx ← hexDecodeTransaction (arg 0%nat);
    Ret (RefundCmd contractTx)
  else if eqs "extractsecret"%string then
    redemptionTx ← hexDecodeTransaction (arg 0%nat);
    secretHash ← hexDecodeSha256Hash "secret hash" (arg 1%nat);
    Ret (ExtractSecretCmd redemptionTx secretHash)
  else if eqs "auditcontract"%string then
    contractTx ← hexDecodeTransaction (arg 0%nat);
    Ret (AuditContractCmd contractTx)
  else if eqs "deploycontract"%string then Ret DeployContractCmd
  else
    deployTx ← hexDecodeTransaction (arg 0%nat);
    Ret (ValidateDeployedContractCmd deployTx).

(** The system behind the process: dialling an endpoint. *)
Class EthDialer (N : Type) := rpc_Dial : bytes -> N -> outcome unit * N.

Section Run.
Context {N : Type} `{!EthNode N, !EthDialer N}.

(** The byte code of the binding, which the process decodes at its start. *)
Context (contractBin : bytes).

(** The commands with the method [runOfflineCommand]. *)
Definition eth_offline (c : eth_command) : option (cmd N unit) :=
  match c with
  | ExtractSecretCmd tx h => Some (extractSecretCmd tx h)
  | ValidateDeployedContractCmd tx => Some (validateDeployedContractCmd contractBin tx)
  | _ => None
  end.

Definition eth_runCommand (cfg : ChainConfig) (c : eth_command) (sct : swapContractTransactor) : cmd N unit :=
  match c with
  | InitiateCmd addr amount => initiateCmd cfg amount addr sct
  | ParticipateCmd addr amount h => participateCmd cfg amount addr h sct
  | RedeemCmd tx secret => redeemCmd cfg tx secret sct
  | RefundCmd tx => refundCmd cfg tx sct
  | ExtractSecretCmd tx h => extractSecretCmd tx h
  | AuditContractCmd tx => auditContractCmd tx sct
  | DeployContractCmd => deployContractCmd cfg contractBin sct
  | ValidateDeployedContractCmd tx => validateDeployedContractCmd contractBin tx
  end.

(** From the dial to the end of [run]. *)
Definition eth_online (f : eth_flags) (cfg : ChainConfig) (c : eth_command) : cmd N unit :=
  _ ← errf (fun e => Errorf "rpc connect: %v" [FErr e]) (ask (rpc_Dial (connectFlag f)));
  contractAddr ← pure (mapErr (fun e => Errorf "failed to get contract address: %v" [FErr e])
                   (getDeployedContractAddress (contractFlag f) cfg));
  sct ← newSwapContractTransactor (accountFlag f) contractAddr;
  eth_runCommand cfg c sct.

Definition eth_run (argv : list bytes) (n : N) (stdin : list bytes) (clock : Z) : process_end * env N :=
  let start := mkEnv n stdin [] clock in
  match parse_cmdline eth_flag (lookup_command eth_command_args) (fun _ => Ret tt) argv default_eth_flags with
  | ExitUsage => (Exited 2 None true, start)
  | ShowUsage e => (Exited 1 e true, start)
  | CommandLine f name args =>
      let cfg := if testnetFlag f then RinkebyChainConfig else MainnetChainConfig in
      match parse_eth_command name args with
      | Fail e => (Exited 1 (Some e) true, start)
      | Panic e => (Crashed e, start)
      | Ret c =>
          let '(r, e) := match eth_offline c with Some m => m start | None => eth_online f cfg c start end in
          (main_end false r, e)
      end
  end.
End Run.
