(* ===== verification/EthCliTheorems.v ===== *)
(** * The Ethereum tool as a process

    What a run of the program does to the node, from the command line to the
    exit, and what it makes of its arguments. *)

From S2P Require Import Prelude Sha256 BigEndian Keccak Decimal Float EthAmount EthContract EthContractTheorems EthAbi EthTx Cli Flags EthBinding EthSwap EthCommands EthTheorems EthCommandTheorems EthCli.

#[local] Opaque ID sha256 Keccak256.

Section Process.
Context {N : Type} `{!EthNode N, !EthDialer N} (R : N -> N -> Prop) `{!PreOrder R, !ReadsKeep R}.
Context (keep_dial : forall url n, R n (rpc_Dial url n).2) (bin : bytes).

Lemma command_once cfg c sct e r e' : eth_runCommand bin cfg c sct e = (r, e') -> sends_once R e e'.
Proof.
  assert (forall m, building_commands cfg bin sct m -> m e = (r, e') -> sends_once R e e') as Hb
    by (intros m; apply (building_once R)).
  destruct c; cbn [eth_runCommand]; intros H.
  - apply (Hb _ ltac:(left; eauto) H).
  - apply (Hb _ ltac:(right; left; eauto) H).
  - apply (Hb _ ltac:(right; right; left; eauto) H).
  - apply (Hb _ ltac:(do 3 right; left; eauto) H).
  - left. by apply (keeps_extractSecretCmd R _ _ _ _ _ H).
  - left. by apply (keeps_auditContractCmd R _ _ _ _ _ H).
  - apply (Hb _ ltac:(by do 4 right) H).
  - left. by apply (keeps_validate R _ _ _ _ _ H).
Qed.

(** The command that arguments stand for. *)
Definition eth_command_of (argv : list bytes) (f : eth_flags) (c : eth_command) : Prop :=
  exists name args, parse_cmdline eth_flag (lookup_command eth_command_args) (fun _ => Ret tt) argv default_eth_flags = CommandLine f name args /\
    parse_eth_command name args = Ret c.

(** C26: What a run of the Ethereum tool does to the node. Whatever the arguments,
    the answers of the node and the lines typed, and however the process ends:
    at most one transaction is sent; its encoding was printed before, and a line
    says yes. With wrong arguments, and for the offline commands, the node is as
    it was: nothing is even dialled. *)
Theorem eth_run_sends_once argv n lines clk exit e' :
  eth_run bin argv n lines clk = (exit, e') ->
  sends_once R (mkEnv n lines [] clk) e' /\
  ((exists f c, eth_command_of argv f c /\ eth_offline (N := N) bin c = None) \/ node e' = n).
Proof.
  unfold eth_run. set (start := mkEnv n lines [] clk).
  assert (sends_once R start start) as Hidle by (left; done).
  destruct (parse_cmdline _ _ _ argv default_eth_flags) as [|er|f name args] eqn:Hargs;
    [intros [= _ <-]; split; [exact Hidle|by right]..|].
  destruct (parse_eth_command name args) as [c|er|er] eqn:Hc; [|intros [= _ <-]; split; [exact Hidle|by right]..].
  destruct (eth_offline bin c) as [m|] eqn:Hoff.
  - destruct (m start) as [r e] eqn:Hm. intros [= _ <-].
    assert (quiet R start e /\ quiet eq start e) as [H1 H2].
    { destruct c; try done; injection Hoff as <-; split;
        first [by apply (keeps_extractSecretCmd _ _ _ _ _ _ Hm)|by apply (keeps_validate _ _ _ _ _ _ Hm)]. }
    split; [left; apply H1|right; symmetry; apply H2].
  - destruct (eth_online bin f _ c start) as [r e] eqn:Hm. intros [= _ <-].
    split; [|left; exists f, c; split; [by exists name, args|done]]. revert Hm. unfold eth_online.
    apply (once_bind R); [apply keeps_errf, keeps_ask; intros; apply keep_dial|intros ? ? ? ? H; revert H].
    apply (once_bind R); [apply keeps_pure, _|intros ? ? ? ? H; revert H].
    apply (once_bind R); [apply keeps_newTransactor; apply _|intros sct ? ? ? H].
    by eapply command_once.
Qed.
End Process.

(** The simulated node can be dialled. *)
#[local] Instance sim_dial : EthDialer Sim.sim := fun _ n => (Ret tt, n).

#[local] Instance sim_keeps : ReadsKeep (N := Sim.sim) eq.
Proof. by split. Qed.

Definition deploy_argv : list bytes := map bytes_of_string ["-testnet"; "deploycontract"]%string.

(** A full run: flags, command, dial, account, the question, the sending. *)
Lemma eth_run_sends_once_witness : exists e',
  eth_run [0x60] deploy_argv (Sim.mkSim Run.w2 []) [bytes_of_string "yes"] (140 * 10 ^ 9) = (Exited 0 None false, e')
    /\ length (Sim.sent (node e')) = 1%nat
    /\ sends_once eq Sim.start e'.
Proof.
  destruct (eth_run [0x60] deploy_argv (Sim.mkSim Run.w2 []) [bytes_of_string "yes"] (140 * 10 ^ 9)) as [x e'] eqn:E.
  assert ((x, length (Sim.sent (node e'))) = (Exited 0 None false, 1%nat)) as [= -> Hl].
  { transitivity (let p := eth_run [0x60] deploy_argv (Sim.mkSim Run.w2 []) [bytes_of_string "yes"] (140 * 10 ^ 9) in (p.1, length (Sim.sent (node p.2))));
      [by rewrite E|by vm_compute]. }
  exists e'. split_and!; [done..|].
  exact (proj1 (eth_run_sends_once (N := Sim.sim) eq (fun _ n => @eq_refl Sim.sim n) [0x60] deploy_argv _ _ _ _ _ E)).
Defined.
