(* ===== verification/Strkey.v ===== *)
(** * Stellar addresses and keys

    Base 32 of the standard library, the vendored [stellar/go/crc16],
    [stellar/go/strkey] and [stellar/go/keypair]. Text is a list of bytes. The
    curve arithmetic of [x/crypto/ed25519] is a parameter. *)

From S2P Require Import Prelude Sha256 BigEndian Base58.

(** [errors.Wrap] of [stellar/go/support/errors]. *)
Definition Wrap (msg : string) (e : error) : error := Errorf "%s: %v" [FStr msg; FErr e].

(** ** Base 32 *)

Definition b32_alphabet : bytes := Eval vm_compute in bytes_of_string "ABCDEFGHIJKLMNOPQRSTUVWXYZ234567".
Definition b32_digit (c : Z) : option Z := index_of c b32_alphabet 0.
Definition b32_char (d : Z) : Z := default 0 (b32_alphabet !! Z.to_nat d).

(** The five-bit digits of a number, most significant first. *)
Fixpoint digits32 (n : nat) (v : Z) : list Z :=
  match n with
  | O => []
  | S n => Z.land (Z.shiftr v (5 * Z.of_nat n)) 31 :: digits32 n v
  end.

Definition value32 (digits : list Z) : Z := foldl (fun a d => 32 * a + d) 0 digits.

(** One round of [Encode] on up to five bytes: eight characters. *)
Definition b32_quantum (src : bytes) : bytes :=
  let n := length src in
  let chars := match n with 1 => 2 | 2 => 4 | 3 => 5 | 4 => 7 | _ => 8 end%nat in
  take chars (map b32_char (digits32 8 (be_get (src ++ replicate (5 - n) 0)))) ++ replicate (8 - chars) 61.

Fixpoint b32_encode (fuel : nat) (src : bytes) : bytes :=
  match fuel, src with
  | S fuel, _ :: _ => b32_quantum (take 5 src) ++ b32_encode fuel (drop 5 src)
  | _, _ => []
  end.

(** [base32.StdEncoding.EncodeToString]; every round takes a byte. *)
Definition b32_EncodeToString (src : bytes) : bytes := b32_encode (length src) src.

Definition b32_CorruptInputError : error := ErrNew "illegal base32 data".

(** The inner loop of [decode]: up to eight digits, whether the end was reached,
    and what is left. *)
Fixpoint b32_read (src : bytes) (j : nat) (dbuf : list Z) : outcome (list Z * bool * bytes) :=
  if (j =? 8)%nat then Ret (dbuf, false, src)
  else match src with
  | [] => Fail b32_CorruptInputError
  | c :: src =>
      if (c =? 61) && (2 <=? j)%nat && (length src <? 8)%nat then
        if (length src + j <? 7)%nat || negb (forallb (Z.eqb 61) (take (7 - j) src)) || (j =? 3)%nat || (j =? 6)%nat
        then Fail b32_CorruptInputError
        else Ret (dbuf, true, src)
      else match b32_digit c with
      | None => Fail b32_CorruptInputError
      | Some d => b32_read src (S j) (dbuf ++ [d])
      end
  end.

(** The bytes that whole groups of digits give. *)
Definition b32_bytes (dbuf : list Z) : bytes :=
  let dlen := length dbuf in
  let n := match dlen with 8 => 5 | 7 => 4 | 5 => 3 | 4 => 2 | 2 => 1 | _ => 0 end%nat in
  take n (be_put 5 (value32 (dbuf ++ replicate (8 - dlen) 0))).

Fixpoint b32_decode (fuel : nat) (src : bytes) : outcome bytes :=
  match fuel, src with
  | S fuel, _ :: _ =>
      '(dbuf, stop, src) ← b32_read src 0 [];
      rest ← (if stop : bool then Ret [] else b32_decode fuel src);
      Ret (b32_bytes dbuf ++ rest)
  | _, _ => Ret []
  end.

(** Line ends are dropped first. *)
Definition strip_newlines (s : bytes) : bytes := List.filter (fun c => negb ((c =? 10) || (c =? 13))) s.

(** [base32.StdEncoding.DecodeString] *)
Definition b32_DecodeString (s : bytes) : outcome bytes :=
  let s := strip_newlines s in b32_decode (length s) s.

Example b32_examples : map (fun s => b32_EncodeToString (bytes_of_string s)) ["f"; "fo"; "foo"; "foob"; "fooba"; "foobar"]%string =
  map bytes_of_string ["MY======"; "MZXQ===="; "MZXW6==="; "MZXW6YQ="; "MZXW6YTB"; "MZXW6YTBOI======"]%string.
Proof. vm_compute. reflexivity. Qed.
Example b32_examples_back : map (fun s => b32_DecodeString (bytes_of_string s)) ["MY======"; "MZXW6YTBOI======"; "MZ"; "MY=A===="; "mzxw6ytb"]%string =
  [Ret (bytes_of_string "f"); Ret (bytes_of_string "foobar"); Fail b32_CorruptInputError; Fail b32_CorruptInputError; Fail b32_CorruptInputError].
Proof. vm_compute. reflexivity. Qed.

(** ** crc16 *)

Definition crc16tab : list Z :=
  [0x0000; 0x1021; 0x2042; 0x3063; 0x4084; 0x50a5; 0x60c6; 0x70e7; 0x8108; 0x9129; 0xa14a; 0xb16b; 0xc18c; 0xd1ad; 0xe1ce; 0xf1ef;
   0x1231; 0x0210; 0x3273; 0x2252; 0x52b5; 0x4294; 0x72f7; 0x62d6; 0x9339; 0x8318; 0xb37b; 0xa35a; 0xd3bd; 0xc39c; 0xf3ff; 0xe3de;
   0x2462; 0x3443; 0x0420; 0x1401; 0x64e6; 0x74c7; 0x44a4; 0x5485; 0xa56a; 0xb54b; 0x8528; 0x9509; 0xe5ee; 0xf5cf; 0xc5ac; 0xd58d;
   0x3653; 0x2672; 0x1611; 0x0630; 0x76d7; 0x66f6; 0x5695; 0x46b4; 0xb75b; 0xa77a; 0x9719; 0x8738; 0xf7df; 0xe7fe; 0xd79d; 0xc7bc;
   0x48c4; 0x58e5; 0x6886; 0x78a7; 0x0840; 0x1861; 0x2802; 0x3823; 0xc9cc; 0xd9ed; 0xe98e; 0xf9af; 0x8948; 0x9969; 0xa90a; 0xb92b;
   0x5af5; 0x4ad4; 0x7ab7; 0x6a96; 0x1a71; 0x0a50; 0x3a33; 0x2a12; 0xdbfd; 0xcbdc; 0xfbbf; 0xeb9e; 0x9b79; 0x8b58; 0xbb3b; 0xab1a;
   0x6ca6; 0x7c87; 0x4ce4; 0x5cc5; 0x2c22; 0x3c03; 0x0c60; 0x1c41; 0xedae; 0xfd8f; 0xcdec; 0xddcd; 0xad2a; 0xbd0b; 0x8d68; 0x9d49;
   0x7e97; 0x6eb6; 0x5ed5; 0x4ef4; 0x3e13; 0x2e32; 0x1e51; 0x0e70; 0xff9f; 0xefbe; 0xdfdd; 0xcffc; 0xbf1b; 0xaf3a; 0x9f59; 0x8f78;
   0x9188; 0x81a9; 0xb1ca; 0xa1eb; 0xd10c; 0xc12d; 0xf14e; 0xe16f; 0x1080; 0x00a1; 0x30c2; 0x20e3; 0x5004; 0x4025; 0x7046; 0x6067;
   0x83b9; 0x9398; 0xa3fb; 0xb3da; 0xc33d; 0xd31c; 0xe37f; 0xf35e; 0x02b1; 0x1290; 0x22f3; 0x32d2; 0x4235; 0x5214; 0x6277; 0x7256;
   0xb5ea; 0xa5cb; 0x95a8; 0x8589; 0xf56e; 0xe54f; 0xd52c; 0xc50d; 0x34e2; 0x24c3; 0x14a0; 0x0481; 0x7466; 0x6447; 0x5424; 0x4405;
   0xa7db; 0xb7fa; 0x8799; 0x97b8; 0xe75f; 0xf77e; 0xc71d; 0xd73c; 0x26d3; 0x36f2; 0x0691; 0x16b0; 0x6657; 0x7676; 0x4615; 0x5634;
   0xd94c; 0xc96d; 0xf90e; 0xe92f; 0x99c8; 0x89e9; 0xb98a; 0xa9ab; 0x5844; 0x4865; 0x7806; 0x6827; 0x18c0; 0x08e1; 0x3882; 0x28a3;
   0xcb7d; 0xdb5c; 0xeb3f; 0xfb1e; 0x8bf9; 0x9bd8; 0xabbb; 0xbb9a; 0x4a75; 0x5a54; 0x6a37; 0x7a16; 0x0af1; 0x1ad0; 0x2ab3; 0x3a92;
   0xfd2e; 0xed0f; 0xdd6c; 0xcd4d; 0xbdaa; 0xad8b; 0x9de8; 0x8dc9; 0x7c26; 0x6c07; 0x5c64; 0x4c45; 0x3ca2; 0x2c83; 0x1ce0; 0x0cc1;
   0xef1f; 0xff3e; 0xcf5d; 0xdf7c; 0xaf9b; 0xbfba; 0x8fd9; 0x9ff8; 0x6e17; 0x7e36; 0x4e55; 0x5e74; 0x2e93; 0x3eb2; 0x0ed1; 0x1ef0].

Definition crc16_loop (data : bytes) : Z :=
  foldl (fun crc b =>
    Z.lxor (Z.land (to_uint 16 (Z.shiftl crc 8)) 0xffff)
      (default 0 (crc16tab !! Z.to_nat (Z.land (Z.lxor (Z.shiftr crc 8) b) 0xff)))) 0 data.

(** [crc16.Checksum]: two bytes, little-endian. *)
Definition crc16_Checksum (data : bytes) : bytes :=
  let crc := crc16_loop data in [Z.land crc 0xff; Z.land (Z.shiftr crc 8) 0xff].

Definition ErrInvalidChecksum : error := ErrNew "invalid checksum".

Definition crc16_Validate (data expected : bytes) : outcome unit :=
  guard_err (negb (bool_decide (crc16_Checksum data = expected))) ErrInvalidChecksum.

Example crc16_check : crc16_loop (bytes_of_string "123456789") = 0x31c3.
Proof. vm_compute. reflexivity. Qed.

(** ** strkey *)

Definition VersionByteAccountID : Z := Z.shiftl 6 3.
Definition VersionByteSeed : Z := Z.shiftl 18 3.
Definition VersionByteHashTx : Z := Z.shiftl 19 3.
Definition VersionByteHashX : Z := Z.shiftl 23 3.

Definition ErrInvalidVersionByte : error := ErrNew "invalid version byte".

Definition checkValidVersionByte (version : Z) : outcome unit :=
  if version =? VersionByteAccountID then Ret tt
  else if version =? VersionByteSeed then Ret tt
  else if version =? VersionByteHashTx then Ret tt
  else if version =? VersionByteHashX then Ret tt
  else Fail ErrInvalidVersionByte.

Definition decodeString (src : bytes) : outcome bytes :=
  raw ← mapErr (Wrap "base32 decode failed") (b32_DecodeString src);
  if zlen raw <? 3 then Fail (Errorf "encoded value is %d bytes; minimum valid length is 3" [FInt (zlen raw)]) else Ret raw.

(** The first byte of a decoded string, which is not empty. *)
Definition version_of (raw : bytes) : Z := default 0 (raw !! 0%nat).

Definition Decode (expected : Z) (src : bytes) : outcome bytes :=
  _ ← checkValidVersionByte expected;
  raw ← decodeString src;
  let n := (length raw - 2)%nat in
  let vp := take n raw in
  let payload := drop 1 vp in
  let checksum := drop n raw in
  _ ← guard_err (negb (version_of raw =? expected)) ErrInvalidVersionByte;
  _ ← crc16_Validate vp checksum;
  Ret payload.

(** [MustDecode] and [MustEncode] panic instead of failing. *)
Definition must {A} (o : outcome A) : outcome A := match o with Fail e => Panic e | _ => o end.
Definition MustDecode (expected : Z) (src : bytes) : outcome bytes := must (Decode expected src).

Definition Encode (version : Z) (src : bytes) : outcome bytes :=
  _ ← checkValidVersionByte version;
  let raw := version :: src in
  Ret (b32_EncodeToString (raw ++ crc16_Checksum raw)).

Definition MustEncode (version : Z) (src : bytes) : outcome bytes := must (Encode version src).

(** [strkey.Version] *)
Definition strkey_Version (src : bytes) : outcome Z :=
  raw ← decodeString src; Ret (version_of raw).

Definition is_Ret {A} (o : outcome A) : bool := match o with Ret _ => true | _ => false end.

Definition IsValidEd25519PublicKey (enc : bytes) : bool := is_Ret (Decode VersionByteAccountID enc).

(** ** Key pairs *)

(** The functions of [x/crypto/ed25519], on the 32 bytes of a seed. *)
Class Ed25519 := {
  ed25519_public : bytes -> bytes;
  ed25519_Sign : bytes -> bytes -> bytes }.

(** Documented sizes of public keys and signatures. *)
Class Ed25519Sizes `{!Ed25519} : Prop := {
  public_size seed : zlen (ed25519_public seed) = 32;
  public_bytes seed : bytes_ok (ed25519_public seed);
  signature_size seed msg : zlen (ed25519_Sign seed msg) = 64;
  signature_bytes seed msg : bytes_ok (ed25519_Sign seed msg) }.

(** [keypair.KP]: only an address, or a seed. *)
Inductive KP :=
  | FromAddress (address : bytes)
  | Full (seed : bytes).

(** [keypair.Parse] *)
Definition is_ErrInvalidVersionByte (e : error) : bool :=
  match e with ErrNew m => (m =? "invalid version byte")%string | _ => false end.

Definition keypair_Parse (addressOrSeed : bytes) : outcome KP :=
  match Decode VersionByteAccountID addressOrSeed with
  | Ret _ => Ret (FromAddress addressOrSeed)
  | Panic e => Panic e
  | Fail e =>
      if negb (is_ErrInvalidVersionByte e) then Fail e
      else _ ← Decode VersionByteSeed addressOrSeed; Ret (Full addressOrSeed)
  end.

(** [FromRawSeed] *)
Definition FromRawSeed (rawSeed : bytes) : outcome bytes := Encode VersionByteSeed rawSeed.

(** The methods of a full key pair, which is its seed. [GenerateKey] reads 32
    bytes from the decoded seed. *)
Section Keys.
Context `{!Ed25519}.

Definition io_short (b : bytes) : error := ErrNew (if zlen b =? 0 then "EOF" else "unexpected EOF").

Definition keypair_keys (seed : bytes) : outcome bytes :=
  raw ← MustDecode VersionByteSeed seed;
  if zlen raw <? 32 then Panic (io_short raw) else Ret (take 32 raw).

Definition keypair_publicKey (seed : bytes) : outcome bytes :=
  raw ← keypair_keys seed; Ret (ed25519_public raw).

Definition keypair_Address (seed : bytes) : outcome bytes :=
  public ← keypair_publicKey seed; MustEncode VersionByteAccountID public.

Definition keypair_Hint (seed : bytes) : outcome bytes :=
  public ← keypair_publicKey seed; Ret (drop 28 public).

Definition keypair_Sign (seed input : bytes) : outcome bytes :=
  raw ← keypair_keys seed; Ret (ed25519_Sign raw input).
End Keys.
