(* ===== verification/Base64.v ===== *)
(** * Base 64

    [base64.StdEncoding] of the standard library: whole strings, and the
    streaming decoder, which reads the text as its caller needs it. *)

From S2P Require Import Prelude Sha256 BigEndian Base58 Strkey.

Definition b64_alphabet : bytes := Eval vm_compute in
  bytes_of_string "ABCDEFGHIJKLMNOPQRSTUVWXYZabcdefghijklmnopqrstuvwxyz0123456789+/".
Definition b64_digit (c : Z) : option Z := index_of c b64_alphabet 0.
Definition b64_char (d : Z) : Z := default 0 (b64_alphabet !! Z.to_nat d).

(** ** Encoding *)

Definition b64_chars (v : Z) : bytes :=
  map (fun s => b64_char (Z.land (Z.shiftr v s) 63)) [18; 12; 6; 0].

(** [EncodeToString] *)
Fixpoint b64_EncodeToString (src : bytes) : bytes :=
  match src with
  | [] => []
  | [x] => take 2 (b64_chars (be_get [x; 0; 0])) ++ [61; 61]
  | [x; y] => take 3 (b64_chars (be_get [x; y; 0])) ++ [61]
  | x :: y :: z :: src => b64_chars (be_get [x; y; z]) ++ b64_EncodeToString src
  end.

(** ** Decoding *)

Definition b64_CorruptInputError : error := ErrNew "illegal base64 data".

Definition b64_value (a b c d : Z) : bytes := be_put 3 (Z.shiftl a 18 + Z.shiftl b 12 + Z.shiftl c 6 + d).

(** [Decode] on text without line ends: the bytes before the first error, and
    whether there was none. *)
Fixpoint b64_decode (src : bytes) : bytes * bool :=
  match src with
  | [] => ([], true)
  | x :: y :: z :: w :: rest =>
      match b64_digit x, b64_digit y with
      | Some a, Some b =>
          match b64_digit z with
          | None =>
              if negb (z =? 61) || negb (w =? 61) then ([], false)
              else (take 1 (b64_value a b 0 0), zlen rest =? 0)
          | Some c =>
              match b64_digit w with
              | None => if negb (w =? 61) then ([], false) else (take 2 (b64_value a b c 0), zlen rest =? 0)
              | Some d => let '(bs, ok) := b64_decode rest in (b64_value a b c d ++ bs, ok)
              end
          end
      | _, _ => ([], false)
      end
  | _ => ([], false)
  end.

(** [DecodeString]; line ends are skipped everywhere. *)
Definition b64_DecodeString (s : bytes) : outcome bytes :=
  let '(b, ok) := b64_decode (strip_newlines s) in if ok : bool then Ret b else Fail b64_CorruptInputError.

(** ** The streaming decoder *)

(** The text still to be read, the characters and the bytes that are left over,
    the error of the decoder, and whether the end of the text was seen. *)
Record b64_decoder := mkDecoder {
  d_src : bytes; d_buf : bytes; d_out : bytes; d_err : option error; d_eof : bool }.

(** [base64.NewDecoder] over a string. *)
Definition NewDecoder (s : bytes) : b64_decoder := mkDecoder s [] [] None false.

(** One read of the reader that drops line ends: what it gives, what remains,
    and whether it met the end. Every turn takes at least one character. *)
Fixpoint filtered_read (fuel : nat) (k : nat) (src : bytes) : bytes * bytes * bool :=
  match src, fuel with
  | [], _ | _, O => ([], [], true)
  | _, S fuel =>
      match strip_newlines (take k src) with
      | [] => filtered_read fuel k (drop k src)
      | p => (p, drop k src, false)
      end
  end.

(** The number of characters for a buffer of [n] bytes. *)
Definition chunk_size (n : nat) : nat := Nat.min 1024 (Nat.max 4 (n / 3 * 4)).

(** The refill loop; a read gives a character or the end, so five turns do. *)
Fixpoint refill (fuel : nat) (n : nat) (d : b64_decoder) : b64_decoder :=
  match fuel with
  | O => d
  | S fuel =>
      if (length (d_buf d) <? 4)%nat && negb (d_eof d) then
        let '(p, src, eof) := filtered_read (length (d_src d)) (chunk_size n - length (d_buf d)) (d_src d) in
        refill fuel n (mkDecoder src (d_buf d ++ p) (d_out d) (d_err d) eof)
      else d
  end.

Definition io_EOF : error := ErrNew "EOF".
Definition io_ErrUnexpectedEOF : error := ErrNew "unexpected EOF".

(** [Read] into a buffer of [n] bytes: the bytes, the error, the new state. *)
Definition b64_Read (n : nat) (d : b64_decoder) : bytes * option error * b64_decoder :=
  match d_out d with
  | _ :: _ => (take n (d_out d), None, mkDecoder (d_src d) (d_buf d) (drop n (d_out d)) (d_err d) (d_eof d))
  | [] =>
      match d_err d with
      | Some e => ([], Some e, d)
      | None =>
          let d := refill 5 n d in
          if (length (d_buf d) <? 4)%nat then
            let e := if (length (d_buf d) =? 0)%nat then io_EOF else io_ErrUnexpectedEOF in
            ([], Some e, mkDecoder (d_src d) (d_buf d) [] (Some e) (d_eof d))
          else
            let nr := (length (d_buf d) / 4 * 4)%nat in
            let '(b, ok) := b64_decode (take nr (d_buf d)) in
            let err := if ok : bool then None else Some b64_CorruptInputError in
            (take n b, err, mkDecoder (d_src d) (drop nr (d_buf d)) (drop n b) err (d_eof d))
      end
  end.

(** [io.ReadFull]: an error that comes with the last byte is not looked at. *)
Fixpoint b64_ReadFull_loop (fuel : nat) (n : nat) (acc : bytes) (d : b64_decoder) : outcome bytes * b64_decoder :=
  match fuel with
  | O => (Fail io_ErrUnexpectedEOF, d)
  | S fuel =>
      let '(b, err, d) := b64_Read (n - length acc) d in
      let acc := acc ++ b in
      if (n <=? length acc)%nat then (Ret acc, d)
      else match err with
      | None => b64_ReadFull_loop fuel n acc d
      | Some e =>
          let eof := match e with ErrNew m => (m =? "EOF")%string | _ => false end in
          (Fail (if eof && negb (length acc =? 0)%nat then io_ErrUnexpectedEOF else e), d)
      end
  end.

(** A read without an error gives at least one byte. *)
Definition b64_ReadFull (n : nat) (d : b64_decoder) : outcome bytes * b64_decoder := b64_ReadFull_loop n n [] d.

Example b64_examples : map (fun s => b64_EncodeToString (bytes_of_string s)) ["f"; "fo"; "foo"; "foob"; "fooba"; "foobar"]%string =
  map bytes_of_string ["Zg=="; "Zm8="; "Zm9v"; "Zm9vYg=="; "Zm9vYmE="; "Zm9vYmFy"]%string.
Proof. vm_compute. reflexivity. Qed.

Example b64_stream_example :
  let '(r1, d1) := b64_ReadFull 4 (NewDecoder (bytes_of_string "Zm9vYmFyZm9v")) in
  let '(r2, d2) := b64_ReadFull 3 d1 in
  (r1, r2, d_src d2, d_out d2) = (Ret (bytes_of_string "foob"), Ret (bytes_of_string "arf"), [], bytes_of_string "oo").
Proof. vm_compute. reflexivity. Qed.
