(* ===== verification/Xdr.v ===== *)
(** * XDR: the vendored [stellar/go-xdr/xdr3]

    The package follows the types of values by reflection; here a type has a
    [codec], with a combinator per kind of type. Unmarshalling reads from any
    reader of full buffers. Writing to memory does not fail;
    marshalling does, for a union whose arm is nil. *)

From S2P Require Import Prelude Sha256 BigEndian Base64.

(** [io.ReadFull] of a reader, into a buffer that is not empty. *)
Class Reader (S : Type) := ReadFull : nat -> S -> outcome bytes * S.

#[global] Instance b64_reader : Reader b64_decoder := b64_ReadFull.
(** A [bytes.Reader] *)
#[global] Instance bytes_reader : Reader bytes := fun n s =>
  if (length s <? n)%nat then (Fail (if (length s =? 0)%nat then io_EOF else io_ErrUnexpectedEOF), [])
  else (Ret (take n s), drop n s).

Definition unmarshal (S A : Type) : Type := S -> outcome A * S.
#[global] Typeclasses Opaque unmarshal.

#[global] Instance unmarshal_ret S : MRet (unmarshal S) := fun A a s => (Ret a, s).
#[global] Instance unmarshal_bind S : MBind (unmarshal S) := fun A B f m s =>
  match m s with
  | (Ret a, s) => f a s
  | (Fail e, s) => (Fail e, s)
  | (Panic e, s) => (Panic e, s)
  end.
Definition xfail {S A} (e : error) : unmarshal S A := fun s => (Fail e, s).

(** How a type is marshalled and unmarshalled. *)
Record codec (A : Type) := Codec {
  marshal : A -> outcome bytes;
  decode : forall S, Reader S -> unmarshal S A }.
Arguments Codec {A} _ _.
Arguments marshal {A} _ _.
Arguments decode {A} _ {S _} : rename.

(** ** Integers *)

Definition EncodeInt (z : Z) : bytes := be_put 4 z.
Definition EncodeHyper (z : Z) : bytes := be_put 8 z.

Section Decode.
Context {S : Type} `{!Reader S}.

Definition read_bytes (n : nat) : unmarshal S bytes := fun s =>
  let '(r, s) := ReadFull n s in (mapErr (fun e => Errorf "%s while decoding %d bytes" [FErr e; FInt (Z.of_nat n)]) r, s).

Definition DecodeUint : unmarshal S Z := b ← read_bytes 4; mret (be_get b).
Definition DecodeInt : unmarshal S Z := b ← read_bytes 4; mret (to_int 32 (be_get b)).
Definition DecodeHyper : unmarshal S Z := b ← read_bytes 8; mret (to_int 64 (be_get b)).
Definition DecodeUhyper : unmarshal S Z := b ← read_bytes 8; mret (be_get b).

Definition DecodeBool : unmarshal S bool :=
  val ← DecodeInt;
  if val =? 0 then mret false else if val =? 1 then mret true else xfail (ErrNew "bool not 0 or 1").

(** ** Opaque data *)

Definition pad_size (n : Z) : Z := (4 - n mod 4) mod 4.

Definition DecodeFixedOpaque (size : Z) : unmarshal S bytes :=
  if size =? 0 then mret []
  else
    buf ← read_bytes (Z.to_nat (size + pad_size size));
    if negb (forallb (Z.eqb 0) (drop (Z.to_nat size) buf)) then xfail (ErrNew "non-zero padding")
    else mret (take (Z.to_nat size) buf).

Definition errMaxSlice (n : Z) : error := Errorf "data exceeds max slice limit" [FInt n].

(** [DecodeOpaque] and [DecodeString], with a positive bound. *)
Definition DecodeOpaque (maxSize : Z) : unmarshal S bytes :=
  dataLen ← DecodeUint;
  if maxSize <? dataLen then xfail (errMaxSlice dataLen) else DecodeFixedOpaque dataLen.

(** [n] elements in sequence. *)
Fixpoint decode_elements {A} (n : nat) (d : unmarshal S A) : unmarshal S (list A) :=
  match n with
  | O => mret []
  | Datatypes.S n => a ← d; l ← decode_elements n d; mret (a :: l)
  end.

(** [decodeArray] with a positive bound. *)
Definition decodeArray {A} (maxSize : Z) (d : unmarshal S A) : unmarshal S (list A) :=
  dataLen ← DecodeUint;
  if maxSize <? dataLen then xfail (errMaxSlice dataLen) else decode_elements (Z.to_nat dataLen) d.

(** The switch of a union: its type is an enumeration of [0 .. n - 1], of which
    the arms handle some. *)
Definition bad_switch (i : Z) : error := Errorf "switch '%d' is not valid enum value for union" [FInt i].
Definition bad_arm (i : Z) : error := Errorf "switch '%d' is not valid for union" [FInt i].
Definition decode_switch (n : Z) : unmarshal S Z :=
  i ← DecodeInt; if (0 <=? i) && (i <? n) then mret i else xfail (bad_switch i).
End Decode.

Definition EncodeFixedOpaque (v : bytes) : bytes := v ++ replicate (Z.to_nat (pad_size (zlen v))) 0.
Definition EncodeOpaque (v : bytes) : bytes := be_put 4 (zlen v) ++ EncodeFixedOpaque v.

Fixpoint encode_elements {A} (e : A -> outcome bytes) (l : list A) : outcome bytes :=
  match l with
  | [] => Ret []
  | a :: l => b ← e a; r ← encode_elements e l; Ret (b ++ r)
  end.

(** ** Codecs *)

Definition c_int32 : codec Z := Codec (fun z => Ret (EncodeInt z)) (fun S _ => DecodeInt).
Definition c_uint32 : codec Z := Codec (fun z => Ret (EncodeInt z)) (fun S _ => DecodeUint).
Definition c_int64 : codec Z := Codec (fun z => Ret (EncodeHyper z)) (fun S _ => DecodeHyper).
Definition c_uint64 : codec Z := Codec (fun z => Ret (EncodeHyper z)) (fun S _ => DecodeUhyper).
Definition c_bool : codec bool := Codec (fun b : bool => Ret (EncodeInt (if b then 1 else 0))) (fun S _ => DecodeBool).
(** Arrays of [n] bytes, and slices and strings of at most [max]. *)
Definition c_fixed (n : Z) : codec bytes := Codec (fun v => Ret (EncodeFixedOpaque v)) (fun S _ => DecodeFixedOpaque n).
Definition c_opaque (max : Z) : codec bytes := Codec (fun v => Ret (EncodeOpaque v)) (fun S _ => DecodeOpaque max).

Definition c_array {A} (max : Z) (c : codec A) : codec (list A) :=
  Codec (fun l => r ← encode_elements (marshal c) l; Ret (EncodeInt (zlen l) ++ r))
        (fun S _ => decodeArray max (decode c)).

(** A pointer that may be nil. *)
Definition c_ptr {A} (c : codec A) : codec (option A) :=
  Codec (fun o => match o with None => Ret (EncodeInt 0) | Some a => r ← marshal c a; Ret (EncodeInt 1 ++ r) end)
        (fun S _ => present ← DecodeBool; if present : bool then a ← decode c; mret (Some a) else mret None).

(** The fields of a struct, in order. *)
Definition c_pair {A B} (c1 : codec A) (c2 : codec B) : codec (A * B) :=
  Codec (fun p => b1 ← marshal c1 p.1; b2 ← marshal c2 p.2; Ret (b1 ++ b2))
        (fun S _ => a ← decode c1; b ← decode c2; mret (a, b)).
Definition c_struct {A B} (fields : A -> B) (make : B -> A) (c : codec B) : codec A :=
  Codec (fun a => marshal c (fields a)) (fun S _ => b ← decode c; mret (make b)).

(** The switch of a union and an arm. *)
Definition c_arm {A} (sw : Z) (c : codec A) (a : A) : outcome bytes :=
  r ← marshal c a; Ret (EncodeInt sw ++ r).
Definition c_void (sw : Z) : outcome bytes := Ret (EncodeInt sw).

Definition nil_union : error := ErrNew "can't encode nil union value".

(** ** Unmarshalling what was marshalled *)

(** What a reader will give. *)
Class Yields (S : Type) `{!Reader S} := {
  yields : S -> bytes -> Prop;
  read_yields n b rest s : yields s (b ++ rest) -> length b = n -> (0 < n)%nat ->
    exists s', ReadFull n s = (Ret b, s') /\ yields s' rest }.

#[global] Program Instance bytes_yields : Yields bytes := {| yields s b := s = b |}.
Next Obligation.
  intros n b rest s -> <- _. exists rest. unfold ReadFull, bytes_reader. rewrite length_app.
  destruct (Nat.ltb_spec (length b + length rest) (length b)); [lia|]. by rewrite take_app_length, drop_app_length.
Qed.

(** [reads m b a]: from a reader that gives [b], the decoder [m] takes exactly
    [b] and returns [a]. *)
Definition reads {S} `{!Reader S, !Yields S} {A} (m : unmarshal S A) (b : bytes) (a : A) : Prop :=
  forall rest s, yields s (b ++ rest) -> exists s', m s = (Ret a, s') /\ yields s' rest.

Section Reads.
Context {S : Type} `{!Reader S, !Yields S}.

Lemma xdr_reads_ret {A} (a : A) : reads (mret a : unmarshal S A) [] a.
Proof. intros rest s H. by exists s. Qed.

Lemma xdr_reads_bind {A B} (m : unmarshal S A) (f : A -> unmarshal S B) b1 b2 a c :
  reads m b1 a -> reads (f a) b2 c -> reads (m ≫= f) (b1 ++ b2) c.
Proof.
  intros H1 H2 rest s H. rewrite <- app_assoc in H. destruct (H1 _ _ H) as (s1 & E & Hy).
  unfold mbind, unmarshal_bind. rewrite E. by apply H2.
Qed.

Lemma xdr_reads_bind_ret {A B} (m : unmarshal S A) (f : A -> unmarshal S B) b a c :
  reads m b a -> reads (f a) [] c -> reads (m ≫= f) b c.
Proof. intros H1 H2. rewrite <- (app_nil_r b). by eapply xdr_reads_bind. Qed.

Lemma reads_bytes n b : length b = n -> (0 < n)%nat -> reads (read_bytes n) b b.
Proof.
  intros Hl Hn rest s H. destruct (read_yields n b rest s H Hl Hn) as (s' & E & Hy).
  exists s'. unfold read_bytes. by rewrite E.
Qed.

Lemma length_be_put n z : length (be_put n z) = n.
Proof. pose proof (zlen_be_put n z). unfold zlen in *. lia. Qed.

Lemma reads_Uint z : is_uint 32 z -> reads DecodeUint (be_put 4 z) z.
Proof.
  intros Hz. eapply xdr_reads_bind_ret; [apply reads_bytes; [apply length_be_put|lia]|].
  rewrite be_get_put, Z.mod_small by exact Hz. apply xdr_reads_ret.
Qed.
Lemma reads_Uhyper z : is_uint 64 z -> reads DecodeUhyper (be_put 8 z) z.
Proof.
  intros Hz. eapply xdr_reads_bind_ret; [apply reads_bytes; [apply length_be_put|lia]|].
  rewrite be_get_put, Z.mod_small by exact Hz. apply xdr_reads_ret.
Qed.

Lemma to_int_mod w z : 0 < w -> is_int w z -> to_int w (z mod 2 ^ w) = z.
Proof.
  intros Hw Hz. unfold to_int. rewrite Zplus_mod_idemp_l.
  change ((z + 2 ^ (w - 1)) mod 2 ^ w - 2 ^ (w - 1)) with (to_int w z). by apply to_int_id.
Qed.

Lemma reads_Int z : is_int 32 z -> reads DecodeInt (be_put 4 z) z.
Proof.
  intros Hz. eapply xdr_reads_bind_ret; [apply reads_bytes; [apply length_be_put|lia]|].
  rewrite be_get_put. change (256 ^ Z.of_nat 4) with (2 ^ 32). rewrite to_int_mod by (lia || done). apply xdr_reads_ret.
Qed.
Lemma reads_Hyper z : is_int 64 z -> reads DecodeHyper (be_put 8 z) z.
Proof.
  intros Hz. eapply xdr_reads_bind_ret; [apply reads_bytes; [apply length_be_put|lia]|].
  rewrite be_get_put. change (256 ^ Z.of_nat 8) with (2 ^ 64). rewrite to_int_mod by (lia || done). apply xdr_reads_ret.
Qed.

Lemma reads_Bool (b : bool) : reads DecodeBool (EncodeInt (if b then 1 else 0)) b.
Proof.
  eapply xdr_reads_bind_ret; [apply reads_Int; unfold is_int; destruct b; lia|]. destruct b; apply xdr_reads_ret.
Qed.

Lemma reads_switch n z : 0 <= z < n -> n <= 2 ^ 31 -> reads (decode_switch n) (EncodeInt z) z.
Proof.
  intros Hz Hn. eapply xdr_reads_bind_ret; [apply reads_Int; unfold is_int; lia|].
  replace ((0 <=? z) && (z <? n)) with true; [apply xdr_reads_ret|]. symmetry. apply andb_true_intro. lia.
Qed.

Lemma forallb_zeros n : forallb (Z.eqb 0) (replicate n 0) = true.
Proof. induction n; simpl; auto. Qed.

Lemma reads_FixedOpaque v : reads (DecodeFixedOpaque (zlen v)) (EncodeFixedOpaque v) v.
Proof.
  unfold DecodeFixedOpaque, EncodeFixedOpaque. destruct (Z.eqb_spec (zlen v) 0) as [->%zlen_0|Hv]; [apply xdr_reads_ret|].
  pose proof (zlen_nonneg v). assert (0 <= pad_size (zlen v) < 4) by (apply Z.mod_pos_bound; lia).
  eapply xdr_reads_bind_ret; [apply reads_bytes; [rewrite length_app, length_replicate; unfold zlen in *; lia|lia]|].
  rewrite drop_zlen_app, forallb_zeros, take_zlen_app. apply xdr_reads_ret.
Qed.

Lemma reads_Opaque maxSize v : zlen v <= maxSize -> maxSize < 2 ^ 32 -> reads (DecodeOpaque maxSize) (EncodeOpaque v) v.
Proof.
  intros Hv Hm. pose proof (zlen_nonneg v). eapply xdr_reads_bind; [apply reads_Uint; unfold is_uint; lia|].
  destruct (Z.ltb_spec maxSize (zlen v)); [lia|]. apply reads_FixedOpaque.
Qed.

End Reads.


(** ** Codecs that round trip *)

Definition round_trips {A} (c : codec A) (a : A) : Prop :=
  exists b, marshal c a = Ret b /\ bytes_ok b /\ forall S (HR : Reader S) (HY : Yields S), reads (decode c) b a.

Lemma put_ok n z : bytes_ok (be_put n z).
Proof.
  induction n; constructor; [|done]. unfold is_byte. change 0xff with (Z.ones 8). rewrite Z.land_ones by lia. apply Z.mod_pos_bound. lia.
Qed.
Lemma opaque_ok v : bytes_ok v -> bytes_ok (EncodeFixedOpaque v).
Proof. intros Hv. apply Forall_app_2; [done|]. apply Forall_replicate. unfold is_byte. lia. Qed.

(** The values that a codec brings back. *)
Class CodecOk {A} (c : codec A) := {
  wf : A -> Prop;
  wf_round_trips a : wf a -> round_trips c a }.
Arguments wf {A} c {_} _.

#[export, program] Instance c_int32_ok : CodecOk c_int32 := {| wf := is_int 32 |}.
Next Obligation. intros a H. eexists. split_and!; [done|apply put_ok|]. intros. by apply reads_Int. Qed.
#[export, program] Instance c_uint32_ok : CodecOk c_uint32 := {| wf := is_uint 32 |}.
Next Obligation. intros a H. eexists. split_and!; [done|apply put_ok|]. intros. by apply reads_Uint. Qed.
#[export, program] Instance c_int64_ok : CodecOk c_int64 := {| wf := is_int 64 |}.
Next Obligation. intros a H. eexists. split_and!; [done|apply put_ok|]. intros. by apply reads_Hyper. Qed.
#[export, program] Instance c_uint64_ok : CodecOk c_uint64 := {| wf := is_uint 64 |}.
Next Obligation. intros a H. eexists. split_and!; [done|apply put_ok|]. intros. by apply reads_Uhyper. Qed.
#[export, program] Instance c_bool_ok : CodecOk c_bool := {| wf _ := True |}.
Next Obligation. intros a H. eexists. split_and!; [done|apply put_ok|]. intros. apply reads_Bool. Qed.
#[export, program] Instance c_fixed_ok n : CodecOk (c_fixed n) := {| wf v := zlen v = n /\ bytes_ok v |}.
Next Obligation. intros n a [<- Hb]. eexists. split_and!; [done|by apply opaque_ok|]. intros. apply reads_FixedOpaque. Qed.
#[export, program] Instance c_opaque_ok max : CodecOk (c_opaque max) := {| wf v := zlen v <= max /\ bytes_ok v /\ max < 2 ^ 32 |}.
Next Obligation. intros n a (H1 & Hb & H2). eexists. split_and!; [done|by apply Forall_app_2; [apply put_ok|apply opaque_ok]|]. intros. by apply reads_Opaque. Qed.

#[export, program] Instance c_pair_ok {A B} (c1 : codec A) (c2 : codec B) `{!CodecOk c1, !CodecOk c2} : CodecOk (c_pair c1 c2) :=
  {| wf p := wf c1 p.1 /\ wf c2 p.2 |}.
Next Obligation.
  intros A B c1 c2 ? ? [a b] [H1 H2]. destruct (wf_round_trips a H1) as (b1 & E1 & O1 & R1), (wf_round_trips b H2) as (b2 & E2 & O2 & R2).
  exists (b1 ++ b2). cbn [marshal c_pair fst snd]. rewrite E1, E2. split_and!; [done|by apply Forall_app_2|]. intros.
  eapply xdr_reads_bind; [by apply R1|]. eapply xdr_reads_bind_ret; [by apply R2|]. apply xdr_reads_ret.
Qed.

#[export, program] Instance c_ptr_ok {A} (c : codec A) `{!CodecOk c} : CodecOk (c_ptr c) :=
  {| wf := from_option (wf c) True |}.
Next Obligation.
  intros A c ? [a|] H.
  - destruct (wf_round_trips a H) as (b & E & O & R). exists (EncodeInt 1 ++ b).
    cbn [marshal c_ptr]. rewrite E. split_and!; [done|by apply Forall_app_2; [apply put_ok|]|]. intros. cbn [decode c_ptr].
    eapply xdr_reads_bind; [apply (reads_Bool true)|]. eapply xdr_reads_bind_ret; [by apply R|]. apply xdr_reads_ret.
  - exists (EncodeInt 0). split_and!; [done|apply put_ok|]. intros. eapply xdr_reads_bind_ret; [apply (reads_Bool false)|]. apply xdr_reads_ret.
Qed.

Lemma elements_round_trip {A} (c : codec A) `{!CodecOk c} l : Forall (wf c) l ->
  exists b, encode_elements (marshal c) l = Ret b /\ bytes_ok b /\
    forall S (HR : Reader S) (HY : Yields S), reads (decode_elements (length l) (decode c)) b l.
Proof.
  induction 1 as [|a l Ha _ (r & Er & Or & Hr)]; [exists []; split_and!; [done|constructor|intros; apply xdr_reads_ret]|].
  destruct (wf_round_trips a Ha) as (b & E & O & R). exists (b ++ r). cbn [encode_elements]. rewrite E, Er.
  split_and!; [done|by apply Forall_app_2|]. intros.
  eapply xdr_reads_bind; [by apply R|]. eapply xdr_reads_bind_ret; [by apply Hr|]. apply xdr_reads_ret.
Qed.

#[export, program] Instance c_array_ok {A} max (c : codec A) `{!CodecOk c} : CodecOk (c_array max c) :=
  {| wf l := Forall (wf c) l /\ zlen l <= max /\ max < 2 ^ 32 |}.
Next Obligation.
  intros A max c ? l (Hl & Hm & Hb). destruct (elements_round_trip c l Hl) as (r & E & O & R).
  exists (EncodeInt (zlen l) ++ r). cbn [marshal c_array]. rewrite E. split_and!; [done|by apply Forall_app_2; [apply put_ok|]|]. intros. pose proof (zlen_nonneg l).
  eapply xdr_reads_bind; [apply reads_Uint; unfold is_uint; lia|]. destruct (Z.ltb_spec max (zlen l)); [lia|].
  unfold zlen. rewrite Nat2Z.id. apply R.
Qed.

(** A struct is its fields. *)
Lemma struct_round_trips {A B} (fields : A -> B) (make : B -> A) (c : codec B) a :
  make (fields a) = a -> round_trips c (fields a) -> round_trips (c_struct fields make c) a.
Proof.
  intros Hm (b & E & O & R). exists b. split_and!; [done..|]. intros. eapply xdr_reads_bind_ret; [by apply R|]. rewrite Hm. apply xdr_reads_ret.
Qed.

(** A value of a union, by its arm. *)
Lemma arm_round_trips {A B} (c : codec A) (u : codec B) n sw a b :
  (forall S (HR : Reader S), exists f, decode u = decode_switch n ≫= f /\ f sw = (x ← decode c; mret (b x))) ->
  marshal u (b a) = c_arm sw c a -> 0 <= sw < n -> n <= 2 ^ 31 -> round_trips c a -> round_trips u (b a).
Proof.
  intros Hd Hm Hsw Hn (r & E & O & R). exists (EncodeInt sw ++ r). rewrite Hm. unfold c_arm. rewrite E.
  split_and!; [done|by apply Forall_app_2; [apply put_ok|]|]. intros.
  destruct (Hd S HR) as (f & -> & Hf). eapply xdr_reads_bind; [by apply reads_switch|]. rewrite Hf.
  eapply xdr_reads_bind_ret; [by apply R|]. apply xdr_reads_ret.
Qed.

Lemma void_round_trips {B} (u : codec B) n sw b :
  (forall S (HR : Reader S), exists f, decode u = decode_switch n ≫= f /\ f sw = mret b) ->
  marshal u b = c_void sw -> 0 <= sw < n -> n <= 2 ^ 31 -> round_trips u b.
Proof.
  intros Hd Hm Hsw Hn. exists (EncodeInt sw). rewrite Hm. split_and!; [done|apply put_ok|]. intros.
  destruct (Hd S HR) as (f & -> & Hf). eapply xdr_reads_bind_ret; [by apply reads_switch|]. rewrite Hf. apply xdr_reads_ret.
Qed.

(** Marshalling is injective on the values that round trip. *)
Lemma marshal_inj {A} (c : codec A) a1 a2 : round_trips c a1 -> round_trips c a2 -> marshal c a1 = marshal c a2 -> a1 = a2.
Proof.
  intros (b1 & E1 & _ & R1) (b2 & E2 & _ & R2). rewrite E1, E2. intros [= <-].
  assert (yields (Yields := bytes_yields) b1 (b1 ++ [])) as Hy by (symmetry; apply app_nil_r).
  destruct (R1 bytes _ bytes_yields [] b1 Hy) as (s1 & H1 & _), (R2 bytes _ bytes_yields [] b1 Hy) as (s2 & H2 & _). congruence.
Qed.
