(* ===== verification/StellarXdr.v ===== *)
(** * The transaction types of Stellar

    The structures of the vendored, generated [stellar/go/xdr/xdr_generated.go]
    that make up a transaction envelope, with their codecs, and the helpers of
    [account_id.go], [signer_key.go] and [asset.go]. *)

From S2P Require Import Prelude Sha256 BigEndian Base58 Strkey Base64 Xdr.

(** ** Data *)

(** [AccountId] is a union with one arm, a key of 32 bytes: [None] is its zero
    value, whose arm is nil. *)
Record AccountId := mkAccountId { Ed25519 : option bytes }.

Inductive XAsset :=
  | AssetTypeNative
  | AssetTypeCreditAlphanum4 (AssetCode : bytes) (Issuer : AccountId)
  | AssetTypeCreditAlphanum12 (AssetCode : bytes) (Issuer : AccountId).

Inductive SignerKey :=
  | SignerKeyTypeEd25519 (key : bytes)
  | SignerKeyTypePreAuthTx (key : bytes)
  | SignerKeyTypeHashX (key : bytes).

Record XSigner := mkXSigner { Key : SignerKey; XWeight : Z }.

Record CreateAccountOp := mkCreateAccountOp { CA_Destination : AccountId; StartingBalance : Z }.
Record PaymentOp := mkPaymentOp { P_Destination : AccountId; P_Asset : XAsset; P_Amount : Z }.
Record PathPaymentStrictReceiveOp := mkPathPaymentStrictReceiveOp {
  PR_SendAsset : XAsset; SendMax : Z; PR_Destination : AccountId; PR_DestAsset : XAsset; DestAmount : Z; PR_Path : list XAsset }.
Record PathPaymentStrictSendOp := mkPathPaymentStrictSendOp {
  PS_SendAsset : XAsset; SendAmount : Z; PS_Destination : AccountId; PS_DestAsset : XAsset; DestMin : Z; PS_Path : list XAsset }.
Record Price := mkPrice { PriceN : Z; PriceD : Z }.
(** [ManageSellOfferOp] and [ManageBuyOfferOp] *)
Record ManageOfferOp := mkManageOfferOp { MO_Selling : XAsset; MO_Buying : XAsset; MO_Amount : Z; MO_Price : Price; OfferId : Z }.
Record CreatePassiveSellOfferOp := mkCreatePassiveSellOfferOp {
  CP_Selling : XAsset; CP_Buying : XAsset; CP_Amount : Z; CP_Price : Price }.
Record SetOptionsOp := mkSetOptionsOp {
  InflationDest : option AccountId; XClearFlags : option Z; XSetFlags : option Z; XMasterWeight : option Z;
  XLowThreshold : option Z; XMedThreshold : option Z; XHighThreshold : option Z; XHomeDomain : option bytes; XSignerField : option XSigner }.
Record ChangeTrustOp := mkChangeTrustOp { CT_Line : XAsset; CT_Limit : Z }.
Inductive AllowTrustOpAsset :=
  | AllowTrustCode4 (code : bytes)
  | AllowTrustCode12 (code : bytes).
Record AllowTrustOp := mkAllowTrustOp { Trustor : AccountId; AT_Asset : AllowTrustOpAsset; Authorize : bool }.
Record ManageDataOp := mkManageDataOp { DataName : bytes; DataValue : option bytes }.

Inductive OperationBody :=
  | BodyCreateAccount (op : CreateAccountOp)
  | BodyPayment (op : PaymentOp)
  | BodyPathPaymentStrictReceive (op : PathPaymentStrictReceiveOp)
  | BodyManageSellOffer (op : ManageOfferOp)
  | BodyCreatePassiveSellOffer (op : CreatePassiveSellOfferOp)
  | BodySetOptions (op : SetOptionsOp)
  | BodyChangeTrust (op : ChangeTrustOp)
  | BodyAllowTrust (op : AllowTrustOp)
  | BodyAccountMerge (Destination : AccountId)
  | BodyInflation
  | BodyManageData (op : ManageDataOp)
  | BodyBumpSequence (BumpTo : Z)
  | BodyManageBuyOffer (op : ManageOfferOp)
  | BodyPathPaymentStrictSend (op : PathPaymentStrictSendOp).

Record XOperation := mkXOperation { XO_SourceAccount : option AccountId; Body : OperationBody }.

Inductive XMemo :=
  | MemoTypeNone
  | MemoTypeText (text : bytes)
  | MemoTypeId (id : Z)
  | MemoTypeHash (hash : bytes)
  | MemoTypeReturn (hash : bytes).

Record TimeBounds := mkTimeBounds { XMinTime : Z; XMaxTime : Z }.

Record XTransaction := mkXTransaction {
  X_SourceAccount : AccountId; Fee : Z; SeqNum : Z; X_TimeBounds : option TimeBounds; X_Memo : XMemo; X_Operations : list XOperation }.

Record DecoratedSignature := mkDecoratedSignature { Hint : bytes; Signature : bytes }.
Record TransactionEnvelope := mkTransactionEnvelope { Tx : XTransaction; Signatures : list DecoratedSignature }.

(** ** Codecs *)

Definition c_AccountId : codec AccountId :=
  Codec (fun a => match Ed25519 a with Some k => c_arm 0 (c_fixed 32) k | None => Fail nil_union end)
        (fun S _ => _ ← decode_switch 1; k ← decode (c_fixed 32); mret (mkAccountId (Some k))).

(** A code and an issuer. *)
Definition c_AssetAlphaNum (n : Z) : codec (bytes * AccountId) := c_pair (c_fixed n) c_AccountId.

Definition c_Asset : codec XAsset :=
  Codec (fun a => match a with
          | AssetTypeNative => c_void 0
          | AssetTypeCreditAlphanum4 code issuer => c_arm 1 (c_AssetAlphaNum 4) (code, issuer)
          | AssetTypeCreditAlphanum12 code issuer => c_arm 2 (c_AssetAlphaNum 12) (code, issuer)
          end)
        (fun S _ => sw ← decode_switch 3;
          match sw with
          | 0 => mret AssetTypeNative
          | 1 => a ← decode (c_AssetAlphaNum 4); mret (AssetTypeCreditAlphanum4 a.1 a.2)
          | _ => a ← decode (c_AssetAlphaNum 12); mret (AssetTypeCreditAlphanum12 a.1 a.2)
          end).

Definition c_SignerKey : codec SignerKey :=
  Codec (fun k => match k with
          | SignerKeyTypeEd25519 key => c_arm 0 (c_fixed 32) key
          | SignerKeyTypePreAuthTx key => c_arm 1 (c_fixed 32) key
          | SignerKeyTypeHashX key => c_arm 2 (c_fixed 32) key
          end)
        (fun S _ => sw ← decode_switch 3;
          match sw with
          | 0 => k ← decode (c_fixed 32); mret (SignerKeyTypeEd25519 k)
          | 1 => k ← decode (c_fixed 32); mret (SignerKeyTypePreAuthTx k)
          | _ => k ← decode (c_fixed 32); mret (SignerKeyTypeHashX k)
          end).

Definition c_Signer : codec XSigner :=
  c_struct (fun s => (Key s, XWeight s)) (fun p => mkXSigner p.1 p.2) (c_pair c_SignerKey c_uint32).

Definition c_CreateAccountOp : codec CreateAccountOp :=
  c_struct (fun o => (CA_Destination o, StartingBalance o)) (fun p => mkCreateAccountOp p.1 p.2) (c_pair c_AccountId c_int64).

Definition c_PaymentOp : codec PaymentOp :=
  c_struct (fun o => (P_Destination o, (P_Asset o, P_Amount o))) (fun '(d, (a, n)) => mkPaymentOp d a n)
    (c_pair c_AccountId (c_pair c_Asset c_int64)).

(** The six fields of both path payments. *)
Definition c_path_payment : codec (XAsset * (Z * (AccountId * (XAsset * (Z * list XAsset))))) :=
  c_pair c_Asset (c_pair c_int64 (c_pair c_AccountId (c_pair c_Asset (c_pair c_int64 (c_array 5 c_Asset))))).
Definition c_PathPaymentStrictReceiveOp : codec PathPaymentStrictReceiveOp :=
  c_struct (fun o => (PR_SendAsset o, (SendMax o, (PR_Destination o, (PR_DestAsset o, (DestAmount o, PR_Path o))))))
    (fun '(a, (b, (c, (d, (e, f))))) => mkPathPaymentStrictReceiveOp a b c d e f) c_path_payment.
Definition c_PathPaymentStrictSendOp : codec PathPaymentStrictSendOp :=
  c_struct (fun o => (PS_SendAsset o, (SendAmount o, (PS_Destination o, (PS_DestAsset o, (DestMin o, PS_Path o))))))
    (fun '(a, (b, (c, (d, (e, f))))) => mkPathPaymentStrictSendOp a b c d e f) c_path_payment.

Definition c_Price : codec Price :=
  c_struct (fun p => (PriceN p, PriceD p)) (fun p => mkPrice p.1 p.2) (c_pair c_int32 c_int32).
Definition c_ManageOfferOp : codec ManageOfferOp :=
  c_struct (fun o => (MO_Selling o, (MO_Buying o, (MO_Amount o, (MO_Price o, OfferId o)))))
    (fun '(a, (b, (c, (d, e)))) => mkManageOfferOp a b c d e)
    (c_pair c_Asset (c_pair c_Asset (c_pair c_int64 (c_pair c_Price c_int64)))).
Definition c_CreatePassiveSellOfferOp : codec CreatePassiveSellOfferOp :=
  c_struct (fun o => (CP_Selling o, (CP_Buying o, (CP_Amount o, CP_Price o))))
    (fun '(a, (b, (c, d))) => mkCreatePassiveSellOfferOp a b c d)
    (c_pair c_Asset (c_pair c_Asset (c_pair c_int64 c_Price))).

Definition c_SetOptionsOp : codec SetOptionsOp :=
  c_struct (fun o => (InflationDest o, (XClearFlags o, (XSetFlags o, (XMasterWeight o, (XLowThreshold o,
      (XMedThreshold o, (XHighThreshold o, (XHomeDomain o, XSignerField o)))))))))
    (fun '(a, (b, (c, (d, (e, (f, (g, (h, i)))))))) => mkSetOptionsOp a b c d e f g h i)
    (c_pair (c_ptr c_AccountId) (c_pair (c_ptr c_uint32) (c_pair (c_ptr c_uint32) (c_pair (c_ptr c_uint32) (c_pair (c_ptr c_uint32)
      (c_pair (c_ptr c_uint32) (c_pair (c_ptr c_uint32) (c_pair (c_ptr (c_opaque 32)) (c_ptr c_Signer))))))))).

Definition c_ChangeTrustOp : codec ChangeTrustOp :=
  c_struct (fun o => (CT_Line o, CT_Limit o)) (fun p => mkChangeTrustOp p.1 p.2) (c_pair c_Asset c_int64).

(** The switch has the three asset types, but no arm for the native one. *)
Definition c_AllowTrustOpAsset : codec AllowTrustOpAsset :=
  Codec (fun a => match a with
          | AllowTrustCode4 code => c_arm 1 (c_fixed 4) code
          | AllowTrustCode12 code => c_arm 2 (c_fixed 12) code
          end)
        (fun S _ => sw ← decode_switch 3;
          match sw with
          | 0 => xfail (bad_arm 0)
          | 1 => c ← decode (c_fixed 4); mret (AllowTrustCode4 c)
          | _ => c ← decode (c_fixed 12); mret (AllowTrustCode12 c)
          end).
Definition c_AllowTrustOp : codec AllowTrustOp :=
  c_struct (fun o => (Trustor o, (AT_Asset o, Authorize o))) (fun '(a, (b, c)) => mkAllowTrustOp a b c)
    (c_pair c_AccountId (c_pair c_AllowTrustOpAsset c_bool)).

Definition c_ManageDataOp : codec ManageDataOp :=
  c_struct (fun o => (DataName o, DataValue o)) (fun p => mkManageDataOp p.1 p.2) (c_pair (c_opaque 64) (c_ptr (c_opaque 64))).

Definition c_OperationBody : codec OperationBody :=
  Codec (fun b => match b with
          | BodyCreateAccount op => c_arm 0 c_CreateAccountOp op
          | BodyPayment op => c_arm 1 c_PaymentOp op
          | BodyPathPaymentStrictReceive op => c_arm 2 c_PathPaymentStrictReceiveOp op
          | BodyManageSellOffer op => c_arm 3 c_ManageOfferOp op
          | BodyCreatePassiveSellOffer op => c_arm 4 c_CreatePassiveSellOfferOp op
          | BodySetOptions op => c_arm 5 c_SetOptionsOp op
          | BodyChangeTrust op => c_arm 6 c_ChangeTrustOp op
          | BodyAllowTrust op => c_arm 7 c_AllowTrustOp op
          | BodyAccountMerge d => c_arm 8 c_AccountId d
          | BodyInflation => c_void 9
          | BodyManageData op => c_arm 10 c_ManageDataOp op
          | BodyBumpSequence n => c_arm 11 c_int64 n
          | BodyManageBuyOffer op => c_arm 12 c_ManageOfferOp op
          | BodyPathPaymentStrictSend op => c_arm 13 c_PathPaymentStrictSendOp op
          end)
        (fun S _ => sw ← decode_switch 14;
          match sw with
          | 0 => op ← decode c_CreateAccountOp; mret (BodyCreateAccount op)
          | 1 => op ← decode c_PaymentOp; mret (BodyPayment op)
          | 2 => op ← decode c_PathPaymentStrictReceiveOp; mret (BodyPathPaymentStrictReceive op)
          | 3 => op ← decode c_ManageOfferOp; mret (BodyManageSellOffer op)
          | 4 => op ← decode c_CreatePassiveSellOfferOp; mret (BodyCreatePassiveSellOffer op)
          | 5 => op ← decode c_SetOptionsOp; mret (BodySetOptions op)
          | 6 => op ← decode c_ChangeTrustOp; mret (BodyChangeTrust op)
          | 7 => op ← decode c_AllowTrustOp; mret (BodyAllowTrust op)
          | 8 => d ← decode c_AccountId; mret (BodyAccountMerge d)
          | 9 => mret BodyInflation
          | 10 => op ← decode c_ManageDataOp; mret (BodyManageData op)
          | 11 => n ← decode c_int64; mret (BodyBumpSequence n)
          | 12 => op ← decode c_ManageOfferOp; mret (BodyManageBuyOffer op)
          | _ => op ← decode c_PathPaymentStrictSendOp; mret (BodyPathPaymentStrictSend op)
          end).

Definition c_Operation : codec XOperation :=
  c_struct (fun o => (XO_SourceAccount o, Body o)) (fun p => mkXOperation p.1 p.2) (c_pair (c_ptr c_AccountId) c_OperationBody).

Definition c_Memo : codec XMemo :=
  Codec (fun m => match m with
          | MemoTypeNone => c_void 0
          | MemoTypeText t => c_arm 1 (c_opaque 28) t
          | MemoTypeId n => c_arm 2 c_uint64 n
          | MemoTypeHash h => c_arm 3 (c_fixed 32) h
          | MemoTypeReturn h => c_arm 4 (c_fixed 32) h
          end)
        (fun S _ => sw ← decode_switch 5;
          match sw with
          | 0 => mret MemoTypeNone
          | 1 => t ← decode (c_opaque 28); mret (MemoTypeText t)
          | 2 => n ← decode c_uint64; mret (MemoTypeId n)
          | 3 => h ← decode (c_fixed 32); mret (MemoTypeHash h)
          | _ => h ← decode (c_fixed 32); mret (MemoTypeReturn h)
          end).

Definition c_TimeBounds : codec TimeBounds :=
  c_struct (fun t => (XMinTime t, XMaxTime t)) (fun p => mkTimeBounds p.1 p.2) (c_pair c_uint64 c_uint64).

(** [TransactionExt]: a union over an integer, of which only 0 is valid. *)
Definition c_TransactionExt : codec unit := 
  Codec (fun _ => c_void 0) (fun S _ => i ← DecodeInt; if i =? 0 then mret tt else xfail (bad_arm i)).

Definition c_Transaction : codec XTransaction :=
  c_struct (fun t => (X_SourceAccount t, (Fee t, (SeqNum t, (X_TimeBounds t, (X_Memo t, (X_Operations t, tt)))))))
    (fun '(a, (b, (c, (d, (e, (f, _)))))) => mkXTransaction a b c d e f)
    (c_pair c_AccountId (c_pair c_uint32 (c_pair c_int64 (c_pair (c_ptr c_TimeBounds) (c_pair c_Memo
      (c_pair (c_array 100 c_Operation) c_TransactionExt)))))).

Definition c_DecoratedSignature : codec DecoratedSignature :=
  c_struct (fun s => (Hint s, Signature s)) (fun p => mkDecoratedSignature p.1 p.2) (c_pair (c_fixed 4) (c_opaque 64)).

Definition c_TransactionEnvelope : codec TransactionEnvelope :=
  c_struct (fun e => (Tx e, Signatures e)) (fun p => mkTransactionEnvelope p.1 p.2)
    (c_pair c_Transaction (c_array 20 c_DecoratedSignature)).

(** ** Helpers *)

(** The getter of an arm panics when the arm is nil. *)
Definition nil_arm : error := ErrNew "invalid memory address or nil pointer dereference".

Definition AccountId_Address (aid : AccountId) : outcome bytes :=
  match Ed25519 aid with
  | Some ed => MustEncode VersionByteAccountID ed
  | None => Panic nil_arm
  end.

Definition errInvalidAddress : error := ErrNew "invalid address".

(** [SetAddress] on a new [AccountId]. *)
Definition AccountId_SetAddress (address : bytes) : outcome AccountId :=
  raw ← Decode VersionByteAccountID address;
  _ ← guard_err (negb (zlen raw =? 32)) errInvalidAddress;
  Ret (mkAccountId (Some raw)).

Definition SignerKey_SetAddress (address : bytes) : outcome SignerKey :=
  vb ← mapErr (Wrap "failed to extract address version") (strkey_Version address);
  keytype ← (if vb =? VersionByteAccountID then Ret SignerKeyTypeEd25519
             else if vb =? VersionByteHashX then Ret SignerKeyTypeHashX
             else if vb =? VersionByteHashTx then Ret SignerKeyTypePreAuthTx
             else Fail (Errorf "invalid version byte: %v" [FInt vb]));
  raw ← Decode vb address;
  _ ← guard_err (negb (zlen raw =? 32)) errInvalidAddress;
  Ret (keytype raw).

Definition SignerKey_Address (k : SignerKey) : outcome bytes :=
  match k with
  | SignerKeyTypeEd25519 key => MustEncode VersionByteAccountID key
  | SignerKeyTypeHashX key => MustEncode VersionByteHashX key
  | SignerKeyTypePreAuthTx key => MustEncode VersionByteHashTx key
  end.

(** [SetCredit]: the type follows from the length of the code, which is padded
    with zeros. *)
Definition pad_code (n : nat) (code : bytes) : bytes := take n (code ++ replicate n 0).
Definition SetCredit (code : bytes) (issuer : AccountId) : outcome XAsset :=
  let length := zlen code in
  if (1 <=? length) && (length <=? 4) then Ret (AssetTypeCreditAlphanum4 (pad_code 4 code) issuer)
  else if (5 <=? length) && (length <=? 12) then Ret (AssetTypeCreditAlphanum12 (pad_code 12 code) issuer)
  else Fail (ErrNew "Asset code length is invalid").
