(* ===== verification/TxnBuild.v ===== *)
(** * Building Stellar transactions

    The vendored [stellar/go/amount] and the part of [stellar/go/txnbuild] that
    the tool uses: assets, the five operations it builds, transactions with
    their hashes, signatures and text; and reading a transaction from its text.
    Fields that the code shares through pointers (the source account) are only
    changed by [Build], which returns the new value. *)

From S2P Require Import Prelude Sha256 BigEndian Base58 Decimal Cli Strkey Base64 Xdr StellarXdr.

(** ** amount *)

Definition One : Z := 10 ^ 7.

(** An optional minus. *)
Definition split_minus (v : bytes) : bool * bytes :=
  match v with
  | c :: r => if c =? 45 then (true, r) else (false, v)
  | [] => (false, [])
  end.

(** The regular expression ["^-?[.0-9]{1,20}$"]. *)
Definition validAmountSimple (v : bytes) : bool :=
  let body := (split_minus v).2 in
  forallb (fun c => (c =? 46) || is_digit c) body && (1 <=? zlen body) && (zlen body <=? 20).

(** [big.Rat.SetString] on what the expression lets through: an optional minus,
    digits and at most one dot. The number is [m / 10^k]. *)
Definition Rat_SetString (v : bytes) : option (Z * nat) :=
  let '(neg, body) := split_minus v in
  let '(whole, frac) := split_dot body in
  let frac := default [] frac in
  m ← scan_nat (whole ++ frac);
  Some (if neg : bool then - m else m, length frac).

Definition amount_ParseInt64 (v : bytes) : outcome Z :=
  if negb (validAmountSimple v) then Fail (Errorf "invalid amount format: %s" [FBytes v])
  else
    '(m, k) ← of_option (Errorf "cannot parse amount: %s" [FBytes v]) (Rat_SetString v);
    let m := m * One in
    if negb (m mod 10 ^ Z.of_nat k =? 0) then Fail (Errorf "more than 7 significant digits: %s" [FBytes v])
    else mapErr (fun e => Errorf "amount outside bounds of int64: %s: %v" [FBytes v; FErr e]) (ParseInt (Int_String (m / 10 ^ Z.of_nat k))).

(** [amount.String]: seven decimals. *)
Definition amount_String (v : Z) : bytes :=
  let str := dec_nat (Z.abs v mod One) in
  (if v <? 0 then [45] else []) ++ dec_nat (Z.abs v / One) ++ [46] ++ replicate (7 - length str) 48 ++ str.

Example amounts : map (fun s => amount_ParseInt64 (bytes_of_string s)) ["10"; "-.5"; "1."; "922337203685.4775807"; "0.0000001"]%string =
  map Ret [100000000; -5000000; 10000000; 2 ^ 63 - 1; 1].
Proof. vm_compute. reflexivity. Qed.
Example amounts_bad : map (fun s => is_Ret (amount_ParseInt64 (bytes_of_string s)))
    ["1e3"; "1.2.3"; "."; ""; "-"; "+1"; "0.00000001"; "922337203685.4775808"; "000000000000000000001"; "5 "]%string =
  replicate 10 false.
Proof. vm_compute. reflexivity. Qed.
Example amount_texts : map amount_String [0; 1; -1; 100000000; 2 ^ 63 - 1] =
  map bytes_of_string ["0.0000000"; "0.0000001"; "-0.0000001"; "10.0000000"; "922337203685.4775807"]%string.
Proof. vm_compute. reflexivity. Qed.

(** ** Accounts *)

(** [horizon.Account] with the fields the tool reads. *)
Record Balance := mkBalance { B_Balance : bytes; B_Type : bytes; B_Code : bytes; B_Issuer : bytes }.
Record HSigner := mkHSigner { HWeight : Z; HKey : bytes; HType : bytes }.
Record Thresholds := mkThresholds { LowT : Z; MedT : Z; HighT : Z }.
Record HAccount := mkHAccount {
  AccountID : bytes; Sequence : bytes; AccountThresholds : Thresholds; Balances : list Balance; Signers : list HSigner }.

(** [GetSequenceNumber] converts an unsigned number to a signed one. *)
Definition GetSequenceNumber (sequence : bytes) : outcome Z :=
  n ← mapErr (Wrap "Failed to parse account sequence number") (ParseUint sequence); Ret (to_int 64 n).

Definition HAccount_IncrementSequenceNumber (a : HAccount) : outcome (Z * HAccount) :=
  seqNum ← GetSequenceNumber (Sequence a);
  let sequence := Int_String (to_int 64 (seqNum + 1)) in
  n ← GetSequenceNumber sequence;
  Ret (n, mkHAccount (AccountID a) sequence (AccountThresholds a) (Balances a) (Signers a)).

(** The interface [txnbuild.Account] and its two implementations. *)
Inductive Account :=
  | HorizonAccount (a : HAccount)
  | SimpleAccount (id : bytes) (sequence : Z).

Definition GetAccountID (a : Account) : bytes :=
  match a with HorizonAccount a => AccountID a | SimpleAccount id _ => id end.

Definition IncrementSequenceNumber (a : Account) : outcome (Z * Account) :=
  match a with
  | HorizonAccount a => '(n, a) ← HAccount_IncrementSequenceNumber a; Ret (n, HorizonAccount a)
  | SimpleAccount id s => let s := to_int 64 (s + 1) in Ret (s, SimpleAccount id s)
  end.

(** ** Assets *)

Inductive Asset :=
  | NativeAsset
  | CreditAsset (Code Issuer : bytes).

Definition IsNative (a : Asset) : bool := match a with NativeAsset => true | _ => false end.
Definition GetCode (a : Asset) : bytes := match a with NativeAsset => [] | CreditAsset code _ => code end.
Definition GetIssuer (a : Asset) : bytes := match a with NativeAsset => [] | CreditAsset _ issuer => issuer end.

(** [GetType]: only whether it fails matters. *)
Definition GetType (a : Asset) : outcome unit :=
  match a with
  | NativeAsset => Ret tt
  | CreditAsset code _ =>
      guard_err (negb ((1 <=? zlen code) && (zlen code <=? 12))) (ErrNew "asset code length must be between 1 and 12 characters")
  end.

Definition Asset_ToXDR (a : Asset) : outcome XAsset :=
  match a with
  | NativeAsset => Ret AssetTypeNative
  | CreditAsset code issuer =>
      issuer ← AccountId_SetAddress issuer;
      mapErr (Wrap "asset code length must be between 1 and 12 characters") (SetCredit code issuer)
  end.

(** [bytes.Trim] of zero bytes. *)
Definition Trim0 (l : bytes) : bytes := TrimRight 0 (drop_head 0 l).

Definition assetFromXDR (x : XAsset) : outcome Asset :=
  match x with
  | AssetTypeNative => Ret NativeAsset
  | AssetTypeCreditAlphanum4 code issuer | AssetTypeCreditAlphanum12 code issuer =>
      a ← AccountId_Address issuer; Ret (CreditAsset (Trim0 code) a)
  end.

(** ** Validation *)

Definition NewValidationError (field : string) (e : error) : error := Errorf "Field: %s, Error: %s" [FStr field; FErr e].

Definition validateStellarPublicKey (publicKey : bytes) : outcome unit :=
  _ ← guard_err (zlen publicKey =? 0) (ErrNew "public key is undefined");
  guard_err (negb (IsValidEd25519PublicKey publicKey)) (Errorf "%s is not a valid stellar public key" [FBytes publicKey]).

Definition asset_issuer (e : error) : error := Errorf "asset issuer: %s" [FErr e].

Definition validateStellarAsset (a : Asset) : outcome unit :=
  if IsNative a then Ret tt
  else _ ← GetType a; mapErr asset_issuer (validateStellarPublicKey (GetIssuer a)).

Definition validateAmount (n : bytes) : outcome unit :=
  v ← amount_ParseInt64 n; guard_err (v <? 0) (ErrNew "amount can not be negative").

Definition validateAllowTrustAsset (a : Asset) : outcome unit :=
  _ ← guard_err (IsNative a) (ErrNew "native (XLM) asset type is not allowed"); GetType a.

Definition validateChangeTrustAsset (a : Asset) : outcome unit :=
  _ ← validateAllowTrustAsset a; mapErr asset_issuer (validateStellarPublicKey (GetIssuer a)).

(** ** Operations *)

Record Signer := mkSigner { Address : bytes; Weight : Z }.

(** Every operation ends with its source account, which may be nil; of the
    account only the address is used. *)
Inductive Operation :=
  | CreateAccount (Destination Amount : bytes) (SourceAccount : option bytes)
  | Payment (Destination Amount : bytes) (PaymentAsset : Asset) (SourceAccount : option bytes)
  | ChangeTrust (Line : Asset) (Limit : bytes) (SourceAccount : option bytes)
  | SetOptions (InflationDestination : option bytes) (SetFlags ClearFlags : list Z)
      (MasterWeight LowThreshold MediumThreshold HighThreshold : option Z)
      (HomeDomain : option bytes) (OptionsSigner : option Signer) (SourceAccount : option bytes)
  | AccountMerge (Destination : bytes) (SourceAccount : option bytes).

(** [Validate] of each operation; that of [SetOptions] accepts everything. *)
Definition CreateAccount_Validate (destination amount : bytes) : outcome unit :=
  _ ← mapErr (NewValidationError "Destination") (validateStellarPublicKey destination);
  mapErr (NewValidationError "Amount") (validateAmount amount).
Definition Payment_Validate (destination amount : bytes) (asset : Asset) : outcome unit :=
  _ ← mapErr (NewValidationError "Destination") (validateStellarPublicKey destination);
  _ ← mapErr (NewValidationError "Asset") (validateStellarAsset asset);
  mapErr (NewValidationError "Amount") (validateAmount amount).
Definition ChangeTrust_Validate (line : Asset) (limit : bytes) : outcome unit :=
  _ ← (if zlen limit =? 0 then Ret tt else mapErr (NewValidationError "Limit") (validateAmount limit));
  mapErr (NewValidationError "Line") (validateChangeTrustAsset line).
Definition AccountMerge_Validate (destination : bytes) : outcome unit :=
  mapErr (NewValidationError "Destination") (validateStellarPublicKey destination).

(** The method of the interface [Operation]. *)
Definition Validate (op : Operation) : outcome unit :=
  match op with
  | CreateAccount destination amount _ => CreateAccount_Validate destination amount
  | Payment destination amount asset _ => Payment_Validate destination amount asset
  | ChangeTrust line limit _ => ChangeTrust_Validate line limit
  | SetOptions _ _ _ _ _ _ _ _ _ _ => Ret tt
  | AccountMerge destination _ => AccountMerge_Validate destination
  end.

Definition MaxTrustlineLimit : bytes := amount_String (2 ^ 63 - 1).

(** [SetOpSourceAccount] ignores the error: the account is then the zero value. *)
Definition SetOpSourceAccount (sourceAccount : option bytes) : option AccountId :=
  match sourceAccount with
  | None => None
  | Some a => Some (match AccountId_SetAddress a with Ret id => id | _ => mkAccountId None end)
  end.

Definition flags_mask (flags : list Z) : option Z :=
  match flags with [] => None | _ => Some (foldl Z.lor 0 flags) end.

Definition opt_map {A B} (f : A -> outcome B) (o : option A) : outcome (option B) :=
  match o with None => Ret None | Some a => b ← f a; Ret (Some b) end.

Definition handleSigner (s : Signer) : outcome XSigner :=
  key ← SignerKey_SetAddress (Address s); Ret (mkXSigner key (Weight s)).

Definition handleHomeDomain (d : bytes) : outcome bytes :=
  if 32 <? zlen d then Fail (ErrNew "homeDomain must be 32 characters or less") else Ret d.

(** [BuildXDR] of each operation. *)
Definition CreateAccount_BuildXDR (destination amount : bytes) (source : option bytes) : outcome XOperation :=
  d ← mapErr (Wrap "failed to set destination address") (AccountId_SetAddress destination);
  a ← mapErr (Wrap "failed to parse amount") (amount_ParseInt64 amount);
  Ret (mkXOperation (SetOpSourceAccount source) (BodyCreateAccount (mkCreateAccountOp d a))).
Definition Payment_BuildXDR (destination amount : bytes) (asset : Asset) (source : option bytes) : outcome XOperation :=
  d ← mapErr (Wrap "failed to set destination address") (AccountId_SetAddress destination);
  a ← mapErr (Wrap "failed to parse amount") (amount_ParseInt64 amount);
  x ← mapErr (Wrap "failed to set asset type") (Asset_ToXDR asset);
  Ret (mkXOperation (SetOpSourceAccount source) (BodyPayment (mkPaymentOp d x a))).
Definition ChangeTrust_BuildXDR (line : Asset) (limit : bytes) (source : option bytes) : outcome XOperation :=
  _ ← guard_err (IsNative line) (ErrNew "trustline cannot be extended to a native (XLM) asset");
  x ← mapErr (Wrap "can't convert trustline asset to XDR") (Asset_ToXDR line);
  l ← mapErr (Wrap "failed to parse limit amount") (amount_ParseInt64 (if zlen limit =? 0 then MaxTrustlineLimit else limit));
  Ret (mkXOperation (SetOpSourceAccount source) (BodyChangeTrust (mkChangeTrustOp x l))).
Definition SetOptions_BuildXDR (inflation : option bytes) (setf clearf : list Z) (master low medium high : option Z)
    (domain : option bytes) (signer : option Signer) (source : option bytes) : outcome XOperation :=
  i ← mapErr (Wrap "failed to set inflation destination address") (opt_map AccountId_SetAddress inflation);
  h ← mapErr (Wrap "failed to set home domain") (opt_map handleHomeDomain domain);
  s ← mapErr (Wrap "failed to set signer") (opt_map handleSigner signer);
  Ret (mkXOperation (SetOpSourceAccount source)
    (BodySetOptions (mkSetOptionsOp i (flags_mask clearf) (flags_mask setf) master low medium high h s))).
Definition AccountMerge_BuildXDR (destination : bytes) (source : option bytes) : outcome XOperation :=
  d ← mapErr (Wrap "failed to set destination address") (AccountId_SetAddress destination);
  Ret (mkXOperation (SetOpSourceAccount source) (BodyAccountMerge d)).

Create HintDb operation discriminated.
#[export] Hint Unfold CreateAccount_Validate Payment_Validate ChangeTrust_Validate AccountMerge_Validate
  CreateAccount_BuildXDR Payment_BuildXDR ChangeTrust_BuildXDR SetOptions_BuildXDR AccountMerge_BuildXDR : operation.

(** The method of the interface [Operation]. *)
Definition BuildXDR (op : Operation) : outcome XOperation :=
  match op with
  | CreateAccount destination amount source => CreateAccount_BuildXDR destination amount source
  | Payment destination amount asset source => Payment_BuildXDR destination amount asset source
  | ChangeTrust line limit source => ChangeTrust_BuildXDR line limit source
  | SetOptions inflation setf clearf master low medium high domain signer source =>
      SetOptions_BuildXDR inflation setf clearf master low medium high domain signer source
  | AccountMerge destination source => AccountMerge_BuildXDR destination source
  end.

(** ** Time bounds and memos *)

Record Timebounds := mkTimebounds { MinTime : Z; MaxTime : Z; wasBuilt : bool }.
Definition NewTimebounds (minTime maxTime : Z) : Timebounds := mkTimebounds minTime maxTime true.
Definition TimeoutInfinite : Z := 0.
Definition NewInfiniteTimeout : Timebounds := mkTimebounds 0 TimeoutInfinite true.

Definition Timebounds_Validate (tb : Timebounds) : outcome unit :=
  _ ← guard_err (negb (wasBuilt tb)) (ErrNew "timebounds must be constructed using NewTimebounds(), NewTimeout(), or NewInfiniteTimeout()");
  _ ← guard_err (MinTime tb <? 0) (ErrNew "invalid timebound: minTime cannot be negative");
  _ ← guard_err (MaxTime tb <? 0) (ErrNew "invalid timebound: maxTime cannot be negative");
  guard_err (negb (MaxTime tb =? TimeoutInfinite) && (MaxTime tb <? MinTime tb)) (ErrNew "invalid timebound: maxTime < minTime").

Inductive Memo :=
  | MemoText (text : bytes)
  | MemoID (id : Z)
  | MemoHash (hash : bytes)
  | MemoReturn (hash : bytes).

Definition Memo_ToXDR (m : Memo) : outcome XMemo :=
  match m with
  | MemoText t => if 28 <? zlen t then Fail (Errorf "Memo text can't be longer than %d bytes" [FInt 28]) else Ret (MemoTypeText t)
  | MemoID n => Ret (MemoTypeId n)
  | MemoHash h => Ret (MemoTypeHash h)
  | MemoReturn h => Ret (MemoTypeReturn h)
  end.

Definition memoFromXDR (m : XMemo) : option Memo :=
  match m with
  | MemoTypeNone => None
  | MemoTypeText t => Some (MemoText t)
  | MemoTypeId n => Some (MemoID n)
  | MemoTypeHash h => Some (MemoHash h)
  | MemoTypeReturn h => Some (MemoReturn h)
  end.

(** ** Transactions *)

(** [Transaction], over the type of its operations: a transaction that is built
    has an [Operation] of the five above, a transaction that was read has any. *)
Record Transaction (Op : Type) := mkTransaction {
  T_SourceAccount : Account; Operations : list Op; BaseFee : Z; T_Memo : option Memo; T_Timebounds : Timebounds; Network : bytes;
  xdrTransaction : XTransaction; xdrEnvelope : option TransactionEnvelope }.
Arguments mkTransaction {Op} _ _ _ _ _ _ _ _.
Arguments T_SourceAccount {Op} _.
Arguments Operations {Op} _.
Arguments BaseFee {Op} _.
Arguments T_Memo {Op} _.
Arguments T_Timebounds {Op} _.
Arguments Network {Op} _.
Arguments xdrTransaction {Op} _.
Arguments xdrEnvelope {Op} _.

(** The zero value of [xdr.Transaction], and a transaction with the fields a
    caller sets. *)
Definition XTransaction_zero : XTransaction := mkXTransaction (mkAccountId None) 0 0 None MemoTypeNone [].
Definition newTransaction {Op} (source : Account) (ops : list Op) (tb : Timebounds) (network : bytes) : Transaction Op :=
  mkTransaction source ops 0 None tb network XTransaction_zero None.

Definition EnvelopeTypeEnvelopeTypeTx : Z := 2.

(** What [network.HashTransaction] hashes: the identity of the network, which is
    the hash of its pass phrase, a tag, and the transaction. *)
Definition signature_base (tx : bytes) (passphrase : bytes) : bytes :=
  sha256 passphrase ++ EncodeInt EnvelopeTypeEnvelopeTypeTx ++ tx.

Definition HashTransaction (tx : XTransaction) (passphrase : bytes) : outcome bytes :=
  _ ← guard_err (zlen (TrimSpace passphrase) =? 0) (ErrNew "empty network passphrase");
  b ← mapErr (Wrap "marshal tx failed") (marshal c_Transaction tx);
  Ret (sha256 (signature_base b passphrase)).

Definition Transaction_Hash {Op} (tx : Transaction Op) : outcome bytes := HashTransaction (xdrTransaction tx) (Network tx).

Definition MarshalBinary {Op} (tx : Transaction Op) : outcome bytes :=
  match xdrEnvelope tx with
  | None => Fail (Wrap "failed to marshal XDR" (ErrNew "can't marshal nil pointer"))
  | Some e => mapErr (Wrap "failed to marshal XDR") (marshal c_TransactionEnvelope e)
  end.

Definition Transaction_Base64 {Op} (tx : Transaction Op) : outcome bytes :=
  b ← mapErr (Wrap "failed to get XDR bytestring") (MarshalBinary tx); Ret (b64_EncodeToString b).

(** ** Build *)

Fixpoint build_ops (ops : list Operation) : outcome (list XOperation) :=
  match ops with
  | [] => Ret []
  | op :: ops =>
      _ ← mapErr (Wrap "validation failed for operation") (Validate op);
      x ← mapErr (Wrap "failed to build operation") (BuildXDR op);
      r ← build_ops ops;
      Ret (x :: r)
  end.

Definition DefaultBaseFee : Z := 100.

Definition Build (tx : Transaction Operation) : outcome (Transaction Operation) :=
  _ ← guard_err (match xdrEnvelope tx with Some e => negb (zlen (Signatures e) =? 0) | None => false end)
       (ErrNew "transaction has already been signed, so cannot be rebuilt.");
  let accountID := GetAccountID (T_SourceAccount tx) in
  _ ← (match accountID with
       | [] => Panic (ErrNew "index out of range")
       | c :: _ => guard_err (negb (c =? 71)) (ErrNew "invalid public key for transaction source account")
       end);
  _ ← keypair_Parse accountID;
  let source := match AccountId_SetAddress accountID with Ret id => id | _ => mkAccountId None end in
  '(seqnum, account) ← mapErr (Wrap "failed to parse sequence number") (IncrementSequenceNumber (T_SourceAccount tx));
  ops ← build_ops (Operations tx);
  _ ← Timebounds_Validate (T_Timebounds tx);
  memo ← (match T_Memo tx with
          | None => Ret MemoTypeNone
          | Some m => mapErr (Wrap "couldn't build memo XDR") (Memo_ToXDR m)
          end);
  let baseFee := if BaseFee tx =? 0 then DefaultBaseFee else BaseFee tx in
  let x := mkXTransaction source (to_uint 32 (baseFee * zlen ops)) seqnum
             (Some (mkTimeBounds (to_uint 64 (MinTime (T_Timebounds tx))) (to_uint 64 (MaxTime (T_Timebounds tx))))) memo ops in
  Ret (mkTransaction account (Operations tx) baseFee (T_Memo tx) (T_Timebounds tx) (Network tx) x
         (Some (mkTransactionEnvelope x []))).

(** ** Signatures *)

(** A signature is appended to the envelope. *)
Definition add_signature {Op} (tx : Transaction Op) (sig : DecoratedSignature) : outcome (Transaction Op) :=
  match xdrEnvelope tx with
  | None => Panic nil_arm
  | Some e => Ret (mkTransaction (T_SourceAccount tx) (Operations tx) (BaseFee tx) (T_Memo tx) (T_Timebounds tx) (Network tx)
                     (xdrTransaction tx) (Some (mkTransactionEnvelope (Tx e) (Signatures e ++ [sig]))))
  end.

Section Sign.
Context `{!Strkey.Ed25519}.

Definition SignDecorated (kp input : bytes) : outcome DecoratedSignature :=
  sig ← keypair_Sign kp input;
  hint ← keypair_Hint kp;
  Ret (mkDecoratedSignature hint sig).

Fixpoint sign_all {Op} (tx : Transaction Op) (hash : bytes) (kps : list bytes) : outcome (Transaction Op) :=
  match kps with
  | [] => Ret tx
  | kp :: kps =>
      sig ← mapErr (Wrap "failed to sign transaction") (SignDecorated kp hash);
      tx ← add_signature tx sig;
      sign_all tx hash kps
  end.

Definition Sign {Op} (tx : Transaction Op) (kps : list bytes) : outcome (Transaction Op) :=
  hash ← mapErr (Wrap "failed to hash transaction") (Transaction_Hash tx);
  sign_all tx hash kps.

(** The result is the text and the transaction, for its hash. *)
Definition BuildSignEncode (tx : Transaction Operation) (keypairs : list bytes) : outcome (bytes * Transaction Operation) :=
  tx ← mapErr (Wrap "couldn't build transaction") (Build tx);
  tx ← mapErr (Wrap "couldn't sign transaction") (Sign tx keypairs);
  txeBase64 ← mapErr (Wrap "couldn't encode transaction") (Transaction_Base64 tx);
  Ret (txeBase64, tx).
End Sign.

Definition SignHashX {Op} (tx : Transaction Op) (preimage : bytes) : outcome (Transaction Op) :=
  let tx := match xdrEnvelope tx with
            | Some _ => tx
            | None => mkTransaction (T_SourceAccount tx) (Operations tx) (BaseFee tx) (T_Memo tx) (T_Timebounds tx) (Network tx)
                        (xdrTransaction tx) (Some (mkTransactionEnvelope (xdrTransaction tx) []))
            end in
  _ ← guard_err (64 <? zlen preimage) (ErrNew "preimage cannnot be more than 64 bytes");
  add_signature tx (mkDecoratedSignature (drop 28 (sha256 preimage)) preimage).

(** ** Reading a transaction *)

(** An operation of a transaction that was read: one of the five that the tool
    builds, or another, of which the tool looks at nothing. *)
Inductive ParsedOperation :=
  | Parsed (op : Operation)
  | OtherOperation (SourceAccount : option bytes) (body : OperationBody).

Definition accountFromXDR (account : option AccountId) : outcome (option bytes) := opt_map AccountId_Address account.

(** [handleSetFlagsXDR] and [handleClearFlagsXDR] *)
Definition flags_of_mask (flags : option Z) : list Z :=
  match flags with
  | None => []
  | Some m => List.filter (fun f => negb (Z.land f m =? 0)) [1; 2; 4]
  end.

Definition threshold_of (w : option Z) : option Z := to_uint 8 <$> w.

Definition signerFromXDR (s : XSigner) : outcome Signer :=
  a ← SignerKey_Address (Key s); Ret (mkSigner a (to_uint 8 (XWeight s))).

(** [FromXDR] of each operation, [source] being what [accountFromXDR] made of the
    source account. *)
Definition CreateAccount_FromXDR (source : option bytes) (op : CreateAccountOp) : outcome Operation :=
  d ← AccountId_Address (CA_Destination op);
  Ret (CreateAccount d (amount_String (StartingBalance op)) source).
Definition Payment_FromXDR (source : option bytes) (op : PaymentOp) : outcome Operation :=
  d ← AccountId_Address (P_Destination op);
  a ← mapErr (Wrap "error parsing asset in payment operation") (assetFromXDR (P_Asset op));
  Ret (Payment d (amount_String (P_Amount op)) a source).
Definition ChangeTrust_FromXDR (source : option bytes) (op : ChangeTrustOp) : outcome Operation :=
  a ← mapErr (Wrap "error parsing asset in change_trust operation") (assetFromXDR (CT_Line op));
  Ret (ChangeTrust a (amount_String (CT_Limit op)) source).
Definition SetOptions_FromXDR (source : option bytes) (op : SetOptionsOp) : outcome Operation :=
  i ← opt_map AccountId_Address (InflationDest op);
  s ← opt_map signerFromXDR (XSignerField op);
  Ret (SetOptions i (flags_of_mask (XSetFlags op)) (flags_of_mask (XClearFlags op))
    (threshold_of (XMasterWeight op)) (threshold_of (XLowThreshold op)) (threshold_of (XMedThreshold op))
    (threshold_of (XHighThreshold op)) (XHomeDomain op) s source).
Definition AccountMerge_FromXDR (source : option bytes) (destination : AccountId) : outcome Operation :=
  d ← AccountId_Address destination; Ret (AccountMerge d source).

#[export] Hint Unfold CreateAccount_FromXDR Payment_FromXDR ChangeTrust_FromXDR SetOptions_FromXDR AccountMerge_FromXDR : operation.

(** A data entry without a value makes its [FromXDR] panic. *)
Definition operationFromXDR (x : XOperation) : outcome ParsedOperation :=
  source ← accountFromXDR (XO_SourceAccount x);
  match Body x with
  | BodyCreateAccount op => o ← CreateAccount_FromXDR source op; Ret (Parsed o)
  | BodyPayment op => o ← Payment_FromXDR source op; Ret (Parsed o)
  | BodyChangeTrust op => o ← ChangeTrust_FromXDR source op; Ret (Parsed o)
  | BodySetOptions op => o ← SetOptions_FromXDR source op; Ret (Parsed o)
  | BodyAccountMerge op => o ← AccountMerge_FromXDR source op; Ret (Parsed o)
  | BodyManageData (mkManageDataOp _ None) => Panic nil_arm
  | body => Ret (OtherOperation source body)
  end.

Fixpoint operations_from (l : list XOperation) : outcome (list ParsedOperation) :=
  match l with
  | [] => Ret []
  | x :: l => o ← operationFromXDR x; r ← operations_from l; Ret (o :: r)
  end.

(** [xdr.SafeUnmarshalBase64]: the text must be read to its end. *)
Definition SafeUnmarshalBase64 {A} (c : codec A) (data : bytes) : outcome A :=
  let '(r, d) := decode c (NewDecoder data) in
  a ← r;
  _ ← guard_err (negb (zlen (d_src d) =? 0))
       (Errorf "input not fully consumed. expected to read: %d, actual: %d" [FInt (zlen data); FInt (zlen data - zlen (d_src d))]);
  Ret a.

Definition TransactionFromXDR (txeB64 : bytes) : outcome (Transaction ParsedOperation) :=
  env ← mapErr (Wrap "unable to unmarshal transaction envelope") (SafeUnmarshalBase64 c_TransactionEnvelope txeB64);
  let tx := Tx env in
  let n := zlen (X_Operations tx) in
  let baseFee := if 0 <? n then Fee tx / n else 0 in
  id ← AccountId_Address (X_SourceAccount tx);
  let tb := match X_TimeBounds tx with
            | Some t => NewTimebounds (to_int 64 (XMinTime t)) (to_int 64 (XMaxTime t))
            | None => mkTimebounds 0 0 false
            end in
  ops ← operations_from (X_Operations tx);
  Ret (mkTransaction (SimpleAccount id (SeqNum tx)) ops baseFee (memoFromXDR (X_Memo tx)) tb [] tx (Some env)).
