(* ===== verification/StellarSwap.v ===== *)
(** * Building the swaps of the Stellar tool

    [cmd/stellaratomicswap/stellar/stellar.go] and the functions of
    [cmd/stellaratomicswap/main.go] that build and submit transactions. The
    Horizon client is behind the interface [HorizonClient], as in the code. *)

From S2P Require Import Prelude Sha256 Cli Strkey Base64 Xdr StellarXdr TxnBuild.

(** ** The interface to Horizon *)

(** A result of a submission, and its failures: what Horizon says, or any other
    error, of the network for instance. *)
Record TransactionSuccess := mkTransactionSuccess { S_Links : bytes; S_Hash : bytes; S_Ledger : Z; S_Env : bytes; S_Result : bytes; S_Meta : bytes }.
Inductive submit_error :=
  | HorizonError (Detail : bytes) (ResultCodes : option bytes) (Extras : list bytes)
  | OtherError (e : error).

(** An effect: its type, and the link to the operation if it is of the Go type
    [AccountDebited]. *)
Record Effect := mkEffect { EffectType : bytes; DebitedHref : option bytes }.

(** A transaction in the history: its signatures, in base 64. *)
Record HTransaction := mkHTransaction { HSignatures : list bytes }.

Class HorizonClient (N : Type) := {
  AccountDetail (id : bytes) : N -> outcome HAccount * N;
  Effects (account : bytes) (limit : Z) : N -> outcome (list Effect) * N;
  (* the hash of the transaction of an operation *)
  OperationDetail (id : bytes) : N -> outcome bytes * N;
  TransactionDetail (hash : bytes) : N -> outcome HTransaction * N;
  SubmitTransactionXDR (tx : bytes) : N -> (TransactionSuccess + submit_error) * N;
  (* the random source of the system *)
  stellar_rand_Read (n : nat) : N -> outcome bytes * N }.

(** ** stellar.go *)

Definition NativeAssetType : bytes := Eval vm_compute in bytes_of_string "native".

Definition CreateHashxAddress (hash : bytes) : outcome bytes := Encode VersionByteHashX hash.
Definition CreateHashTxAddress (hash : bytes) : outcome bytes := Encode VersionByteHashTx hash.

(** What follows the last slash. *)
Fixpoint last_segment (l acc : bytes) : bytes :=
  match l with
  | [] => acc
  | c :: l => if c =? 47 then last_segment l [] else last_segment l (acc ++ [c])
  end.
Definition getIDFromLink (href : bytes) : bytes := last_segment href [].

(** The error that [SubmitTransaction] makes of Horizon's. *)
Definition submit_message (detail : bytes) (codes : option bytes) (extras : list bytes) : error :=
  let e := match codes with
           | Some c => Errorf "%s\nResultcodes:\n%s\n" [FBytes detail; FBytes c]
           | None => Errorf "%s" [FBytes detail]
           end in
  foldl (fun e ex => Errorf "%s%s\n" [FErr e; FBytes ex]) (Errorf "%sExtras:\n" [FErr e]) extras.

Definition type_assertion : error := ErrNew "interface conversion: error is not *horizonclient.Error".

Section Stellar.
Context {N : Type} `{!HorizonClient N, !Strkey.Ed25519}.

(** The random source, then [FromRawSeed]: the seed of the pair. *)
Definition GenerateKeyPair : cmd N bytes :=
  rawSeed ← ask (stellar_rand_Read 32); pure (FromRawSeed rawSeed).

Definition GetAccount (address : bytes) : cmd N HAccount :=
  errf (fun e => Errorf "Failed to get account details for account %s: %v" [FBytes address; FErr e]) (ask (AccountDetail address)).

Definition effect_account_debited : bytes := Eval vm_compute in bytes_of_string "account_debited".

(** The passphrase of the network, [root] being what [client.Root()] says of it. *)
Definition GetNetworkPassPhrase (root : N -> outcome bytes * N) : cmd N bytes :=
  errf (fun e => Errorf "Failed to get the root from the client: %v" [FErr e]) (ask root).

(** The loop of [GetAccountDebitediTransactions]. *)
Fixpoint debiting_transactions (records : list Effect) : cmd N (list HTransaction) :=
  match records with
  | [] => mret []
  | r :: records =>
      if negb (bool_decide (EffectType r = effect_account_debited)) then debiting_transactions records
      else match DebitedHref r with
      | None => pure (Fail (ErrNew "effect is not a horizon protocol AccountDebited effect"))
      | Some href =>
          let operationID := getIDFromLink href in
          transactionHash ← errf (fun _ => Errorf "Failed to get the operation with ID %v" [FBytes operationID]) (ask (OperationDetail operationID));
          transaction ← errf (fun _ => Errorf "Failed to get the transaction with hash %v" [FBytes transactionHash]) (ask (TransactionDetail transactionHash));
          rest ← debiting_transactions records;
          mret (transaction :: rest)
      end
  end.

Definition GetAccountDebitediTransactions (accountAddress : bytes) : cmd N (list HTransaction) :=
  records ← ask (Effects accountAddress 100); debiting_transactions records.

Definition CreateAccountTransaction (newccountAddress xlmAmount : bytes) (fundingAccount : HAccount) (network : bytes) : Transaction Operation :=
  newTransaction (HorizonAccount fundingAccount) [CreateAccount newccountAddress xlmAmount (Some (AccountID fundingAccount))]
    NewInfiniteTimeout network.

(** An error that is not Horizon's fails the type assertion. *)
Definition SubmitTransaction (tx : bytes) : cmd N TransactionSuccess :=
  ask (fun n => let '(r, n) := SubmitTransactionXDR tx n in
    (match r with
     | inl success => Ret success
     | inr (HorizonError detail codes extras) => Fail (submit_message detail codes extras)
     | inr (OtherError _) => Panic type_assertion
     end, n)).

(** ** Building swaps *)

(** The global variable [targetNetwork]. *)
Context (targetNetwork : bytes).

(** The payments and the merge that empty the account. *)
Definition redeem_balance (account receiverAddress : bytes) (b : Balance) : list Operation :=
  if bool_decide (B_Type b = NativeAssetType) then []
  else
    let asset := CreditAsset (B_Code b) (B_Issuer b) in
    [Payment receiverAddress (B_Balance b) asset None; ChangeTrust asset [48] (Some account)].

Definition createRedeemOperations (holdingAccount : HAccount) (receiverAddress : bytes) : list Operation :=
  flat_map (redeem_balance (AccountID holdingAccount) receiverAddress) (Balances holdingAccount)
  ++ [AccountMerge receiverAddress (Some (AccountID holdingAccount))].

(** The sequence number is incremented here and once more by [Build]. *)
Definition createRefundTransaction (holdingAccountAddress refundAccountAdress : bytes) (locktime : Z) : cmd N (Transaction Operation) :=
  holdingAccount ← GetAccount holdingAccountAddress;
  '(_, holdingAccount) ← pure (mapErr (fun e => Errorf "Unable to increment the sequence number of the holding account:%v" [FErr e])
                            (HAccount_IncrementSequenceNumber holdingAccount));
  let operations := createRedeemOperations holdingAccount refundAccountAdress in
  pure (mapErr (fun e => Errorf "Failed to build the refund transaction: %s" [FErr e])
    (Build (newTransaction (HorizonAccount holdingAccount) operations (NewTimebounds locktime 0) targetNetwork))).

(** [HashHex]; its error is a panic or is dropped. *)
Definition HashHex (tx : Transaction Operation) : outcome bytes := h ← Transaction_Hash tx; Ret (hex_encode h).

(** A failed submission is reported with the hash of the transaction. *)
Definition submit_or (report : error -> outcome error) (txe : bytes) : cmd N unit := fun e =>
  match SubmitTransaction txe e with
  | (Ret _, e) => (Ret tt, e)
  | (Fail err, e) => (err ← report err; Fail err, e)
  | (Panic err, e) => (Panic err, e)
  end.

Definition createHoldingAccount (holdingAccountAddress amount fundingKeyPair network : bytes) : cmd N unit :=
  fundingAddress ← pure (keypair_Address fundingKeyPair);
  fundingAccount ← GetAccount fundingAddress;
  let createAccountTransaction := CreateAccountTransaction holdingAccountAddress amount fundingAccount network in
  '(txe, createAccountTransaction) ← pure (mapErr (fun e => Errorf "Failed to sign the holding account transaction: %s" [FErr e])
                                        (BuildSignEncode createAccountTransaction [fundingKeyPair]));
  submit_or (fun e => id ← must (HashHex createAccountTransaction);
                      Ret (Errorf "Failed to publish the holding account creation transaction : %s\n%s" [FBytes id; FErr e])) txe.

(** An operation that sets one signer of the account. *)
Definition signer_operation (account address : bytes) (weight : Z) : Operation :=
  SetOptions None [] [] None None None None None (Some (mkSigner address weight)) (Some account).

Definition createHoldingAccountSigningTransaction (holdingAccount : HAccount) (counterPartyAddress secretHash refundTxHash network : bytes)
    : outcome (Transaction Operation) :=
  let account := AccountID holdingAccount in
  let depositorSigningOperation := signer_operation account counterPartyAddress 1 in
  secretHashAddress ← CreateHashxAddress secretHash;
  let secretSigningOperation := signer_operation account secretHashAddress 1 in
  refundTxHashAdddress ← CreateHashTxAddress refundTxHash;
  let refundSigningOperation := signer_operation account refundTxHashAdddress 2 in
  let setSigningWeightsOperation := SetOptions None [] [] (Some 0) (Some 2) (Some 2) (Some 2) None None (Some account) in
  Ret (newTransaction (HorizonAccount holdingAccount)
    [depositorSigningOperation; secretSigningOperation; refundSigningOperation; setSigningWeightsOperation] NewInfiniteTimeout network).

Definition setHoldingAccountSigningOptions (holdingAccountKeyPair counterPartyAddress secretHash refundTxHash : bytes) : cmd N unit :=
  holdingAccountAddress ← pure (keypair_Address holdingAccountKeyPair);
  holdingAccount ← GetAccount holdingAccountAddress;
  tx ← pure (mapErr (fun e => Errorf "Failed to create the signing options transaction: %s" [FErr e])
         (createHoldingAccountSigningTransaction holdingAccount counterPartyAddress secretHash refundTxHash targetNetwork));
  '(txe, _) ← pure (mapErr (fun e => Errorf "Failed to sign the signing options transaction: %s" [FErr e])
                (BuildSignEncode tx [holdingAccountKeyPair]));
  submit_or (fun e => Ret (Errorf "Failed to publish the signing options transaction : %s" [FErr e])) txe.

Definition fundHoldingAccount (fundingKeyPair holdingAccountKeyPair amount : bytes) (asset : Asset) : cmd N unit :=
  holdingAddress ← pure (keypair_Address holdingAccountKeyPair);
  holdingAccount ← GetAccount holdingAddress;
  let changetrust := ChangeTrust (CreditAsset (GetCode asset) (GetIssuer asset)) amount (Some (AccountID holdingAccount)) in
  fundingAddress ← pure (keypair_Address fundingKeyPair);
  fundingAccount ← GetAccount fundingAddress;
  let payment := Payment (AccountID holdingAccount) amount asset (Some (AccountID fundingAccount)) in
  let tx := newTransaction (HorizonAccount fundingAccount) [changetrust; payment] NewInfiniteTimeout targetNetwork in
  '(txe, tx) ← pure (mapErr (fun e => Errorf "Failed to build,sign and encode the funding transaction: %v" [FErr e])
                 (BuildSignEncode tx [holdingAccountKeyPair; fundingKeyPair]));
  submit_or (fun e => Ret (Errorf "Failed to publish the funding transaction : %s\n%s"
                             [FBytes (match HashHex tx with Ret h => h | _ => [] end); FErr e])) txe.

Definition createAtomicSwapHoldingAccount (fundingKeyPair holdingAccountKeyPair counterPartyAddress amount secretHash : bytes) (locktime : Z)
    (asset : Asset) : cmd N (Transaction Operation) :=
  holdingAccountAddress ← pure (keypair_Address holdingAccountKeyPair);
  let xlmAmount := if IsNative asset then amount else [49; 48] in
  _ ← createHoldingAccount holdingAccountAddress xlmAmount fundingKeyPair targetNetwork;
  _ ← (if IsNative asset then mret tt else fundHoldingAccount fundingKeyPair holdingAccountKeyPair amount asset);
  fundingAddress ← pure (keypair_Address fundingKeyPair);
  refundTransaction ← createRefundTransaction holdingAccountAddress fundingAddress locktime;
  refundTransactionHash ← pure (mapErr (fun e => Errorf "Failed to Hash the refund transaction: %s" [FErr e]) (Transaction_Hash refundTransaction));
  _ ← setHoldingAccountSigningOptions holdingAccountKeyPair counterPartyAddress secretHash refundTransactionHash;
  mret refundTransaction.
End Stellar.
