(* ===== verification/StellarCommands.v ===== *)
(** * The commands of the Stellar tool: cmd/stellaratomicswap/main.go

    [runCommand] of each command, over the interface to Horizon. Rendering
    values as text is not modelled: a printed line keeps its format and its
    arguments, and a line of JSON its fields. *)

From S2P Require Import Prelude Sha256 Cli Strkey Base64 Xdr StellarXdr TxnBuild StellarSwap.

Definition stellar_secretSize : Z := 32.

(** [hprotocol.KeyTypeNames] *)
Definition KeyType_AccountID : bytes := Eval vm_compute in bytes_of_string "ed25519_public_key".
Definition KeyType_HashX : bytes := Eval vm_compute in bytes_of_string "sha256_hash".
Definition KeyType_HashTx : bytes := Eval vm_compute in bytes_of_string "preauth_tx".

(** What the loop of [auditcontract] has found: the hash of the refund
    transaction, the recipient (the empty text at first), the secret hash. *)
Record conditions := mkConditions { refundTxHashFromSigningConditions : option bytes; recipientAddress : bytes; c_secretHash : option bytes }.
Definition no_conditions : conditions := mkConditions None [] None.

(** One turn of the loop. *)
Definition audit_signer (c : conditions) (signer : HSigner) : outcome conditions :=
  let weight := HWeight signer in
  let key := HKey signer in
  if weight =? 0 then Ret c
  else if bool_decide (HType signer = KeyType_AccountID) then
    _ ← guard_err (negb (zlen (recipientAddress c) =? 0)) (Errorf "Multiple recipients as signer: %s and %s" [FBytes (recipientAddress c); FBytes key]);
    _ ← guard_err (negb (weight =? 1)) (Errorf "Signing weight of the recipient is wrong. Recipient: %s Weight: %d" [FBytes key; FInt weight]);
    Ret (mkConditions (refundTxHashFromSigningConditions c) key (c_secretHash c))
  else if bool_decide (HType signer = KeyType_HashTx) then
    _ ← guard_err (bool_decide (is_Some (refundTxHashFromSigningConditions c))) (ErrNew "Multiple refund transaction hashes as signer");
    h ← mapErr (fun e => Errorf "Faulty encoded refund transaction hash: %s" [FErr e]) (Decode VersionByteHashTx key);
    _ ← guard_err (negb (weight =? 2)) (Errorf "Signing weight of the refund transaction is wrong. Weight: %d" [FInt weight]);
    Ret (mkConditions (Some h) (recipientAddress c) (c_secretHash c))
  else if bool_decide (HType signer = KeyType_HashX) then
    _ ← guard_err (bool_decide (is_Some (c_secretHash c)))
          (Errorf "Multiple secret hashes  transaction hashes as signer: %s and %s" [FBytes (default [] (c_secretHash c)); FBytes key]);
    h ← mapErr (fun e => Errorf "Faulty encoded secret hash: %s" [FErr e]) (Decode VersionByteHashX key);
    _ ← guard_err (negb (weight =? 1)) (Errorf "Signing weight of the secret hash is wrong. Weight: %d" [FInt weight]);
    Ret (mkConditions (refundTxHashFromSigningConditions c) (recipientAddress c) (Some h))
  else Fail (Errorf "Unexpected signer type: %s" [FBytes (HType signer)]).

Fixpoint audit_signers (c : conditions) (signers : list HSigner) : outcome conditions :=
  match signers with
  | [] => Ret c
  | s :: signers => c ← audit_signer c s; audit_signers c signers
  end.

(** What [auditcontract] establishes before it prints: the recipient, the secret
    hash, the lock time and the refund address. *)
Record audited := mkAudited { a_recipient : bytes; a_secretHash : bytes; a_lockTime : Z; a_refundAddress : bytes }.

(** [reflect.TypeOf] of an operation. *)
Definition operation_type (op : ParsedOperation) : string :=
  "*txnbuild." ++ match op with
  | Parsed (CreateAccount _ _ _) => "CreateAccount"
  | Parsed (Payment _ _ _ _) => "Payment"
  | Parsed (ChangeTrust _ _ _) => "ChangeTrust"
  | Parsed (SetOptions _ _ _ _ _ _ _ _ _ _) => "SetOptions"
  | Parsed (AccountMerge _ _) => "AccountMerge"
  | OtherOperation _ body =>
      match body with
      | BodyCreateAccount _ => "CreateAccount"
      | BodyPayment _ => "Payment"
      | BodyPathPaymentStrictReceive _ => "PathPayment"
      | BodyManageSellOffer _ => "ManageSellOffer"
      | BodyCreatePassiveSellOffer _ => "CreatePassiveSellOffer"
      | BodySetOptions _ => "SetOptions"
      | BodyChangeTrust _ => "ChangeTrust"
      | BodyAllowTrust _ => "AllowTrust"
      | BodyAccountMerge _ => "AccountMerge"
      | BodyInflation => "Inflation"
      | BodyManageData _ => "ManageData"
      | BodyBumpSequence _ => "BumpSequence"
      | BodyManageBuyOffer _ => "ManageBuyOffer"
      | BodyPathPaymentStrictSend _ => "PathPaymentStrictSend"
      end
  end.

Definition audit_account (targetNetwork : bytes) (holdingAccount : HAccount) (holdingAccountAdress : bytes) (refundTx : Transaction ParsedOperation)
    : outcome audited :=
  let th := AccountThresholds holdingAccount in
  _ ← guard_err (negb (HighT th =? 2) || negb (MedT th =? 2) || negb (LowT th =? 2))
        (Errorf "Holding account signing tresholds are wrong.\nTresholds: High: %d, Medium: %d, Low: %d" [FInt (HighT th); FInt (MedT th); FInt (LowT th)]);
  c ← audit_signers no_conditions (Signers holdingAccount);
  fromConditions ← of_option (ErrNew "Missing refund transaction hash as signer") (refundTxHashFromSigningConditions c);
  secretHash ← of_option (ErrNew "Missing secret as signer") (c_secretHash c);
  _ ← guard_err (zlen (recipientAddress c) =? 0) (ErrNew "Missing recipient as signer");
  refundTxHash ← mapErr (fun e => Errorf "Unable to hash the passed refund transaction: %v" [FErr e])
                   (HashTransaction (xdrTransaction refundTx) targetNetwork);
  _ ← guard_err (negb (bool_decide (fromConditions = refundTxHash)))
        (ErrNew "Refund transaction hash in the signing condition is not equal to the one of the passed refund transaction");
  match Operations refundTx with
  | [op] =>
      match op with
      | Parsed (AccountMerge destination source) =>
          match source with
          | None => Panic nil_arm
          | Some source =>
              _ ← guard_err (negb (bool_decide (source = holdingAccountAdress)))
                    (Errorf "The refund transaction does not refund from the holding account but from %v" [FBytes source]);
              Ret (mkAudited (recipientAddress c) secretHash (MinTime (T_Timebounds refundTx)) destination)
          end
      | _ => Fail (Errorf "Expecting an accountmerge operation in the refund transaction but got a %v" [FStr (operation_type op)])
      end
  | ops => Fail (Errorf "Refund transaction is expected to have 1 operation instead of %d" [FInt (zlen ops)])
  end.

(** The inner and the outer loop of [extractsecret], up to the signature with
    the hash. *)
Fixpoint find_in_signatures (sigs : list bytes) (hexHash : bytes) : outcome (option bytes) :=
  match sigs with
  | [] => Ret None
  | raw :: sigs =>
      sig ← mapErr (fun e => Errorf "Error base64 decoding signature :%v" [FErr e]) (b64_DecodeString raw);
      if 64 <? zlen sig then find_in_signatures sigs hexHash
      else if bool_decide (hex_encode (sha256 sig) = hexHash) then Ret (Some sig)
      else find_in_signatures sigs hexHash
  end.

Fixpoint find_secret (txs : list HTransaction) (hexHash : bytes) : outcome (option bytes) :=
  match txs with
  | [] => Ret None
  | tx :: txs =>
      r ← find_in_signatures (HSignatures tx) hexHash;
      match r with Some s => Ret (Some s) | None => find_secret txs hexHash end
  end.

Section StellarCommands.
Context {N : Type} `{!HorizonClient N, !Strkey.Ed25519}.
(** The global variables that [run] sets. *)
Context (targetNetwork : bytes) (automated : bool).

(** [secret] is an array: it is kept as its 32 bytes. *)
Definition stellar_initiate (initiatorKeyPair cp2Addr amount : bytes) (asset : Asset) : cmd N unit :=
  secret ← ask (stellar_rand_Read (Z.to_nat stellar_secretSize));
  let secretHash := sha256 secret in
  fundingAccountAddress ← pure (keypair_Address initiatorKeyPair);
  holdingAccountKeyPair ← errf (fun e => Errorf "Failed to create holding account keypair: %s" [FErr e]) GenerateKeyPair;
  holdingAccountAddress ← pure (keypair_Address holdingAccountKeyPair);
  locktime ← unix_after timings_LockTime;
  refundTransaction ← createAtomicSwapHoldingAccount targetNetwork initiatorKeyPair holdingAccountKeyPair cp2Addr amount secretHash locktime asset;
  serializedRefundTx ← pure (Transaction_Base64 refundTransaction);
  if automated then
    print_json [("secret", FBytes secret); ("hash", FBytes secretHash); ("initiator", FBytes fundingAccountAddress);
      ("holdingaccount", FBytes holdingAccountAddress); ("refundtransaction", FBytes serializedRefundTx)]%string
  else
    _ ← Printf "Secret:      %x\n" [FBytes secret];
    _ ← Printf "Secret hash: %x\n\n" [FBytes secretHash];
    _ ← Printf "initiator address: %s\n" [FBytes fundingAccountAddress];
    _ ← Printf "holding account address: %s\n" [FBytes holdingAccountAddress];
    Printf "refund transaction:\n%s\n" [FBytes serializedRefundTx].

Definition stellar_participate (participatorKeyPair cp1Addr amount secretHash : bytes) (asset : Asset) : cmd N unit :=
  fundingAccountAddress ← pure (keypair_Address participatorKeyPair);
  holdingAccountKeyPair ← errf (fun e => Errorf "Failed to create holding account keypair: %s" [FErr e]) GenerateKeyPair;
  holdingAccountAddress ← pure (keypair_Address holdingAccountKeyPair);
  locktime ← unix_after (Z.quot timings_LockTime 2);
  refundTransaction ← createAtomicSwapHoldingAccount targetNetwork participatorKeyPair holdingAccountKeyPair cp1Addr amount secretHash locktime asset;
  serializedRefundTx ← pure (Transaction_Base64 refundTransaction);
  if automated then
    print_json [("partcipant", FBytes fundingAccountAddress); ("holdingaccount", FBytes holdingAccountAddress);
      ("refundtransaction", FBytes serializedRefundTx)]%string
  else
    _ ← Printf "participant address: %s\n" [FBytes fundingAccountAddress];
    _ ← Printf "holding account address: %s\n" [FBytes holdingAccountAddress];
    Printf "refund transaction:\n%s\n" [FBytes serializedRefundTx].

Fixpoint show_balances (balances : list Balance) : cmd N unit :=
  match balances with
  | [] => mret tt
  | b :: balances =>
      _ ← (if bool_decide (B_Type b = NativeAssetType) then Printf "Amount: %s XLM\n" [FBytes (B_Balance b)]
           else Printf "Amount: %s Code: %s Issuer: %s\n" [FBytes (B_Balance b); FBytes (B_Code b); FBytes (B_Issuer b)]);
      show_balances balances
  end.

Definition stellar_auditContract (refundTx : Transaction ParsedOperation) (holdingAccountAdress : bytes) : cmd N unit :=
  holdingAccount ← errf (fun e => Errorf "Error getting the holding account details: %v" [FErr e]) (ask (AccountDetail holdingAccountAdress));
  a ← pure (audit_account targetNetwork holdingAccount holdingAccountAdress refundTx);
  if automated then
    print_json [("contractAddress", FBytes holdingAccountAdress); ("contractValue", FBytes []); ("recipientAddress", FBytes (a_recipient a));
      ("refundAddress", FBytes (a_refundAddress a)); ("secretHash", FBytes (a_secretHash a)); ("Locktime", FInt (a_lockTime a))]%string
  else
    _ ← Printf "Contract address:        %v\n" [FBytes holdingAccountAdress];
    _ ← Printf "Contract value:\n" [];
    _ ← show_balances (Balances holdingAccount);
    _ ← Printf "Recipient address:       %v\n" [FBytes (a_recipient a)];
    _ ← Printf "Refund address: %v\n\n" [FBytes (a_refundAddress a)];
    _ ← Printf "Secret hash: %x\n\n" [FBytes (a_secretHash a)];
    let t := time_Unix (a_lockTime a) in
    _ ← Printf "Locktime: %v\n" [FInt (a_lockTime a)];
    now ← Now;
    let reachedAt := TruncateSecond (Until t now) in
    if 0 <? reachedAt then Printf "Locktime reached in %v\n" [FInt reachedAt]
    else Printf "Refund time lock has expired\n" [].

(** [TransactionSuccessToString] *)
Definition show_success (r : TransactionSuccess) : cmd N unit :=
  Printf "***TransactionSuccess dump***" [FBytes (S_Links r); FBytes (S_Hash r); FInt (S_Ledger r); FBytes (S_Env r); FBytes (S_Result r); FBytes (S_Meta r)].

Definition stellar_refund (refundTx : Transaction ParsedOperation) : cmd N unit :=
  txe ← pure (Transaction_Base64 refundTx);
  result ← SubmitTransaction txe;
  if automated then mret tt else show_success result.

(** The transaction of [redeem], with its two signatures. *)
Definition build_redeem (holdingAccount : HAccount) (receiver secret : bytes) : outcome bytes :=
  receiverAddress ← keypair_Address receiver;
  let operations := createRedeemOperations holdingAccount receiverAddress in
  tx ← mapErr (fun e => Errorf "Unable to build the transaction: %v" [FErr e])
         (Build (newTransaction (HorizonAccount holdingAccount) operations (NewTimebounds 0 0) targetNetwork));
  tx ← mapErr (fun e => Errorf "Unable to sign with the secret:%v" [FErr e]) (SignHashX tx secret);
  tx ← mapErr (fun e => Errorf "Unable to sign with the receiver keypair:%v" [FErr e]) (Sign tx [receiver]);
  mapErr (fun e => Errorf "Unable to encode the transaction: %v" [FErr e]) (Transaction_Base64 tx).

Definition stellar_redeem (receiverKeyPair holdingAccountAddress secret : bytes) : cmd N unit :=
  holdingAccount ← GetAccount holdingAccountAddress;
  txe ← pure (build_redeem holdingAccount receiverKeyPair secret);
  txSuccess ← SubmitTransaction txe;
  if automated then print_json [("redeemTransaction", FBytes (S_Hash txSuccess))]%string else show_success txSuccess.

Definition stellar_extractSecret (holdingAccountAdress secretHash : bytes) : cmd N unit :=
  transactions ← errf (fun e => Errorf "Error getting the transaction that debited the holdingAccount: %v" [FErr e])
                   (GetAccountDebitediTransactions holdingAccountAdress);
  _ ← pure (guard_err (zlen transactions =? 0) (ErrNew "The holdingaccount has not been redeemed yet"));
  found ← pure (find_secret transactions secretHash);
  extractedSecret ← pure (of_option (ErrNew "Unable to find the matching secret") found);
  Printf "Extracted secret: %x\n" [FBytes extractedSecret].

(** ** Commands *)

Inductive stellar_command :=
  | InitiateCmd (InitiatorKeyPair cp2Addr amount : bytes) (asset : Asset)
  | ParticipateCmd (cp1Addr participatorKeyPair amount secretHash : bytes) (asset : Asset)
  | RedeemCmd (ReceiverKeyPair holdingAccountAddress secret : bytes)
  | RefundCmd (refundTx : Transaction ParsedOperation)
  | ExtractSecretCmd (holdingAccountAdress secretHash : bytes)
  | AuditContractCmd (refundTx : Transaction ParsedOperation) (holdingAccountAdress : bytes).

Definition stellar_runCommand (c : stellar_command) : cmd N unit :=
  match c with
  | InitiateCmd kp addr amount asset => stellar_initiate kp addr amount asset
  | ParticipateCmd addr kp amount h asset => stellar_participate kp addr amount h asset
  | RedeemCmd kp addr secret => stellar_redeem kp addr secret
  | RefundCmd tx => stellar_refund tx
  | ExtractSecretCmd addr h => stellar_extractSecret addr h
  | AuditContractCmd tx addr => stellar_auditContract tx addr
  end.
End StellarCommands.
