(* ===== verification/StellarCli.v ===== *)
(** * The Stellar tool from its command line: run and main of cmd/stellaratomicswap/main.go

    Flags and arguments become a command, the command runs over one of the two
    Horizon servers, and the process ends with a status. *)

From S2P Require Import Prelude Sha256 Decimal Float Cli Flags Strkey Base64 Xdr StellarXdr TxnBuild StellarSwap StellarCommands.

Definition PublicNetworkPassphrase : bytes := Eval vm_compute in bytes_of_string "Public Global Stellar Network ; September 2015".
Definition TestNetworkPassphrase : bytes := Eval vm_compute in bytes_of_string "Test SDF Network ; September 2015".

(** ** Flags *)

Record stellar_flags := mkStellarFlags { s_testnetFlag : bool; s_automatedFlag : bool; assetParam : bytes }.
Definition default_stellar_flags : stellar_flags := mkStellarFlags false false [].

Definition stellar_flag (name : bytes) : option (flag_kind stellar_flags) :=
  let eqs := fun s => bool_decide (name = bytes_of_string s) in
  if eqs "testnet"%string then Some (BoolFlag (fun b f => mkStellarFlags b (s_automatedFlag f) (assetParam f)))
  else if eqs "automated"%string then Some (BoolFlag (fun b f => mkStellarFlags (s_testnetFlag f) b (assetParam f)))
  else if eqs "asset"%string then Some (ValueFlag (fun v f => Some (mkStellarFlags (s_testnetFlag f) (s_automatedFlag f) v)))
  else None.

Definition stellar_command_args : list (string * nat) :=
  [("initiate", 3); ("participate", 4); ("redeem", 3); ("refund", 1); ("extractsecret", 2); ("auditcontract", 2)]%string%nat.

(** [strings.SplitN(s, ":", 2)] *)
Fixpoint split_colon (l : bytes) : option (bytes * bytes) :=
  match l with
  | [] => None
  | c :: l => if c =? 58 then Some ([], l) else '(a, b) ← split_colon l; Some (c :: a, b)
  end.

(** The asset is read after the first [Parse], before the arguments of the
    command and the flags that follow them. *)
Definition parse_asset (f : stellar_flags) : outcome Asset :=
  if zlen (assetParam f) =? 0 then Ret NativeAsset
  else match split_colon (assetParam f) with
  | None => Fail (ErrNew "Invalid asset format")
  | Some (code, issuer) => Ret (CreditAsset code issuer)
  end.

(** ** Commands *)

Definition parse_full (name : string) (text : bytes) : outcome bytes :=
  kp ← mapErr (fun e => Errorf "invalid %s seed: %v" [FStr name; FErr e]) (keypair_Parse text);
  match kp with
  | Full seed => Ret seed
  | FromAddress _ => Fail (Errorf "invalid %s seed" [FStr name])
  end.

Definition parse_address (name : string) (text : bytes) : outcome unit :=
  _ ← mapErr (fun e => Errorf "invalid %s address: %v" [FStr name; FErr e]) (keypair_Parse text); Ret tt.

(** The value of the float is not used. *)
Definition check_amount (text : bytes) : outcome unit :=
  _ ← mapErr (fun e => Errorf "failed to decode amount: %v" [FErr e]) (ParseFloat text); Ret tt.

Definition parse_refund (text : bytes) : outcome (Transaction ParsedOperation) :=
  mapErr (fun e => Errorf "failed to decode refund transaction: %v" [FErr e]) (TransactionFromXDR text).

Definition parse_stellar_command (asset : Asset) (name : bytes) (args : list bytes) : outcome stellar_command :=
  let arg i := default [] (args !! i) in
  let eqs := fun s => bool_decide (name = bytes_of_string s) in
  if eqs "initiate"%string then
    kp ← parse_full "initiator" (arg 0%nat);
    _ ← parse_address "participant" (arg 1%nat);
    _ ← check_amount (arg 2%nat);
    Ret (InitiateCmd kp (arg 1%nat) (arg 2%nat) asset)
  else if eqs "participate"%string then
    kp ← parse_full "participator" (arg 0%nat);
    _ ← parse_address "initiator" (arg 1%nat);
    _ ← check_amount (arg 2%nat);
    secretHash ← mapErr (fun _ => ErrNew "secret hash must be hex encoded") (hex_decode (arg 3%nat));
    _ ← guard_err (negb (zlen secretHash =? 32)) (ErrNew "secret hash has wrong size");
    Ret (ParticipateCmd (arg 1%nat) kp (arg 2%nat) secretHash asset)
  else if eqs "auditcontract"%string then
    _ ← parse_address "holding account" (arg 0%nat);
    refundTransaction ← parse_refund (arg 1%nat);
    Ret (AuditContractCmd refundTransaction (arg 0%nat))
  else if eqs "refund"%string then
    refundTransaction ← parse_refund (arg 0%nat);
    Ret (RefundCmd refundTransaction)
  else if eqs "redeem"%string then
    kp ← parse_full "receiver" (arg 0%nat);
    _ ← parse_address "holding account" (arg 1%nat);
    secret ← mapErr (fun e => Errorf "failed to decode secret: %v" [FErr e]) (hex_decode (arg 2%nat));
    _ ← guard_err (negb (zlen secret =? stellar_secretSize))
          (Errorf "The secret should be %d bytes instead of %d" [FInt stellar_secretSize; FInt (zlen secret)]);
    Ret (RedeemCmd kp (arg 1%nat) secret)
  else
    _ ← parse_address "holding account" (arg 0%nat);
    Ret (ExtractSecretCmd (arg 0%nat) (arg 1%nat)).

Section Run.
(** The state behind the two default clients of [horizonclient]; which of them
    serves is the flag [-testnet]. *)
Context {N : Type} `{!Strkey.Ed25519}.
Context (public test : HorizonClient N).

Definition stellar_run (argv : list bytes) (n : N) (stdin : list bytes) (clock : Z) : process_end * env N :=
  let start := mkEnv n stdin [] clock in
  match parse_flags stellar_flag argv default_stellar_flags with
  | None => (Exited 2 None true, start)
  | Some (first, _) =>
      match parse_cmdline stellar_flag (lookup_command stellar_command_args) (fun f => _ ← parse_asset f; Ret tt) argv default_stellar_flags with
      | ExitUsage => (Exited 2 None true, start)
      | ShowUsage e => (Exited 1 e true, start)
      | CommandLine f name args =>
          let targetNetwork := if s_testnetFlag f then TestNetworkPassphrase else PublicNetworkPassphrase in
          match (asset ← parse_asset first; parse_stellar_command asset name args) with
          | Fail e => (Exited 1 (Some e) true, start)
          | Panic e => (Crashed e, start)
          | Ret c =>
              let '(r, e) := stellar_runCommand (HorizonClient0 := if s_testnetFlag f then test else public) targetNetwork (s_automatedFlag f) c start in
              (main_end false r, e)
          end
      end
  end.
End Run.
