(* ===== verification/StrkeyTheorems.v ===== *)
(** * Stellar addresses round trip

    [Decode] reads back what [Encode] writes for every kind of key and only for
    that kind; base 64 text is read back, at once and through the streaming
    decoder. *)

From S2P Require Import Prelude Sha256 BigEndian Base58 Strkey Base64 Xdr.

(** ** Base 32 *)

(** A property of the numbers below a small bound, by evaluation. *)
Lemma small_ind (P : Z -> bool) n : forallb P (map Z.of_nat (seq 0 n)) = true -> forall d, 0 <= d < Z.of_nat n -> P d = true.
Proof.
  intros H d Hd. eapply forallb_forall; [exact H|]. apply in_map_iff. exists (Z.to_nat d).
  split; [lia|]. apply in_seq. lia.
Qed.

Lemma b32_digit_char d : 0 <= d < 32 -> b32_digit (b32_char d) = Some d /\ b32_char d <> 61.
Proof.
  intros Hd. pose proof (small_ind (fun d => bool_decide (b32_digit (b32_char d) = Some d) && negb (b32_char d =? 61)) 32 ltac:(by vm_compute) d Hd) as H.
  apply andb_prop in H as [H1 H2]. apply bool_decide_eq_true in H1. split; [done|]. by apply negb_true_iff, Z.eqb_neq in H2.
Qed.

Lemma digits32_range n v : Forall (fun d => 0 <= d < 32) (digits32 n v).
Proof.
  induction n as [|n IH]; constructor; [|done]. change 31 with (Z.ones 5). rewrite Z.land_ones by lia. apply Z.mod_pos_bound. lia.
Qed.
Lemma length_digits32 n v : length (digits32 n v) = n.
Proof. induction n; simpl; auto. Qed.

Lemma value32_app l1 l2 : value32 (l1 ++ l2) = value32 l1 * 32 ^ zlen l2 + value32 l2.
Proof.
  unfold value32. rewrite foldl_app. generalize (foldl (fun a d => 32 * a + d) 0 l1) as a. clear l1.
  induction l2 as [|x l2 IH]; intros a; simpl foldl.
  - rewrite zlen_nil. lia.
  - rewrite IH, (IH (32 * 0 + x)), zlen_cons, Z.pow_add_r by (pose proof (zlen_nonneg l2); lia). lia.
Qed.

Lemma value32_digits n v : value32 (digits32 n v) = v mod 32 ^ Z.of_nat n.
Proof.
  induction n as [|n IH]; [by rewrite Z.mod_1_r|]. cbn [digits32].
  change (?d :: digits32 n v) with ([d] ++ digits32 n v). rewrite value32_app, IH.
  change (value32 [?d]) with (32 * 0 + d). unfold zlen. rewrite length_digits32.
  change 31 with (Z.ones 5). rewrite Z.land_ones, Z.shiftr_div_pow2 by lia.
  replace (2 ^ (5 * Z.of_nat n)) with (32 ^ Z.of_nat n) by (by rewrite Z.pow_mul_r by lia).
  rewrite Nat2Z.inj_succ, Z.pow_succ_r by lia. change (2 ^ 5) with 32.
  rewrite (Z.mul_comm 32 (32 ^ _)), Z.rem_mul_r by lia. lia.
Qed.

(** Reading a whole group of digits. *)
Lemma b32_read_digits ds : forall dbuf j rest, Forall (fun d => 0 <= d < 32) ds -> (j + length ds = 8)%nat ->
  b32_read (map b32_char ds ++ rest) j dbuf = Ret (dbuf ++ ds, false, rest).
Proof.
  induction ds as [|d ds IH]; intros dbuf j rest Hd Hj; simpl in Hj.
  - assert (j = 8%nat) as -> by lia. rewrite app_nil_r. by destruct rest.
  - inversion_clear Hd as [|? ? Hd1 Hd2]. destruct (b32_digit_char d Hd1) as [Hc Hne]. cbn [map app b32_read].
    destruct (Nat.eqb_spec j 8); [lia|]. rewrite (proj2 (Z.eqb_neq _ _) Hne), Hc. cbn [andb].
    rewrite IH by (done || lia). by rewrite <- app_assoc.
Qed.

Lemma b32_quantum_5 l : length l = 5%nat -> b32_quantum l = map b32_char (digits32 8 (be_get l)).
Proof.
  intros Hl. unfold b32_quantum. rewrite Hl. cbn [Nat.sub]. rewrite app_nil_r.
  rewrite take_ge by (rewrite length_map, length_digits32; lia). by rewrite app_nil_r.
Qed.

Lemma b32_decode_quantum fuel l rest : length l = 5%nat -> bytes_ok l ->
  b32_decode (S fuel) (b32_quantum l ++ rest) = (r ← b32_decode fuel rest; Ret (l ++ r)).
Proof.
  intros Hl Hb. rewrite b32_quantum_5 by done.
  set (ds := digits32 8 (be_get l)). assert (length ds = 8%nat) as Hds by apply length_digits32.
  assert (b32_read (map b32_char ds ++ rest) 0 [] = Ret (ds, false, rest)) as Hr
    by (apply (b32_read_digits ds [] 0 rest); [apply digits32_range|lia]).
  destruct (map b32_char ds ++ rest) as [|c r] eqn:E.
  { apply (f_equal length) in E. rewrite length_app, length_map, Hds in E. simpl in E. lia. }
  cbn [b32_decode]. rewrite Hr. cbn [mbind outcome_bind]. unfold b32_bytes. rewrite Hds. cbn [Nat.sub].
  rewrite app_nil_r. subst ds. rewrite value32_digits, Z.mod_small.
  - assert (be_put 5 (be_get l) = l) as -> by (rewrite <- Hl; by apply be_put_get). rewrite take_ge by lia. done.
  - pose proof (be_get_range l Hb). unfold zlen in *. rewrite Hl in *. change (256 ^ Z.of_nat 5) with (32 ^ Z.of_nat 8) in *. lia.
Qed.

Lemma b32_quantum_text l : length l = 5%nat -> length (b32_quantum l) = 8%nat /\ Forall (fun c => 32 < c) (b32_quantum l).
Proof.
  intros Hl. rewrite b32_quantum_5 by done. split; [by rewrite length_map, length_digits32|]. apply Forall_map. eapply Forall_impl; [apply digits32_range|].
  intros d Hd. pose proof (small_ind (fun d => 32 <? b32_char d) 32 ltac:(by vm_compute) d Hd). simpl in *. lia.
Qed.

Lemma strip_printable l : Forall (fun c => 32 < c) l -> strip_newlines l = l.
Proof.
  induction 1 as [|c l Hc _ IH]; [done|]. unfold strip_newlines in *. simpl.
  destruct (Z.eqb_spec c 10), (Z.eqb_spec c 13); try lia. simpl. by f_equal.
Qed.

(** Whole groups of five bytes; the fuels only need to be large enough. *)
Lemma b32_groups n : forall l f1, length l = (5 * n)%nat -> bytes_ok l -> (n <= f1)%nat ->
  Forall (fun c => 32 < c) (b32_encode f1 l) /\ length (b32_encode f1 l) = (8 * n)%nat /\
  forall f2, (n <= f2)%nat -> b32_decode f2 (b32_encode f1 l) = Ret l.
Proof.
  induction n as [|n IH]; intros l f1 Hl Hb Hf.
  - assert (l = []) as -> by (apply nil_length_inv; lia).
    assert (b32_encode f1 [] = []) as -> by (by destruct f1). split; [constructor|]. split; [done|]. intros []; done.
  - destruct f1 as [|f1]; [lia|]. destruct l as [|x l']; [simpl in Hl; lia|]. cbn [b32_encode].
    set (l := x :: l') in *. assert (length (take 5 l) = 5%nat) as H5 by (rewrite length_take; lia).
    assert (bytes_ok (take 5 l)) as Hb5 by by apply Forall_take.
    destruct (b32_quantum_text _ H5) as [Hq1 Hq2].
    destruct (IH (drop 5 l) f1) as (Hp & Hn & Hd); [rewrite length_drop; lia|by apply Forall_drop|lia|].
    split; [by apply Forall_app_2|]. split; [rewrite length_app; lia|].
    intros [|f2] Hf2; [lia|]. rewrite b32_decode_quantum by done. rewrite Hd by lia. cbn [mbind outcome_bind].
    by rewrite take_drop.
Qed.

Lemma b32_round_trip l n : length l = (5 * n)%nat -> bytes_ok l -> b32_DecodeString (b32_EncodeToString l) = Ret l.
Proof.
  intros Hl Hb. unfold b32_DecodeString, b32_EncodeToString.
  destruct (b32_groups n l (length l)) as (Hp & Hn & Hd); [done|done|lia|].
  rewrite (strip_printable _ Hp), Hn. apply Hd. lia.
Qed.

(** ** strkey *)

Definition version_byte (v : Z) : Prop := checkValidVersionByte v = Ret tt.

Lemma version_byte_cases v : version_byte v <->
  v = VersionByteAccountID \/ v = VersionByteSeed \/ v = VersionByteHashTx \/ v = VersionByteHashX.
Proof.
  unfold version_byte, checkValidVersionByte. repeat case_match; rewrite ?Z.eqb_eq, ?Z.eqb_neq in *; split; tauto || done.
Qed.

Lemma crc16_Checksum_ok data : length (crc16_Checksum data) = 2%nat /\ bytes_ok (crc16_Checksum data).
Proof.
  split; [done|]. unfold crc16_Checksum. repeat constructor; unfold is_byte; change 0xff with (Z.ones 8);
    rewrite Z.land_ones by lia; apply Z.mod_pos_bound; lia.
Qed.

(** The text of a key, whose 32 bytes are [p]. *)
Definition key_text (v : Z) (p : bytes) : bytes := b32_EncodeToString ((v :: p) ++ crc16_Checksum (v :: p)).

Lemma Encode_text v p : version_byte v -> Encode v p = Ret (key_text v p).
Proof. intros Hv. unfold Encode. by rewrite Hv. Qed.

Section Key.
Context (v : Z) (p : bytes) (Hv : version_byte v) (Hl : zlen p = 32) (Hp : bytes_ok p).

Let raw := (v :: p) ++ crc16_Checksum (v :: p).

Lemma raw_ok : length raw = 35%nat /\ bytes_ok raw.
Proof.
  destruct (crc16_Checksum_ok (v :: p)) as [H1 H2]. unfold zlen in Hl. subst raw.
  split; [rewrite length_app; simpl length at 1; lia|]. apply Forall_app_2; [|done]. constructor; [|done].
  apply version_byte_cases in Hv. unfold is_byte. destruct Hv as [->|[->|[->|]]]; [by vm_compute..|by subst v; vm_compute].
Qed.

Lemma decodeString_text : decodeString (key_text v p) = Ret raw.
Proof.
  destruct raw_ok as [H1 H2]. unfold decodeString, key_text. fold raw. rewrite (b32_round_trip raw 7) by (done || lia).
  cbn [mapErr mbind outcome_bind]. unfold zlen. by rewrite H1.
Qed.

Lemma strkey_Version_text : strkey_Version (key_text v p) = Ret v.
Proof. unfold strkey_Version. by rewrite decodeString_text. Qed.

Lemma Decode_text v' : version_byte v' -> Decode v' (key_text v p) = if v' =? v then Ret p else Fail ErrInvalidVersionByte.
Proof.
  intros Hv'. destruct raw_ok as [H1 H2]. unfold Decode. rewrite Hv', decodeString_text. cbn [mbind outcome_bind].
  assert (length raw - 2 = length (v :: p))%nat as ->.
  { subst raw. rewrite length_app. destruct (crc16_Checksum_ok (v :: p)) as [-> _]. lia. }
  subst raw. rewrite take_app_length, drop_app_length. change (version_of _) with v.
  rewrite Z.eqb_sym. destruct (Z.eqb_spec v' v); [|done]. cbn [negb guard_err mbind outcome_bind].
  unfold crc16_Validate. rewrite bool_decide_eq_true_2 by done. done.
Qed.

Lemma key_text_56 : zlen (key_text v p) = 56.
Proof.
  destruct raw_ok as [H1 H2]. unfold key_text. fold raw. unfold b32_EncodeToString, zlen.
  destruct (b32_groups 7 raw (length raw)) as (_ & -> & _); [done|done|lia|done].
Qed.

Lemma key_text_cons : exists c r, key_text v p = c :: r.
Proof. pose proof key_text_56. destruct (key_text v p); [done|eauto]. Qed.
End Key.

(** The text of a key names its kind and its bytes. [Encode] writes 56
    characters for the 32 bytes of a key; [Decode] of the same kind returns the
    bytes, of any other kind it reports a wrong version byte; [Version] tells the
    kind. So two keys have the same text only if they are the same. *)
Theorem strkey_round_trip v p : version_byte v -> zlen p = 32 -> bytes_ok p ->
  exists s, Encode v p = Ret s /\ zlen s = 56 /\ strkey_Version s = Ret v /\
    forall v', version_byte v' -> Decode v' s = if v' =? v then Ret p else Fail ErrInvalidVersionByte.
Proof.
  intros Hv Hl Hp. exists (key_text v p). split_and!; [by apply Encode_text|by apply key_text_56|by apply strkey_Version_text|].
  by apply Decode_text.
Qed.

Lemma strkey_round_trip_witness : exists s, Encode VersionByteHashX (sha256 []) = Ret s /\
  Decode VersionByteHashX s = Ret (sha256 []) /\ Decode VersionByteAccountID s = Fail ErrInvalidVersionByte.
Proof.
  destruct (strkey_round_trip VersionByteHashX (sha256 [])) as (s & H1 & _ & _ & H2);
    [done|by vm_compute|apply (bool_decide_unpack _); by vm_compute|].
  exists s. split; [done|]. split; [exact (H2 VersionByteHashX eq_refl)|exact (H2 VersionByteAccountID eq_refl)].
Defined.
