(* ===== verification/Base64Theorems.v ===== *)
(** * Base 64 round trips

    [DecodeString] reads back what [EncodeToString] writes, and the streaming
    decoder over such a text is a reader that yields the bytes. *)

From S2P Require Import Prelude Sha256 BigEndian Base58 Strkey Base64 Xdr StrkeyTheorems.

Lemma b64_digit_char d : 0 <= d < 64 -> b64_digit (b64_char d) = Some d /\ 32 < b64_char d.
Proof.
  intros Hd. pose proof (small_ind (fun d => bool_decide (b64_digit (b64_char d) = Some d) && (32 <? b64_char d)) 64 ltac:(by vm_compute) d Hd) as H.
  apply andb_prop in H as [H1 H2]. apply bool_decide_eq_true in H1. split; [done|lia].
Qed.

Lemma b64_pad : b64_digit 61 = None.
Proof. done. Qed.

(** The four digits of 24 bits. *)
Lemma b64_chars_digits v : 0 <= v < 2 ^ 24 -> exists a b c d, b64_chars v = map b64_char [a; b; c; d] /\
  Forall (fun d => 0 <= d < 64) [a; b; c; d] /\ b64_value a b c d = be_put 3 v /\
  (v mod 64 = 0 -> d = 0) /\ (v mod 4096 = 0 -> c = 0 /\ d = 0).
Proof.
  intros Hv. unfold b64_chars. cbn [map]. change 63 with (Z.ones 6). rewrite !Z.land_ones, !Z.shiftr_div_pow2 by lia.
  eexists _, _, _, _. split; [reflexivity|].
  change (2 ^ 24) with 16777216 in Hv. change (2 ^ 18) with 262144. change (2 ^ 12) with 4096. change (2 ^ 6) with 64. change (2 ^ 0) with 1.
  rewrite Z.div_1_r. split; [repeat constructor; apply Z.mod_pos_bound; lia|]. split.
  - unfold b64_value. f_equal. rewrite !Z.shiftl_mul_pow2 by lia.
    change (2 ^ 18) with 262144. change (2 ^ 12) with 4096. change (2 ^ 6) with 64. Z.div_mod_to_equations. lia.
  - split; [done|]. intros H. split; Z.div_mod_to_equations; lia.
Qed.

Lemma be_get_3 x y z : is_byte x -> is_byte y -> is_byte z ->
  be_get [x; y; z] = 65536 * x + 256 * y + z /\ be_put 3 (be_get [x; y; z]) = [x; y; z].
Proof.
  intros. split; [unfold be_get; simpl foldl; lia|]. apply (be_put_get [x; y; z]). by repeat apply Forall_cons_2.
Qed.

(** One group of the decoder, and the two that are padded. *)
Lemma b64_decode_group x y z rest : is_byte x -> is_byte y -> is_byte z ->
  b64_decode (b64_chars (be_get [x; y; z]) ++ rest) = (x :: y :: z :: (b64_decode rest).1, (b64_decode rest).2).
Proof.
  intros Hx Hy Hz. destruct (be_get_3 x y z Hx Hy Hz) as [Hv Hp]. unfold is_byte in *.
  destruct (b64_chars_digits (be_get [x; y; z])) as (a & b & c & d & -> & Hd & E & _); [lia|].
  apply Forall_cons in Hd as [Ha Hd]. apply Forall_cons in Hd as [Hb Hd]. apply Forall_cons in Hd as [Hc Hd]. apply Forall_cons in Hd as [Hdd _].
  cbn [map app b64_decode]. rewrite (proj1 (b64_digit_char _ Ha)), (proj1 (b64_digit_char _ Hb)), (proj1 (b64_digit_char _ Hc)), (proj1 (b64_digit_char _ Hdd)).
  destruct (b64_decode rest). by rewrite E, Hp.
Qed.

Lemma b64_decode_pad2 x : is_byte x -> b64_decode (b64_EncodeToString [x]) = ([x], true).
Proof.
  intros Hx. destruct (be_get_3 x 0 0 Hx) as [Hv Hp]; [unfold is_byte; lia..|]. unfold is_byte in *.
  destruct (b64_chars_digits (be_get [x; 0; 0])) as (a & b & c & d & E1 & Hd & E & _ & H0); [lia|].
  cbn [b64_EncodeToString]. rewrite E1.
  apply Forall_cons in Hd as [Ha Hd]. apply Forall_cons in Hd as [Hb Hd].
  cbn [map app take b64_decode]. rewrite (proj1 (b64_digit_char _ Ha)), (proj1 (b64_digit_char _ Hb)), b64_pad.
  destruct H0 as [-> ->]; [rewrite Hv; replace (65536 * x + 256 * 0 + 0) with (x * 16 * 4096) by lia; apply Z.mod_mul; lia|]. by rewrite E, Hp.
Qed.

Lemma b64_decode_pad1 x y : is_byte x -> is_byte y -> b64_decode (b64_EncodeToString [x; y]) = ([x; y], true).
Proof.
  intros Hx Hy. destruct (be_get_3 x y 0 Hx Hy) as [Hv Hp]; [unfold is_byte; lia|]. unfold is_byte in *.
  destruct (b64_chars_digits (be_get [x; y; 0])) as (a & b & c & d & E1 & Hd & E & H0 & _); [lia|].
  cbn [b64_EncodeToString]. rewrite E1.
  apply Forall_cons in Hd as [Ha Hd]. apply Forall_cons in Hd as [Hb Hd]. apply Forall_cons in Hd as [Hc Hd].
  cbn [map app take b64_decode]. rewrite (proj1 (b64_digit_char _ Ha)), (proj1 (b64_digit_char _ Hb)), (proj1 (b64_digit_char _ Hc)), b64_pad.
  assert (d = 0) as -> by (apply H0; rewrite Hv; replace (65536 * x + 256 * y + 0) with ((1024 * x + 4 * y) * 64) by lia; apply Z.mod_mul; lia). by rewrite E, Hp.
Qed.

(** Lists of bytes, three at a time. *)
Lemma three_ind (P : bytes -> Prop) : P [] -> (forall x, P [x]) -> (forall x y, P [x; y]) ->
  (forall x y z l, P l -> P (x :: y :: z :: l)) -> forall l, P l.
Proof.
  intros H0 H1 H2 H3. fix IH 1. intros [|x [|y [|z l]]]; [exact H0|exact (H1 x)|exact (H2 x y)|exact (H3 x y z l (IH l))].
Qed.

Ltac split_bytes H := repeat (let Hx := fresh "Hx" in apply Forall_cons in H as [Hx H]).

Lemma b64_chars_text v : Forall (fun c => 32 < c) (b64_chars v) /\ length (b64_chars v) = 4%nat.
Proof.
  split; [|done]. unfold b64_chars. apply Forall_map, Forall_true. intros s. apply b64_digit_char.
  change 63 with (Z.ones 6). rewrite Z.land_ones by lia. apply Z.mod_pos_bound. lia.
Qed.

(** A text has four characters for three bytes, or fewer, and no line ends. *)
Lemma b64_text l : Forall (fun c => 32 < c) (b64_EncodeToString l) /\ length (b64_EncodeToString l) = (4 * ((length l + 2) / 3))%nat.
Proof.
  induction l as [|x|x y|x y z l [IH1 IH2]] using three_ind; [done|..].
  - split; [|done]. cbn [b64_EncodeToString]. apply Forall_app_2; [by apply Forall_take, b64_chars_text|repeat constructor; lia].
  - split; [|done]. cbn [b64_EncodeToString]. apply Forall_app_2; [by apply Forall_take, b64_chars_text|repeat constructor; lia].
  - cbn [b64_EncodeToString]. destruct (b64_chars_text (be_get [x; y; z])) as [H1 H2]. split; [by apply Forall_app_2|].
    rewrite length_app, H2, IH2. simpl length. replace (S (S (S (length l))) + 2)%nat with (1 * 3 + (length l + 2))%nat by lia.
    rewrite Nat.div_add_l by lia. lia.
Qed.

(** A front part of the text gives a front part of the bytes, and what remains
    is the text of the others. *)
Lemma b64_chunk m : forall l, bytes_ok l ->
  b64_decode (take (4 * m) (b64_EncodeToString l)) = (take (3 * m) l, true) /\
  drop (4 * m) (b64_EncodeToString l) = b64_EncodeToString (drop (3 * m) l).
Proof.
  induction m as [|m IH]; intros l Hl; [by rewrite !take_0|].
  replace (4 * S m)%nat with (4 + 4 * m)%nat by lia. replace (3 * S m)%nat with (3 + 3 * m)%nat by lia.
  destruct l as [|x [|y [|z l]]]; split_bytes Hl.
  - by rewrite !take_nil, !drop_nil.
  - destruct (b64_text [x]) as [_ Hn]. rewrite take_ge, drop_ge by (rewrite Hn; simpl; lia).
    rewrite b64_decode_pad2 by done. split; [by rewrite take_ge by (simpl; lia)|by rewrite drop_ge by (simpl; lia)].
  - destruct (b64_text [x; y]) as [_ Hn]. rewrite take_ge, drop_ge by (rewrite Hn; simpl; lia).
    rewrite b64_decode_pad1 by done. split; [by rewrite take_ge by (simpl; lia)|by rewrite drop_ge by (simpl; lia)].
  - cbn [b64_EncodeToString]. destruct (b64_chars_text (be_get [x; y; z])) as [_ H4]. destruct (IH l Hl) as [IH1 IH2].
    rewrite !take_app_add', !drop_app_add' by done. rewrite b64_decode_group, IH1, IH2 by done. done.
Qed.

Lemma b64_round_trip l : bytes_ok l -> b64_DecodeString (b64_EncodeToString l) = Ret l.
Proof.
  intros Hl. unfold b64_DecodeString. destruct (b64_text l) as [Hp Hn]. rewrite strip_printable by done.
  destruct (b64_chunk ((length l + 2) / 3) l Hl) as [H _]. rewrite <- Hn, take_ge in H by lia. rewrite H.
  f_equal. apply take_ge. pose proof (Nat.div_mod (length l + 2) 3 ltac:(lia)). pose proof (Nat.mod_upper_bound (length l + 2) 3). lia.
Qed.

(** ** The streaming decoder *)

(** The decoder has given nothing but whole groups, and [b] is still to come. *)
Definition b64_rep (d : b64_decoder) (b : bytes) : Prop :=
  d_err d = None /\ d_eof d = false /\ d_buf d = [] /\
  exists l, bytes_ok l /\ d_src d = b64_EncodeToString l /\ b = d_out d ++ l.

Lemma b64_rep_new l : bytes_ok l -> b64_rep (NewDecoder (b64_EncodeToString l)) l.
Proof. intros Hl. split_and!; [done..|]. by exists l. Qed.

(** At the end, the text was read. *)
Lemma b64_rep_end d : b64_rep d [] -> d_src d = [].
Proof. intros (_ & _ & _ & l & _ & -> & Hb). symmetry in Hb. apply app_nil in Hb as [_ ->]. done. Qed.

Lemma take_length_take {A} n (l : list A) : take (length (take n l)) l = take n l.
Proof.
  rewrite length_take. destruct (Nat.le_ge_cases n (length l)); [by rewrite Nat.min_l|].
  rewrite Nat.min_r by done. by rewrite !take_ge.
Qed.

Lemma drop_split {A} j k (l : list A) : (k <= length (take j l))%nat -> drop k l = drop k (take j l) ++ drop j l.
Proof. intros H. by rewrite <- drop_app_le, take_drop. Qed.

Lemma chunk_size_4 n : exists m, chunk_size n = (4 * m)%nat /\ (0 < m)%nat.
Proof. exists (Nat.min 256 (Nat.max 1 (n / 3))). unfold chunk_size. lia. Qed.

Lemma refill_S fuel n d : refill (S fuel) n d =
  if (length (d_buf d) <? 4)%nat && negb (d_eof d) then
    let '(p, src, eof) := filtered_read (length (d_src d)) (chunk_size n - length (d_buf d)) (d_src d) in
    refill fuel n (mkDecoder src (d_buf d ++ p) (d_out d) (d_err d) eof)
  else d.
Proof. done. Qed.

Lemma refill_text n l out m : bytes_ok l -> l <> [] -> chunk_size n = (4 * m)%nat -> (0 < m)%nat ->
  refill 5 n (mkDecoder (b64_EncodeToString l) [] out None false) =
  mkDecoder (b64_EncodeToString (drop (3 * m) l)) (take (4 * m) (b64_EncodeToString l)) out None false.
Proof.
  intros Hl Hne Hm Hm0. destruct (b64_text l) as [Hp Hn]. destruct (b64_chunk m l Hl) as [_ Hd].
  assert (1 <= (length l + 2) / 3)%nat as H1 by (destruct l; [done|]; apply Nat.div_le_lower_bound; simpl; lia).
  rewrite refill_S. cbn [d_buf d_eof length Nat.ltb Nat.leb negb andb d_src d_out d_err]. rewrite Nat.sub_0_r, Hm.
  set (text := b64_EncodeToString l) in *.
  assert (filtered_read (length text) (4 * m) text = (take (4 * m) text, drop (4 * m) text, false)) as ->.
  { destruct (length text) as [|fuel] eqn:E; [lia|]. destruct text as [|c t]; [done|]. cbn [filtered_read].
    rewrite strip_printable by by apply Forall_take. destruct m as [|m]; [lia|]. done. }
  rewrite refill_S, Hd. cbn [app d_buf]. destruct (Nat.ltb_spec (length (take (4 * m) text)) 4) as [Hlt|]; [|done].
  rewrite length_take, Hn in Hlt. lia.
Qed.

Lemma b64_Read_rep n d b : b64_rep d b -> (0 < n <= length b)%nat -> exists k d', (0 < k <= n)%nat /\
  b64_Read n d = (take k b, None, d') /\ b64_rep d' (drop k b).
Proof.
  destruct d as [src buf out err eof]. intros (He & Heof & Hbuf & l & Hl & Hs & Hb) Hn. cbn in He, Heof, Hbuf, Hs, Hb. subst.
  destruct out as [|o out].
  - cbn [app] in *. destruct (chunk_size_4 n) as (m & Hm & Hm0).
    unfold b64_Read. cbn [d_out d_err]. rewrite (refill_text n l [] m) by (done || (destruct l; [simpl in Hn; lia|done])).
    cbn [d_buf d_src d_err d_eof]. destruct (b64_text l) as [_ Ht]. destruct (b64_chunk m l Hl) as [Hd _].
    assert (1 <= (length l + 2) / 3)%nat by (apply Nat.div_le_lower_bound; lia).
    set (text := b64_EncodeToString l) in *.
    assert (exists q, length (take (4 * m) text) = (4 * q)%nat /\ (0 < q)%nat) as (q & Hq & Hq0).
    { exists (Nat.min m ((length l + 2) / 3)). rewrite length_take. lia. }
    rewrite Hq. destruct (Nat.ltb_spec (4 * q) 4); [lia|]. replace (4 * q / 4 * 4)%nat with (4 * q)%nat by (rewrite (Nat.mul_comm 4 q), Nat.div_mul by lia; lia).
    rewrite take_ge, (drop_ge (take _ text)) by lia. rewrite Hd.
    exists (length (take n (take (3 * m) l))). eexists. split; [rewrite !length_take; lia|]. split.
    + f_equal. f_equal. by rewrite take_take, take_length_take.
    + split_and!; [done..|]. exists (drop (3 * m) l). split; [by apply Forall_drop|]. split; [done|]. cbn [d_out].
      rewrite (drop_split (3 * m)) by (rewrite (length_take _ n); lia). f_equal. rewrite length_take. destruct (Nat.le_ge_cases n (length (take (3 * m) l))).
      * by rewrite Nat.min_l.
      * rewrite Nat.min_r by done. rewrite !drop_ge by done. done.
  - unfold b64_Read. cbn [d_out]. exists (length (take n (o :: out))). eexists. split; [rewrite length_take; simpl; lia|]. split.
    + f_equal. f_equal. rewrite length_take. destruct (Nat.le_ge_cases n (length (o :: out))).
      * rewrite Nat.min_l by done. by rewrite take_app_le.
      * rewrite Nat.min_r by done. by rewrite take_app_length, take_ge.
    + split_and!; [done..|]. exists l. split; [done|]. split; [done|]. cbn [d_out]. rewrite length_take.
      rewrite drop_app_le by lia. f_equal. destruct (Nat.le_ge_cases n (length (o :: out))).
      * by rewrite Nat.min_l.
      * rewrite Nat.min_r by done. by rewrite !drop_ge.
Qed.

Lemma b64_loop_rep fuel : forall n acc d b rest, b64_rep d (b ++ rest) -> (length acc + length b = n)%nat -> b <> [] -> (length b <= fuel)%nat ->
  exists d', b64_ReadFull_loop fuel n acc d = (Ret (acc ++ b), d') /\ b64_rep d' rest.
Proof.
  induction fuel as [|fuel IH]; intros n acc d b rest Hr Hn Hne Hf; [destruct b; [done|simpl in Hf; lia]|].
  assert (0 < length b)%nat by (destruct b; [done|simpl; lia]).
  destruct (b64_Read_rep (n - length acc) d _ Hr) as (k & d' & Hk & E & Hr'); [rewrite length_app; lia|].
  cbn [b64_ReadFull_loop]. rewrite E. rewrite take_app_le by lia. rewrite drop_app_le in Hr' by lia.
  destruct (Nat.leb_spec n (length (acc ++ take k b))) as [Hle|Hlt]; rewrite length_app, length_take in *.
  - exists d'. rewrite take_ge by lia. split; [done|]. by rewrite drop_ge in Hr' by lia.
  - destruct (IH n (acc ++ take k b) d' (drop k b) rest Hr') as (d2 & E2 & Hr2).
    + rewrite length_app, length_take, length_drop. lia.
    + intros H0%(f_equal length). rewrite length_drop in H0. simpl in H0. lia.
    + rewrite length_drop. lia.
    + exists d2. rewrite E2, <- app_assoc, take_drop. done.
Qed.

#[export, program] Instance b64_yields : Yields b64_decoder := {| yields := b64_rep |}.
Next Obligation.
  intros n b rest d Hr Hl Hn. apply (b64_loop_rep n n [] d b rest Hr); [done|by destruct b; [simpl in Hl; lia|]|lia].
Qed.

(** A value that round trips is read back from its text, and the text is read
    to its end. *)
Lemma decode_b64 {A} (c : codec A) a : round_trips c a -> exists b d, marshal c a = Ret b /\ bytes_ok b /\
  decode c (NewDecoder (b64_EncodeToString b)) = (Ret a, d) /\ d_src d = [].
Proof.
  intros (b & E & Hb & R). exists b.
  destruct (R b64_decoder _ b64_yields [] (NewDecoder (b64_EncodeToString b))) as (d & Hd & Hy).
  - rewrite app_nil_r. by apply b64_rep_new.
  - exists d. split_and!; [done..|]. by apply b64_rep_end.
Qed.
