(* ===== verification/StellarXdrTheorems.v ===== *)
(** * Stellar transactions round trip

    Which values of the generated types survive marshalling and unmarshalling:
    instance [CodecOk] of every type, up to the transaction envelope. *)

From S2P Require Import Prelude Sha256 BigEndian Base58 Strkey Base64 Xdr StellarXdr StrkeyTheorems.

(** Proves that a union value round trips: its arm is found by evaluation. *)
Ltac union_arm sw := eapply (arm_round_trips _ _ _ sw); [intros; eexists; split; reflexivity|reflexivity|lia|lia|].
Ltac union_void sw := eapply (void_round_trips _ _ sw); [intros; eexists; split; reflexivity|reflexivity|lia|lia].

(** A struct: its fields, in a tuple, are those of the value. *)
Ltac struct_ok := intros a Ha; apply struct_round_trips; [by destruct a|by apply (wf_round_trips _ Ha)].

#[export, program] Instance c_AccountId_ok : CodecOk c_AccountId :=
  {| wf a := exists k, Ed25519 a = Some k /\ wf (c_fixed 32) k |}.
Next Obligation. intros [o] (k & Hk & H). cbn in Hk. subst o. apply (arm_round_trips (c_fixed 32) c_AccountId 1 0 k (fun k => mkAccountId (Some k)));
  [intros; eexists; split; reflexivity|reflexivity|lia|lia|by apply wf_round_trips]. Qed.

Definition wf_Asset (a : XAsset) : Prop :=
  match a with
  | AssetTypeNative => True
  | AssetTypeCreditAlphanum4 code issuer => wf (c_AssetAlphaNum 4) (code, issuer)
  | AssetTypeCreditAlphanum12 code issuer => wf (c_AssetAlphaNum 12) (code, issuer)
  end.
#[export, program] Instance c_Asset_ok : CodecOk c_Asset := {| wf := wf_Asset |}.
Next Obligation.
  intros [|code issuer|code issuer] H; [union_void 0|..].
  - apply (arm_round_trips (c_AssetAlphaNum 4) c_Asset 3 1 (code, issuer) (fun a => AssetTypeCreditAlphanum4 a.1 a.2));
      [intros; eexists; split; reflexivity|reflexivity|lia|lia|by apply wf_round_trips].
  - apply (arm_round_trips (c_AssetAlphaNum 12) c_Asset 3 2 (code, issuer) (fun a => AssetTypeCreditAlphanum12 a.1 a.2));
      [intros; eexists; split; reflexivity|reflexivity|lia|lia|by apply wf_round_trips].
Qed.

Definition key_bytes (k : SignerKey) : bytes :=
  match k with SignerKeyTypeEd25519 b | SignerKeyTypePreAuthTx b | SignerKeyTypeHashX b => b end.
#[export, program] Instance c_SignerKey_ok : CodecOk c_SignerKey := {| wf k := wf (c_fixed 32) (key_bytes k) |}.
Next Obligation. intros [k|k|k] H; [union_arm 0|union_arm 1|union_arm 2]; by apply wf_round_trips. Qed.

#[export, program] Instance c_Signer_ok : CodecOk c_Signer := {| wf s := wf (c_pair c_SignerKey c_uint32) (Key s, XWeight s) |}.
Next Obligation. struct_ok. Qed.

(** Structs: the condition on their fields. *)
#[export, program] Instance c_CreateAccountOp_ok : CodecOk c_CreateAccountOp :=
  {| wf o := wf (c_pair c_AccountId c_int64) (CA_Destination o, StartingBalance o) |}.
Next Obligation. struct_ok. Qed.
#[export, program] Instance c_PaymentOp_ok : CodecOk c_PaymentOp :=
  {| wf o := wf (c_pair c_AccountId (c_pair c_Asset c_int64)) (P_Destination o, (P_Asset o, P_Amount o)) |}.
Next Obligation. struct_ok. Qed.
#[export] Instance c_path_payment_ok : CodecOk c_path_payment := _.
#[export, program] Instance c_PathPaymentStrictReceiveOp_ok : CodecOk c_PathPaymentStrictReceiveOp :=
  {| wf o := wf c_path_payment (PR_SendAsset o, (SendMax o, (PR_Destination o, (PR_DestAsset o, (DestAmount o, PR_Path o))))) |}.
Next Obligation. struct_ok. Qed.
#[export, program] Instance c_PathPaymentStrictSendOp_ok : CodecOk c_PathPaymentStrictSendOp :=
  {| wf o := wf c_path_payment (PS_SendAsset o, (SendAmount o, (PS_Destination o, (PS_DestAsset o, (DestMin o, PS_Path o))))) |}.
Next Obligation. struct_ok. Qed.
#[export, program] Instance c_Price_ok : CodecOk c_Price := {| wf p := wf (c_pair c_int32 c_int32) (PriceN p, PriceD p) |}.
Next Obligation. struct_ok. Qed.
#[export, program] Instance c_ManageOfferOp_ok : CodecOk c_ManageOfferOp :=
  {| wf o := wf (c_pair c_Asset (c_pair c_Asset (c_pair c_int64 (c_pair c_Price c_int64))))
               (MO_Selling o, (MO_Buying o, (MO_Amount o, (MO_Price o, OfferId o)))) |}.
Next Obligation. struct_ok. Qed.
#[export, program] Instance c_CreatePassiveSellOfferOp_ok : CodecOk c_CreatePassiveSellOfferOp :=
  {| wf o := wf (c_pair c_Asset (c_pair c_Asset (c_pair c_int64 c_Price))) (CP_Selling o, (CP_Buying o, (CP_Amount o, CP_Price o))) |}.
Next Obligation. struct_ok. Qed.
#[export, program] Instance c_SetOptionsOp_ok : CodecOk c_SetOptionsOp :=
  {| wf o := wf (c_pair (c_ptr c_AccountId) (c_pair (c_ptr c_uint32) (c_pair (c_ptr c_uint32) (c_pair (c_ptr c_uint32) (c_pair (c_ptr c_uint32)
      (c_pair (c_ptr c_uint32) (c_pair (c_ptr c_uint32) (c_pair (c_ptr (c_opaque 32)) (c_ptr c_Signer)))))))))
      (InflationDest o, (XClearFlags o, (XSetFlags o, (XMasterWeight o, (XLowThreshold o,
      (XMedThreshold o, (XHighThreshold o, (XHomeDomain o, XSignerField o)))))))) |}.
Next Obligation. struct_ok. Qed.
#[export, program] Instance c_ChangeTrustOp_ok : CodecOk c_ChangeTrustOp :=
  {| wf o := wf (c_pair c_Asset c_int64) (CT_Line o, CT_Limit o) |}.
Next Obligation. struct_ok. Qed.
#[export, program] Instance c_AllowTrustOpAsset_ok : CodecOk c_AllowTrustOpAsset :=
  {| wf a := match a with AllowTrustCode4 c => wf (c_fixed 4) c | AllowTrustCode12 c => wf (c_fixed 12) c end |}.
Next Obligation. intros [c|c] H; [union_arm 1|union_arm 2]; by apply wf_round_trips. Qed.
#[export, program] Instance c_AllowTrustOp_ok : CodecOk c_AllowTrustOp :=
  {| wf o := wf (c_pair c_AccountId (c_pair c_AllowTrustOpAsset c_bool)) (Trustor o, (AT_Asset o, Authorize o)) |}.
Next Obligation. struct_ok. Qed.
#[export, program] Instance c_ManageDataOp_ok : CodecOk c_ManageDataOp :=
  {| wf o := wf (c_pair (c_opaque 64) (c_ptr (c_opaque 64))) (DataName o, DataValue o) |}.
Next Obligation. struct_ok. Qed.

Definition wf_OperationBody (b : OperationBody) : Prop :=
  match b with
  | BodyCreateAccount op => wf c_CreateAccountOp op
  | BodyPayment op => wf c_PaymentOp op
  | BodyPathPaymentStrictReceive op => wf c_PathPaymentStrictReceiveOp op
  | BodyManageSellOffer op | BodyManageBuyOffer op => wf c_ManageOfferOp op
  | BodyCreatePassiveSellOffer op => wf c_CreatePassiveSellOfferOp op
  | BodySetOptions op => wf c_SetOptionsOp op
  | BodyChangeTrust op => wf c_ChangeTrustOp op
  | BodyAllowTrust op => wf c_AllowTrustOp op
  | BodyAccountMerge d => wf c_AccountId d
  | BodyInflation => True
  | BodyManageData op => wf c_ManageDataOp op
  | BodyBumpSequence n => wf c_int64 n
  | BodyPathPaymentStrictSend op => wf c_PathPaymentStrictSendOp op
  end.
#[export, program] Instance c_OperationBody_ok : CodecOk c_OperationBody := {| wf := wf_OperationBody |}.
Next Obligation.
  intros [] H; [union_arm 0|union_arm 1|union_arm 2|union_arm 3|union_arm 4|union_arm 5|union_arm 6|union_arm 7|union_arm 8
    |union_void 9|union_arm 10|union_arm 11|union_arm 12|union_arm 13]; by apply wf_round_trips.
Qed.

#[export, program] Instance c_Operation_ok : CodecOk c_Operation :=
  {| wf o := wf (c_pair (c_ptr c_AccountId) c_OperationBody) (XO_SourceAccount o, Body o) |}.
Next Obligation. struct_ok. Qed.

Definition wf_Memo (m : XMemo) : Prop :=
  match m with
  | MemoTypeNone => True
  | MemoTypeText t => wf (c_opaque 28) t
  | MemoTypeId n => wf c_uint64 n
  | MemoTypeHash h | MemoTypeReturn h => wf (c_fixed 32) h
  end.
#[export, program] Instance c_Memo_ok : CodecOk c_Memo := {| wf := wf_Memo |}.
Next Obligation. intros [] H; [union_void 0|union_arm 1|union_arm 2|union_arm 3|union_arm 4]; by apply wf_round_trips. Qed.

#[export, program] Instance c_TimeBounds_ok : CodecOk c_TimeBounds := {| wf t := wf (c_pair c_uint64 c_uint64) (XMinTime t, XMaxTime t) |}.
Next Obligation. struct_ok. Qed.

#[export, program] Instance c_TransactionExt_ok : CodecOk c_TransactionExt := {| wf _ := True |}.
Next Obligation.
  intros [] _. exists (EncodeInt 0). split_and!; [done|apply put_ok|]. intros.
  eapply xdr_reads_bind_ret; [apply (reads_Int 0); unfold is_int; lia|]. apply xdr_reads_ret.
Qed.

(** A well-formed transaction: keys of 32 bytes, numbers in their ranges, at
    most 100 operations. *)
#[export, program] Instance c_Transaction_ok : CodecOk c_Transaction :=
  {| wf t := wf (c_pair c_AccountId (c_pair c_uint32 (c_pair c_int64 (c_pair (c_ptr c_TimeBounds) (c_pair c_Memo
      (c_pair (c_array 100 c_Operation) c_TransactionExt))))))
      (X_SourceAccount t, (Fee t, (SeqNum t, (X_TimeBounds t, (X_Memo t, (X_Operations t, tt)))))) |}.
Next Obligation. struct_ok. Qed.

#[export, program] Instance c_DecoratedSignature_ok : CodecOk c_DecoratedSignature :=
  {| wf s := wf (c_pair (c_fixed 4) (c_opaque 64)) (Hint s, Signature s) |}.
Next Obligation. struct_ok. Qed.

#[export, program] Instance c_TransactionEnvelope_ok : CodecOk c_TransactionEnvelope :=
  {| wf e := wf (c_pair c_Transaction (c_array 20 c_DecoratedSignature)) (Tx e, Signatures e) |}.
Next Obligation. struct_ok. Qed.
