(* ===== verification/TxnBuildTheorems.v ===== *)
(** * Built transactions: what they hold, and reading them back *)

From S2P Require Import Prelude Sha256 BigEndian Base58 Decimal Cli Strkey Base64 Xdr StellarXdr TxnBuild StrkeyTheorems Base64Theorems StellarXdrTheorems.

#[local] Opaque sha256 crc16_loop b32_EncodeToString.

(** ** Addresses *)

(** A key of 32 bytes, and its address. *)
Definition key_ok (k : bytes) : Prop := zlen k = 32 /\ bytes_ok k.
Definition address (k : bytes) : bytes := key_text VersionByteAccountID k.
Definition account_id (k : bytes) : AccountId := mkAccountId (Some k).

Lemma account_id_wf k : key_ok k -> wf c_AccountId (account_id k).
Proof. intros [H1 H2]. by exists k. Qed.

Lemma Decode_address k : key_ok k -> Decode VersionByteAccountID (address k) = Ret k.
Proof. intros [H1 H2]. unfold address. rewrite Decode_text by done. done. Qed.

Lemma SetAddress_address k : key_ok k -> AccountId_SetAddress (address k) = Ret (account_id k).
Proof. intros Hk. unfold AccountId_SetAddress. rewrite Decode_address by done. cbn [mbind outcome_bind]. destruct Hk as [-> _]. done. Qed.

Lemma Address_account_id k : AccountId_Address (account_id k) = Ret (address k).
Proof. unfold AccountId_Address, MustEncode. cbn [Ed25519 account_id]. by rewrite Encode_text. Qed.

Lemma Parse_address k : key_ok k -> keypair_Parse (address k) = Ret (FromAddress (address k)).
Proof. intros Hk. unfold keypair_Parse. by rewrite Decode_address. Qed.

(** An address starts with the letter G. *)
Lemma address_G k : key_ok k -> exists r, address k = 71 :: r.
Proof.
  intros [H1 H2]. destruct (raw_ok VersionByteAccountID k eq_refl H1 H2) as [Hl Hb]. unfold address, key_text.
  set (raw := (VersionByteAccountID :: k) ++ crc16_Checksum (VersionByteAccountID :: k)) in *.
  Transparent b32_EncodeToString. unfold b32_EncodeToString. rewrite Hl. cbn [b32_encode].
  assert (exists q, raw = 48 :: q) as [q Hq] by by eexists.
  rewrite Hq in Hl |- *. simpl in Hl. destruct q as [|q1 [|q2 [|q3 [|q4 q]]]]; try (simpl in Hl; lia).
  change (take 5 (48 :: q1 :: q2 :: q3 :: q4 :: q)) with [48; q1; q2; q3; q4]. rewrite b32_quantum_5 by done.
  rewrite Hq in Hb. repeat (apply Forall_cons in Hb as [? Hb]). unfold is_byte in *.
  assert (digits32 8 (be_get [48; q1; q2; q3; q4]) = 6 :: digits32 7 (be_get [48; q1; q2; q3; q4])) as ->; [|by eexists].
  cbn [digits32]. f_equal. change 31 with (Z.ones 5). rewrite Z.land_ones, Z.shiftr_div_pow2 by lia. unfold be_get. simpl foldl.
  change (2 ^ (5 * Z.of_nat 7)) with 34359738368. change (2 ^ 5) with 32. Z.div_mod_to_equations. lia.
Qed.

Lemma address_cons k : key_ok k -> exists c r, address k = c :: r.
Proof. intros Hk. destruct (address_G k Hk) as [r ->]. eauto. Qed.

Lemma valid_address k : key_ok k -> validateStellarPublicKey (address k) = Ret tt.
Proof.
  intros Hk. unfold validateStellarPublicKey, IsValidEd25519PublicKey. rewrite Decode_address by done.
  destruct Hk as [H1 H2]. unfold address. by rewrite key_text_56.
Qed.

(** The three kinds of signers. *)
Lemma signer_of_text v k : version_byte v -> v <> VersionByteSeed -> key_ok k -> exists key,
  SignerKey_SetAddress (key_text v k) = Ret key /\ SignerKey_Address key = Ret (key_text v k) /\ key_bytes key = k /\
  key = if v =? VersionByteAccountID then SignerKeyTypeEd25519 k
        else if v =? VersionByteHashX then SignerKeyTypeHashX k else SignerKeyTypePreAuthTx k.
Proof.
  intros Hv Hs [H1 H2]. unfold SignerKey_SetAddress. rewrite strkey_Version_text by done. cbn [mapErr mbind outcome_bind].
  assert (Decode v (key_text v k) = Ret k) as HD by (rewrite Decode_text by done; by rewrite Z.eqb_refl).
  assert (forall c : bytes -> SignerKey, (raw ← Decode v (key_text v k); _ ← guard_err (negb (zlen raw =? 32)) errInvalidAddress; Ret (c raw)) = Ret (c k)) as HR
    by (intros c; rewrite HD; cbn [mbind outcome_bind]; by rewrite H1).
  apply version_byte_cases in Hv. destruct Hv as [->|[->|[->| ->]]]; [|done|..].
  - exists (SignerKeyTypeEd25519 k). split; [apply (HR SignerKeyTypeEd25519)|]. split; [|done].
    unfold SignerKey_Address, MustEncode. by rewrite Encode_text.
  - exists (SignerKeyTypePreAuthTx k). split; [apply (HR SignerKeyTypePreAuthTx)|]. split; [|done].
    unfold SignerKey_Address, MustEncode. by rewrite Encode_text.
  - exists (SignerKeyTypeHashX k). split; [apply (HR SignerKeyTypeHashX)|]. split; [|done].
    unfold SignerKey_Address, MustEncode. by rewrite Encode_text.
Qed.

(** ** Amounts *)

Lemma zlen_dec_nat n k : 0 <= n < 10 ^ k -> 0 < k -> zlen (dec_nat n) <= k.
Proof.
  intros Hn Hk. destruct (dec_nat_spec n (proj1 Hn)) as (H1 & H2 & H3 & H4).
  destruct (Z.eq_dec n 0) as [->|Hn0]; [vm_compute (zlen _); lia|].
  destruct H4 as (c & r & Hc & Hne); [lia|]. rewrite Hc in *. apply Forall_cons in H1 as [Hc1 Hr].
  rewrite digits_value_cons in H3. pose proof (digits_value_range r Hr) as Hv. rewrite zlen_cons.
  destruct (Z.le_gt_cases (1 + zlen r) k); [done|]. pose proof (Z.pow_le_mono_r 10 k (zlen r) ltac:(lia) ltac:(lia)). nia.
Qed.

(** A text with seven decimals, in front of which there may be a minus. *)
Lemma amount_parts v : is_int 64 v -> exists whole frac, digits_ok whole /\ whole <> [] /\ digits_ok frac /\ length frac = 7%nat /\
  zlen whole <= 12 /\ digits_value (whole ++ frac) = Z.abs v /\
  amount_String v = (if v <? 0 then [45] else []) ++ whole ++ 46 :: frac.
Proof.
  unfold is_int. change (2 ^ (64 - 1)) with 9223372036854775808. intros Hv. unfold amount_String.
  set (q := Z.abs v / One). set (r := Z.abs v mod One).
  assert (0 <= q < 10 ^ 12 /\ 0 <= r < 10 ^ 7 /\ Z.abs v = q * 10 ^ 7 + r) as (Hq & Hr & Hqr).
  { unfold One in *. subst q r. change (10 ^ 7) with 10000000. change (10 ^ 12) with 1000000000000.
    Z.div_mod_to_equations. lia. }
  destruct (dec_nat_spec q (proj1 Hq)) as (Hq1 & Hq2 & Hq3 & _), (dec_nat_spec r (proj1 Hr)) as (Hr1 & Hr2 & Hr3 & _).
  pose proof (zlen_dec_nat r 7 Hr ltac:(lia)) as Hl. unfold zlen in Hl.
  exists (dec_nat q), (replicate (7 - length (dec_nat r)) 48 ++ dec_nat r). split_and!; try done.
  - apply Forall_app_2; [apply Forall_replicate; lia|done].
  - rewrite length_app, length_replicate. lia.
  - by apply zlen_dec_nat.
  - rewrite digits_value_app, digits_value_app, digits_value_zeros, Hq3, Hr3. rewrite zlen_app. unfold zlen.
    rewrite length_replicate. replace (Z.of_nat _ + Z.of_nat _) with 7 by lia. lia.
Qed.

(** Amounts round trip. The text that [amount.String] gives for any 64-bit
    number of stroops is accepted by [ParseInt64], which returns the number; so
    the balances that Horizon reports can be spent exactly. *)
Theorem amount_round_trip v : is_int 64 v -> amount_ParseInt64 (amount_String v) = Ret v.
Proof.
  intros Hv. destruct (amount_parts v Hv) as (whole & frac & Hw & Hne & Hf & Hl & Hlw & Hval & ->).
  assert (digits_ok (whole ++ frac)) as Hwf by by apply Forall_app_2.
  assert (whole ++ frac <> []) as Hwfne by (by destruct whole).
  assert (forallb (fun c => (c =? 46) || is_digit c) (whole ++ 46 :: frac) = true) as Hall.
  { rewrite forallb_app. cbn [forallb]. apply andb_true_intro.
    split; apply forallb_forall; intros c Hc.
    - apply list_elem_of_In in Hc. rewrite Forall_forall in Hw. specialize (Hw c Hc). unfold is_digit. lia.
    - apply list_elem_of_In in Hc. rewrite Forall_forall in Hf. specialize (Hf c Hc). unfold is_digit. lia. }
  assert (zlen (whole ++ 46 :: frac) = zlen whole + 8) as Hlen.
  { rewrite zlen_app, zlen_cons. unfold zlen. lia. }
  assert (1 <= zlen whole) as Hw1 by (destruct whole; [done|]; rewrite zlen_cons; pose proof (zlen_nonneg whole); lia).
  assert (hd 0 (whole ++ 46 :: frac) <> 45) as Hhd.
  { destruct whole as [|c w]; [done|]. apply Forall_cons in Hw as [? _]. simpl. lia. }
  set (body := whole ++ 46 :: frac) in *.
  assert (split_minus ((if v <? 0 then [45] else []) ++ body) = (v <? 0, body)) as Hsm.
  { destruct (v <? 0); [done|]. cbn [app]. destruct body as [|c r]; [by destruct whole|]. simpl in Hhd.
    unfold split_minus. by destruct (Z.eqb_spec c 45). }
  assert (Rat_SetString ((if v <? 0 then [45] else []) ++ body) = Some (v, 7%nat)) as HR.
  { unfold Rat_SetString. rewrite Hsm. unfold body. rewrite split_dot_app by done. cbn [default].
    cbn [from_option id]. rewrite scan_nat_digits by done. rewrite Hval, Hl.
    cbn [mbind option_bind]. destruct (Z.ltb_spec v 0); repeat f_equal; lia. }
  unfold amount_ParseInt64. assert (validAmountSimple ((if v <? 0 then [45] else []) ++ body) = true) as ->.
  { unfold validAmountSimple. rewrite Hsm. cbn [snd]. rewrite Hall, Hlen. cbn [andb]. apply andb_true_intro. lia. }
  rewrite HR. cbn [negb of_option mbind outcome_bind]. change (10 ^ Z.of_nat 7) with One.
  rewrite Z_mod_mult, Z_div_mult by (unfold One; lia). unfold ParseInt. rewrite SetString10_String.
  unfold is_int in Hv. change (2 ^ (64 - 1)) with (2 ^ 63) in Hv. replace ((- 2 ^ 63 <=? v) && (v <? 2 ^ 63)) with true; [done|].
  symmetry. apply andb_true_intro. lia.
Qed.

Lemma amount_round_trip_witness : is_int 64 (- 2 ^ 63) /\ amount_ParseInt64 (amount_String (- 2 ^ 63)) = Ret (- 2 ^ 63).
Proof. split; [unfold is_int; lia|]. apply (amount_round_trip (- 2 ^ 63)). unfold is_int. lia. Defined.

(** ** Sequence numbers *)

Lemma ParseUint_dec n : 0 <= n < 2 ^ 64 -> ParseUint (dec_nat n) = Ret n.
Proof.
  intros Hn. destruct (dec_nat_spec n (proj1 Hn)) as (H1 & H2 & H3 & _). unfold ParseUint.
  rewrite scan_nat_digits, H3 by done. destruct (Z.ltb_spec n (2 ^ 64)); [done|lia].
Qed.

Definition set_Sequence (a : HAccount) (s : Z) : HAccount :=
  mkHAccount (AccountID a) (dec_nat s) (AccountThresholds a) (Balances a) (Signers a).

Lemma increment_dec a s : Sequence a = dec_nat s -> 0 <= s < 2 ^ 63 - 1 ->
  HAccount_IncrementSequenceNumber a = Ret (s + 1, set_Sequence a (s + 1)).
Proof.
  intros Ha Hs. unfold HAccount_IncrementSequenceNumber, GetSequenceNumber. rewrite Ha, ParseUint_dec by lia. cbn [mapErr mbind outcome_bind].
  rewrite (to_int_id 64 s) by (lia || (unfold is_int; lia)). rewrite (to_int_id 64 (s + 1)) by (lia || (unfold is_int; lia)).
  unfold Int_String. destruct (Z.ltb_spec (s + 1) 0); [lia|]. rewrite ParseUint_dec by lia. cbn [mapErr mbind outcome_bind].
  by rewrite (to_int_id 64 (s + 1)) by (lia || (unfold is_int; lia)).
Qed.

(** ** Build *)

(** The transaction that [Build] makes for an account with key [k]. *)
Definition built_xdr (k : bytes) (seq : Z) (xs : list XOperation) (tb : Timebounds) : XTransaction :=
  mkXTransaction (account_id k) (to_uint 32 (100 * zlen xs)) seq
    (Some (mkTimeBounds (to_uint 64 (MinTime tb)) (to_uint 64 (MaxTime tb)))) MemoTypeNone xs.

Definition built (account : Account) (ops : list Operation) (tb : Timebounds) (network : bytes) (x : XTransaction) : Transaction Operation :=
  mkTransaction account ops 100 None tb network x (Some (mkTransactionEnvelope x [])).

Lemma Build_ok source k ops tb network seq source' xs :
  GetAccountID source = address k -> key_ok k -> IncrementSequenceNumber source = Ret (seq, source') ->
  build_ops ops = Ret xs -> Timebounds_Validate tb = Ret tt ->
  Build (newTransaction source ops tb network) = Ret (built source' ops tb network (built_xdr k seq xs tb)).
Proof.
  intros Ha Hk Hi Ho Ht. unfold Build, newTransaction. cbn [xdrEnvelope guard_err mbind outcome_bind T_SourceAccount Operations T_Timebounds T_Memo BaseFee Network].
  rewrite Ha, Parse_address, SetAddress_address, Hi, Ho, Ht by done. destruct (address_G k Hk) as [r ->]. done.
Qed.

(** What a built transaction is. *)
Lemma Build_Ret source k ops tb network tx :
  GetAccountID source = address k -> key_ok k -> Build (newTransaction source ops tb network) = Ret tx ->
  exists seq source' xs, IncrementSequenceNumber source = Ret (seq, source') /\ build_ops ops = Ret xs /\
    Timebounds_Validate tb = Ret tt /\ tx = built source' ops tb network (built_xdr k seq xs tb).
Proof.
  intros Ha Hk H. pose proof H as H'. unfold Build, newTransaction in H'. cbn [xdrEnvelope guard_err mbind outcome_bind T_SourceAccount Operations T_Timebounds T_Memo BaseFee Network] in H'.
  rewrite Ha, Parse_address, SetAddress_address in H' by done. destruct (address_G k Hk) as [r Er]. rewrite Er in H'. cbn [Z.eqb negb guard_err mbind outcome_bind] in H'.
  destruct (IncrementSequenceNumber source) as [[seq source']|e|e] eqn:Hi; try discriminate. cbn [mapErr mbind outcome_bind] in H'.
  destruct (build_ops ops) as [xs|e|e] eqn:Ho; try discriminate. cbn [mbind outcome_bind] in H'.
  destruct (Timebounds_Validate tb) as [[]|e|e] eqn:Ht; try discriminate. exists seq, source', xs. split_and!; try done.
  rewrite (Build_ok source k ops tb network seq source' xs) in H by done. by injection H as <-.
Qed.

(** ** Well-formed operations *)

Lemma b32_decode_ok fuel : forall s b, b32_decode fuel s = Ret b -> bytes_ok b.
Proof.
  induction fuel as [|fuel IH]; intros s b H; [by injection H as <-|]. destruct s as [|c s]; [by injection H as <-|].
  cbn [b32_decode] in H. destruct (b32_read (c :: s) 0 []) as [[[dbuf stop] src]|e|e]; try discriminate. cbn [mbind outcome_bind] in H.
  assert (bytes_ok (b32_bytes dbuf)) as H1 by (apply Forall_take, put_ok).
  destruct stop; [injection H as <-; by apply Forall_app_2|].
  destruct (b32_decode fuel src) as [r|e|e] eqn:E; try discriminate. injection H as <-. apply Forall_app_2; [done|by eapply IH].
Qed.

Lemma Decode_ok v s p : Decode v s = Ret p -> bytes_ok p.
Proof.
  unfold Decode, decodeString. destruct (b32_DecodeString s) as [raw|e|e] eqn:E; intros H; go_inv H; [|done..].
  apply Forall_drop, Forall_take. case_match; [done|]. simplify_eq. by apply b32_decode_ok in E.
Qed.

Lemma SetAddress_wf a id : AccountId_SetAddress a = Ret id -> wf c_AccountId id.
Proof.
  unfold AccountId_SetAddress. intros H. go_inv H. match goal with H : negb (_ =? _) = false |- _ => apply negb_false_iff, Z.eqb_eq in H end.
  eexists. split; [done|]. split; [done|by eapply Decode_ok].
Qed.

Lemma Signer_SetAddress_wf a key : SignerKey_SetAddress a = Ret key -> wf c_SignerKey key.
Proof.
  unfold SignerKey_SetAddress. intros H. go_inv H. match goal with H : negb (_ =? _) = false |- _ => apply negb_false_iff, Z.eqb_eq in H end.
  match goal with H : Decode _ _ = Ret _ |- _ => apply Decode_ok in H end.
  repeat case_match; simplify_eq; by split.
Qed.

(** What [BuildXDR] relies on: the source of an operation is an address; codes
    and home domains are bytes; weights and flags fit their types. *)
Definition source_ok (s : option bytes) : Prop := from_option (fun a => is_Ret (AccountId_SetAddress a) = true) True s.
Definition asset_ok (a : Asset) : Prop := match a with NativeAsset => True | CreditAsset code _ => bytes_ok code end.
Definition weight_ok (o : option Z) : Prop := from_option (fun w => 0 <= w < 256) True o.
Definition op_ok (op : Operation) : Prop :=
  match op with
  | CreateAccount _ _ s | AccountMerge _ s => source_ok s
  | Payment _ _ a s | ChangeTrust a _ s => asset_ok a /\ source_ok s
  | SetOptions _ setf clearf m l me h domain signer s =>
      wf (c_ptr c_uint32) (flags_mask setf) /\ wf (c_ptr c_uint32) (flags_mask clearf) /\ weight_ok m /\ weight_ok l /\ weight_ok me /\ weight_ok h /\
      from_option bytes_ok True domain /\ weight_ok (Weight <$> signer) /\ source_ok s
  end.

Lemma source_wf s : source_ok s -> wf (c_ptr c_AccountId) (SetOpSourceAccount s).
Proof.
  destruct s as [a|]; [|done]. cbn. destruct (AccountId_SetAddress a) as [id|e|e] eqn:E; [intros _; by apply SetAddress_wf in E|done..].
Qed.

Lemma weight_wf o : weight_ok o -> wf (c_ptr c_uint32) o.
Proof. destruct o as [w|]; [|done]. cbn. unfold is_uint. lia. Qed.

Lemma amount_int64 s v : amount_ParseInt64 s = Ret v -> is_int 64 v.
Proof.
  unfold amount_ParseInt64. destruct (validAmountSimple s); [|done]. cbn [negb]. intros H.
  apply bind_Ret in H as ([m k] & _ & H). destruct (_ mod _ =? 0); [|done]. cbn [negb] in H. apply mapErr_Ret in H.
  unfold ParseInt in H. destruct (SetString10 _) as [n|]; [|done]. destruct ((- 2 ^ 63 <=? n) && (n <? 2 ^ 63)) eqn:E; [|done].
  injection H as <-. apply andb_prop in E as [E1 E2]. unfold is_int. change (64 - 1) with 63. lia.
Qed.

Lemma pad_code_ok n code : bytes_ok code -> wf (c_fixed (Z.of_nat n)) (pad_code n code).
Proof.
  intros Hc. split.
  - unfold pad_code, zlen. rewrite length_take, length_app, length_replicate. lia.
  - apply Forall_take, Forall_app_2; [done|]. apply Forall_replicate. unfold is_byte. lia.
Qed.

Lemma ToXDR_wf a x : asset_ok a -> Asset_ToXDR a = Ret x -> wf c_Asset x.
Proof.
  destruct a as [|code issuer]; [by intros _ [= <-]|]. cbn [asset_ok Asset_ToXDR]. intros Hc H. go_inv H.
  match goal with H : AccountId_SetAddress _ = _ |- _ => apply SetAddress_wf in H as Hi end. unfold SetCredit in H.
  repeat case_match; simplify_eq; (split; [|done]); [by apply (pad_code_ok 4)|by apply (pad_code_ok 12)].
Qed.

Lemma opt_map_Ret {A B} (f : A -> outcome B) o r : opt_map f o = Ret r ->
  match o with None => r = None | Some a => exists b, f a = Ret b /\ r = Some b end.
Proof. destruct o as [a|]; cbn; [|congruence]. intros (b & Hb & [= <-])%bind_Ret. eauto. Qed.

Lemma BuildXDR_wf op x : op_ok op -> BuildXDR op = Ret x -> wf c_Operation x.
Proof.
  destruct op as [d a s|d a asset s|line limit s|i setf clearf m l me h domain signer s|d s]; cbn [op_ok BuildXDR]; autounfold with operation; intros Hok H; go_inv H.
  - split; [by apply source_wf|]. split; [by eapply SetAddress_wf|by eapply amount_int64].
  - destruct Hok as [Ha Hs]. split; [by apply source_wf|]. split; [by eapply SetAddress_wf|]. split; [by eapply ToXDR_wf|by eapply amount_int64].
  - destruct Hok as [Ha Hs]. split; [by apply source_wf|]. split; [by eapply ToXDR_wf|by eapply amount_int64].
  - destruct Hok as (Hf1 & Hf2 & Hm & Hl & Hme & Hh & Hd & Hw & Hs). split; [by apply source_wf|].
    repeat match goal with H : opt_map _ _ = Ret _ |- _ => apply opt_map_Ret in H end.
    split; [|split; [done|split; [done|split; [by apply weight_wf|split; [by apply weight_wf|split; [by apply weight_wf|split; [by apply weight_wf|split]]]]]]];
      cbn [fst snd].
    + destruct i; [|by subst]. destruct Hr as (b & Hb & ->). cbn. by eapply SetAddress_wf.
    + destruct domain as [dm|]; [|by subst]. destruct Hr0 as (b & Hb & ->). unfold handleHomeDomain in Hb.
      destruct (Z.ltb_spec 32 (zlen dm)); [done|]. injection Hb as <-. by split_and!.
    + destruct signer as [sg|]; [|by subst]. destruct Hr1 as (b & Hb & ->). unfold handleSigner in Hb. go_inv Hb.
      split; [by eapply Signer_SetAddress_wf|]. change (0 <= Weight sg < 256) in Hw. unfold is_uint. simpl. lia.
  - split; [by apply source_wf|]. by eapply SetAddress_wf.
Qed.

Lemma build_ops_wf ops xs : Forall op_ok ops -> build_ops ops = Ret xs -> Forall (wf c_Operation) xs /\ length xs = length ops.
Proof.
  intros Hok. revert xs. induction Hok as [|op ops Hop _ IH]; intros xs H; [by injection H as <-|].
  cbn [build_ops] in H. go_inv H. match goal with H : build_ops _ = _ |- _ => destruct (IH _ H) as [H1 H2] end.
  split; [constructor; [by eapply BuildXDR_wf|done]|by simpl; f_equal].
Qed.

Lemma built_wf k seq xs tb : key_ok k -> is_int 64 seq -> Forall (wf c_Operation) xs -> (length xs <= 100)%nat ->
  wf c_Transaction (built_xdr k seq xs tb).
Proof.
  intros Hk Hs Hx Hl. split; [by apply account_id_wf|]. split; [by apply (to_uint_range 32)|]. split; [done|].
  split; [split; by apply (to_uint_range 64)|]. split; [done|]. split; [|done]. split_and!; [done| |done]. change (zlen xs <= 100). unfold zlen. lia.
Qed.

Lemma envelope_wf t sigs : wf c_Transaction t -> Forall (wf c_DecoratedSignature) sigs -> zlen sigs <= 20 ->
  wf c_TransactionEnvelope (mkTransactionEnvelope t sigs).
Proof. intros Ht Hs Hl. split; [exact Ht|]. split; [exact Hs|]. split; [exact Hl|]. reflexivity. Qed.

(** ** Reading a transaction back *)

Lemma wf_Address a : wf c_AccountId a -> exists t, AccountId_Address a = Ret t.
Proof.
  destruct a as [o]. intros (k & Hk & _). cbn in Hk. subst o. exists (address k). apply Address_account_id.
Qed.

Lemma wf_opt_Address o : wf (c_ptr c_AccountId) o -> exists t, accountFromXDR o = Ret t.
Proof. destruct o as [a|]; [|by eexists]. intros H. destruct (wf_Address a H) as [t Ht]. eexists. cbn. by rewrite Ht. Qed.

Lemma wf_assetFromXDR x : wf c_Asset x -> exists a, assetFromXDR x = Ret a.
Proof.
  destruct x as [|c i|c i]; [by eexists|..]; intros [_ H]; destruct (wf_Address i H) as [t Ht]; eexists; cbn; by rewrite Ht.
Qed.

Lemma key_Address k : exists t, SignerKey_Address k = Ret t.
Proof. destruct k; unfold SignerKey_Address, MustEncode; rewrite Encode_text by done; eauto. Qed.

(** Operations are read, unless a data entry has no value. *)
Definition has_value (x : XOperation) : bool :=
  match Body x with BodyManageData (mkManageDataOp _ None) => false | _ => true end.

Lemma operationFromXDR_ok x : wf c_Operation x -> has_value x = true -> exists o, operationFromXDR x = Ret o.
Proof.
  destruct x as [source body]. intros [Hs Hb] Hv. unfold operationFromXDR. cbn [fst snd] in *. cbn [XO_SourceAccount Body].
  destruct (wf_opt_Address source Hs) as [src ->]. cbn [mbind outcome_bind].
  destruct body as [op|op|op|op|op|op|op|op|d| |[n [v|]]|n|op|op]; first [done|by eexists|autounfold with operation].
  - destruct Hb as [Hd _]. destruct (wf_Address _ Hd) as [t Ht]. cbn [fst snd] in Ht. rewrite Ht. by eexists.
  - destruct Hb as (Hd & Ha & _). destruct (wf_Address _ Hd) as [t Ht], (wf_assetFromXDR _ Ha) as [a Ea]. cbn [fst snd] in *. rewrite Ht. cbn [mbind outcome_bind]. rewrite Ea. by eexists.
  - destruct Hb as (Hi & _ & _ & _ & _ & _ & _ & _ & _). destruct (wf_opt_Address _ Hi) as [t Ht]. unfold accountFromXDR in Ht. cbn [fst snd] in Ht.
    rewrite Ht. cbn [mbind outcome_bind]. destruct (XSignerField op) as [sg|]; [|by eexists].
    destruct (key_Address (Key sg)) as [u Hu]. cbn [opt_map]. unfold signerFromXDR. rewrite Hu. by eexists.
  - destruct Hb as [Ha _]. destruct (wf_assetFromXDR _ Ha) as [a Ea]. cbn [fst snd] in Ea. rewrite Ea. by eexists.
  - destruct (wf_Address d Hb) as [t Ht]. rewrite Ht. by eexists.
Qed.

Lemma operations_from_ok xs : Forall (wf c_Operation) xs -> forallb has_value xs = true ->
  exists os, operations_from xs = Ret os /\ length os = length xs.
Proof.
  induction 1 as [|x xs Hx _ IH]; [by exists []|]. cbn [forallb]. intros [Hv H]%andb_prop.
  destruct (operationFromXDR_ok x Hx Hv) as [o Ho], (IH H) as (os & Hos & Hl).
  exists (o :: os). cbn [operations_from]. rewrite Ho, Hos. split; [done|]. simpl. by f_equal.
Qed.

(** The transaction that is read from a well-formed envelope. *)
Definition read_tx (env : TransactionEnvelope) (id : bytes) (ops : list ParsedOperation) : Transaction ParsedOperation :=
  mkTransaction (SimpleAccount id (SeqNum (Tx env))) ops
    (if 0 <? zlen (X_Operations (Tx env)) then Fee (Tx env) / zlen (X_Operations (Tx env)) else 0)
    (memoFromXDR (X_Memo (Tx env)))
    match X_TimeBounds (Tx env) with
    | Some t => NewTimebounds (to_int 64 (XMinTime t)) (to_int 64 (XMaxTime t))
    | None => mkTimebounds 0 0 false
    end [] (Tx env) (Some env).

(** The text of an envelope, and what is read from it. *)
Lemma text_read_back {Op} (tx : Transaction Op) env : xdrEnvelope tx = Some env -> wf c_TransactionEnvelope env ->
  forallb has_value (X_Operations (Tx env)) = true ->
  exists text id ops, Transaction_Base64 tx = Ret text /\ AccountId_Address (X_SourceAccount (Tx env)) = Ret id /\
    operations_from (X_Operations (Tx env)) = Ret ops /\ length ops = length (X_Operations (Tx env)) /\
    TransactionFromXDR text = Ret (read_tx env id ops).
Proof.
  intros He Hwf Hv. destruct (decode_b64 c_TransactionEnvelope env (wf_round_trips env Hwf)) as (b & d & Em & Hb & Ed & Hd).
  destruct Hwf as [(Hs & _ & _ & _ & _ & (Hops & _) & _) _]. cbn [fst snd] in Hs, Hops.
  destruct (wf_Address _ Hs) as [id Hid], (operations_from_ok _ Hops Hv) as (ops & Hos & Hl).
  exists (b64_EncodeToString b), id, ops. split_and!; try done.
  - unfold Transaction_Base64, MarshalBinary. by rewrite He, Em.
  - assert (SafeUnmarshalBase64 c_TransactionEnvelope (b64_EncodeToString b) = Ret env) as HS
      by (unfold SafeUnmarshalBase64; rewrite Ed; cbn [mbind outcome_bind]; by rewrite Hd).
    unfold TransactionFromXDR. rewrite HS. cbn [mapErr mbind outcome_bind]. rewrite Hid, Hos. done.
Qed.

(** C31: The text of a transaction is the transaction. For an envelope whose keys,
    numbers and operations are well formed (as those that the tool builds), the
    text is read back, to its last character, to the same transaction and
    signatures: the other party hashes and submits exactly what was printed. *)
Theorem transaction_text_round_trip {Op} (tx : Transaction Op) env :
  xdrEnvelope tx = Some env -> xdrTransaction tx = Tx env -> wf c_TransactionEnvelope env ->
  forallb has_value (X_Operations (Tx env)) = true ->
  exists text tx', Transaction_Base64 tx = Ret text /\ TransactionFromXDR text = Ret tx' /\
    xdrEnvelope tx' = Some env /\ Transaction_Base64 tx' = Ret text /\ length (Operations tx') = length (X_Operations (Tx env)) /\
    forall network, HashTransaction (xdrTransaction tx') network = HashTransaction (xdrTransaction tx) network.
Proof.
  intros He Hx Hwf Hv. destruct (text_read_back tx env He Hwf Hv) as (text & id & ops & Ht & _ & _ & Hl & Hr).
  exists text, (read_tx env id ops). split_and!; [done..| |done|intros; by rewrite Hx].
  revert Ht. unfold Transaction_Base64, MarshalBinary. by rewrite He.
Qed.

(** A transaction of 32-byte keys with a merge and a payment. *)
Definition sample_ops (k : bytes) : list Operation :=
  [Payment (address k) (amount_String 5) (CreditAsset [84; 70; 84] (address k)) None; AccountMerge (address k) (Some (address k))].

Lemma transaction_text_round_trip_witness : exists tx text tx',
  Build (newTransaction (SimpleAccount (address (replicate 32 7)) 41) (sample_ops (replicate 32 9)) NewInfiniteTimeout []) = Ret tx /\
  SeqNum (xdrTransaction tx) = 42 /\
  Transaction_Base64 tx = Ret text /\ TransactionFromXDR text = Ret tx' /\ length (Operations tx') = 2%nat.
Proof.
  assert (key_ok (replicate 32 7)) as H7 by (split; [done|apply (bool_decide_unpack _); by vm_compute]).
  assert (key_ok (replicate 32 9)) as H9 by (split; [done|apply (bool_decide_unpack _); by vm_compute]).
  assert (exists xs, build_ops (sample_ops (replicate 32 9)) = Ret xs /\ forallb has_value xs = true) as (xs & Hxs & Hv).
  { eexists. split; vm_compute; reflexivity. }
  pose proof (Build_ok (SimpleAccount (address (replicate 32 7)) 41) (replicate 32 7) (sample_ops (replicate 32 9)) NewInfiniteTimeout []
    42 (SimpleAccount (address (replicate 32 7)) 42) xs eq_refl H7 eq_refl Hxs eq_refl) as HB.
  assert (Forall op_ok (sample_ops (replicate 32 9))) as Hok.
  { repeat constructor; try (unfold is_byte; lia); cbn; by rewrite SetAddress_address. }
  destruct (build_ops_wf _ _ Hok Hxs) as [Hw Hl].
  eexists. destruct (transaction_text_round_trip (built (SimpleAccount (address (replicate 32 7)) 42) (sample_ops (replicate 32 9))
    NewInfiniteTimeout [] (built_xdr (replicate 32 7) 42 xs NewInfiniteTimeout)) (mkTransactionEnvelope (built_xdr (replicate 32 7) 42 xs NewInfiniteTimeout) []))
    as (text & tx' & H1 & H2 & _ & _ & H3 & _); [done|done| |done|].
  - apply envelope_wf; [|constructor|unfold zlen; simpl; lia].
    apply built_wf; [done|unfold is_int; lia|done|rewrite Hl; simpl; lia].
  - exists text, tx'. split; [exact HB|]. split; [done|]. split; [exact H1|]. split; [exact H2|]. transitivity (length xs); [exact H3|exact Hl].
Defined.
