(* ===== verification/XdrTyped.v ===== *)
(** * What is unmarshalled is well formed

    Whatever the text: a value that a codec reads fits its type (keys have their
    size, numbers their width, arrays their bounds). *)

From S2P Require Import Prelude Sha256 BigEndian Base58 Decimal Cli Strkey Base64 Xdr StellarXdr TxnBuild StrkeyTheorems Base64Theorems StellarXdrTheorems TxnBuildTheorems.

(** ** Readers of bytes *)

(** A reader that gives as many bytes as it is asked for. *)
Class TypedReader (S : Type) `{!Reader S} := {
  sound : S -> Prop;
  read_sound n s b s' : sound s -> ReadFull n s = (Ret b, s') -> sound s' /\ length b = n /\ bytes_ok b }.

Definition typed {S A} `{!Reader S, !TypedReader S} (m : unmarshal S A) (P : A -> Prop) : Prop :=
  forall s a s', sound s -> m s = (Ret a, s') -> P a /\ sound s'.

Section Typed.
Context {S : Type} `{HR : !Reader S, HT : !TypedReader S}.

Lemma typed_ret {A} (a : A) (P : A -> Prop) : P a -> typed (mret a) P.
Proof. by intros HP s a' s' Hs [= <- <-]. Qed.
Lemma typed_fail {A} e (P : A -> Prop) : typed (xfail e) P.
Proof. by intros s a s' _ [=]. Qed.
Lemma typed_bind {A B} (m : unmarshal S A) (f : A -> unmarshal S B) P Q : typed m P -> (forall a, P a -> typed (f a) Q) -> typed (m ≫= f) Q.
Proof.
  intros Hm Hf s b s' Hs. unfold mbind, unmarshal_bind. destruct (m s) as [[a|e|e] s1] eqn:E; [|done..].
  destruct (Hm _ _ _ Hs E) as [Ha Hs1]. by apply Hf.
Qed.
Lemma typed_weaken {A} (m : unmarshal S A) (P Q : A -> Prop) : typed m P -> (forall a, P a -> Q a) -> typed m Q.
Proof. intros Hm HPQ s a s' Hs H. destruct (Hm _ _ _ Hs H). auto. Qed.

Lemma typed_bytes n : typed (read_bytes n) (fun b => length b = n /\ bytes_ok b).
Proof.
  intros s a s' Hs. unfold read_bytes. destruct (ReadFull n s) as [r s1] eqn:E. destruct r as [b|e|e]; [|done..].
  intros [= <- <-]. destruct (read_sound _ _ _ _ Hs E) as (? & ? & ?). auto.
Qed.

Lemma typed_Uint : typed DecodeUint (is_uint 32).
Proof. eapply typed_bind; [apply typed_bytes|]. intros b [Hl Hb]. apply typed_ret. pose proof (be_get_range b Hb) as H. unfold zlen in H. rewrite Hl in H. exact H. Qed.
Lemma typed_Uhyper : typed DecodeUhyper (is_uint 64).
Proof. eapply typed_bind; [apply typed_bytes|]. intros b [Hl Hb]. apply typed_ret. pose proof (be_get_range b Hb) as H. unfold zlen in H. rewrite Hl in H. exact H. Qed.
Lemma typed_Int : typed DecodeInt (is_int 32).
Proof. eapply typed_bind; [apply typed_bytes|]. intros b _. apply typed_ret, to_int_range. lia. Qed.
Lemma typed_Hyper : typed DecodeHyper (is_int 64).
Proof. eapply typed_bind; [apply typed_bytes|]. intros b _. apply typed_ret, to_int_range. lia. Qed.
Lemma typed_Bool : typed DecodeBool (fun _ => True).
Proof.
  eapply typed_bind; [apply typed_Int|]. intros i _. destruct (i =? 0); [by apply typed_ret|]. destruct (i =? 1); [by apply typed_ret|apply typed_fail].
Qed.

Lemma typed_FixedOpaque n : 0 <= n -> typed (DecodeFixedOpaque n) (fun b => zlen b = n /\ bytes_ok b).
Proof.
  intros Hn. unfold DecodeFixedOpaque. destruct (Z.eqb_spec n 0) as [->|Hn0]; [by apply typed_ret|].
  eapply typed_bind; [apply typed_bytes|]. intros b [Hl Hb]. case_match; [apply typed_fail|]. apply typed_ret.
  split; [|by apply Forall_take]. assert (0 <= pad_size n < 4) by (apply Z.mod_pos_bound; lia). unfold zlen. rewrite length_take. lia.
Qed.

Lemma typed_Opaque max : typed (DecodeOpaque max) (fun b => zlen b <= max /\ bytes_ok b).
Proof.
  eapply typed_bind; [apply typed_Uint|]. intros n [Hn _]. destruct (Z.ltb_spec max n) as [|Hm]; [apply typed_fail|].
  eapply typed_weaken; [by apply typed_FixedOpaque|]. intros b [H1 H2]. split; [lia|done].
Qed.

Lemma typed_elements {A} n (d : unmarshal S A) P : typed d P -> typed (decode_elements n d) (fun l => Forall P l /\ length l = n).
Proof.
  intros Hd. induction n as [|n IH]; cbn [decode_elements]; [by apply typed_ret|].
  eapply typed_bind; [exact Hd|]. intros a Ha. eapply typed_bind; [exact IH|]. intros l [Hl Hn]. apply typed_ret. split; [by constructor|by simpl; f_equal].
Qed.

Lemma typed_array {A} max (d : unmarshal S A) P : typed d P -> typed (decodeArray max d) (fun l => Forall P l /\ zlen l <= max).
Proof.
  intros Hd. eapply typed_bind; [apply typed_Uint|]. intros n [Hn _]. destruct (Z.ltb_spec max n) as [|Hm]; [apply typed_fail|].
  eapply typed_weaken; [by apply typed_elements|]. intros l [H1 H2]. split; [done|]. unfold zlen. lia.
Qed.

Lemma typed_switch n : typed (decode_switch n) (fun i => 0 <= i < n).
Proof.
  eapply typed_bind; [apply typed_Int|]. intros i _. destruct ((0 <=? i) && (i <? n)) eqn:E; [|apply typed_fail]. apply typed_ret. lia.
Qed.
End Typed.

(** ** Codecs *)

(** Every value that a codec reads is one that it writes and reads back. *)
Class CodecTyped {A} (c : codec A) `{!CodecOk c} : Prop :=
  decode_typed : forall S (HR : Reader S) (HT : TypedReader S), typed (decode c) (wf c).

#[export] Instance c_int32_typed : CodecTyped c_int32. Proof. intros S ? ?. apply typed_Int. Qed.
#[export] Instance c_uint32_typed : CodecTyped c_uint32. Proof. intros S ? ?. apply typed_Uint. Qed.
#[export] Instance c_int64_typed : CodecTyped c_int64. Proof. intros S ? ?. apply typed_Hyper. Qed.
#[export] Instance c_uint64_typed : CodecTyped c_uint64. Proof. intros S ? ?. apply typed_Uhyper. Qed.
#[export] Instance c_bool_typed : CodecTyped c_bool. Proof. intros S ? ?. apply typed_Bool. Qed.

(** Sizes and bounds are numbers of 32 bits. *)
#[export] Instance c_fixed_typed n : TCEq (0 <=? n) true -> CodecTyped (c_fixed n).
Proof. intros Hn%TCEq_eq S ? ?. apply typed_FixedOpaque. lia. Qed.
#[export] Instance c_opaque_typed n : TCEq (n <? 2 ^ 32) true -> CodecTyped (c_opaque n).
Proof. intros Hn%TCEq_eq S ? ?. eapply typed_weaken; [apply typed_Opaque|]. intros b [H1 H2]. split_and!; [done..|lia]. Qed.

Section Combinators.
Context {A B : Type} (c1 : codec A) (c2 : codec B) `{!CodecOk c1, !CodecOk c2, !CodecTyped c1, !CodecTyped c2}.

#[export] Instance c_pair_typed : CodecTyped (c_pair c1 c2).
Proof.
  intros S ? ?. eapply typed_bind; [apply decode_typed|]. intros a Ha. eapply typed_bind; [apply decode_typed|]. intros b Hb. apply typed_ret. by split.
Qed.
#[export] Instance c_ptr_typed : CodecTyped (c_ptr c1).
Proof.
  intros S ? ?. eapply typed_bind; [apply typed_Bool|]. intros [] _; [|by apply typed_ret].
  eapply typed_bind; [apply decode_typed|]. intros a Ha. by apply typed_ret.
Qed.
#[export] Instance c_array_typed n : TCEq (n <? 2 ^ 32) true -> CodecTyped (c_array n c1).
Proof.
  intros Hn%TCEq_eq S ? ?. eapply typed_weaken; [apply typed_array, decode_typed|]. intros l [H1 H2]. split_and!; [done..|lia].
Qed.

Lemma struct_typed (fields : A -> B) (make : B -> A) `{!CodecOk (c_struct fields make c2)} :
  (forall b, wf c2 b -> wf (c_struct fields make c2) (make b)) -> CodecTyped (c_struct fields make c2).
Proof. intros Hm S ? ?. eapply typed_bind; [apply decode_typed|]. intros b Hb. apply typed_ret. by apply Hm. Qed.

(** An arm of a union. *)
Lemma arm_typed {S} `{HR : !Reader S, HT : !TypedReader S} (arm : A -> B) (P : B -> Prop) : (forall a, wf c1 a -> P (arm a)) ->
  typed (a ← decode c1; mret (arm a)) P.
Proof. intros Ha. eapply typed_bind; [apply decode_typed|]. intros a H. by apply typed_ret, Ha. Qed.
End Combinators.

Ltac struct_typed :=
  match goal with |- @CodecTyped _ ?c _ =>
    let d := eval unfold c in c in
    match d with c_struct ?f ?m ?c2 => simple refine (@struct_typed _ _ c2 _ _ f m _ _) end
  end;
  intros b Hb; exact Hb || (repeat match goal with p : (_ * _)%type |- _ => destruct p end; exact Hb).

Ltac union_typed := intros S ? ?; eapply typed_bind; [apply typed_switch|]; intros sw Hsw;
  repeat case_match; first [apply typed_fail|by apply typed_ret|eapply arm_typed; [apply _|by intros]].

(** ** The types of a transaction *)

#[export] Instance c_AccountId_typed : CodecTyped c_AccountId.
Proof. intros S ? ?. eapply typed_bind; [apply typed_switch|]. intros sw Hsw. eapply arm_typed; [apply _|]. intros k Hk. by exists k. Qed.
#[export] Instance c_AssetAlphaNum_typed n : TCEq (0 <=? n) true -> CodecTyped (c_AssetAlphaNum n).
Proof. intros. apply c_pair_typed; apply _. Qed.
#[export] Instance c_Asset_typed : CodecTyped c_Asset.
Proof. intros S ? ?. eapply typed_bind; [apply typed_switch|]. intros sw Hsw. repeat case_match; first [by apply typed_ret|eapply arm_typed; [apply _|by intros []]]. Qed.
#[export] Instance c_SignerKey_typed : CodecTyped c_SignerKey. Proof. union_typed. Qed.
#[export] Instance c_Signer_typed : CodecTyped c_Signer. Proof. struct_typed. Qed.
#[export] Instance c_CreateAccountOp_typed : CodecTyped c_CreateAccountOp. Proof. struct_typed. Qed.
#[export] Instance c_PaymentOp_typed : CodecTyped c_PaymentOp. Proof. struct_typed. Qed.
#[export] Instance c_path_payment_typed : CodecTyped c_path_payment. Proof. unfold c_path_payment. apply _. Qed.
#[export] Instance c_PathPaymentStrictReceiveOp_typed : CodecTyped c_PathPaymentStrictReceiveOp. Proof. struct_typed. Qed.
#[export] Instance c_PathPaymentStrictSendOp_typed : CodecTyped c_PathPaymentStrictSendOp. Proof. struct_typed. Qed.
#[export] Instance c_Price_typed : CodecTyped c_Price. Proof. struct_typed. Qed.
#[export] Instance c_ManageOfferOp_typed : CodecTyped c_ManageOfferOp. Proof. struct_typed. Qed.
#[export] Instance c_CreatePassiveSellOfferOp_typed : CodecTyped c_CreatePassiveSellOfferOp. Proof. struct_typed. Qed.
#[export] Instance c_SetOptionsOp_typed : CodecTyped c_SetOptionsOp. Proof. struct_typed. Qed.
#[export] Instance c_ChangeTrustOp_typed : CodecTyped c_ChangeTrustOp. Proof. struct_typed. Qed.
#[export] Instance c_AllowTrustOpAsset_typed : CodecTyped c_AllowTrustOpAsset. Proof. union_typed. Qed.
#[export] Instance c_AllowTrustOp_typed : CodecTyped c_AllowTrustOp. Proof. struct_typed. Qed.
#[export] Instance c_ManageDataOp_typed : CodecTyped c_ManageDataOp. Proof. struct_typed. Qed.
#[export] Instance c_OperationBody_typed : CodecTyped c_OperationBody. Proof. union_typed. Qed.
#[export] Instance c_Operation_typed : CodecTyped c_Operation. Proof. struct_typed. Qed.
#[export] Instance c_Memo_typed : CodecTyped c_Memo. Proof. union_typed. Qed.
#[export] Instance c_TimeBounds_typed : CodecTyped c_TimeBounds. Proof. struct_typed. Qed.
#[export] Instance c_TransactionExt_typed : CodecTyped c_TransactionExt.
Proof. intros S ? ?. eapply typed_bind; [apply typed_Int|]. intros i _. destruct (i =? 0); [by apply typed_ret|apply typed_fail]. Qed.
#[export] Instance c_Transaction_typed : CodecTyped c_Transaction. Proof. struct_typed. Qed.
#[export] Instance c_DecoratedSignature_typed : CodecTyped c_DecoratedSignature. Proof. struct_typed. Qed.
#[export] Instance c_TransactionEnvelope_typed : CodecTyped c_TransactionEnvelope. Proof. struct_typed. Qed.

(** ** The decoder of base 64 gives bytes *)

Lemma b64_decode_bytes src : bytes_ok (b64_decode src).1.
Proof.
  induction src as [src IH] using (induction_ltof1 _ length). destruct src as [|x [|y [|z [|w rest]]]]; try done. cbn [b64_decode].
  assert (bytes_ok (b64_decode rest).1) as Hr by (apply IH; unfold ltof; simpl; lia).
  destruct (b64_decode rest) as [bs ok]. repeat case_match; try done; cbn [fst]; try (apply Forall_take, put_ok). apply Forall_app_2; [apply put_ok|exact Hr].
Qed.

Lemma refill_out fuel : forall n d, d_out (refill fuel n d) = d_out d.
Proof.
  induction fuel as [|fuel IH]; intros n d; [done|]. cbn [refill]. case_match; [|done]. destruct (filtered_read _ _ _) as [[p src] eof]. by rewrite IH.
Qed.

Lemma b64_Read_sound n d b err d' : bytes_ok (d_out d) -> b64_Read n d = (b, err, d') -> bytes_ok b /\ (length b <= n)%nat /\ bytes_ok (d_out d').
Proof.
  intros Hd. unfold b64_Read. destruct (d_out d) as [|x out] eqn:Eo.
  - destruct (d_err d) as [e|]; [intros [= <- _ <-]; rewrite Eo; split_and!; [done|simpl; lia|done]|].
    case_match; [intros [= <- _ <-]; split_and!; [done|simpl; lia|done]|].
    pose proof (b64_decode_bytes (take (length (d_buf (refill 5 n d)) / 4 * 4) (d_buf (refill 5 n d)))) as Hb.
    destruct (b64_decode _) as [bs ok]. intros [= <- _ <-]. cbn [fst d_out] in *.
    split_and!; [by apply Forall_take|rewrite length_take; lia|by apply Forall_drop].
  - intros [= <- _ <-]. cbn [d_out]. split_and!; [by apply Forall_take|rewrite length_take; lia|by apply Forall_drop].
Qed.

Lemma b64_ReadFull_sound fuel : forall n acc d b d', bytes_ok (d_out d) -> bytes_ok acc -> (length acc <= n)%nat ->
  b64_ReadFull_loop fuel n acc d = (Ret b, d') -> bytes_ok (d_out d') /\ length b = n /\ bytes_ok b.
Proof.
  induction fuel as [|fuel IH]; intros n acc d b d' Hd Ha Hl H; [done|]. cbn [b64_ReadFull_loop] in H.
  destruct (b64_Read (n - length acc) d) as [[b1 err] d1] eqn:E. destruct (b64_Read_sound _ _ _ _ _ Hd E) as (H1 & H2 & H3).
  assert (bytes_ok (acc ++ b1)) as Hab by by apply Forall_app_2. assert (length (acc ++ b1) <= n)%nat as Hlb by (rewrite length_app; lia).
  destruct (Nat.leb_spec n (length (acc ++ b1))); [injection H as <- <-; split_and!; [done|lia|done]|].
  destruct err as [e|]; [done|]. by eapply IH.
Qed.

#[export, program] Instance b64_typed : TypedReader b64_decoder := {| sound d := bytes_ok (d_out d) |}.
Next Obligation. intros n d b d' Hd H. unfold ReadFull, b64_reader, b64_ReadFull in H. destruct n as [|n]; [done|]. eapply b64_ReadFull_sound; [exact Hd|done|simpl; lia|exact H]. Qed.

Lemma read_typed text tx : TransactionFromXDR text = Ret tx -> exists env id ops,
  wf c_TransactionEnvelope env /\ AccountId_Address (X_SourceAccount (Tx env)) = Ret id /\ operations_from (X_Operations (Tx env)) = Ret ops /\
  tx = read_tx env id ops.
Proof.
  unfold TransactionFromXDR. intros H. apply bind_Ret in H as (env & He & H). apply mapErr_Ret in He.
  apply bind_Ret in H as (id & Hid & H). apply bind_Ret in H as (ops & Hops & H). injection H as <-.
  exists env, id, ops. split; [|by split_and!]. unfold SafeUnmarshalBase64 in He.
  destruct (decode c_TransactionEnvelope (NewDecoder text)) as [r d] eqn:Ed. go_inv_step He. injection He as <-. subst.
  exact (proj1 (decode_typed (c := c_TransactionEnvelope) _ b64_reader b64_typed (NewDecoder text) _ d (Forall_nil_2 _) Ed)).
Qed.

(** C32: Every transaction that is read is well formed. Whatever the text, if
    [TransactionFromXDR] returns a transaction, its envelope is one that can be
    written and read back: keys of 32 bytes, numbers within their types, at most
    100 operations, 20 signatures of at most 64 bytes; and all that the tool
    looks at (operations, time bounds, source) was made from that envelope. *)
Theorem transaction_read_typed text tx : TransactionFromXDR text = Ret tx -> exists env id ops,
  wf c_TransactionEnvelope env /\ AccountId_Address (X_SourceAccount (Tx env)) = Ret id /\ operations_from (X_Operations (Tx env)) = Ret ops /\
  tx = read_tx env id ops.
Proof. apply read_typed. Qed.
