(* ===== verification/StellarTheorems.v ===== *)
(** * The Stellar tool: audits, contracts and redemptions

    What [auditcontract] accepts, that the contracts of the tool are accepted,
    and that a redemption shows the secret. *)

From S2P Require Import Prelude Sha256 BigEndian Base58 Decimal Cli Strkey Base64 Xdr StellarXdr TxnBuild StellarSwap StellarCommands StrkeyTheorems Base64Theorems StellarXdrTheorems TxnBuildTheorems XdrTyped.

#[local] Opaque sha256 crc16_loop b32_EncodeToString.

(** ** Signing conditions *)

(** What a signer with a weight stands for. *)
Inductive condition :=
  | RecipientSigns (key : bytes)
  | SecretShown (hash : bytes)
  | RefundSent (hash : bytes).

Definition key_types : list bytes := [KeyType_AccountID; KeyType_HashX; KeyType_HashTx].

(** A signer as Horizon reports it, and its condition: its key is an address, or
    the text of a hash; the refund weighs two, the others one. *)
Inductive reads_as : HSigner -> condition -> Prop :=
  | reads_recipient key : reads_as (mkHSigner 1 key KeyType_AccountID) (RecipientSigns key)
  | reads_secret key hash : Decode VersionByteHashX key = Ret hash -> reads_as (mkHSigner 1 key KeyType_HashX) (SecretShown hash)
  | reads_refund key hash : Decode VersionByteHashTx key = Ret hash -> reads_as (mkHSigner 2 key KeyType_HashTx) (RefundSent hash).

(** The signers that count. *)
Definition active (signers : list HSigner) : list HSigner := List.filter (fun s => negb (HWeight s =? 0)) signers.

(** The conditions that the loop has found. *)
Definition conditions_of (c : conditions) : list condition :=
  match recipientAddress c with [] => [] | r => [RecipientSigns r] end
  ++ (SecretShown <$> option_list (c_secretHash c)) ++ (RefundSent <$> option_list (refundTxHashFromSigningConditions c)).

Lemma active_cons s l : active (s :: l) = (if HWeight s =? 0 then [] else [s]) ++ active l.
Proof. unfold active. simpl. by destruct (HWeight s =? 0). Qed.

(** Keys are not empty. *)
Definition keyed (s : HSigner) : Prop := HKey s <> [].

(** One turn of the loop adds the condition of the signer. *)
Lemma audit_signer_Ret c s c' : keyed s -> audit_signer c s = Ret c' ->
  if (HWeight s =? 0) then c' = c
  else exists x, reads_as s x /\ conditions_of c' ≡ₚ x :: conditions_of c.
Proof.
  destruct s as [w key type], c as [refund recipient secret]. unfold keyed, audit_signer. cbn [HWeight HKey HType]. intros Hk H.
  destruct (w =? 0); [by injection H as <-|].
  case_bool_decide as H1; [|case_bool_decide as H2; [|case_bool_decide as H3; [|done]]]; subst; cbn [refundTxHashFromSigningConditions recipientAddress c_secretHash] in H; go_inv H;
    repeat match goal with
    | H : negb (_ =? _) = false |- _ => apply negb_false_iff, Z.eqb_eq in H
    | H : bool_decide (is_Some _) = false |- _ => apply bool_decide_eq_false, eq_None_not_Some in H
    end; subst.
  - exists (RecipientSigns key). split; [constructor|]. apply zlen_0 in Hr. subst recipient. by destruct key.
  - exists (RefundSent a0). split; [by constructor|]. unfold conditions_of. cbn. by rewrite !Permutation_middle, app_assoc, (Permutation_app_comm _ [_]).
  - exists (SecretShown a0). split; [by constructor|]. unfold conditions_of. cbn. by rewrite <- Permutation_middle.
Qed.

Lemma audit_signers_Ret sigs : forall c c', Forall keyed sigs -> audit_signers c sigs = Ret c' ->
  exists conds, Forall2 reads_as (active sigs) conds /\ conditions_of c' ≡ₚ conds ++ conditions_of c.
Proof.
  induction sigs as [|s sigs IH]; intros c c' Hk H; [injection H as <-; by exists []|]. apply Forall_cons in Hk as [Hs Hk].
  cbn [audit_signers] in H. apply bind_Ret in H as (c1 & H1 & H). apply audit_signer_Ret in H1; [|done].
  destruct (IH _ _ Hk H) as (conds & H2 & H3). rewrite active_cons. destruct (HWeight s =? 0); [subst c1; eauto|].
  destruct H1 as (x & Hx & Hp). exists (x :: conds). split; [by constructor|]. by rewrite H3, Hp, <- Permutation_middle.
Qed.

Definition kind (x : condition) : nat := match x with RecipientSigns _ => 0 | SecretShown _ => 1 | RefundSent _ => 2 end.

Lemma audit_signer_ok c s x : keyed s -> reads_as s x -> kind x ∉ kind <$> conditions_of c ->
  exists c', audit_signer c s = Ret c' /\ conditions_of c' ≡ₚ x :: conditions_of c.
Proof.
  destruct c as [refund recipient secret]. intros Hk Hx Hn. assert (exists c', audit_signer (mkConditions refund recipient secret) s = Ret c') as [c' Hc'].
  { destruct Hx as [key|key h Hd|key h Hd].
    - destruct recipient as [|y r]; [by eexists|]. exfalso. apply Hn. left.
    - destruct secret as [y|]; [exfalso; apply Hn|].
      + unfold conditions_of. rewrite fmap_app, elem_of_app. right. left.
      + unfold audit_signer. cbn [HWeight HKey HType]. rewrite !bool_decide_false by done. rewrite bool_decide_true by done.
        rewrite bool_decide_false by (cbn; by intros [? ?]). rewrite Hd. by eexists.
    - destruct refund as [y|]; [exfalso; apply Hn|].
      + unfold conditions_of. rewrite !fmap_app, !elem_of_app. right. right. left.
      + unfold audit_signer. cbn [HWeight HKey HType]. rewrite bool_decide_false by done. rewrite bool_decide_true by done.
        rewrite bool_decide_false by (cbn; by intros [? ?]). rewrite Hd. by eexists. }
  exists c'. split; [done|]. apply audit_signer_Ret in Hc'; [|done].
  assert ((HWeight s =? 0) = false) as HE by by destruct Hx. rewrite HE in Hc'. destruct Hc' as (x' & Hx' & Hp).
  assert (x' = x) as ->; [|done]. destruct Hx; inversion Hx'; congruence.
Qed.

Lemma audit_signers_ok sigs : forall c conds, Forall keyed sigs -> Forall2 reads_as (active sigs) conds ->
  NoDup (kind <$> conds ++ conditions_of c) -> exists c', audit_signers c sigs = Ret c' /\ conditions_of c' ≡ₚ conds ++ conditions_of c.
Proof.
  induction sigs as [|s sigs IH]; intros c conds Hk H Hn.
  { inversion H. subst. by exists c. }
  apply Forall_cons in Hk as [Hs Hk]. rewrite active_cons in H. cbn [audit_signers].
  destruct (HWeight s =? 0) eqn:Ew.
  { destruct (IH c conds Hk H Hn) as (c' & H1 & H2). exists c'. split; [|done]. unfold audit_signer. by rewrite Ew. }
  cbn [app] in H. apply Forall2_cons_inv_l in H as (x & conds' & Hx & H & ->).
  cbn [app fmap list_fmap] in Hn. apply NoDup_cons in Hn as [Hx1 Hn].
  destruct (audit_signer_ok c s x Hs Hx) as (c1 & E1 & P1).
  { intros Hin. apply Hx1. rewrite fmap_app, elem_of_app. by right. }
  destruct (IH c1 conds' Hk H) as (c' & E2 & P2).
  { rewrite P1, <- Permutation_middle. cbn. apply NoDup_cons. done. }
  exists c'. rewrite E1. split; [done|]. by rewrite P2, P1, <- Permutation_middle.
Qed.

Definition swap_conditions (recipient secret refund : bytes) : list condition := [RecipientSigns recipient; SecretShown secret; RefundSent refund].

Lemma conditions_swap c r s t : conditions_of c ≡ₚ swap_conditions r s t -> c = mkConditions (Some t) r (Some s).
Proof.
  destruct c as [refund recipient secret]. unfold conditions_of, swap_conditions. cbn [refundTxHashFromSigningConditions recipientAddress c_secretHash]. intros H.
  pose proof (Permutation_length H) as Hl. rewrite !length_app, !length_fmap in Hl.
  destruct recipient as [|x r'], secret as [s'|], refund as [t'|]; cbn in Hl; try lia. cbn in H.
  assert (forall y, y ∈ [RecipientSigns (x :: r'); SecretShown s'; RefundSent t'] -> y ∈ [RecipientSigns r; SecretShown s; RefundSent t]) as Hin
    by (intros y; by rewrite H).
  assert (RecipientSigns (x :: r') ∈ [RecipientSigns r; SecretShown s; RefundSent t]) as H1 by (apply Hin; rewrite !elem_of_cons; tauto).
  assert (SecretShown s' ∈ [RecipientSigns r; SecretShown s; RefundSent t]) as H2 by (apply Hin; rewrite !elem_of_cons; tauto).
  assert (RefundSent t' ∈ [RecipientSigns r; SecretShown s; RefundSent t]) as H3 by (apply Hin; rewrite !elem_of_cons; tauto).
  clear Hin H. rewrite !elem_of_cons, elem_of_nil in H1, H2, H3. destruct_or!; by simplify_eq.
Qed.

(** The signers that the loop accepts, in whatever order Horizon lists them. *)
Lemma audit_signers_iff sigs r s t : Forall keyed sigs -> r <> [] ->
  audit_signers no_conditions sigs = Ret (mkConditions (Some t) r (Some s)) <->
  exists conds, Forall2 reads_as (active sigs) conds /\ conds ≡ₚ swap_conditions r s t.
Proof.
  intros Hk Hr. split.
  - intros H. destruct (audit_signers_Ret _ _ _ Hk H) as (conds & H1 & H2). exists conds. split; [done|].
    rewrite app_nil_r in H2. rewrite <- H2. unfold conditions_of. cbn. by destruct r.
  - intros (conds & H1 & H2). destruct (audit_signers_ok sigs no_conditions conds Hk H1) as (c' & H3 & H4).
    { rewrite app_nil_r, H2. apply (bool_decide_unpack _). by vm_compute. }
    rewrite app_nil_r, H2 in H4. apply conditions_swap in H4. by subst.
Qed.

(** ** What an audit accepts *)

Definition swap_thresholds : Thresholds := mkThresholds 2 2 2.

(** The three thresholds are two; the signers that count are, in any order, the
    recipient and the secret with weight one and a transaction with weight two;
    that transaction is [tx], which has a single operation that merges the
    account into the refund address, not before the lock time. *)
Record swap_account (network : bytes) (acc : HAccount) (addr : bytes) (tx : Transaction ParsedOperation) (a : audited) (h : bytes)
    (conds : list condition) : Prop := {
  sa_thresholds : AccountThresholds acc = swap_thresholds;
  sa_recipient : a_recipient a <> [];
  sa_hash : HashTransaction (xdrTransaction tx) network = Ret h;
  sa_signers : Forall2 reads_as (active (Signers acc)) conds;
  sa_conditions : conds ≡ₚ swap_conditions (a_recipient a) (a_secretHash a) h;
  sa_refund : Operations tx = [Parsed (AccountMerge (a_refundAddress a) (Some addr))];
  sa_lockTime : MinTime (T_Timebounds tx) = a_lockTime a }.

Lemma audit_account_Ret network acc addr tx a : Forall keyed (Signers acc) -> audit_account network acc addr tx = Ret a ->
  exists h conds, swap_account network acc addr tx a h conds.
Proof.
  intros Hk. destruct acc as [id sq [lo me hi] bals sigs], a as [r s lt ra]. cbn [Signers] in Hk.
  unfold audit_account. cbn [AccountThresholds Signers HighT MedT LowT]. intros H.
  apply bind_Ret in H as ([] & Ht & H). apply guard_err_Ret in Ht. apply bind_Ret in H as (c & Hc & H).
  go_inv_step H. destruct c as [refund recipient secret]. cbn [refundTxHashFromSigningConditions recipientAddress c_secretHash] in *.
  repeat match goal with
  | H : _ || _ = false |- _ => apply orb_false_elim in H as [? ?]
  | H : negb _ = false |- _ => apply negb_false_iff in H
  | H : (_ =? _) = true |- _ => apply Z.eqb_eq in H
  | H : bool_decide _ = true |- _ => apply bool_decide_eq_true in H
  end. subst.
  destruct (Operations tx) as [|op [|]] eqn:Eo; [done| |by destruct op as [[]|]].
  destruct op as [[| | | |d [source|]]|]; try done. go_inv H.
  match goal with H : negb _ = false |- _ => apply negb_false_iff, bool_decide_eq_true in H; subst end.
  assert (r <> []) as Hr by (intros ->; discriminate).
  apply (audit_signers_iff _ _ _ _ Hk Hr) in Hc as (conds & H1 & H2). do 2 eexists. by constructor.
Qed.

Lemma audit_account_ok network acc addr tx a h conds : Forall keyed (Signers acc) -> swap_account network acc addr tx a h conds ->
  audit_account network acc addr tx = Ret a.
Proof.
  intros Hk. destruct acc as [id sq th bals sigs], a as [r s lt ra]. cbn [Signers] in Hk. intros [Ht Hr Hh H1 H2 Ho Hm].
  cbn [AccountThresholds Signers a_recipient a_secretHash a_lockTime a_refundAddress] in *. subst th.
  unfold audit_account. cbn [AccountThresholds Signers HighT MedT LowT swap_thresholds].
  rewrite (proj2 (audit_signers_iff _ r s h Hk Hr) (ex_intro _ conds (conj H1 H2))). cbn [Z.eqb negb orb guard_err mbind outcome_bind of_option refundTxHashFromSigningConditions recipientAddress c_secretHash].
  replace (zlen r =? 0) with false by (symmetry; apply Z.eqb_neq; intros E%zlen_0; done).
  rewrite Hh. cbn [mapErr guard_err mbind outcome_bind]. rewrite bool_decide_true by done. cbn [negb guard_err mbind outcome_bind].
  rewrite Ho. rewrite bool_decide_true by done. cbn. by rewrite Hm.
Qed.

(** C19: The audit accepts exactly the contracts of the swap. For an account whose
    signers have keys, [auditcontract] shows a recipient, a secret hash, a lock
    time and a refund address if and only if the account is the contract with
    these values: whatever the order of the signers, with no other signer that
    counts, and with the transaction passed as the only one signed in advance. *)
Theorem audit_account_iff network acc addr (tx : Transaction ParsedOperation) a : Forall keyed (Signers acc) ->
  audit_account network acc addr tx = Ret a <-> exists h conds, swap_account network acc addr tx a h conds.
Proof.
  intros Hk. split; [by apply audit_account_Ret|]. intros (h & conds & H). by eapply audit_account_ok.
Qed.

Lemma audit_account_one network acc addr tx a : audit_account network acc addr tx = Ret a -> length (Operations tx) = 1%nat.
Proof.
  unfold audit_account. intros H. go_inv_step H. destruct (Operations tx) as [|op [|]]; [done|done|]. by destruct op as [[]|].
Qed.

(** ** Who can spend an audited contract *)

Definition total_weight (signers : list HSigner) : Z := foldr (fun s n => HWeight s + n) 0 signers.

Lemma total_weight_permutation l1 l2 : l1 ≡ₚ l2 -> total_weight l1 = total_weight l2.
Proof. unfold total_weight. induction 1; simpl; lia. Qed.

Lemma total_weight_active l : total_weight (active l) = total_weight l.
Proof.
  induction l as [|s l IH]; [done|]. rewrite active_cons. simpl. destruct (Z.eqb_spec (HWeight s) 0) as [->|]; simpl; lia.
Qed.

Lemma active_submseteq l1 l2 : l1 ⊆+ l2 -> active l1 ⊆+ active l2.
Proof.
  induction 1 as [|s l1 l2 _ IH|s t l|s l1 l2 _ IH|l1 l2 l3 _ IH1 _ IH2]; [done|..]; rewrite ?active_cons.
  - by apply submseteq_skips_l.
  - rewrite !app_assoc. by rewrite (Permutation_app_comm (if HWeight t =? 0 then _ else _)).
  - etransitivity; [done|]. by apply submseteq_inserts_l.
  - by etransitivity.
Qed.

(** The accounts's signers that count are three, in some order. *)
Lemma swap_account_signers network acc addr tx a h conds : swap_account network acc addr tx a h conds -> exists kx kt,
  active (Signers acc) ≡ₚ [mkHSigner 1 (a_recipient a) KeyType_AccountID; mkHSigner 1 kx KeyType_HashX; mkHSigner 2 kt KeyType_HashTx] /\
  Decode VersionByteHashX kx = Ret (a_secretHash a) /\ Decode VersionByteHashTx kt = Ret h.
Proof.
  intros [_ _ _ H1 H2 _ _]. apply Forall2_flip in H1. destruct (Permutation_Forall2 H2 H1) as (l & Hl & H). unfold swap_conditions in H.
  repeat match goal with H : Forall2 _ (_ :: _) _ |- _ => apply Forall2_cons_inv_l in H as (? & ? & ? & ? & ->) end.
  match goal with H : Forall2 _ [] _ |- _ => apply Forall2_nil_inv_l in H as -> end.
  repeat match goal with H : flip reads_as _ _ |- _ => inversion H; clear H; subst end. eauto.
Qed.

(** A part of [x :: k] holds [x] or not, and a part of [k]. *)
Lemma submseteq_part {A} (x : A) l k : l ⊆+ x :: k -> exists (b : bool) l', l ≡ₚ (if b then [x] else []) ++ l' /\ l' ⊆+ k.
Proof. intros [H|(l' & H1 & H2)]%submseteq_cons_r; [by exists false, l|by exists true, l']. Qed.

Lemma audited_selection network acc addr (tx : Transaction ParsedOperation) a sel : Forall keyed (Signers acc) ->
  audit_account network acc addr tx = Ret a -> sel ⊆+ Signers acc -> 2 <= total_weight sel ->
  (exists key h, mkHSigner 2 key KeyType_HashTx ∈ sel /\ Decode VersionByteHashTx key = Ret h /\
     HashTransaction (xdrTransaction tx) network = Ret h) \/
  (mkHSigner 1 (a_recipient a) KeyType_AccountID ∈ sel /\
   exists key, mkHSigner 1 key KeyType_HashX ∈ sel /\ Decode VersionByteHashX key = Ret (a_secretHash a)).
Proof.
  intros Hk H Hs Hw. destruct (audit_account_Ret _ _ _ _ _ Hk H) as (h & conds & Ha).
  destruct (swap_account_signers _ _ _ _ _ _ _ Ha) as (kx & kt & Hp & Hx & Ht). destruct Ha as [_ _ Hh _ _ _ _].
  apply active_submseteq in Hs. rewrite Hp in Hs. rewrite <- total_weight_active in Hw.
  assert (forall s, s ∈ active sel -> s ∈ sel) as Hin.
  { intros s. unfold active. rewrite !list_elem_of_In. by intros [? _]%filter_In. }
  apply submseteq_part in Hs as (b1 & l1 & E1 & Hs). apply submseteq_part in Hs as (b2 & l2 & E2 & Hs).
  apply submseteq_part in Hs as (b3 & l3 & E3 & ->%submseteq_nil_r). rewrite E2, E3 in E1. clear E2 E3.
  rewrite (total_weight_permutation _ _ E1) in Hw.
  destruct b3; [left; exists kt, h; split_and!; [apply Hin; rewrite E1; set_solver|done..]|].
  destruct b1, b2; cbn in Hw; [|lia..]. right. split; [apply Hin; rewrite E1; set_solver|].
  exists kx. split; [apply Hin; rewrite E1; set_solver|done].
Qed.

(** C10: Two ways to spend an audited contract. Any choice of the account's signers
    that reaches the threshold of an account that [auditcontract] accepted has
    the transaction passed to the audit, or both the recipient and the preimage
    of the secret hash. The key that created the account has no part in it. *)
Theorem audited_spending network acc addr (tx : Transaction ParsedOperation) a sel : Forall keyed (Signers acc) ->
  audit_account network acc addr tx = Ret a -> sel ⊆+ Signers acc -> 2 <= total_weight sel ->
  (exists key h, mkHSigner 2 key KeyType_HashTx ∈ sel /\ Decode VersionByteHashTx key = Ret h /\
     HashTransaction (xdrTransaction tx) network = Ret h) \/
  (mkHSigner 1 (a_recipient a) KeyType_AccountID ∈ sel /\
   exists key, mkHSigner 1 key KeyType_HashX ∈ sel /\ Decode VersionByteHashX key = Ret (a_secretHash a)).
Proof. apply audited_selection. Qed.

(** ** What an audit commits to *)

Lemma HashTransaction_Ret x network h : HashTransaction x network = Ret h ->
  exists b, marshal c_Transaction x = Ret b /\ h = sha256 (signature_base b network).
Proof. unfold HashTransaction. intros H. apply bind_Ret in H as ([] & _ & H). apply bind_Ret in H as (b & Hb & [= <-]). apply mapErr_Ret in Hb. eauto. Qed.

(** Equal hashes on one network: the same transaction, or two texts with the same
    SHA-256 hash. *)
Lemma hash_commits network x1 x2 h : wf c_Transaction x1 -> wf c_Transaction x2 ->
  HashTransaction x1 network = Ret h -> HashTransaction x2 network = Ret h ->
  x1 = x2 \/ exists m1 m2, m1 <> m2 /\ sha256 m1 = sha256 m2.
Proof.
  intros W1 W2 (b1 & E1 & H1)%HashTransaction_Ret (b2 & E2 & H2)%HashTransaction_Ret.
  destruct (decide (b1 = b2)) as [->|Hb].
  - left. apply (marshal_inj c_Transaction); [exact (wf_round_trips x1 W1)|exact (wf_round_trips x2 W2)|by rewrite E1, E2].
  - right. exists (signature_base b1 network), (signature_base b2 network). split; [|by rewrite <- H1, <- H2].
    unfold signature_base. intros H. by apply app_inv_head, app_inv_head in H.
Qed.

(** Two audits of one account read the same conditions. *)
Lemma swap_account_same network acc addr tx1 tx2 a1 a2 h1 h2 conds1 conds2 : Forall keyed (Signers acc) ->
  swap_account network acc addr tx1 a1 h1 conds1 -> swap_account network acc addr tx2 a2 h2 conds2 ->
  a_recipient a1 = a_recipient a2 /\ a_secretHash a1 = a_secretHash a2 /\ h1 = h2.
Proof.
  intros Hk [_ R1 _ S1 C1 _ _] [_ R2 _ S2 C2 _ _].
  pose proof (proj2 (audit_signers_iff (Signers acc) _ _ _ Hk R1) (ex_intro _ conds1 (conj S1 C1))) as E1.
  pose proof (proj2 (audit_signers_iff (Signers acc) _ _ _ Hk R2) (ex_intro _ conds2 (conj S2 C2))) as E2.
  rewrite E1 in E2. by injection E2.
Qed.

(** An audited contract has one refund transaction. If [auditcontract] accepts
    an account with two texts, they are the same transaction, and all that is
    shown is the same; otherwise one holds two different texts with the same
    SHA-256 hash. The author cannot have another refund in hand, with another
    lock time, than the one that was audited. *)
Theorem audited_refund_unique network acc addr text1 text2 tx1 tx2 a1 a2 : Forall keyed (Signers acc) ->
  TransactionFromXDR text1 = Ret tx1 -> TransactionFromXDR text2 = Ret tx2 ->
  audit_account network acc addr tx1 = Ret a1 -> audit_account network acc addr tx2 = Ret a2 ->
  (xdrTransaction tx1 = xdrTransaction tx2 /\ a1 = a2) \/ exists m1 m2, m1 <> m2 /\ sha256 m1 = sha256 m2.
Proof.
  intros Hk Hr1 Hr2 Ha1 Ha2.
  destruct (read_typed _ _ Hr1) as (env1 & id1 & ops1 & W1 & _ & O1 & ->), (read_typed _ _ Hr2) as (env2 & id2 & ops2 & W2 & _ & O2 & ->).
  destruct (audit_account_Ret _ _ _ _ _ Hk Ha1) as (h1 & c1 & S1), (audit_account_Ret _ _ _ _ _ Hk Ha2) as (h2 & c2 & S2).
  destruct (swap_account_same _ _ _ _ _ _ _ _ _ _ _ Hk S1 S2) as (Er & Es & <-). destruct W1 as [W1 _], W2 as [W2 _].
  destruct (hash_commits network (Tx env1) (Tx env2) h1 W1 W2 (sa_hash _ _ _ _ _ _ _ S1) (sa_hash _ _ _ _ _ _ _ S2)) as [E|?]; [|by right].
  left. split; [exact E|]. rewrite E, O2 in O1. injection O1 as <-. destruct S1 as [_ _ _ _ _ F1 L1], S2 as [_ _ _ _ _ F2 L2].
  cbn [read_tx Operations T_Timebounds] in *. rewrite E in L1. rewrite F1 in F2.
  destruct a1 as [r1 s1 l1 d1], a2 as [r2 s2 l2 d2]. cbn [a_recipient a_secretHash a_lockTime a_refundAddress] in *. congruence.
Qed.

(** ** The contract of the tool *)

Lemma increment_Ret a n a' : HAccount_IncrementSequenceNumber a = Ret (n, a') ->
  AccountID a' = AccountID a /\ Balances a' = Balances a /\ is_int 64 n.
Proof.
  unfold HAccount_IncrementSequenceNumber, GetSequenceNumber. intros H. go_inv H. split_and!; [done..|]. apply to_int_range. lia.
Qed.

Lemma IncrementSequenceNumber_Ret a n a' : IncrementSequenceNumber (HorizonAccount a) = Ret (n, a') -> is_int 64 n.
Proof. unfold IncrementSequenceNumber. intros H. apply bind_Ret in H as ([m b] & H & [= -> _]). by apply increment_Ret in H as (_ & _ & ?). Qed.

(** An account that holds lumens only. *)
Definition native_only (a : HAccount) : Prop := Forall (fun b => B_Type b = NativeAssetType) (Balances a).

(** At most 49 balances, with codes of bytes. *)
Definition balances_ok (a : HAccount) : Prop := (length (Balances a) <= 49)%nat /\ Forall (fun b => bytes_ok (B_Code b)) (Balances a).

Lemma redeem_operations_ok a k receiver : key_ok k -> AccountID a = address k -> balances_ok a ->
  Forall op_ok (createRedeemOperations a receiver) /\ (length (createRedeemOperations a receiver) <= 100)%nat.
Proof.
  intros Hk Ha [Hl Hb]. unfold createRedeemOperations. rewrite length_app, Ha. cbn [length].
  assert (source_ok (Some (address k))) as Hs by (cbn; by rewrite SetAddress_address).
  cut (Forall op_ok (flat_map (redeem_balance (address k) receiver) (Balances a)) /\
       (length (flat_map (redeem_balance (address k) receiver) (Balances a)) <= 2 * length (Balances a))%nat).
  { intros [H1 H2]. split; [|lia]. apply Forall_app_2; [done|]. by constructor. }
  clear Hl. induction Hb as [|b l Hb _ [IH1 IH2]]; [split; [constructor|simpl; lia]|]. cbn [flat_map]. rewrite length_app.
  unfold redeem_balance at 1 3. case_bool_decide; cbn [app length]; (split; [|lia]); [done|]. by repeat constructor.
Qed.

(** Each asset that is not native makes two operations. *)
Lemma asset_operations a receiver : ~ native_only a -> (3 <= length (createRedeemOperations a receiver))%nat.
Proof.
  unfold native_only, createRedeemOperations. intros H. rewrite length_app. simpl.
  induction (Balances a) as [|b l IH]; [by destruct H|]. cbn [flat_map]. rewrite length_app.
  destruct (decide (B_Type b = NativeAssetType)) as [Hb|Hb].
  - assert (~ Forall (fun b => B_Type b = NativeAssetType) l) as Hn by (intros Hn; apply H; by constructor). specialize (IH Hn). lia.
  - unfold redeem_balance at 1. rewrite bool_decide_false by done. simpl. lia.
Qed.

Lemma native_operations a receiver : native_only a -> createRedeemOperations a receiver = [AccountMerge receiver (Some (AccountID a))].
Proof.
  unfold native_only, createRedeemOperations. induction 1 as [|b l Hb _ IH]; [done|]. cbn [flat_map].
  unfold redeem_balance at 1. by rewrite bool_decide_true.
Qed.

(** The envelope of a built transaction is well formed. *)
Lemma built_envelope_wf k seq xs tb ops sigs : key_ok k -> is_int 64 seq -> Forall op_ok ops -> build_ops ops = Ret xs -> (length ops <= 100)%nat ->
  Forall (wf c_DecoratedSignature) sigs -> zlen sigs <= 20 -> wf c_TransactionEnvelope (mkTransactionEnvelope (built_xdr k seq xs tb) sigs).
Proof.
  intros Hk Hs Ho Hx Hl Hg Hn. destruct (build_ops_wf _ _ Ho Hx) as [H1 H2]. apply envelope_wf; [|done..]. apply built_wf; [done..|lia].
Qed.

(** The operations that [BuildXDR] makes have values. *)
Lemma built_has_value ops : forall xs, build_ops ops = Ret xs -> forallb has_value xs = true.
Proof.
  induction ops as [|op ops IH]; intros xs H; cbn [build_ops] in H; go_inv H; [done|]. apply andb_true_intro. split; [|by apply IH].
  destruct op; cbn [BuildXDR] in *; autounfold with operation in *; match goal with H : _ = Ret a0 |- _ => go_inv H end; done.
Qed.

(** What Horizon shows of options that were set on an account with its master key
    only: the signers, with the type of their keys, in some order, the new weight of the
    master key, and the thresholds. *)
Definition type_of_key (key : bytes) : bytes :=
  match strkey_Version key with
  | Ret v => if v =? VersionByteHashX then KeyType_HashX else if v =? VersionByteHashTx then KeyType_HashTx else KeyType_AccountID
  | _ => []
  end.

Definition signers_set (op : Operation) : list HSigner :=
  match op with
  | SetOptions _ _ _ master _ _ _ _ signer (Some account) =>
      ((fun s => mkHSigner (Weight s) (Address s) (type_of_key (Address s))) <$> option_list signer)
      ++ ((fun w => mkHSigner w account (type_of_key account)) <$> option_list master)
  | _ => []
  end.

Record shows_options (ops : list Operation) (acc : HAccount) : Prop := {
  so_signers : Signers acc ≡ₚ flat_map signers_set ops;
  so_thresholds i setf clearf m l me h d s a : SetOptions i setf clearf m (Some l) (Some me) (Some h) d s a ∈ ops ->
    AccountThresholds acc = mkThresholds l me h }.

Lemma type_of_text v k : version_byte v -> key_ok k ->
  type_of_key (key_text v k) = if v =? VersionByteHashX then KeyType_HashX else if v =? VersionByteHashTx then KeyType_HashTx else KeyType_AccountID.
Proof. intros Hv [H1 H2]. unfold type_of_key. by rewrite strkey_Version_text. Qed.

Lemma key_text_nonempty v k : version_byte v -> key_ok k -> key_text v k <> [].
Proof. intros Hv [H1 H2] H. pose proof (key_text_56 v k Hv H1 H2) as Hl. by rewrite H in Hl. Qed.

Lemma sha256_key s : key_ok (sha256 s).
Proof. split; [apply sha256_length|apply sha256_ok]. Qed.

(** A merge is read back from what it was built to. *)
Lemma merge_read_back kd ks xs : key_ok kd -> key_ok ks -> build_ops [AccountMerge (address kd) (Some (address ks))] = Ret xs ->
  operations_from xs = Ret [Parsed (AccountMerge (address kd) (Some (address ks)))].
Proof.
  intros Hd Hs H. cbn [build_ops BuildXDR] in H. autounfold with operation in H. cbn [SetOpSourceAccount] in H. rewrite !SetAddress_address in H by done. go_inv H.
  reflexivity.
Qed.

(** The signers that the options of a contract set. *)
Definition contract_signers (kc secretHash h kh : bytes) : list HSigner :=
  [mkHSigner 1 (address kc) KeyType_AccountID; mkHSigner 1 (key_text VersionByteHashX secretHash) KeyType_HashX;
   mkHSigner 2 (key_text VersionByteHashTx h) KeyType_HashTx; mkHSigner 0 (address kh) KeyType_AccountID].

Lemma contract_options acc kh kc secretHash h network options shown : AccountID acc = address kh ->
  key_ok kh -> key_ok kc -> key_ok secretHash -> key_ok h ->
  createHoldingAccountSigningTransaction acc (address kc) secretHash h network = Ret options -> shows_options (Operations options) shown ->
  Signers shown ≡ₚ contract_signers kc secretHash h kh /\ AccountThresholds shown = swap_thresholds.
Proof.
  intros Ha Hh Hc Hs Ht Ho [H1 H2]. unfold createHoldingAccountSigningTransaction, CreateHashxAddress, CreateHashTxAddress in Ho.
  rewrite !Encode_text in Ho by done. injection Ho as <-. rewrite Ha in *. split.
  - assert (type_of_key (address kc) = KeyType_AccountID) as E1 by apply (type_of_text VersionByteAccountID kc eq_refl Hc).
    assert (type_of_key (address kh) = KeyType_AccountID) as E2 by apply (type_of_text VersionByteAccountID kh eq_refl Hh).
    pose proof (type_of_text VersionByteHashX secretHash eq_refl Hs) as E3. pose proof (type_of_text VersionByteHashTx h eq_refl Ht) as E4.
    change (Signers shown ≡ₚ [mkHSigner 1 (address kc) (type_of_key (address kc));
      mkHSigner 1 (key_text VersionByteHashX secretHash) (type_of_key (key_text VersionByteHashX secretHash));
      mkHSigner 2 (key_text VersionByteHashTx h) (type_of_key (key_text VersionByteHashTx h));
      mkHSigner 0 (address kh) (type_of_key (address kh))]) in H1.
    by rewrite E1, E2, E3, E4 in H1.
  - apply (H2 None [] [] (Some 0) 2 2 2 None None (Some (address kh))). cbn [Operations newTransaction]. rewrite !elem_of_cons. tauto.
Qed.

Lemma active_permutation l1 l2 : l1 ≡ₚ l2 -> active l1 ≡ₚ active l2.
Proof. intros H. unfold active. induction H; simpl; repeat case_match; try done; try (by constructor). by etransitivity. Qed.

Lemma contract_conditions sigs kc secretHash h kh : key_ok kh -> key_ok kc -> key_ok secretHash -> key_ok h ->
  sigs ≡ₚ contract_signers kc secretHash h kh ->
  Forall keyed sigs /\ exists conds, Forall2 reads_as (active sigs) conds /\ conds ≡ₚ swap_conditions (address kc) secretHash h.
Proof.
  intros Hh Hc Hs Ht H. split.
  - rewrite H. repeat constructor; by apply key_text_nonempty.
  - assert (Forall2 reads_as (active (contract_signers kc secretHash h kh)) (swap_conditions (address kc) secretHash h)) as HF.
    { repeat constructor; [destruct Hs|destruct Ht]; by rewrite Decode_text. }
    apply active_permutation in H. destruct (Permutation_Forall2 (symmetry H) HF) as (conds & H1 & H2). by exists conds.
Qed.

Section Contract.
Context {N : Type} `{HC : !HorizonClient N, ED : !Strkey.Ed25519}.
Context (targetNetwork : bytes).

(** A transaction that empties an account, as [createRefundTransaction] builds. *)
Lemma refund_transaction kh refund locktime w tx w' : key_ok kh ->
  createRefundTransaction targetNetwork (address kh) refund locktime w = (Ret tx, w') ->
  (forall acc n, AccountDetail (address kh) (node w) = (Ret acc, n) -> AccountID acc = address kh) ->
  exists acc n seq source xs, AccountDetail (address kh) (node w) = (Ret acc, n) /\ is_int 64 seq /\
    build_ops (createRedeemOperations acc refund) = Ret xs /\ Timebounds_Validate (NewTimebounds locktime 0) = Ret tt /\
    tx = built source (createRedeemOperations acc refund) (NewTimebounds locktime 0) targetNetwork (built_xdr kh seq xs (NewTimebounds locktime 0)).
Proof.
  intros Hk H Hacc. unfold createRefundTransaction, GetAccount in H. cmd_inv H.
  apply run_ask in Hc as (n & Hn & ->). specialize (Hacc _ _ Hn). destruct a0 as [m acc'].
  destruct (increment_Ret _ _ _ Hc0) as (Hid & Hb & _). cmd_inv H.
  assert (createRedeemOperations acc' refund = createRedeemOperations a refund) as Ho by (unfold createRedeemOperations; by rewrite Hid, Hb).
  rewrite Ho in H. apply (Build_Ret _ kh) in H as (seq & source & xs & H1 & H2 & H3 & H4); [|simpl; congruence|done].
  exists a, n, seq, source, xs. split_and!; try done. by eapply IncrementSequenceNumber_Ret.
Qed.

(** What is read back of a refund transaction. *)
Lemma refund_read_back kh refund locktime w tx w' : key_ok kh ->
  createRefundTransaction targetNetwork (address kh) refund locktime w = (Ret tx, w') ->
  (forall acc n, AccountDetail (address kh) (node w) = (Ret acc, n) -> AccountID acc = address kh /\ balances_ok acc) ->
  exists acc n seq xs ops text, AccountDetail (address kh) (node w) = (Ret acc, n) /\
    build_ops (createRedeemOperations acc refund) = Ret xs /\ Timebounds_Validate (NewTimebounds locktime 0) = Ret tt /\
    operations_from xs = Ret ops /\ length ops = length (createRedeemOperations acc refund) /\ Network tx = targetNetwork /\
    xdrTransaction tx = built_xdr kh seq xs (NewTimebounds locktime 0) /\ Transaction_Base64 tx = Ret text /\
    TransactionFromXDR text = Ret (read_tx (mkTransactionEnvelope (built_xdr kh seq xs (NewTimebounds locktime 0)) []) (address kh) ops).
Proof.
  intros Hh Hr Hacc.
  destruct (refund_transaction _ _ _ _ _ _ Hh Hr (fun a n H => proj1 (Hacc a n H))) as (acc & n & seq & source & xs & H1 & Hseq & Hx & Ht & ->).
  destruct (Hacc _ _ H1) as [Hid Hb]. destruct (redeem_operations_ok acc kh refund Hh Hid Hb) as [Hok Hlen].
  pose proof (built_envelope_wf kh seq xs (NewTimebounds locktime 0) _ [] Hh Hseq Hok Hx Hlen ltac:(constructor) ltac:(by vm_compute)) as Hwf.
  destruct (text_read_back (built source (createRedeemOperations acc refund) (NewTimebounds locktime 0) targetNetwork
    (built_xdr kh seq xs (NewTimebounds locktime 0))) _ eq_refl Hwf (built_has_value _ _ Hx)) as (text & id & ops & Et & Eid & Eo & El & Er).
  cbn [Tx built_xdr X_Operations X_SourceAccount] in Eo, El, Eid. rewrite Address_account_id in Eid. injection Eid as <-.
  destruct (build_ops_wf _ _ Hok Hx) as [_ Hl]. exists acc, n, seq, xs, ops, text. split_and!; [done..|congruence|done|done|exact Et|exact Er].
Qed.

(** C5: The contracts of lumens that the tool makes pass the audit. Let the new
    account hold lumens only (no asset: [native_only]) and show at most 49 balances,
    and let all keys be well formed. Let the tool build the refund transaction of
    this account, and the options with its hash, for a counterparty, a secret hash
    and a lock time; let Horizon show the account with these options. Then
    [auditcontract], given the printed text of the refund transaction, shows that
    counterparty, secret hash, lock time and the address of the author. (The
    contract of an asset never passes: [asset_contract_not_audited].) *)
Theorem contract_audits kh kf kc secretHash locktime w refund w' h acc options shown :
  key_ok kh -> key_ok kf -> key_ok kc -> key_ok secretHash -> is_int 64 locktime ->
  (forall acc n, AccountDetail (address kh) (node w) = (Ret acc, n) -> AccountID acc = address kh /\ native_only acc /\ balances_ok acc) ->
  createRefundTransaction targetNetwork (address kh) (address kf) locktime w = (Ret refund, w') ->
  Transaction_Hash refund = Ret h -> AccountID acc = address kh ->
  createHoldingAccountSigningTransaction acc (address kc) secretHash h targetNetwork = Ret options ->
  shows_options (Operations options) shown ->
  exists text tx, Transaction_Base64 refund = Ret text /\ TransactionFromXDR text = Ret tx /\
    audit_account targetNetwork shown (address kh) tx = Ret (mkAudited (address kc) secretHash locktime (address kf)).
Proof.
  intros Hh Hf Hc Hs Hl Hacc Hr Eh Ha Ho Hshown.
  destruct (refund_read_back _ _ _ _ _ _ Hh Hr) as (acc0 & n & seq & xs & ops & text & H1 & Hx & Ht & Eo & _ & Hnet & Hxdr & Et & Er).
  { intros a n H. destruct (Hacc a n H) as [H1 H2]. by destruct H2. }
  destruct (Hacc _ _ H1) as [Hid Hn]. rewrite (native_operations acc0 _ (proj1 Hn)), Hid in Hx.
  rewrite (merge_read_back _ _ _ Hf Hh Hx) in Eo. injection Eo as <-.
  unfold Transaction_Hash in Eh. rewrite Hnet, Hxdr in Eh.
  assert (key_ok h) as Hkh.
  { unfold HashTransaction in Eh. go_inv Eh. apply sha256_key. }
  destruct (contract_options _ _ _ _ _ _ _ _ Ha Hh Hc Hs Hkh Ho Hshown) as [Hsig Hth].
  eexists _, _. split; [exact Et|]. split; [exact Er|].
  destruct (contract_conditions _ _ _ _ _ Hh Hc Hs Hkh Hsig) as (Hkeyed & conds & HF & HP).
  apply (audit_account_ok _ _ _ _ _ h conds Hkeyed). constructor; cbn [a_recipient a_secretHash a_refundAddress a_lockTime]; [done| |exact Eh|done..|].
  - by apply key_text_nonempty.
  - unfold Timebounds_Validate in Ht. cbn in Ht. destruct (Z.ltb_spec locktime 0) as [|H0]; [done|].
    change (to_int 64 (to_uint 64 locktime) = locktime). unfold is_int in Hl. rewrite to_uint_id by (unfold is_uint; lia). apply to_int_id; [lia|done].
Qed.

(** The refund of an asset never passes the audit. If the new account holds an
    asset that is not lumens, the refund transaction that the tool builds pays the
    asset back before it merges the account; and [auditcontract] accepts a
    transaction of one operation only, whatever the account shown, so no
    counterparty can check such a contract. *)
Theorem asset_contract_not_audited kh refund locktime w tx w' : key_ok kh ->
  createRefundTransaction targetNetwork (address kh) refund locktime w = (Ret tx, w') ->
  (forall acc n, AccountDetail (address kh) (node w) = (Ret acc, n) -> AccountID acc = address kh /\ ~ native_only acc /\ balances_ok acc) ->
  exists text tx', Transaction_Base64 tx = Ret text /\ TransactionFromXDR text = Ret tx' /\
    forall network shown addr a, audit_account network shown addr tx' <> Ret a.
Proof.
  intros Hh Hr Hacc.
  destruct (refund_read_back _ _ _ _ _ _ Hh Hr) as (acc & n & seq & xs & ops & text & H1 & _ & _ & _ & El & _ & _ & Et & Er).
  { intros a n H. by destruct (Hacc a n H) as (? & _ & ?). }
  destruct (Hacc _ _ H1) as (_ & Hn & _). pose proof (asset_operations acc refund Hn). eexists _, _. split; [exact Et|]. split; [exact Er|].
  intros network shown addr a Ha%audit_account_one. cbn [read_tx Operations] in Ha. lia.
Qed.
End Contract.
