(* ===== verification/StellarRedeem.v ===== *)
(** * The Stellar tool: redemptions and the secret

    What [redeem] signs, that its signatures show the secret, and what
    [extractsecret] finds in the history of an account. *)

From S2P Require Import Prelude Sha256 BigEndian Base58 Decimal Cli Strkey Base64 Xdr StellarXdr TxnBuild StellarSwap StellarCommands StrkeyTheorems Base64Theorems StellarXdrTheorems TxnBuildTheorems StellarTheorems.

#[local] Opaque sha256 crc16_loop b32_EncodeToString.

(** ** Signing *)

Lemma add_signature_built account ops tb network x sigs (sig : DecoratedSignature) :
  add_signature (mkTransaction (Op := Operation) account ops 100 None tb network x (Some (mkTransactionEnvelope x sigs))) sig =
  Ret (mkTransaction account ops 100 None tb network x (Some (mkTransactionEnvelope x (sigs ++ [sig])))).
Proof. done. Qed.

(** ** Looking for the secret *)

(** The search goes through all signatures, transaction by transaction. *)
Lemma find_secret_flat txs hexHash : find_secret txs hexHash = find_in_signatures (flat_map HSignatures txs) hexHash.
Proof.
  induction txs as [|tx txs IH]; [done|]. cbn [find_secret flat_map]. rewrite IH.
  generalize (flat_map HSignatures txs) as rest. intros rest. induction (HSignatures tx) as [|raw sigs IHs]; [done|]. cbn [find_in_signatures app].
  destruct (mapErr _ (b64_DecodeString raw)) as [sig|e|e]; [|done..]. cbn [mbind outcome_bind].
  destruct (64 <? zlen sig); [done|]. by case_bool_decide.
Qed.

Lemma b64_no_panic s e : b64_DecodeString s <> Panic e.
Proof. unfold b64_DecodeString. by destruct (b64_decode _) as [? []]. Qed.

(** A signature in base 64 that is not the secret. *)
Definition passed_over (hexHash raw : bytes) : Prop :=
  exists sig, b64_DecodeString raw = Ret sig /\ (64 < zlen sig \/ hex_encode (sha256 sig) <> hexHash).

(** [extractsecret] of the Stellar tool finds the first signature whose SHA-256
    hash is the one given, in text, among the signatures of the transactions that
    debited the account; it finds none exactly when every signature is decoded
    and has another hash (or is longer than any signature); it fails exactly at
    a signature that is not base 64 and comes before any match. *)
Theorem find_secret_spec txs hexHash : exists pre post,
  flat_map HSignatures txs = pre ++ post /\ Forall (passed_over hexHash) pre /\
  match find_secret txs hexHash with
  | Ret (Some s) => exists raw rest, post = raw :: rest /\ b64_DecodeString raw = Ret s /\ zlen s <= 64 /\ hex_encode (sha256 s) = hexHash
  | Ret None => post = []
  | Fail e => exists raw rest err, post = raw :: rest /\ b64_DecodeString raw = Fail err /\ e = Errorf "Error base64 decoding signature :%v" [FErr err]
  | Panic _ => False
  end.
Proof.
  rewrite find_secret_flat. induction (flat_map HSignatures txs) as [|raw sigs IH].
  { exists [], []. done. }
  cbn [find_in_signatures]. destruct (b64_DecodeString raw) as [sig|e|e] eqn:E; [|exists [], (raw :: sigs); split_and!; [done..|by exists raw, sigs, e]|by apply b64_no_panic in E].
  cbn [mapErr mbind outcome_bind]. destruct (Z.ltb_spec 64 (zlen sig)) as [Hl|Hl]; [|case_bool_decide as Hh].
  - destruct IH as (pre & post & -> & Hp & H). exists (raw :: pre), post. split; [done|]. split; [|done]. constructor; [|done]. exists sig. auto.
  - exists [], (raw :: sigs). split; [done|]. split; [done|]. eauto 10.
  - destruct IH as (pre & post & -> & Hp & H). exists (raw :: pre), post. split; [done|]. split; [|done]. constructor; [|done]. exists sig. auto.
Qed.

Section Redeem.
Context `{ED : !Strkey.Ed25519} `{ES : !Ed25519Sizes}.
Context (targetNetwork : bytes).

(** A signature of a key pair is well formed. *)
Lemma SignDecorated_ok kp input sig : SignDecorated kp input = Ret sig ->
  keypair_Sign kp input = Ret (Signature sig) /\ wf c_DecoratedSignature sig.
Proof.
  unfold SignDecorated. intros H. go_inv H. split; [done|].
  assert (zlen a0 = 4 /\ bytes_ok a0) as H4.
  { unfold keypair_Hint, keypair_publicKey in Hr0. go_inv Hr0. split; [|apply Forall_drop, public_bytes].
    pose proof (public_size a2) as Hl. unfold zlen in *. rewrite length_drop. lia. }
  unfold keypair_Sign in Hr. go_inv Hr. split; [exact H4|]. split; [|split; [apply signature_bytes|done]].
  change (zlen (ed25519_Sign a1 input) <= 64). by rewrite signature_size.
Qed.

(** A transaction in the history of Horizon: its signatures, in base 64. *)
Definition in_history (env : TransactionEnvelope) : HTransaction :=
  mkHTransaction ((fun s => b64_EncodeToString (Signature s)) <$> Signatures env).

Lemma find_first_signature env rest secret : zlen secret <= 64 -> bytes_ok secret -> (exists l, Signature <$> Signatures env = secret :: l) ->
  find_secret (in_history env :: rest) (hex_encode (sha256 secret)) = Ret (Some secret).
Proof.
  intros Hl Hb [l H]. cbn [find_secret in_history HSignatures]. destruct (Signatures env) as [|s sigs]; [done|]. injection H as Hs _.
  cbn [fmap list_fmap find_in_signatures]. rewrite Hs, b64_round_trip by done. cbn [mapErr mbind outcome_bind].
  destruct (Z.ltb_spec 64 (zlen secret)); [lia|]. by rewrite bool_decide_true.
Qed.

(** What [redeem] builds: the transaction and its two signatures. *)
Lemma build_redeem_Ret acc kh receiver secret text : key_ok kh -> AccountID acc = address kh ->
  build_redeem targetNetwork acc receiver secret = Ret text ->
  exists addr seq source xs h sig, keypair_Address receiver = Ret addr /\ is_int 64 seq /\ build_ops (createRedeemOperations acc addr) = Ret xs /\
    let x := built_xdr kh seq xs (NewTimebounds 0 0) in
    HashTransaction x targetNetwork = Ret h /\ SignDecorated receiver h = Ret sig /\ zlen secret <= 64 /\
    Transaction_Base64 (mkTransaction source (createRedeemOperations acc addr) 100 None (NewTimebounds 0 0) targetNetwork x
      (Some (mkTransactionEnvelope x [mkDecoratedSignature (drop 28 (sha256 secret)) secret; sig]))) = Ret text.
Proof.
  intros Hk Ha H. unfold build_redeem in H. apply bind_Ret in H as (addr & Haddr & H). apply bind_Ret in H as (tx & Hb & H). apply mapErr_Ret in Hb.
  apply (Build_Ret _ kh) in Hb as (seq & source & xs & Hi & Hx & _ & ->); [|done|done].
  apply bind_Ret in H as (tx1 & H1 & H). apply mapErr_Ret in H1. unfold SignHashX, built in H1. cbn [xdrEnvelope] in H1.
  apply bind_Ret in H1 as ([] & Hs & H1). apply guard_err_Ret in Hs. rewrite add_signature_built in H1. injection H1 as <-.
  apply bind_Ret in H as (tx2 & H2 & H). apply mapErr_Ret in H2, H. unfold Sign in H2. apply bind_Ret in H2 as (h & Hh & H2). apply mapErr_Ret in Hh.
  cbn [sign_all] in H2. apply bind_Ret in H2 as (sig & Hsig & H2). apply mapErr_Ret in Hsig. rewrite add_signature_built in H2. injection H2 as <-.
  exists addr, seq, source, xs, h, sig. cbv zeta. split_and!; [done|by eapply IncrementSequenceNumber_Ret|done|exact Hh|done|lia|exact H].
Qed.

(** The text of a redemption is read back with its two signatures. *)
Lemma redeem_read_back acc kh receiver secret text : key_ok kh -> AccountID acc = address kh -> balances_ok acc -> bytes_ok secret ->
  build_redeem targetNetwork acc receiver secret = Ret text ->
  exists tx env h sig, TransactionFromXDR text = Ret tx /\ xdrEnvelope tx = Some env /\ Tx env = xdrTransaction tx /\ zlen secret <= 64 /\
    Signatures env = [mkDecoratedSignature (drop 28 (sha256 secret)) secret; sig] /\ Forall (wf c_DecoratedSignature) (Signatures env) /\
    HashTransaction (xdrTransaction tx) targetNetwork = Ret h /\ SignDecorated receiver h = Ret sig.
Proof.
  intros Hk Ha Hb Hs H. destruct (build_redeem_Ret _ _ _ _ _ Hk Ha H) as (addr & seq & source & xs & h & sig & _ & Hseq & Hx & Hh & Hsig & Hl & Ht).
  destruct (redeem_operations_ok acc kh addr Hk Ha Hb) as [Hok Hlen]. destruct (SignDecorated_ok _ _ _ Hsig) as [Hsign Hwfs].
  set (x := built_xdr kh seq xs (NewTimebounds 0 0)) in *. set (env := mkTransactionEnvelope x [mkDecoratedSignature (drop 28 (sha256 secret)) secret; sig]) in *.
  assert (Forall (wf c_DecoratedSignature) (Signatures env)) as Hwfa.
  { constructor; [|by constructor]. split; [split|split; [exact Hl|split; [exact Hs|done]]].
    - pose proof (sha256_length secret) as Hsl. cbn [Hint fst]. unfold zlen in *. rewrite length_drop. lia.
    - apply Forall_drop, sha256_ok. }
  assert (wf c_TransactionEnvelope env) as Hwf
    by (apply (built_envelope_wf kh seq xs (NewTimebounds 0 0) (createRedeemOperations acc addr)); [done..|exact Hwfa|by vm_compute]).
  destruct (text_read_back (mkTransaction source (createRedeemOperations acc addr) 100 None (NewTimebounds 0 0) targetNetwork x (Some env))
    env eq_refl Hwf (built_has_value _ _ Hx)) as (text' & id & ops & Et & _ & _ & _ & Er).
  rewrite Ht in Et. injection Et as <-. by exists (read_tx env id ops), env, h, sig.
Qed.

(** C20: A redemption shows the secret. The text that [redeem] submits reads back as
    a transaction with two signatures: the secret, and that of the receiver over the
    hash of this transaction on the chosen network; and when the transaction is
    in the history of the account, [extractsecret] with the hash of the secret
    finds the secret. *)
Theorem stellar_redeem_reveals_secret acc kh receiver secret text rest : key_ok kh -> AccountID acc = address kh -> balances_ok acc -> bytes_ok secret ->
  build_redeem targetNetwork acc receiver secret = Ret text ->
  exists tx env h sig, TransactionFromXDR text = Ret tx /\ xdrEnvelope tx = Some env /\ Tx env = xdrTransaction tx /\
    Signature <$> Signatures env = [secret; sig] /\ HashTransaction (xdrTransaction tx) targetNetwork = Ret h /\ keypair_Sign receiver h = Ret sig /\
    find_secret (in_history env :: rest) (hex_encode (sha256 secret)) = Ret (Some secret).
Proof.
  intros Hk Ha Hb Hs H. destruct (redeem_read_back _ _ _ _ _ Hk Ha Hb Hs H) as (tx & env & h & sig & Hx & He & Ht & Hl & Hsigs & _ & Hh & Hsig).
  destruct (SignDecorated_ok _ _ _ Hsig) as [Hsign _]. exists tx, env, h, (Signature sig). rewrite Hsigs. split_and!; try done.
  apply find_first_signature; [done|done|]. rewrite Hsigs. by eexists.
Qed.
End Redeem.
