(* ===== verification/StellarRuns.v ===== *)
(** * The Stellar tool: what its runs submit and print

    The order of the submissions of a swap, how many transactions a command
    submits, and what is left when a swap fails half way. *)

From S2P Require Import Prelude Sha256 Cli Strkey Base64 Xdr StellarXdr TxnBuild StellarSwap StellarCommands.

#[local] Opaque sha256 crc16_loop b32_EncodeToString BuildSignEncode Build HashTransaction.

(** ** Horizon keeps what was submitted *)

(** The transactions submitted, newest first; only [SubmitTransactionXDR] adds to
    them. *)
Class HorizonLog (N : Type) `{!HorizonClient N} := {
  submitted : N -> list bytes;
  submitted_AccountDetail id n : submitted (AccountDetail id n).2 = submitted n;
  submitted_Effects a l n : submitted (Effects a l n).2 = submitted n;
  submitted_OperationDetail id n : submitted (OperationDetail id n).2 = submitted n;
  submitted_TransactionDetail h n : submitted (TransactionDetail h n).2 = submitted n;
  submitted_rand_Read k n : submitted (stellar_rand_Read k n).2 = submitted n;
  submitted_Submit tx n : submitted (SubmitTransactionXDR tx n).2 = tx :: submitted n }.

Section Runs.
Context {N : Type} `{HC : !HorizonClient N, HL : !HorizonLog N, ED : !Strkey.Ed25519}.

(** Nothing is submitted, printed or read from the terminal. *)
Definition silent (w w' : env N) : Prop :=
  submitted (node w') = submitted (node w) /\ stdout w' = stdout w /\ stdin w' = stdin w /\ clock w' = clock w.
#[local] Instance silent_preorder : PreOrder silent.
Proof. split; [done|]. intros w1 w2 w3 (? & ? & ? & ?) (? & ? & ? & ?). split_and!; congruence. Qed.

Lemma silent_ask {A} (q : N -> outcome A * N) : (forall n, submitted (q n).2 = submitted n) -> keeps silent (ask q).
Proof.
  intros Hq w r w'. unfold ask. specialize (Hq (node w)). destruct (q (node w)) as [r' n]. by intros [= _ <-].
Qed.

Ltac silent := repeat match goal with
  | |- keeps _ (mbind _ _) => apply keeps_bind; [apply _| |intros ?]
  | |- keeps _ (mret _) => apply keeps_ret, _
  | |- keeps _ (pure _) => apply keeps_pure, _
  | |- keeps _ (errf _ _) => apply keeps_errf
  | |- keeps _ (ask _) => apply silent_ask; intros ?
  | |- keeps _ Now => apply keeps_Now, _
  | |- keeps _ (let '(_, _) := ?p in _) => destruct p
  end.

Lemma GetAccount_silent a : keeps silent (GetAccount a).
Proof. unfold GetAccount. silent. apply submitted_AccountDetail. Qed.
Lemma GenerateKeyPair_silent : keeps silent GenerateKeyPair.
Proof. unfold GenerateKeyPair. silent. apply submitted_rand_Read. Qed.
Lemma createRefundTransaction_silent network a r t : keeps silent (createRefundTransaction network a r t).
Proof. unfold createRefundTransaction. silent. apply GetAccount_silent. Qed.

(** What a part of a command adds to the log: [P] of the new transactions and of
    the outcome. *)
Definition logs {A} (m : cmd N A) (P : list bytes -> outcome A -> Prop) : Prop := forall w r w', m w = (r, w') ->
  stdout w' = stdout w /\ exists new, submitted (node w') = new ++ submitted (node w) /\ P new r.

Definition is_ok {A} (r : outcome A) : Prop := match r with Ret _ => True | _ => False end.

Lemma logs_silent {A} (m : cmd N A) : keeps silent m -> logs m (fun new _ => new = []).
Proof. intros Hm w r w' H. apply Hm in H as (H1 & H2 & _). split; [done|]. by exists []. Qed.

Lemma SubmitTransaction_logs txe : logs (SubmitTransaction txe) (fun new _ => new = [txe]).
Proof.
  intros w r w'. unfold SubmitTransaction, ask. pose proof (submitted_Submit txe (node w)) as Hs.
  destruct (SubmitTransactionXDR txe (node w)) as [[s|[]] n]; intros [= <- <-]; (split; [done|]); by exists [txe].
Qed.

Lemma submit_or_logs report txe : logs (submit_or report txe) (fun new _ => new = [txe]).
Proof.
  intros w r w'. unfold submit_or. destruct (SubmitTransaction txe w) as [r1 w1] eqn:E. apply SubmitTransaction_logs in E.
  destruct r1; by intros [= <- <-].
Qed.

Lemma logs_weaken {A} (m : cmd N A) (P Q : list bytes -> outcome A -> Prop) : logs m P -> (forall new r, P new r -> Q new r) -> logs m Q.
Proof. intros Hm HPQ w r w' H. destruct (Hm _ _ _ H) as (H1 & new & H2 & H3). eauto. Qed.

Lemma logs_bind {A B} (m : cmd N A) (f : A -> cmd N B) (P : list bytes -> outcome A -> Prop) (Q : list bytes -> outcome B -> Prop) :
  logs m P -> (forall new e, P new (Fail e) -> Q new (Fail e)) -> (forall new e, P new (Panic e) -> Q new (Panic e)) ->
  (forall new a, P new (Ret a) -> logs (f a) (fun new' r => Q (new' ++ new) r)) -> logs (m ≫= f) Q.
Proof.
  intros Hm HF HP Hf w r w' H. unfold mbind, cmd_bind in H. destruct (m w) as [[a|e|e] w1] eqn:E;
    destruct (Hm _ _ _ E) as (H1 & new & H2 & H3); [|injection H as <- <-; eauto..].
  destruct (Hf _ _ H3 _ _ _ H) as (H4 & new' & H5 & H6). split; [congruence|]. exists (new' ++ new). split; [|done]. by rewrite H5, H2, app_assoc.
Qed.

Lemma logs_pure {A} (o : outcome A) : logs (pure o) (fun new r => new = [] /\ r = o).
Proof. intros w r w' [= <- <-]. split; [done|]. by exists []. Qed.

(** A part that gets a value without submitting, then the rest. *)
Lemma logs_after_pure {A B} (o : outcome A) (f : A -> cmd N B) (Q : list bytes -> outcome B -> Prop) :
  (forall e, Q [] (Fail e)) -> (forall e, Q [] (Panic e)) -> (forall a, o = Ret a -> logs (f a) Q) -> logs (pure o ≫= f) Q.
Proof.
  intros HF HP Hf. eapply logs_bind; [apply logs_pure|by intros ? e [-> _]|by intros ? e [-> _]|].
  intros new a [-> Ha]. eapply logs_weaken; [by apply Hf|]. intros new' r. by rewrite app_nil_r.
Qed.

Lemma logs_after_silent {A B} (m : cmd N A) (f : A -> cmd N B) (Q : list bytes -> outcome B -> Prop) :
  keeps silent m -> (forall e, Q [] (Fail e)) -> (forall e, Q [] (Panic e)) -> (forall a, logs (f a) Q) -> logs (m ≫= f) Q.
Proof.
  intros Hm HF HP Hf. eapply logs_bind; [by apply logs_silent|by intros ? e ->|by intros ? e ->|].
  intros new a ->. eapply logs_weaken; [by apply Hf|]. intros new' r. by rewrite app_nil_r.
Qed.

(** ** The submissions of a swap *)

(** At most one submission, and one if the part returns. *)
Definition once {A} (new : list bytes) (r : outcome A) : Prop := (new = [] /\ ~ is_ok r) \/ exists txe, new = [txe].

#[local] Hint Extern 1 (once [] _) => left; split; [done|by intros []] : core.

Lemma createHoldingAccount_logs a amount kp network : logs (createHoldingAccount a amount kp network) once.
Proof.
  unfold createHoldingAccount. apply logs_after_pure; [auto..|]. intros addr _. apply logs_after_silent; [apply GetAccount_silent|auto..|]. intros acc.
  apply logs_after_pure; [auto..|]. intros [txe tx] _. eapply logs_weaken; [apply submit_or_logs|]. intros new r ->. right. eauto.
Qed.

Lemma fundHoldingAccount_logs network kp kh amount asset : logs (fundHoldingAccount network kp kh amount asset) once.
Proof.
  unfold fundHoldingAccount. apply logs_after_pure; [auto..|]. intros addr _. apply logs_after_silent; [apply GetAccount_silent|auto..|]. intros acc.
  apply logs_after_pure; [auto..|]. intros faddr _. apply logs_after_silent; [apply GetAccount_silent|auto..|]. intros facc.
  apply logs_after_pure; [auto..|]. intros [txe tx] _. eapply logs_weaken; [apply submit_or_logs|]. intros new r ->. right. eauto.
Qed.

(** The options: submitted for the signers given. *)
Definition options_for (network kh cp secretHash h txe : bytes) : Prop := exists acc options tx,
  createHoldingAccountSigningTransaction acc cp secretHash h network = Ret options /\ BuildSignEncode options [kh] = Ret (txe, tx).

Lemma setOptions_logs network kh cp secretHash h : logs (setHoldingAccountSigningOptions network kh cp secretHash h)
  (fun new r => (new = [] /\ ~ is_ok r) \/ exists txe, new = [txe] /\ options_for network kh cp secretHash h txe).
Proof.
  unfold setHoldingAccountSigningOptions. apply logs_after_pure; [auto..|]. intros addr _. apply logs_after_silent; [apply GetAccount_silent|auto..|]. intros acc.
  apply logs_after_pure; [auto..|]. intros options Ho%mapErr_Ret. apply logs_after_pure; [auto..|]. intros [txe tx] Hb%mapErr_Ret.
  eapply logs_weaken; [apply submit_or_logs|]. intros new r ->. right. exists txe. split; [done|]. by exists acc, options, tx.
Qed.

(** The submissions of a swap, newest first: the options, if any, after the refund
    transaction was built, with its hash and lock time; the funds, of an asset
    only; the new account. *)
Record swap_log (network kp kh cp secretHash : bytes) (locktime : Z) (asset : Asset) (new : list bytes) (r : outcome (Transaction Operation))
    (options fund create : list bytes) : Prop := {
  sl_new : new = options ++ fund ++ create;
  sl_create : (length create <= 1)%nat;
  sl_fund : (length fund <= if IsNative asset then 0 else 1)%nat;
  sl_refund : options = [] /\ ~ is_ok r \/ exists txe refund h addr faddr w w',
    options = [txe] /\ length create = 1%nat /\ length fund = (if IsNative asset then 0 else 1)%nat /\
    keypair_Address kh = Ret addr /\ keypair_Address kp = Ret faddr /\
    createRefundTransaction network addr faddr locktime w = (Ret refund, w') /\ Transaction_Hash refund = Ret h /\
    options_for network kh cp secretHash h txe /\ (forall tx, r = Ret tx -> tx = refund) }.

Definition swaps network kp kh cp secretHash locktime asset (new : list bytes) (r : outcome (Transaction Operation)) : Prop :=
  exists options fund create, swap_log network kp kh cp secretHash locktime asset new r options fund create.

(** Once the account is created and funded. *)
Lemma swap_options_logs network kp kh cp secretHash locktime asset addr fund create :
  keypair_Address kh = Ret addr -> length create = 1%nat -> length fund = (if IsNative asset then 0 else 1)%nat ->
  logs (fundingAddress ← pure (keypair_Address kp);
        refundTransaction ← createRefundTransaction network addr fundingAddress locktime;
        refundTransactionHash ← pure (mapErr (fun e => Errorf "Failed to Hash the refund transaction: %s" [FErr e]) (Transaction_Hash refundTransaction));
        _ ← setHoldingAccountSigningOptions network kh cp secretHash refundTransactionHash;
        mret refundTransaction)
    (fun new r => swaps network kp kh cp secretHash locktime asset (new ++ fund ++ create) r).
Proof.
  intros Ha Hc Hf. assert (forall r : outcome (Transaction Operation), ~ is_ok r -> swaps network kp kh cp secretHash locktime asset ([] ++ fund ++ create) r) as Hstop.
  { intros r Hr. exists [], fund, create. constructor; [done|lia|lia|by left]. }
  apply logs_after_pure; [intros e; apply Hstop; by intros []..|]. intros faddr Hfa.
  eapply (logs_bind _ _ (fun new r => new = [] /\ forall tx, r = Ret tx -> exists w w', createRefundTransaction network addr faddr locktime w = (Ret tx, w'))).
  { intros w r w' H. destruct (logs_silent _ (createRefundTransaction_silent network addr faddr locktime) _ _ _ H) as (H1 & new & H2 & ->).
    split; [done|]. exists []. split; [done|]. split; [done|]. intros tx ->. eauto. }
  { intros new e [-> _]. apply Hstop. by intros []. }
  { intros new e [-> _]. apply Hstop. by intros []. }
  intros new refund [-> Hr]. destruct (Hr _ eq_refl) as (w & w' & Hr'). eapply logs_weaken; [|intros new r H; rewrite app_nil_r; exact H].
  apply logs_after_pure; [intros e; apply Hstop; by intros []..|]. intros h Hh%mapErr_Ret.
  eapply logs_bind; [apply setOptions_logs| | |].
  - intros new e [[-> _]|(txe & -> & Ho)]; [apply Hstop; by intros []|]. exists [txe], fund, create.
    constructor; [done|lia|lia|right]. exists txe, refund, h, addr, faddr, w, w'. by split_and!.
  - intros new e [[-> _]|(txe & -> & Ho)]; [apply Hstop; by intros []|]. exists [txe], fund, create.
    constructor; [done|lia|lia|right]. exists txe, refund, h, addr, faddr, w, w'. by split_and!.
  - intros new [] [[-> Hn]|(txe & -> & Ho)]; [by destruct Hn|]. intros w1 r1 w1' [= <- <-]. split; [done|]. exists []. split; [done|].
    exists [txe], fund, create. constructor; [done|lia|lia|right]. exists txe, refund, h, addr, faddr, w, w'. split_and!; try done. by intros tx [= <-].
Qed.

Lemma swap_logs network kp kh cp amount secretHash locktime asset :
  logs (createAtomicSwapHoldingAccount network kp kh cp amount secretHash locktime asset) (swaps network kp kh cp secretHash locktime asset).
Proof.
  assert (forall create (r : outcome (Transaction Operation)), (length create <= 1)%nat -> ~ is_ok r ->
    swaps network kp kh cp secretHash locktime asset create r) as Hstop.
  { intros create r Hc Hr. exists [], [], create. constructor; [done|done|simpl; lia|by left]. }
  unfold createAtomicSwapHoldingAccount. apply logs_after_pure; [intros e; apply Hstop; [simpl; lia|by intros []]..|]. intros addr Ha.
  eapply logs_bind; [apply createHoldingAccount_logs| | |].
  1,2: intros new e [[-> _]|(txe & ->)]; apply Hstop; simpl; (lia || by intros []).
  intros new [] [[-> Hn]|(create & ->)]; [by destruct Hn|].
  destruct (IsNative asset) eqn:Easset.
  - eapply logs_bind; [apply (logs_pure (Ret tt))| | |].
    + by intros new e [-> [=]].
    + by intros new e [-> [=]].
    + intros new [] [-> _]. eapply logs_weaken; [by apply (swap_options_logs network kp kh cp secretHash locktime asset addr [] [create]); rewrite ?Easset|].
      intros new r. by rewrite app_nil_r.
  - eapply logs_bind; [apply fundHoldingAccount_logs| | |].
    1,2: intros new e [[-> _]|(txe & ->)]; [apply Hstop; [simpl; lia|by intros []]|];
      exists [], [txe], [create]; constructor; [done|simpl; lia|rewrite Easset; simpl; lia|left; split; [done|by intros []]].
    intros new [] [[-> Hn]|(fund & ->)]; [by destruct Hn|].
    eapply logs_weaken; [by apply (swap_options_logs network kp kh cp secretHash locktime asset addr [fund] [create]); rewrite ?Easset|].
    intros new r. by rewrite <- app_assoc.
Qed.

(** ** Commands *)

(** The same as [logs] for a command that prints at its end: what it printed is
    complete, or nothing. *)
Definition ends {A} (m : cmd N A) (P : list bytes -> outcome A -> Prop) : Prop := forall w r w', m w = (r, w') ->
  (is_ok r \/ stdout w' = stdout w) /\ exists new, submitted (node w') = new ++ submitted (node w) /\ P new r.

Lemma logs_ends {A} (m : cmd N A) P : logs m P -> ends m P.
Proof. intros Hm w r w' H. destruct (Hm _ _ _ H) as (H1 & new & H2 & H3). eauto. Qed.

Lemma ends_bind {A B} (m : cmd N A) (f : A -> cmd N B) (P : list bytes -> outcome A -> Prop) (Q : list bytes -> outcome B -> Prop) :
  logs m P -> (forall new e, P new (Fail e) -> Q new (Fail e)) -> (forall new e, P new (Panic e) -> Q new (Panic e)) ->
  (forall new a, P new (Ret a) -> ends (f a) (fun new' r => Q (new' ++ new) r)) -> ends (m ≫= f) Q.
Proof.
  intros Hm HF HP Hf w r w' H. unfold mbind, cmd_bind in H. destruct (m w) as [[a|e|e] w1] eqn:E;
    destruct (Hm _ _ _ E) as (H1 & new & H2 & H3); [|injection H as <- <-; split; [by right|eauto]..].
  destruct (Hf _ _ H3 _ _ _ H) as (H4 & new' & H5 & H6). split; [destruct H4; [by left|right; congruence]|].
  exists (new' ++ new). split; [|done]. by rewrite H5, H2, app_assoc.
Qed.

Lemma ends_weaken {A} (m : cmd N A) (P Q : list bytes -> outcome A -> Prop) : ends m P -> (forall new r, P new r -> Q new r) -> ends m Q.
Proof. intros Hm HPQ w r w' H. destruct (Hm _ _ _ H) as (H1 & new & H2 & H3). eauto. Qed.

Lemma ends_after_pure {A B} (o : outcome A) (f : A -> cmd N B) (Q : list bytes -> outcome B -> Prop) :
  (forall e, Q [] (Fail e)) -> (forall e, Q [] (Panic e)) -> (forall a, o = Ret a -> ends (f a) Q) -> ends (pure o ≫= f) Q.
Proof.
  intros HF HP Hf. eapply ends_bind; [apply logs_pure|by intros ? e [-> _]|by intros ? e [-> _]|].
  intros new a [-> Ha]. eapply ends_weaken; [by apply Hf|]. intros new' r. by rewrite app_nil_r.
Qed.

Lemma ends_after_silent {A B} (m : cmd N A) (f : A -> cmd N B) (Q : list bytes -> outcome B -> Prop) :
  keeps silent m -> (forall e, Q [] (Fail e)) -> (forall e, Q [] (Panic e)) -> (forall a, ends (f a) Q) -> ends (m ≫= f) Q.
Proof.
  intros Hm HF HP Hf. eapply ends_bind; [by apply logs_silent|by intros ? e ->|by intros ? e ->|].
  intros new a ->. eapply ends_weaken; [by apply Hf|]. intros new' r. by rewrite app_nil_r.
Qed.

(** Printing always succeeds. *)
Definition prints (m : cmd N unit) : Prop := forall w, exists w', m w = (Ret tt, w') /\ node w' = node w.
Lemma prints_Printf f args : prints (Printf f args).
Proof. intros w. by eexists. Qed.
Lemma prints_bind m f : prints m -> prints (f tt) -> prints (m ≫= f).
Proof. intros Hm Hf w. destruct (Hm w) as (w1 & E1 & H1), (Hf w1) as (w2 & E2 & H2). exists w2. rewrite (bind_Ret_run _ _ _ _ _ E1). split; [done|congruence]. Qed.
Lemma prints_ends m : prints m -> ends m (fun new r => new = [] /\ is_ok r).
Proof. intros Hm w r w' H. destruct (Hm w) as (w1 & E & Hn). rewrite E in H. injection H as <- <-. split; [by left|]. exists []. by rewrite Hn. Qed.

Lemma prints_Now (f : Z -> cmd N unit) : (forall t, prints (f t)) -> prints (Now ≫= f).
Proof. intros Hf w. destruct (Hf (clock w) w) as (w' & E & H). by exists w'. Qed.
Lemma prints_ret : prints (mret tt).
Proof. intros w. by eexists. Qed.
Lemma prints_balances l : prints (show_balances l).
Proof.
  induction l as [|b l IH]; [apply prints_ret|]. cbn [show_balances]. apply prints_bind; [|done]. case_bool_decide; apply prints_Printf.
Qed.

Ltac prints := repeat match goal with
  | |- prints (if ?b then _ else _) => destruct b
  | |- prints (mbind _ Now) => apply prints_Now; intros ?
  | |- prints (mbind _ _) => apply prints_bind
  | |- prints (show_balances _) => apply prints_balances
  | |- prints (mret _) => apply prints_ret
  | |- prints _ => apply prints_Printf
  end.

Lemma unix_after_silent d : keeps silent (unix_after d).
Proof. unfold unix_after. silent. Qed.

Context (targetNetwork : bytes) (automated : bool).

(** What a command may submit. *)
Definition command_log (c : stellar_command) (new : list bytes) (r : outcome unit) : Prop :=
  match c with
  | InitiateCmd kp cp amount asset => (new = [] /\ ~ is_ok r) \/ exists kh secret locktime r',
      swaps targetNetwork kp kh cp (sha256 secret) locktime asset new r' /\ (is_ok r -> is_ok r')
  | ParticipateCmd cp kp amount secretHash asset => (new = [] /\ ~ is_ok r) \/ exists kh locktime r',
      swaps targetNetwork kp kh cp secretHash locktime asset new r' /\ (is_ok r -> is_ok r')
  | RedeemCmd kp addr secret => (new = [] /\ ~ is_ok r) \/ exists txe acc, new = [txe] /\ build_redeem targetNetwork acc kp secret = Ret txe
  | RefundCmd tx => (new = [] /\ ~ is_ok r) \/ exists txe, new = [txe] /\ Transaction_Base64 tx = Ret txe
  | ExtractSecretCmd _ _ | AuditContractCmd _ _ => new = []
  end.

#[local] Hint Extern 1 (command_log _ [] _) => left; split; [done|by intros []] : core.

(** The last part of a command, after all its submissions. *)
Lemma ends_prints m (Q : list bytes -> outcome unit -> Prop) : prints m -> (forall r, is_ok r -> Q [] r) -> ends m Q.
Proof. intros Hm HQ. eapply ends_weaken; [by apply prints_ends|]. intros new r [-> H]. auto. Qed.

(** A swap, and what is printed after it. *)
Lemma swap_ends kp kh cp amount secretHash locktime asset (f : Transaction Operation -> bytes -> cmd N unit) :
  (forall tx text, prints (f tx text)) ->
  ends (refundTransaction ← createAtomicSwapHoldingAccount targetNetwork kp kh cp amount secretHash locktime asset;
        text ← pure (Transaction_Base64 refundTransaction); f refundTransaction text)
    (fun new r => exists r', swaps targetNetwork kp kh cp secretHash locktime asset new r' /\ (is_ok r -> is_ok r')).
Proof.
  intros Hf. eapply ends_bind; [apply swap_logs| | |].
  - intros new e H. exists (Fail e). by split.
  - intros new e H. exists (Panic e). by split.
  - intros new tx H. apply ends_after_pure; [intros e; by exists (Ret tx)..|]. intros text _. apply ends_prints; [done|]. intros r _. by exists (Ret tx).
Qed.

Lemma initiate_ends kp cp amount asset : ends (stellar_initiate targetNetwork automated kp cp amount asset) (command_log (InitiateCmd kp cp amount asset)).
Proof.
  unfold stellar_initiate. apply ends_after_silent; [silent; apply submitted_rand_Read|auto..|]. intros secret. cbv zeta.
  apply ends_after_pure; [auto..|]. intros faddr _. apply ends_after_silent; [apply keeps_errf, GenerateKeyPair_silent|auto..|]. intros kh.
  apply ends_after_pure; [auto..|]. intros addr _. apply ends_after_silent; [apply unix_after_silent|auto..|]. intros locktime.
  eapply ends_weaken; [apply (swap_ends _ _ _ _ _ _ _ (fun _ text => _)); intros; unfold print_json; prints|]. intros new r (r' & H1 & H2). right. by exists kh, secret, locktime, r'.
Qed.

Lemma participate_ends kp cp amount secretHash asset :
  ends (stellar_participate targetNetwork automated kp cp amount secretHash asset) (command_log (ParticipateCmd cp kp amount secretHash asset)).
Proof.
  unfold stellar_participate. apply ends_after_pure; [auto..|]. intros faddr _.
  apply ends_after_silent; [apply keeps_errf, GenerateKeyPair_silent|auto..|]. intros kh.
  apply ends_after_pure; [auto..|]. intros addr _. apply ends_after_silent; [apply unix_after_silent|auto..|]. intros locktime.
  eapply ends_weaken; [apply (swap_ends _ _ _ _ _ _ _ (fun _ text => _)); intros; unfold print_json; prints|]. intros new r (r' & H1 & H2). right. by exists kh, locktime, r'.
Qed.

Lemma show_success_prints res : prints (show_success res).
Proof. apply prints_Printf. Qed.

Lemma redeem_ends kp addr secret : ends (stellar_redeem targetNetwork automated kp addr secret) (command_log (RedeemCmd kp addr secret)).
Proof.
  unfold stellar_redeem. apply ends_after_silent; [apply GetAccount_silent|auto..|]. intros acc. apply ends_after_pure; [auto..|]. intros txe Htxe.
  assert (forall (r : outcome unit) , command_log (RedeemCmd kp addr secret) ([] ++ [txe]) r) as Hone by (intros r; right; by exists txe, acc).
  eapply ends_bind; [apply SubmitTransaction_logs|by intros new e ->|by intros new e ->|]. intros new res ->.
  apply ends_prints; [destruct automated; [apply prints_Printf|apply show_success_prints]|auto].
Qed.

Lemma refund_ends tx : ends (stellar_refund automated tx) (command_log (RefundCmd tx)).
Proof.
  unfold stellar_refund. apply ends_after_pure; [auto..|]. intros txe Htxe.
  assert (forall (r : outcome unit) , command_log (RefundCmd tx) ([] ++ [txe]) r) as Hone by (intros r; right; by exists txe).
  eapply ends_bind; [apply SubmitTransaction_logs|by intros new e ->|by intros new e ->|]. intros new res ->.
  apply ends_prints; [destruct automated; [apply prints_ret|apply show_success_prints]|auto].
Qed.

Lemma debiting_silent records : keeps silent (debiting_transactions records).
Proof.
  induction records as [|rec records IH]; cbn [debiting_transactions]; [silent|]. case_match; [done|]. case_match; [|silent].
  silent; [apply submitted_OperationDetail|apply submitted_TransactionDetail|done].
Qed.

Lemma extract_ends addr h : ends (stellar_extractSecret addr h) (command_log (ExtractSecretCmd addr h)).
Proof.
  unfold stellar_extractSecret, GetAccountDebitediTransactions.
  apply ends_after_silent; [silent; [apply submitted_Effects|apply debiting_silent]|done..|]. intros txs.
  apply ends_after_pure; [done..|]. intros _ _. apply ends_after_pure; [done..|]. intros found _. apply ends_after_pure; [done..|]. intros s _.
  apply ends_prints; [apply prints_Printf|done].
Qed.

Lemma audit_ends tx addr : ends (stellar_auditContract targetNetwork automated tx addr) (command_log (AuditContractCmd tx addr)).
Proof.
  unfold stellar_auditContract. apply ends_after_silent; [silent; apply submitted_AccountDetail|done..|]. intros acc.
  apply ends_after_pure; [done..|]. intros a _. apply ends_prints; [|done]. unfold print_json. prints.
Qed.

Lemma command_ends c : ends (stellar_runCommand targetNetwork automated c) (command_log c).
Proof.
  destruct c; [apply initiate_ends|apply participate_ends|apply redeem_ends|apply refund_ends|apply extract_ends|apply audit_ends].
Qed.

(** What the commands of the Stellar tool submit. [extractsecret] and
    [auditcontract] submit nothing; [refund] the transaction it was given, and
    [redeem] the one it built and signed, at most once. [initiate] and
    [participate] create the holding account, then fund it if the asset is not
    lumens, then set its options; and the options are only ever submitted after
    the refund transaction was built for the address of the author and the lock
    time, and they name its hash. A command that fails has printed nothing:
    neither the key of the holding account nor the refund transaction. *)
Theorem stellar_commands_submit c w r w' : stellar_runCommand targetNetwork automated c w = (r, w') ->
  (is_ok r \/ stdout w' = stdout w) /\ exists new, submitted (node w') = new ++ submitted (node w) /\ command_log c new r.
Proof.
  apply command_ends.
Qed.
End Runs.
