(* ===== verification/StellarSim.v ===== *)
(** * A simulated Horizon, and runs of the Stellar tool over it

    A Horizon with one answer prepared for each submission, and a toy signature
    scheme with the sizes of ed25519: they show that the hypotheses of the
    theorems of the Stellar tool can hold, by evaluating its commands. *)

From S2P Require Import Prelude Sha256 BigEndian Base58 Decimal Cli Strkey Base64 Xdr StellarXdr TxnBuild StellarSwap StellarCommands StrkeyTheorems StellarXdrTheorems TxnBuildTheorems XdrTyped StellarTheorems StellarRedeem StellarRuns.

(** ** The simulation *)

#[export] Instance toy_ed25519 : Strkey.Ed25519 := {|
  ed25519_public seed := sha256 seed;
  ed25519_Sign seed msg := sha256 (seed ++ msg) ++ sha256 msg |}.

#[export, program] Instance toy_sizes : Ed25519Sizes.
Next Obligation. intros. apply sha256_length. Qed.
Next Obligation. intros. apply sha256_ok. Qed.
Next Obligation. intros. change (zlen (sha256 (seed ++ msg) ++ sha256 msg) = 64). by rewrite zlen_app, !sha256_length. Qed.
Next Obligation. intros. apply Forall_app_2; apply sha256_ok. Qed.

(** The transactions submitted, newest first, the answers to come, and the
    balances of every account. *)
Record horizon := mkHorizon { sim_submitted : list bytes; sim_answers : list (TransactionSuccess + submit_error); sim_balances : list Balance }.

(** An account with its master key. *)
Definition sim_account (id : bytes) (n : horizon) : HAccount :=
  mkHAccount id (dec_nat 41) (mkThresholds 0 0 0) (sim_balances n) [mkHSigner 1 id KeyType_AccountID].

#[export] Instance sim_client : HorizonClient horizon := {|
  AccountDetail id n := (Ret (sim_account id n), n);
  Effects account limit n := (Ret [], n);
  OperationDetail id n := (Fail (ErrNew "not found"), n);
  TransactionDetail h n := (Fail (ErrNew "not found"), n);
  SubmitTransactionXDR tx n :=
    (match sim_answers n with [] => inr (OtherError (ErrNew "timeout")) | a :: _ => a end,
     mkHorizon (tx :: sim_submitted n) (tail (sim_answers n)) (sim_balances n));
  stellar_rand_Read k n := (Ret (replicate k 7), n) |}.

#[export, program] Instance sim_log : HorizonLog horizon := {| submitted := sim_submitted |}.
Solve Obligations with done.

Definition accepted : TransactionSuccess + submit_error := inl (mkTransactionSuccess [] [] 0 [] [] []).
Definition sim_network : bytes := Eval vm_compute in bytes_of_string "Test SDF Network ; September 2015".

(** Key pairs, and their addresses. *)
Definition seed_of (b : Z) : bytes := key_text VersionByteSeed (replicate 32 b).
Definition public_of (b : Z) : bytes := sha256 (replicate 32 b).
Definition sim_amount : bytes := Eval vm_compute in bytes_of_string "10".

Definition sim_start (answers : list (TransactionSuccess + submit_error)) (balances : list Balance) : env horizon :=
  mkEnv (mkHorizon [] answers balances) [] [] (1600000000 * 10 ^ 9).

(** A swap that succeeds, one whose options are refused, and one whose answer is lost. *)
Definition sim_initiate (answers : list (TransactionSuccess + submit_error)) : outcome unit * env horizon :=
  stellar_runCommand sim_network false (InitiateCmd (seed_of 1) (key_text VersionByteAccountID (public_of 2)) sim_amount NativeAsset) (sim_start answers []).

Example sim_runs : (let '(r, w) := sim_initiate [accepted; accepted] in (is_Ret r, length (stdout w), length (sim_submitted (node w)))) = (true, 5%nat, 2%nat) /\
  (let '(r, w) := sim_initiate [accepted; inr (HorizonError [] None [])] in (is_Ret r, length (stdout w), length (sim_submitted (node w)))) = (false, 0%nat, 2%nat).
Proof. vm_compute. split; reflexivity. Qed.

(** ** Witnesses *)

Lemma public_key_ok b : key_ok (public_of b).
Proof. apply sha256_key. Qed.

Lemma Ret_of {A} (o : outcome A) : is_Ret o = true -> exists a, o = Ret a.
Proof. destruct o; [by eexists|done..]. Qed.

Lemma run_Ret_of {A N} (m : outcome A * env N) : is_Ret m.1 = true -> exists a w, m = (Ret a, w).
Proof. destruct m as [[a|e|e] w]; [by exists a, w|done..]. Qed.

(** A swap that fails when Horizon refuses the options: two transactions were
    submitted and nothing was printed. *)
Definition sim_command : stellar_command := InitiateCmd (seed_of 1) (key_text VersionByteAccountID (public_of 2)) sim_amount NativeAsset.
Definition sim_refused : env horizon := sim_start [accepted; inr (HorizonError [] None [])] [].

Lemma stellar_commands_submit_witness : let run := stellar_runCommand sim_network false sim_command sim_refused in
  is_Ret run.1 = false /\ stdout run.2 = [] /\ length (sim_submitted (node run.2)) = 2%nat /\
  exists new, submitted (node run.2) = new ++ submitted (node sim_refused) /\ command_log sim_network sim_command new run.1.
Proof.
  intros run. split; [vm_compute; reflexivity|]. split; [vm_compute; reflexivity|]. split; [vm_compute; reflexivity|].
  exact (proj2 (stellar_commands_submit sim_network false sim_command sim_refused run.1 run.2 (surjective_pairing run))).
Defined.

(** An account that holds a contract. *)
Definition sim_xdr : XTransaction :=
  built_xdr (public_of 7) 43 [mkXOperation (Some (account_id (public_of 7))) (BodyAccountMerge (account_id (public_of 1)))] (NewTimebounds 5 0).
Definition sim_refund : Transaction ParsedOperation :=
  mkTransaction (SimpleAccount (address (public_of 7)) 43) [Parsed (AccountMerge (address (public_of 1)) (Some (address (public_of 7))))]
    100 None (NewTimebounds 5 0) [] sim_xdr None.
Definition sim_hash : bytes := match HashTransaction sim_xdr sim_network with Ret h => h | _ => [] end.
Definition sim_contract : HAccount :=
  mkHAccount (address (public_of 7)) (dec_nat 42) swap_thresholds [] (contract_signers (public_of 2) (sha256 [1]) sim_hash (public_of 7)).
Definition sim_audited : audited := mkAudited (address (public_of 2)) (sha256 [1]) 5 (address (public_of 1)).

Lemma sim_keyed : Forall keyed (Signers sim_contract).
Proof. apply (bool_decide_unpack _). vm_compute. exact I. Qed.

Lemma sim_audits : audit_account sim_network sim_contract (address (public_of 7)) sim_refund = Ret sim_audited.
Proof. vm_compute. reflexivity. Qed.

Lemma audit_account_iff_witness : Forall keyed (Signers sim_contract) /\
  exists h conds, swap_account sim_network sim_contract (address (public_of 7)) sim_refund sim_audited h conds.
Proof.
  split; [exact sim_keyed|]. exact (proj1 (audit_account_iff sim_network sim_contract (address (public_of 7)) sim_refund sim_audited sim_keyed) sim_audits).
Defined.

(** The refund transaction alone reaches the threshold. *)
Definition sim_choice : list HSigner := [mkHSigner 2 (key_text VersionByteHashTx sim_hash) KeyType_HashTx].

Lemma sim_choice_part : sim_choice ⊆+ Signers sim_contract.
Proof. apply submseteq_cons, submseteq_cons, submseteq_skip, submseteq_nil_l. Qed.

Lemma audited_spending_witness : sim_choice ⊆+ Signers sim_contract /\ total_weight sim_choice = 2 /\
  ((exists key h, mkHSigner 2 key KeyType_HashTx ∈ sim_choice /\ Decode VersionByteHashTx key = Ret h /\
     HashTransaction (xdrTransaction sim_refund) sim_network = Ret h) \/
   (mkHSigner 1 (a_recipient sim_audited) KeyType_AccountID ∈ sim_choice /\
     exists key, mkHSigner 1 key KeyType_HashX ∈ sim_choice /\ Decode VersionByteHashX key = Ret (a_secretHash sim_audited))).
Proof.
  split; [exact sim_choice_part|]. split; [reflexivity|].
  exact (audited_spending sim_network sim_contract (address (public_of 7)) sim_refund sim_audited sim_choice sim_keyed sim_audits sim_choice_part (Z.le_refl 2)).
Defined.

(** The options shown of a contract. *)
Definition sim_shown (options : Transaction Operation) : HAccount :=
  mkHAccount (address (public_of 7)) (dec_nat 42) swap_thresholds [] (flat_map signers_set (Operations options)).

Lemma sim_shows acc cp secretHash h options : createHoldingAccountSigningTransaction acc cp secretHash h sim_network = Ret options ->
  shows_options (Operations options) (sim_shown options).
Proof.
  unfold createHoldingAccountSigningTransaction. intros H. go_inv H. constructor; [done|]. intros i setf clearf m l me hi d sg src Hin.
  cbn [Operations newTransaction] in Hin. rewrite !elem_of_cons, elem_of_nil in Hin. unfold signer_operation in Hin.
  repeat destruct Hin as [Hin|Hin]; first [discriminate Hin|injection Hin; intros; subst; reflexivity|destruct Hin].
Qed.

Definition sim_new (balances : list Balance) : env horizon := sim_start [] balances.
Definition sim_refund_run (balances : list Balance) : outcome (Transaction Operation) * env horizon :=
  createRefundTransaction sim_network (address (public_of 7)) (address (public_of 1)) 1600000000 (sim_new balances).

Lemma sim_refund_Ret : is_Ret (sim_refund_run []).1 = true /\ is_Ret (tx ← (sim_refund_run []).1; Transaction_Hash tx) = true.
Proof. vm_compute. done. Qed.

Lemma sim_options_Ret h : is_Ret (createHoldingAccountSigningTransaction (sim_account (address (public_of 7)) (node (sim_new [])))
  (address (public_of 2)) (sha256 [1]) h sim_network) = true.
Proof. unfold createHoldingAccountSigningTransaction, CreateHashxAddress, CreateHashTxAddress. by rewrite !Encode_text. Qed.

Lemma contract_audits_witness : exists text tx shown, TransactionFromXDR text = Ret tx /\
  audit_account sim_network shown (address (public_of 7)) tx = Ret (mkAudited (address (public_of 2)) (sha256 [1]) 1600000000 (address (public_of 1))).
Proof.
  destruct sim_refund_Ret as [H1 H2]. destruct (run_Ret_of _ H1) as (refund & w & Hr). rewrite Hr in H2.
  destruct (Ret_of _ H2) as [h Hh]. destruct (Ret_of _ (sim_options_Ret h)) as [options Ho].
  destruct (contract_audits sim_network (public_of 7) (public_of 1) (public_of 2) (sha256 [1]) 1600000000 (sim_new []) refund w h
    (sim_account (address (public_of 7)) (node (sim_new []))) options (sim_shown options)
    (public_key_ok 7) (public_key_ok 1) (public_key_ok 2) (sha256_key [1])) as (text & tx & _ & Htx & Ha).
  - unfold is_int. lia.
  - intros acc n Hacc. injection Hacc as <- _. split; [reflexivity|]. split; [constructor|]. split; [simpl; lia|constructor].
  - exact Hr.
  - exact Hh.
  - reflexivity.
  - exact Ho.
  - eapply sim_shows. exact Ho.
  - exists text, tx, (sim_shown options). split; [exact Htx|exact Ha].
Defined.

(** An account that holds an asset. *)
Definition sim_asset : Balance := mkBalance (amount_String 100) [] [84; 70; 84] (address (public_of 3)).

Lemma sim_asset_Ret : is_Ret (sim_refund_run [sim_asset]).1 = true.
Proof. vm_compute. done. Qed.

Lemma asset_contract_not_audited_witness : exists tx w text tx', sim_refund_run [sim_asset] = (Ret tx, w) /\
  Transaction_Base64 tx = Ret text /\ TransactionFromXDR text = Ret tx' /\
  forall a, audit_account sim_network sim_contract (address (public_of 7)) tx' <> Ret a.
Proof.
  destruct (run_Ret_of _ sim_asset_Ret) as (tx & w & Hr).
  destruct (asset_contract_not_audited sim_network (public_of 7) (address (public_of 1)) 1600000000 (sim_new [sim_asset]) tx w (public_key_ok 7) Hr)
    as (text & tx' & Ht & Hx & Ha).
  - intros acc n Hacc. injection Hacc as <- _. split; [reflexivity|]. split.
    + intros Hn. apply Forall_cons in Hn as [Hn _]. discriminate Hn.
    + split; [simpl; lia|]. constructor; [|constructor]. repeat constructor; unfold is_byte; lia.
  - exists tx, w, text, tx'. split; [exact Hr|]. split; [exact Ht|]. split; [exact Hx|]. intros a. apply Ha.
Defined.

(** A redemption. *)
Definition sim_secret : bytes := replicate 32 9.
Lemma sim_redeem_Ret : is_Ret (build_redeem sim_network sim_contract (seed_of 2) sim_secret) = true.
Proof. vm_compute. done. Qed.

Lemma stellar_redeem_reveals_secret_witness : exists text tx env,
  build_redeem sim_network sim_contract (seed_of 2) sim_secret = Ret text /\ TransactionFromXDR text = Ret tx /\ xdrEnvelope tx = Some env /\
  find_secret [in_history env] (hex_encode (sha256 sim_secret)) = Ret (Some sim_secret).
Proof.
  destruct (Ret_of _ sim_redeem_Ret) as [text Ht].
  destruct (stellar_redeem_reveals_secret sim_network sim_contract (public_of 7) (seed_of 2) sim_secret text [] (public_key_ok 7))
    as (tx & env & h & sig & Hx & He & _ & _ & _ & _ & Hf).
  - reflexivity.
  - split; [simpl; lia|constructor].
  - apply Forall_replicate. unfold is_byte. lia.
  - exact Ht.
  - exists text, tx, env. split; [exact Ht|]. split; [exact Hx|]. split; [exact He|exact Hf].
Defined.

(** The text of its refund transaction, read and audited twice. *)
Definition sim_text : bytes :=
  match Transaction_Base64 (built (SimpleAccount [] 0) [] (NewTimebounds 5 0) [] sim_xdr) with Ret t => t | _ => [] end.

Lemma sim_text_audits : is_Ret (tx ← TransactionFromXDR sim_text; audit_account sim_network sim_contract (address (public_of 7)) tx) = true.
Proof. vm_compute. done. Qed.

Lemma audited_refund_unique_witness : exists tx a, TransactionFromXDR sim_text = Ret tx /\
  audit_account sim_network sim_contract (address (public_of 7)) tx = Ret a /\
  ((xdrTransaction tx = xdrTransaction tx /\ a = a) \/ exists m1 m2, m1 <> m2 /\ sha256 m1 = sha256 m2).
Proof.
  destruct (Ret_of _ sim_text_audits) as [a H]. apply bind_Ret in H as (tx & Ht & Ha). exists tx, a. split; [exact Ht|]. split; [exact Ha|].
  exact (audited_refund_unique sim_network sim_contract (address (public_of 7)) sim_text sim_text tx tx a a sim_keyed Ht Ht Ha Ha).
Defined.

Lemma transaction_read_typed_witness : exists tx env id ops, TransactionFromXDR sim_text = Ret tx /\
  wf c_TransactionEnvelope env /\ AccountId_Address (X_SourceAccount (Tx env)) = Ret id /\ operations_from (X_Operations (Tx env)) = Ret ops /\
  tx = read_tx env id ops.
Proof.
  destruct (Ret_of _ sim_text_audits) as [a H]. apply bind_Ret in H as (tx & Ht & Ha). exists tx.
  destruct (transaction_read_typed sim_text tx Ht) as (env & id & ops & H). exists env, id, ops. split; [exact Ht|exact H].
Defined.
