(* ===== verification/StellarCliTheorems.v ===== *)
(** * The Stellar tool as a process

    What a run of the program submits and prints, from the command line to the
    exit, and where the flag [-asset] has an effect. *)

From S2P Require Import Prelude Sha256 Decimal Float Cli Flags Strkey Base64 Xdr StellarXdr TxnBuild StellarSwap StellarCommands StellarCli StrkeyTheorems StellarRuns StellarSim.

#[local] Opaque sha256 crc16_loop b32_EncodeToString.

(** ** Runs *)

(** The command that arguments stand for: the asset is that of the flags in
    front of the command, the other flags are those of the whole line. *)
Definition stellar_command_of (argv : list bytes) (f : stellar_flags) (c : stellar_command) : Prop :=
  exists first rest asset name args, parse_flags stellar_flag argv default_stellar_flags = Some (first, rest) /\ parse_asset first = Ret asset /\
    parse_cmdline stellar_flag (lookup_command stellar_command_args) (fun f => _ ← parse_asset f; Ret tt) argv default_stellar_flags = CommandLine f name args /\
    parse_stellar_command asset name args = Ret c.

Definition network_of (f : stellar_flags) : bytes := if s_testnetFlag f then TestNetworkPassphrase else PublicNetworkPassphrase.

Section Run.
Context {N : Type} `{ED : !Strkey.Ed25519} (public test : HorizonClient N).
Context (public_log : HorizonLog N (HorizonClient0 := public)) (test_log : HorizonLog N (HorizonClient0 := test)).

(** The client of the flags, and what was submitted to it. *)
Definition client_of (f : stellar_flags) : HorizonClient N := if s_testnetFlag f then test else public.
Definition log_of (f : stellar_flags) : N -> list bytes := if s_testnetFlag f then submitted (HorizonLog := test_log) else submitted (HorizonLog := public_log).

(** C18: A run of the Stellar tool. Whatever the arguments and the answers of Horizon,
    and however the process ends: either the arguments were wrong, the server is
    as it was, nothing was printed and the status is not 0; or one command ran
    over the server and the network of [-testnet], it submitted what it may
    submit, the exit status is 0 exactly if it succeeded, and if it failed it
    printed nothing. *)
Theorem stellar_run_submits argv n lines clk exit e' : stellar_run public test argv n lines clk = (exit, e') ->
  (node e' = n /\ stdout e' = [] /\ forall err usage, exit <> Exited 0 err usage) \/
  exists f c r new, stellar_command_of argv f c /\ exit = main_end false r /\
    log_of f (node e') = new ++ log_of f n /\ command_log (HC := client_of f) (network_of f) c new r /\ (is_ok r \/ stdout e' = []).
Proof.
  unfold stellar_run. set (start := mkEnv n lines [] clk).
  destruct (parse_flags stellar_flag argv default_stellar_flags) as [[first rest]|] eqn:Hf; [|intros [= <- <-]; by left].
  destruct (parse_cmdline _ _ _ argv default_stellar_flags) as [|er|f name args] eqn:Hargs; [intros [= <- <-]; by left..|].
  destruct (parse_asset first) as [asset|er|er] eqn:Ha; [|intros [= <- <-]; by left..]. cbn [mbind outcome_bind].
  destruct (parse_stellar_command asset name args) as [c|er|er] eqn:Hc; [|intros [= <- <-]; by left..].
  destruct (stellar_runCommand _ _ c start) as [r e1] eqn:Hr. intros [= <- <-]. right.
  assert (stellar_command_of argv f c) as Hcmd by by exists first, rest, asset, name, args.
  exists f, c, r. unfold log_of, network_of, client_of.
  destruct (s_testnetFlag f); [pose proof (command_ends (HC := test) (HL := test_log) _ _ _ _ _ _ Hr) as (H1 & new & H2 & H3)
    |pose proof (command_ends (HC := public) (HL := public_log) _ _ _ _ _ _ Hr) as (H1 & new & H2 & H3)]; exists new; (split; [exact Hcmd|]); (split; [reflexivity|]); (split; [exact H2|]); (split; [exact H3|exact H1]).
Qed.
End Run.

(** ** The flag [-asset] *)

Definition asset_flag : bytes := Eval vm_compute in bytes_of_string "-asset".
Definition plain (arg : bytes) : Prop := HasPrefixDash arg = false.

Lemma plain_classify arg : plain arg -> classify arg = NotFlag.
Proof. unfold plain, HasPrefixDash, classify. by destruct arg as [|c l]; repeat case_match. Qed.

Lemma plain_first_flag args k : Forall plain args -> first_flag args k = None.
Proof. intros H. revert k. induction H as [|arg args Ha _ IH]; intros k; [done|]. cbn [first_flag]. rewrite Ha, andb_false_r. apply IH. Qed.

Lemma checkCmdArgLength_plain args extra : Forall plain args -> checkCmdArgLength (args ++ extra) (length args) = length args.
Proof.
  intros H. unfold checkCmdArgLength. rewrite length_app. destruct (Nat.ltb_spec (length args + length extra) (length args)); [lia|].
  by rewrite take_app_length, plain_first_flag.
Qed.

(** The names of the commands do not look like flags. *)
Lemma command_plain name n : lookup_command stellar_command_args name = Some n -> plain name /\ (0 < n)%nat.
Proof. unfold stellar_command_args. cbn [lookup_command]. repeat case_bool_decide; intros [= <-]; subst; split; (done || lia). Qed.

Lemma parse_flags_plain {F} formal args (f : F) : (exists a r, args = a :: r /\ plain a) -> parse_flags formal args f = Some (f, args).
Proof. intros (a & r & -> & Ha). cbn [parse_flags]. by rewrite plain_classify. Qed.

(** A command looks only at its arguments. *)
Lemma parse_stellar_command_app asset name args extra : lookup_command stellar_command_args name = Some (length args) ->
  parse_stellar_command asset name (args ++ extra) = parse_stellar_command asset name args.
Proof.
  unfold stellar_command_args. cbn [lookup_command].
  repeat (case_bool_decide; [subst; intros [= Hl]; do 5 (destruct args as [|? args]; try done)|]); done.
Qed.

Section Asset.
Context {N : Type} `{ED : !Strkey.Ed25519} (public test : HorizonClient N).

(** The asset counts only in front of the command. With the arguments that a
    command takes, [-asset] after them is read and ignored: the run is that
    without it, so [initiate] and [participate] lock lumens; directly after the
    name of the command, where the usage text has it, the run fails for want of
    arguments. *)
Theorem asset_flag_position name args value n lines clk :
  lookup_command stellar_command_args name = Some (length args) -> Forall plain args ->
  stellar_run public test (name :: args ++ [asset_flag; value]) n lines clk = stellar_run public test (name :: args) n lines clk /\
  stellar_run public test (name :: asset_flag :: value :: args) n lines clk =
    (Exited 1 (Some (Errorf "%s: too few arguments" [FBytes name])) true, mkEnv n lines [] clk).
Proof.
  intros Hname Hargs. destruct (command_plain _ _ Hname) as [Hp H0]. split.
  - unfold stellar_run, parse_cmdline. rewrite !parse_flags_plain by eauto.
    change (parse_asset default_stellar_flags) with (Ret NativeAsset). cbn [mbind outcome_bind]. rewrite Hname.
    rewrite checkCmdArgLength_plain by done. pose proof (checkCmdArgLength_plain args [] Hargs) as Hn. rewrite app_nil_r in Hn. rewrite Hn.
    rewrite drop_app_length, drop_all.
    change (parse_flags stellar_flag [asset_flag; value] default_stellar_flags) with (Some (mkStellarFlags false false value, @nil bytes)).
    change (parse_flags stellar_flag [] default_stellar_flags) with (Some (default_stellar_flags, @nil bytes)).
    cbv iota beta. rewrite Nat.ltb_irrefl. by rewrite parse_stellar_command_app.
  - unfold stellar_run, parse_cmdline. rewrite !parse_flags_plain by eauto.
    change (parse_asset default_stellar_flags) with (Ret NativeAsset). cbn [mbind outcome_bind]. rewrite Hname.
    assert (checkCmdArgLength (asset_flag :: value :: args) (length args) = 0%nat) as ->.
    { unfold checkCmdArgLength. cbn [length]. destruct (Nat.ltb_spec (S (S (length args))) (length args)); [done|].
      destruct (length args) as [|k]; [lia|]. done. }
    cbn [drop].
    assert (parse_flags stellar_flag (asset_flag :: value :: args) default_stellar_flags = parse_flags stellar_flag args (mkStellarFlags false false value)) as -> by done.
    rewrite parse_flags_plain.
    2: { destruct args as [|a args]; [simpl in H0; lia|]. apply Forall_cons in Hargs as [Ha _]. eauto. }
    destruct (Nat.ltb_spec 0 (length args)); [|lia]. done.
Qed.
End Asset.

(** ** Runs over the simulated Horizon *)

Definition sim_args : list bytes := [seed_of 1; key_text VersionByteAccountID (public_of 2); sim_amount].
Definition sim_argv : list bytes := bytes_of_string "-testnet" :: bytes_of_string "initiate" :: sim_args.
Definition sim_horizon : horizon := mkHorizon [] [accepted; accepted] [].

(** A full run: flags, command, keys, the two submissions. *)
Lemma stellar_run_submits_witness : let run := stellar_run sim_client sim_client sim_argv sim_horizon [] (1600000000 * 10 ^ 9) in
  run.1 = Exited 0 None false /\ length (sim_submitted (node run.2)) = 2%nat /\
  ((node run.2 = sim_horizon /\ stdout run.2 = [] /\ forall err usage, run.1 <> Exited 0 err usage) \/
   exists f c r new, stellar_command_of sim_argv f c /\ run.1 = main_end false r /\
    log_of sim_client sim_client sim_log sim_log f (node run.2) = new ++ log_of sim_client sim_client sim_log sim_log f sim_horizon /\
    command_log (HC := client_of sim_client sim_client f) (network_of f) c new r /\ (is_ok r \/ stdout run.2 = [])).
Proof.
  intros run. split; [vm_compute; reflexivity|]. split; [vm_compute; reflexivity|].
  assert (stellar_run sim_client sim_client sim_argv sim_horizon [] (1600000000 * 10 ^ 9) = (run.1, run.2)) as E by exact (surjective_pairing run).
  revert E. generalize run.1, run.2. clear run. intros x e E.
  exact (stellar_run_submits sim_client sim_client sim_log sim_log sim_argv sim_horizon [] (1600000000 * 10 ^ 9) x e E).
Defined.

Lemma sim_args_plain : Forall plain sim_args.
Proof. apply (bool_decide_unpack _). by vm_compute. Qed.

Lemma asset_flag_position_witness : Forall plain sim_args /\
  stellar_run sim_client sim_client (bytes_of_string "initiate" :: sim_args ++ [asset_flag; bytes_of_string "TFT:G"]) sim_horizon [] 0 =
  stellar_run sim_client sim_client (bytes_of_string "initiate" :: sim_args) sim_horizon [] 0.
Proof.
  split; [exact sim_args_plain|].
  exact (proj1 (asset_flag_position sim_client sim_client (bytes_of_string "initiate") sim_args (bytes_of_string "TFT:G") sim_horizon [] 0 eq_refl sim_args_plain)).
Defined.
