(* ===== verification/CrossChain.v ===== *)
(** * A swap across two chains

    The protocol of the three tools together: two contracts for one secret
    hash, each on a chain of its own. [SwapLeg] is what a contract is to the
    other side: what taking it shows, and which secret takes it. A
    contract of a chain is an instance ([BtcLeg], [EthLeg], [StellarLeg]);
    [AtomicSwap] puts two of them together. *)

From S2P Require Import Prelude Sha256.

(** [L] is a contract on a chain, [E] what the chain shows of the transactions
    that take it. [taken l e]: the counterparty took the contract, before its
    author could; [shown e x]: [x] is one of the texts in the open among which the
    tool of this chain looks for the secret; [published] is what its [extractsecret]
    prints for a hash; [pays l s]: with [s] [redeem] makes a spend that the chain
    accepts; [fits l s]: [s] has the form the chain asks of a secret. *)
Class SwapLeg (L E : Type) := {
  leg_hash : L -> bytes;
  fits : L -> bytes -> Prop;
  taken : L -> E -> Prop;
  shown : E -> bytes -> Prop;
  published : E -> bytes -> outcome bytes;
  pays : L -> bytes -> Prop }.

(** What a chain promises: nobody takes the contract without a secret that
    [extractsecret] then finds (or another text of the same hash), and every
    secret of the right form takes it. *)
Class SwapLegLaws (L E : Type) `{!SwapLeg L E} : Prop := {
  taken_publishes (l : L) (e : E) : taken l e -> exists s x,
    fits l s /\ sha256 s = leg_hash l /\ shown e s /\
    published e (leg_hash l) = Ret x /\ sha256 x = leg_hash l /\ shown e x;
  secret_pays (l : L) (s : bytes) : fits l s -> sha256 s = leg_hash l -> pays l s }.

(** Two texts in the open with the same SHA-256 hash. *)
Definition shown_collision {L E} `{!SwapLeg L E} (e : E) (x s : bytes) : Prop :=
  x <> s /\ sha256 x = sha256 s /\ shown e x /\ shown e s.

Section Swap.
Context {A EA B EB : Type} `{!SwapLeg A EA, !SwapLegLaws A EA, !SwapLeg B EB, !SwapLegLaws B EB}.

(** One contract taken pays the other, when a secret that fits the first fits the
    second. *)
Lemma one_pays_the_other (a : A) (b : B) (e : EA) : leg_hash a = leg_hash b ->
  (forall s, fits a s -> fits b s) -> taken a e ->
  exists x s, published e (leg_hash b) = Ret x /\ pays b s /\ (x = s \/ shown_collision e x s).
Proof.
  intros Hh Hfit Ht. destruct (taken_publishes a e Ht) as (s & x & Hs & Hsh & Hss & Hx & Hxh & Hxs). exists x, s. rewrite <-Hh.
  split; [done|]. split; [apply secret_pays; [auto|by rewrite <-Hh]|].
  destruct (decide (x = s)) as [->|Hne]; [by left|]. right. split_and!; [done|by rewrite Hsh|done|done].
Qed.
End Swap.
