(* ===== verification/BtcLeg.v ===== *)
(** * A Bitcoin contract as one side of a swap *)

From S2P Require Import Prelude Sha256 Ripemd160 Script ScriptFacts Address Wire SwapContract SwapTheorems Engine EngineTheorems P2shTheorems Cli BtcSwap BtcFacts CrossChain.

#[local] Opaque sha256 ripemd160 atomicSwapContract.

(** ** The pushes of an accepted redemption *)

Lemma pushed_of_value pops p x : In p pops -> push_value p = x -> 2 <= zlen x -> In x (pushed_of pops).
Proof.
  intros Hin <- Hx. unfold push_value in *. destruct (Z.eqb_spec (pop_value p) OP_0); [done|].
  destruct (Z.leb_spec (pop_value p) OP_PUSHDATA4); [|by destruct (_ =? _)].
  destruct (pop_data p) as [d|] eqn:Ed; [|done]. cbn [default id] in *.
  induction pops as [|q pops IH]; [done|]. destruct Hin as [->|Hin]; cbn [pushed_of].
  - rewrite Ed. by left.
  - specialize (IH Hin). destruct (pop_data q); [by right|]. destruct (_ =? _); [by right|done].
Qed.

Lemma push_stack_pushed pops st x : push_stack pops = st -> In x st -> 2 <= zlen x -> In x (pushed_of pops).
Proof.
  unfold push_stack. intros <- Hin Hx. apply in_rev in Hin. rewrite ?rev_involutive in Hin.
  apply in_map_iff in Hin as (p & Hp & Hin). by eapply pushed_of_value.
Qed.

Lemma pushed_bytes pops : Forall pop_wf pops -> Forall bytes_ok (pushed_of pops).
Proof.
  induction 1 as [|p pops Hp _ IH]; [done|]. cbn [pushed_of]. unfold pop_wf in Hp.
  destruct (pop_data p); [constructor; [by destruct Hp|done]|]. destruct (_ =? _); [by constructor|done].
Qed.

(** [extractsecret] finds a preimage if some script pushes one and all parse. *)
Lemma extractSecret_finds scripts s l x : Forall (fun s => exists l, PushedData s = Ret l) scripts ->
  In s scripts -> PushedData s = Ret l -> In x l ->
  exists y, extractSecret scripts (sha256 x) = Ret y /\ sha256 y = sha256 x /\ exists s l, In s scripts /\ PushedData s = Ret l /\ In y l.
Proof.
  intros Hall. induction Hall as [|s0 scripts (l0 & H0) _ IH]; [done|]. intros Hin Hl Hx. cbn [extractSecret].
  rewrite H0. cbn [mbind outcome_bind]. destruct (find_push (sha256 x) l0) as [y|] eqn:Ef.
  - exists y. split; [done|]. apply find_push_Some in Ef as (? & ? & -> & Hy & _). split; [done|].
    exists s0, (x0 ++ y :: x1). split; [by left|]. split; [done|]. apply in_elt.
  - destruct Hin as [->|Hin].
    2: { destruct (IH Hin Hl Hx) as (y & Hy & Hyh & s1 & l1 & H1 & H2). exists y. split; [done|]. split; [done|].
         exists s1, l1. split; [by right|done]. }
    rewrite Hl in H0. injection H0 as <-.
    apply find_push_None in Ef. rewrite Forall_forall in Ef. destruct (Ef x); [by apply list_elem_of_In|done].
Qed.

(** ** The contract *)

Record btc_leg := mkBtcLeg {
  bl_author : bytes; bl_taker : bytes; bl_hash : bytes; bl_lock : Z; bl_contract : bytes; bl_tx : MsgTx; bl_out : nat;
  bl_is_contract : contract_of bl_author bl_taker bl_hash bl_lock bl_contract;
  bl_scripts : Forall (fun o => bytes_ok (PkScript o)) (TxOuts bl_tx);
  bl_paid : find_output (p2sh_bytes (Hash160 bl_contract)) (TxOuts bl_tx) 0 = Some bl_out }.

(** What nodes check of every signature script before anything else. *)
Definition parseable (tx : MsgTx) : Prop :=
  Forall (fun ti => bytes_ok (SignatureScript ti) /\ exists pops, parseScript (SignatureScript ti) = Ret pops) (TxIns tx).

(** The input [idx] shows this script, and not another with its hash. *)
Definition shows_script (tx : MsgTx) (idx : nat) (script : bytes) : Prop :=
  exists ti sigpops st, TxIns tx !! idx = Some ti /\ parseScript (SignatureScript ti) = Ret sigpops /\ push_stack sigpops = script :: st.

Section BtcLeg.
Context {N : Type} `{!BtcWallet N} {curve : Secp256k1} `{!SigningLaws} (chainParams : Params).
Context (owns : bytes -> Prop) `{!HonestWallet N chainParams owns}.

(** What holds of a transaction that is in a block before the lock time: its lock time
    counts for nothing because its inputs are final, or it is not that late. *)
Definition early (lock : Z) (tx : MsgTx) (idx : nat) : Prop :=
  (exists ti, TxIns tx !! idx = Some ti /\ Sequence ti = MaxTxInSequenceNum) \/ ~ locktime_reached lock tx.

(** A transaction that spends the contract before its lock time. *)
Definition btc_taken (l : btc_leg) (tx : MsgTx) : Prop :=
  parseable tx /\ exists idx, accepts ecdsa (p2sh_bytes (Hash160 (bl_contract l))) tx idx /\
    shows_script tx idx (bl_contract l) /\ early (bl_lock l) tx idx.

(** A wallet of the taker that answers builds a redemption with the secret, which the
    engine accepts; or the value is dust after the fee. *)
Definition btc_pays (l : btc_leg) (s : bytes) : Prop := owns (bl_taker l) ->
  forall e : env N, exists e',
    (exists tx fee, buildRedeem chainParams (bl_contract l) (bl_tx l) s e = (Ret (tx, fee, bl_out l), e') /\
       accepts ecdsa (out_script (bl_tx l) (bl_out l)) tx 0)
    \/ exists v, buildRedeem chainParams (bl_contract l) (bl_tx l) s e = (Fail (Errorf "redeem output value of %v is dust" [FInt v]), e').

Definition btc_shown (tx : MsgTx) (x : bytes) : Prop :=
  exists s l, In s (map SignatureScript (TxIns tx)) /\ PushedData s = Ret l /\ In x l.

Definition secret32 (s : bytes) : Prop := bytes_ok s /\ zlen s = 32.

#[export] Instance btc_swap_leg : SwapLeg btc_leg MsgTx := {|
  leg_hash := bl_hash;
  fits _ := secret32;
  taken := btc_taken;
  shown := btc_shown;
  published tx h := extractSecret (map SignatureScript (TxIns tx)) h;
  pays := btc_pays |}.

Lemma btc_taken_publishes l tx : btc_taken l tx -> exists s x,
  secret32 s /\ sha256 s = bl_hash l /\ btc_shown tx s /\
  extractSecret (map SignatureScript (TxIns tx)) (bl_hash l) = Ret x /\ sha256 x = bl_hash l /\ btc_shown tx x.
Proof.
  intros (Hp & idx & Hacc & (ti & sigpops & st & Hti & Hps & Hst) & Hlock).
  destruct (contract_spend_safe' ecdsa _ _ _ _ _ _ _ _ (bl_is_contract l) Hti Hacc) as (sigpops' & script & st' & Hps' & Hst' & _ & Hspend).
  assert (sigpops' = sigpops) as -> by congruence. rewrite Hst in Hst'. injection Hst' as <- <-.
  destruct (Hspend eq_refl) as [(sig & pubkey & s & flag & -> & _ & Hlen & Hsh & _)|(? & ? & ? & _ & _ & Hl & Hfinal & _)].
  2: { destruct Hlock as [(ti' & Hti' & Hseq)|]; [by destruct (Hfinal _ Hti')|done]. }
  unfold secretSize in Hlen. assert (In s (pushed_of sigpops)) as Hin by (eapply push_stack_pushed; [exact Hst|cbn; auto|lia]).
  unfold parseable in Hp. rewrite Forall_forall in Hp.
  destruct (Hp ti) as [Hok _]; [by eapply list_elem_of_lookup_2|]. exists s.
  assert (In (SignatureScript ti) (map SignatureScript (TxIns tx))) as Hti' by (apply in_map, list_elem_of_In; by eapply list_elem_of_lookup_2).
  assert (PushedData (SignatureScript ti) = Ret (pushed_of sigpops)) as Hpd by (unfold PushedData; by rewrite Hps).
  destruct (extractSecret_finds (map SignatureScript (TxIns tx)) (SignatureScript ti) (pushed_of sigpops) s) as (x & Hx & Hxh & Hxs); [|done..|].
  - apply Forall_map, Forall_forall. intros t Ht. destruct (Hp t Ht) as (_ & pops & E). exists (pushed_of pops). cbn. unfold PushedData. by rewrite E.
  - exists x. rewrite <-Hsh. split_and!; try done; [|by exists (SignatureScript ti), (pushed_of sigpops)]. split; [|lia].
    apply parseScript_spec in Hps as [Hwf _]; [|done]. pose proof (pushed_bytes _ Hwf) as Hb. rewrite Forall_forall in Hb. by apply Hb, list_elem_of_In.
Qed.

Lemma btc_secret_pays l s : secret32 s -> sha256 s = bl_hash l -> btc_pays l s.
Proof.
  intros [Hok Hs] Hh Hown e.
  destruct (buildRedeem_runs chainParams owns _ _ _ _ _ (bl_tx l) (bl_out l) s e (bl_is_contract l) Hown) as (e' & [(_ & tx & fee & E & Hacc)|[(Hlong & _)|(rate & v & n & n' & _ & _ & Hdust)]]);
    [done|apply bl_scripts|apply bl_paid| | |].
  - exists e'. left. exists tx, fee. split; [exact E|]. by apply Hacc.
  - unfold MaxScriptElementSize in Hlong. lia.
  - exists e'. right. by exists v.
Qed.

#[export] Instance btc_swap_laws : SwapLegLaws btc_leg MsgTx.
Proof. split; [apply btc_taken_publishes|apply btc_secret_pays]. Qed.
End BtcLeg.
