(* ===== verification/EthLeg.v ===== *)
(** * A swap of the Solidity contract as one side of a swap *)

From S2P Require Import Prelude Sha256 EthContract EthContractTheorems EthAbi EthTx Cli EthBinding EthSwap EthAbiTheorems EthCommands EthTheorems CrossChain.

#[local] Opaque ID sha256.

(** A filled swap on a chain that can be reached, with a counterparty whose account
    accepts ether. *)
Record eth_leg := mkEthLeg {
  el_this : Z; el_fallback : Z -> Z -> world -> option world; el_world : world; el_hash : bytes;
  el_stipend : Stipend el_fallback;
  el_reachable : reachable el_this el_fallback el_world;
  el_key : is_bytes32 el_hash;
  el_filled : state (swap_at el_world el_hash) = Filled;
  el_accepts : let s := swap_at el_world el_hash in
    el_fallback (redeemer_of s) (value s) (move el_this (redeemer_of s) (value s) el_world) <> None }.
#[export] Existing Instance el_stipend.

(** A transaction that calls the contract, and after which the swap is redeemed. *)
Definition eth_taken (l : eth_leg) (tx : Transaction) : Prop :=
  bytes_ok (Payload tx) /\ exists m c w', call_ok c /\ call_data c = Ret (Payload tx) /\
    exec (el_this l) (el_fallback l) m c (el_world l) = Ret w' /\ state (swap_at w' (el_hash l)) = Redeemed.

Definition eth_shown (tx : Transaction) (x : bytes) : Prop :=
  is_bytes32 x /\ exists rest, Payload tx = ID redeem_method ++ x ++ rest.

(** The counterparty's call of [redeem] with this secret succeeds. *)
Definition eth_pays (l : eth_leg) (s : bytes) : Prop :=
  forall m, msg_value m = 0 -> sender m = redeemer_of (swap_at (el_world l) (el_hash l)) ->
    exec (el_this l) (el_fallback l) m (CRedeem s (el_hash l)) (el_world l)
    = Ret (call_effect (el_this l) m (CRedeem s (el_hash l)) (el_world l)).

#[export] Instance eth_swap_leg : SwapLeg eth_leg Transaction := {|
  leg_hash := el_hash;
  fits _ s := bytes_ok s /\ zlen s = 32;
  taken := eth_taken;
  shown := eth_shown;
  published := extractSecret;
  pays := eth_pays |}.

(** Only a call of [redeem] with a preimage redeems a filled swap. *)
Lemma redeemed_by this fallback `{!Stipend fallback} m c w w' h : exec this fallback m c w = Ret w' ->
  state (swap_at w h) = Filled -> state (swap_at w' h) = Redeemed -> exists s, c = CRedeem s h /\ sha256 s = h.
Proof.
  rewrite (exec_Ret this fallback). intros [Hg ->] Hf.
  destruct c as [r h' p|r h' i|s h'|h']; cbn [call_effect]; autorewrite with eth; (destruct (decide (h = h')) as [<-|]; [|congruence]);
    try discriminate.
  intros _. exists s. split; [done|apply Hg].
Qed.

Lemma redeem_call_data s h d : call_ok (CRedeem s h) -> call_data (CRedeem s h) = Ret d -> d = ID redeem_method ++ s ++ h.
Proof.
  intros [Hs Hh] ->%call_data_eq. cbn [call_words concat]. rewrite !RightPad32_id, app_nil_r by done. reflexivity.
Qed.

Lemma eth_taken_publishes l tx : eth_taken l tx -> exists s x,
  (bytes_ok s /\ zlen s = 32) /\ sha256 s = el_hash l /\ eth_shown tx s /\
  extractSecret tx (el_hash l) = Ret x /\ sha256 x = el_hash l /\ eth_shown tx x.
Proof.
  intros (Hok & m & c & w' & Hc & Hd & He & Hr). pose proof (el_stipend l).
  destruct (redeemed_by _ _ _ _ _ _ _ He (el_filled l) Hr) as (s & -> & Hs). apply redeem_call_data in Hd; [|done]. destruct Hc as [H32 Hh].
  assert (eth_shown tx s) as Hshow by (split; [done|by eexists]).
  exists s, s. split_and!; try done.
  - rewrite Hd in Hok. apply Forall_app in Hok as [_ Hok]. by apply Forall_app in Hok as [Hok _].
  - apply eth_extractSecret_Ret. exists []. by rewrite app_nil_r.
Qed.

Lemma eth_secret_pays l s : sha256 s = el_hash l -> eth_pays l s.
Proof.
  intros Hs m Hm Hr. pose proof (el_stipend l). apply (exec_Ret _ (el_fallback l)). split; [|done].
  cbn [call_guard]. rewrite Hr. split_and!; [done|apply el_filled|done|done|apply (reachable_pays _ (el_fallback l)); [apply el_reachable|apply el_filled]|apply el_accepts].
Qed.

#[export] Instance eth_swap_laws : SwapLegLaws eth_leg Transaction.
Proof. split; [apply eth_taken_publishes|]. intros l s _. apply eth_secret_pays. Qed.
