(* ===== verification/StellarLeg.v ===== *)
(** * A Stellar account as one side of a swap *)

From S2P Require Import Prelude Sha256 BigEndian Base58 Decimal Cli Strkey Base64 Xdr StellarXdr TxnBuild StellarSwap StellarCommands StrkeyTheorems Base64Theorems StellarXdrTheorems TxnBuildTheorems StellarTheorems StellarRedeem CrossChain.

#[local] Opaque sha256 crc16_loop b32_EncodeToString.

(** ** Hexadecimal texts *)

Lemma hex_digit_inj d d' : 0 <= d < 16 -> 0 <= d' < 16 -> hex_digit d = hex_digit d' -> d = d'.
Proof. unfold hex_digit. intros ??. destruct (Z.ltb_spec d 10), (Z.ltb_spec d' 10); lia. Qed.

Lemma hex_encode_inj a b : bytes_ok a -> bytes_ok b -> hex_encode a = hex_encode b -> a = b.
Proof.
  intros Ha. revert b. induction Ha as [|x a Hx _ IH]; intros b Hb; destruct Hb as [|y b Hy Hb]; try done.
  unfold hex_encode. cbn [flat_map app]. fold (hex_encode a) (hex_encode b). intros [= H1 H2 H]. unfold is_byte in *. f_equal; [|by apply IH].
  apply hex_digit_inj in H1, H2; try lia; try (split; [apply Z.div_pos; lia|apply Z.div_lt_upper_bound; lia]); try (apply Z.mod_pos_bound; lia).
  pose proof (Z.div_mod x 16 ltac:(lia)). pose proof (Z.div_mod y 16 ltac:(lia)). lia.
Qed.

(** ** The network *)

(** When a signature of a transaction counts for a signer, after the Stellar
    documentation: the preimage of a hash, the hash of the transaction itself, or
    a signature of that hash by a key. *)
Class StellarNetwork `{!Strkey.Ed25519} (network : bytes) := {
  satisfies : TransactionEnvelope -> HSigner -> Prop;
  hashx_needs env w key : satisfies env (mkHSigner w key KeyType_HashX) ->
    exists sig, sig ∈ Signatures env /\ Decode VersionByteHashX key = Ret (sha256 (Signature sig));
  hashtx_needs env w key : satisfies env (mkHSigner w key KeyType_HashTx) ->
    Decode VersionByteHashTx key = HashTransaction (Tx env) network;
  hashx_enough env w key s : mkDecoratedSignature (drop 28 (sha256 s)) s ∈ Signatures env ->
    Decode VersionByteHashX key = Ret (sha256 s) -> satisfies env (mkHSigner w key KeyType_HashX);
  account_enough env w kp key h sig : keypair_Address kp = Ret key -> HashTransaction (Tx env) network = Ret h ->
    SignDecorated kp h = Ret sig -> sig ∈ Signatures env -> satisfies env (mkHSigner w key KeyType_AccountID) }.

(** The signers that sign reach the threshold of a swap. *)
Definition authorised `{!Strkey.Ed25519} (network : bytes) `{!StellarNetwork network} (acc : HAccount) (env : TransactionEnvelope) : Prop :=
  exists sel, sel ⊆+ Signers acc /\ 2 <= total_weight sel /\ Forall (satisfies env) sel.

(** ** The contract *)

(** An account that passed the audit with a refund transaction. *)
Record stellar_leg (network : bytes) := mkStellarLeg {
  sl_account : HAccount; sl_address : bytes; sl_refund : Transaction ParsedOperation; sl_audit : audited;
  sl_keyed : Forall keyed (Signers sl_account);
  sl_audited : audit_account network sl_account sl_address sl_refund = Ret sl_audit }.
Arguments sl_account {network}. Arguments sl_address {network}. Arguments sl_refund {network}.
Arguments sl_audit {network}. Arguments sl_keyed {network}. Arguments sl_audited {network}.

(** Horizon gives signatures of the length of a signature at most, in base 64. *)
Definition readable (raw : bytes) : Prop := exists sig, b64_DecodeString raw = Ret sig /\ zlen sig <= 64.

Lemma history_readable env : Forall (wf c_DecoratedSignature) (Signatures env) -> Forall readable (HSignatures (in_history env)).
Proof.
  intros H. apply Forall_map. eapply Forall_impl; [exact H|]. intros sig [_ [Hl [Hok _]]].
  exists (Signature sig). split; [by apply b64_round_trip|exact Hl].
Qed.

Section StellarLeg.
Context `{ED : !Strkey.Ed25519} `{ES : !Ed25519Sizes} (network : bytes) `{SN : !StellarNetwork network}.

(** The history of the account has a transaction, not the refund, that its signers
    authorised. *)
Definition stellar_taken (l : stellar_leg network) (txs : list HTransaction) : Prop :=
  Forall readable (flat_map HSignatures txs) /\ exists env, In (in_history env) txs /\
    Forall (wf c_DecoratedSignature) (Signatures env) /\ authorised network (sl_account l) env /\
    HashTransaction (Tx env) network <> HashTransaction (xdrTransaction (sl_refund l)) network.

Definition stellar_shown (txs : list HTransaction) (x : bytes) : Prop :=
  exists raw, In raw (flat_map HSignatures txs) /\ b64_DecodeString raw = Ret x.

(** What [extractsecret] prints for a hash. *)
Definition stellar_published (txs : list HTransaction) (h : bytes) : outcome bytes :=
  found ← find_secret txs (hex_encode h); of_option (ErrNew "Unable to find the matching secret") found.

(** The text that [redeem] of the recipient submits is read as a transaction that
    the signers of the account authorise. *)
Definition stellar_pays (l : stellar_leg network) (s : bytes) : Prop :=
  forall kh receiver text, key_ok kh -> AccountID (sl_account l) = address kh -> balances_ok (sl_account l) ->
    keypair_Address receiver = Ret (a_recipient (sl_audit l)) ->
    build_redeem network (sl_account l) receiver s = Ret text ->
    exists tx env, TransactionFromXDR text = Ret tx /\ xdrEnvelope tx = Some env /\ authorised network (sl_account l) env.

#[export] Instance stellar_swap_leg : SwapLeg (stellar_leg network) (list HTransaction) := {|
  leg_hash l := a_secretHash (sl_audit l);
  fits _ s := bytes_ok s /\ zlen s <= 64;
  taken := stellar_taken;
  shown := stellar_shown;
  published := stellar_published;
  pays := stellar_pays |}.

Lemma stellar_published_finds txs h s : bytes_ok h -> Forall readable (flat_map HSignatures txs) -> stellar_shown txs s ->
  sha256 s = h -> exists x, stellar_published txs h = Ret x /\ sha256 x = h /\ stellar_shown txs x.
Proof.
  intros Hh Hr (raw & Hin & Hraw) Hs. destruct (find_secret_spec txs (hex_encode h)) as (pre & post & Hp & Hpre & H).
  unfold stellar_published, stellar_shown. rewrite Hp in Hr, Hin |- *. destruct (find_secret txs (hex_encode h)) as [[x|]|e|e]; [| | |done].
  - destruct H as (raw' & rest & -> & Hx & _ & Hhex). exists x. split; [done|]. split; [apply hex_encode_inj; [apply sha256_ok|done|exact Hhex]|].
    exists raw'. split; [apply in_elt|done].
  - subst post. rewrite app_nil_r in Hin, Hr. rewrite Forall_forall in Hpre, Hr. apply list_elem_of_In in Hin.
    destruct (Hpre raw Hin) as (sig & Hsig & Hpass). rewrite Hraw in Hsig. injection Hsig as <-.
    destruct (Hr raw Hin) as (sig & Hsig & Hl). rewrite Hraw in Hsig. injection Hsig as <-. rewrite Hs in Hpass. by destruct Hpass; [lia|].
  - destruct H as (raw' & rest & err & -> & Hx & _). apply Forall_app in Hr as [_ Hr]. apply Forall_inv in Hr as (sig & Hsig & _). congruence.
Qed.

Lemma stellar_taken_secret l txs : stellar_taken l txs -> exists s,
  (bytes_ok s /\ zlen s <= 64) /\ sha256 s = a_secretHash (sl_audit l) /\ stellar_shown txs s.
Proof.
  intros (Hr & env & Hin & Hwf & (sel & Hsel & Hw & Hsat) & Hne). rewrite Forall_forall in Hsat.
  destruct (audited_selection _ _ _ _ _ _ (sl_keyed l) (sl_audited l) Hsel Hw) as [(key & h & Hk & Hd & Hh)|(_ & key & Hk & Hd)].
  - apply Hsat, hashtx_needs in Hk. destruct Hne. congruence.
  - apply Hsat, hashx_needs in Hk as (sig & Hsig & Hd'). rewrite Hd in Hd'. injection Hd' as Hd'.
    rewrite Forall_forall in Hwf. destruct (Hwf _ Hsig) as [_ [Hl Hok]]. exists (Signature sig). split; [|split; [done|]]; [by destruct Hok|].
    exists (b64_EncodeToString (Signature sig)). split; [|by apply b64_round_trip; destruct Hok].
    apply in_flat_map. exists (in_history env). split; [done|]. apply list_elem_of_In. by apply (list_elem_of_fmap_2 (fun s => b64_EncodeToString (Signature s))).
Qed.

Lemma stellar_taken_publishes l txs : stellar_taken l txs -> exists s x,
  (bytes_ok s /\ zlen s <= 64) /\ sha256 s = a_secretHash (sl_audit l) /\ stellar_shown txs s /\
  stellar_published txs (a_secretHash (sl_audit l)) = Ret x /\ sha256 x = a_secretHash (sl_audit l) /\ stellar_shown txs x.
Proof.
  intros Ht. destruct (stellar_taken_secret l txs Ht) as (s & Hs & Hh & Hshown).
  destruct (stellar_published_finds txs (a_secretHash (sl_audit l)) s) as (x & Hx); [rewrite <-Hh; apply sha256_ok|apply Ht|done..|]. by exists s, x.
Qed.

Lemma active_part l : active l ⊆+ l.
Proof.
  induction l as [|s l IH]; [done|]. rewrite active_cons. destruct (HWeight s =? 0); [by apply submseteq_cons|by apply submseteq_skip].
Qed.

Lemma stellar_secret_pays l s : bytes_ok s -> sha256 s = a_secretHash (sl_audit l) -> stellar_pays l s.
Proof.
  intros Hok Hs kh receiver text Hk Ha Hb Hr H.
  destruct (redeem_read_back network _ kh receiver s text Hk Ha Hb Hok H) as (tx & env & h & sig & Hx & He & Ht & _ & Hsigs & _ & Hh & Hsig).
  exists tx, env. split; [done|]. split; [done|].
  destruct (audit_account_Ret _ _ _ _ _ (sl_keyed l) (sl_audited l)) as (h0 & conds & Hacc).
  destruct (swap_account_signers _ _ _ _ _ _ _ Hacc) as (kx & kt & Hp & Hdx & _).
  exists [mkHSigner 1 (a_recipient (sl_audit l)) KeyType_AccountID; mkHSigner 1 kx KeyType_HashX]. split_and!.
  - etransitivity; [|apply active_part]. rewrite Hp. by apply submseteq_skip, submseteq_skip, submseteq_nil_l.
  - reflexivity.
  - repeat constructor.
    + eapply account_enough; [exact Hr|rewrite Ht; exact Hh|exact Hsig|rewrite Hsigs; set_solver].
    + apply (hashx_enough _ _ _ s); [rewrite Hsigs; by left|by rewrite Hs].
Qed.

#[export] Instance stellar_swap_laws : SwapLegLaws (stellar_leg network) (list HTransaction).
Proof. split; [apply stellar_taken_publishes|]. intros l s [Hok _]. by apply stellar_secret_pays. Qed.
End StellarLeg.
