(* ===== verification/AtomicSwap.v ===== *)
(** * Swaps between the three chains

    A contract of one tool against a contract of another, for one secret hash:
    when the second is taken, [extractsecret] of its tool gives what takes the
    first. The one exception is a secret that only Stellar accepts. *)

From S2P Require Import Vectors BtcSim StellarSim.
From S2P Require Import Prelude Sha256 Ripemd160 Address Wire SwapContract SwapTheorems Engine EngineTheorems P2shTheorems Cli BtcSwap BtcFacts.
From S2P Require Import Decimal Strkey Base64 Xdr StellarXdr TxnBuild StellarSwap StellarCommands Base64Theorems StellarXdrTheorems TxnBuildTheorems StellarTheorems StellarRedeem.
From S2P Require Import EthContract EthContractTheorems EthTx EthSwap EthAbiTheorems EthTheorems CrossChain BtcLeg EthLeg StellarLeg.

#[local] Opaque sha256 ripemd160.

Section Chains.
Context {N : Type} `{!BtcWallet N} {curve : Secp256k1} `{!SigningLaws} (chainParams : Address.Params).
Context (owns : bytes -> Prop) `{!HonestWallet N chainParams owns}.
Context `{ED : !Strkey.Ed25519} `{ES : !Ed25519Sizes} (network : bytes) `{SN : !StellarNetwork network}.

(** What [extractsecret] finds among the texts that are open is the secret, or two
    of them have one SHA-256 hash. *)
Definition secret_or_collision (shown : bytes -> Prop) (x s : bytes) : Prop :=
  x = s \/ (x <> s /\ sha256 x = sha256 s /\ shown x /\ shown s).

(** C2: Bitcoin against ether is atomic. When the initiator takes the contract of the
    participant, the participant takes that of the initiator: a transaction
    that spends a Bitcoin contract before its lock time makes [extractsecret] of
    the Bitcoin tool print a secret with which the Solidity contract pays its
    counterparty; and a transaction that redeems a swap of the Solidity contract
    makes that of the Ethereum tool print a secret with which [redeem] of the
    Bitcoin tool builds a transaction that the script engine accepts (or the
    value is dust). The only way out is to publish two texts with one
    SHA-256 hash. *)
Theorem bitcoin_ether_atomic (b : btc_leg) (e : eth_leg) : bl_hash b = el_hash e ->
  (forall tx, btc_taken b tx -> exists x s,
     SwapContract.extractSecret (map SignatureScript (TxIns tx)) (el_hash e) = Ret x /\ eth_pays e s /\ secret_or_collision (btc_shown tx) x s)
  /\ (forall tx, eth_taken e tx -> exists x s,
     EthSwap.extractSecret tx (bl_hash b) = Ret x /\ btc_pays chainParams owns b s /\ secret_or_collision (eth_shown tx) x s).
Proof.
  intros Hh. split; intros tx Ht.
  - exact (one_pays_the_other (SwapLeg0 := btc_swap_leg chainParams owns) b e tx Hh (fun s H => H) Ht).
  - exact (one_pays_the_other (SwapLeg1 := btc_swap_leg chainParams owns) e b tx (eq_sym Hh) (fun s H => H) Ht).
Qed.

(** The contract on Stellar is paid by either of the others. When a Bitcoin or
    an Ethereum contract is taken, [extractsecret] of its tool prints a secret with
    which [redeem] of the Stellar tool makes a transaction that the signers of the
    audited account authorise; the only way out is to publish two texts with one
    hash. *)
Theorem taken_pays_lumens (l : stellar_leg network) :
  (forall (b : btc_leg) tx, bl_hash b = a_secretHash (sl_audit l) -> btc_taken b tx -> exists x s,
     SwapContract.extractSecret (map SignatureScript (TxIns tx)) (a_secretHash (sl_audit l)) = Ret x /\
     stellar_pays network l s /\ secret_or_collision (btc_shown tx) x s)
  /\ (forall (e : eth_leg) tx, el_hash e = a_secretHash (sl_audit l) -> eth_taken e tx -> exists x s,
     EthSwap.extractSecret tx (a_secretHash (sl_audit l)) = Ret x /\ stellar_pays network l s /\ secret_or_collision (eth_shown tx) x s).
Proof.
  split; intros c tx Hh Ht.
  - refine (one_pays_the_other (SwapLeg0 := btc_swap_leg chainParams owns) c l tx Hh _ Ht). intros s [Hok Hs]. split; [done|]. cbn in *. lia.
  - refine (one_pays_the_other c l tx Hh _ Ht). intros s [Hok Hs]. split; [done|]. lia.
Qed.

(** No transaction takes a contract that asks for 32 bytes with the hash of a secret of
    another length, unless it shows a second text with that hash. *)
Definition stranded (h s : bytes) : Prop :=
  (forall (b : btc_leg) tx, bl_hash b = h -> btc_taken b tx -> exists s', btc_shown tx s' /\ s' <> s /\ sha256 s' = sha256 s)
  /\ (forall (e : eth_leg) tx, el_hash e = h -> eth_taken e tx -> exists s', eth_shown tx s' /\ s' <> s /\ sha256 s' = sha256 s).

Lemma not_32_stranded s : zlen s <> 32 -> stranded (sha256 s) s.
Proof.
  intros Hne. split; intros c tx Hc Ht.
  - destruct (btc_taken_publishes _ _ Ht) as (s' & x & [_ H32] & Hs & Hshown & _). exists s'. split; [done|]. split; [congruence|]. by rewrite Hs.
  - destruct (eth_taken_publishes _ _ Ht) as (s' & x & [_ H32] & Hs & Hshown & _). exists s'. split; [done|]. split; [congruence|]. by rewrite Hs.
Qed.

(** C8: Lumens against the others is atomic for secrets of 32 bytes. When an audited
    Stellar account is taken other than by its refund, [extractsecret] finds in its
    history a secret of at most 64 bytes. If it has 32, the Bitcoin tool redeems with
    it and the Solidity contract pays for it; if it has not, nothing takes the
    contract on the other side. *)
Theorem lumens_taken (l : stellar_leg network) txs : stellar_taken network l txs -> exists x s,
  stellar_published txs (a_secretHash (sl_audit l)) = Ret x /\ secret_or_collision (stellar_shown txs) x s /\
  sha256 s = a_secretHash (sl_audit l) /\ zlen s <= 64 /\
  (zlen s = 32 -> (forall b : btc_leg, bl_hash b = a_secretHash (sl_audit l) -> btc_pays chainParams owns b s) /\
                  (forall e : eth_leg, el_hash e = a_secretHash (sl_audit l) -> eth_pays e s)) /\
  (zlen s <> 32 -> stranded (a_secretHash (sl_audit l)) s).
Proof.
  intros Ht. destruct (stellar_taken_publishes network l txs Ht) as (s & x & [Hok Hl] & Hs & Hss & Hx & Hxh & Hxs).
  exists x, s. split; [exact Hx|]. split; [|split; [exact Hs|split; [exact Hl|split]]].
  - destruct (decide (x = s)) as [|Hne]; [by left|]. right. split; [done|]. split; [by rewrite Hxh, Hs|done].
  - intros H32. split; [|by intros e He; apply eth_secret_pays; rewrite Hs, He]. intros b Hb. exact (btc_secret_pays chainParams owns b s (conj Hok H32) (eq_trans Hs (eq_sym Hb))).
  - rewrite <-Hs. apply not_32_stranded.
Qed.

(** C9: A long secret strands the other side. The signers of an audited Stellar
    account authorise the redemption that the tool builds with a secret of any
    length up to 64 bytes, but the Bitcoin script and the Solidity contract pay for
    32 bytes only. The initiator who chose the secret takes the lumens with
    another length, and no transaction takes the contract on the other side. *)
Theorem long_secret_strands (l : stellar_leg network) s : bytes_ok s -> zlen s <= 64 -> zlen s <> 32 ->
  sha256 s = a_secretHash (sl_audit l) -> stellar_pays network l s /\ stranded (a_secretHash (sl_audit l)) s.
Proof. intros Hok Hl Hne Hh. split; [by apply stellar_secret_pays|]. rewrite <-Hh. by apply not_32_stranded. Qed.
End Chains.

(** ** A swap of bitcoin against ether *)

Module SwapSim.
Import Vectors BtcSim.

(** The contracts for the hash of [Run.secret1]: on Bitcoin for the key of the simulated
    wallet, on Ethereum for account 2. *)
Definition contract : bytes := Eval vm_compute in
  match atomicSwapContract Walkthrough.pkh sim_pkh Walkthrough.locktime Run.hash1 with Ret c => c | _ => [] end.
Lemma contract_is : contract_of Walkthrough.pkh sim_pkh Run.hash1 Walkthrough.locktime contract.
Proof. split; [split; decided|split; decided|split; decided|by vm_compute|by vm_compute]. Qed.

Lemma paying_scripts : Forall (fun o => bytes_ok (PkScript o)) (TxOuts (paying contract)).
Proof. decided. Qed.
Lemma paying_found : find_output (p2sh_bytes (Hash160 contract)) (TxOuts (paying contract)) 0 = Some 1%nat.
Proof. by vm_compute. Qed.

Definition bitcoin : btc_leg :=
  mkBtcLeg Walkthrough.pkh sim_pkh Run.hash1 Walkthrough.locktime contract (paying contract) 1 contract_is paying_scripts paying_found.

Lemma ether_filled : state (swap_at Run.w2 Run.hash1) = Filled.
Proof. by vm_compute. Qed.
Lemma ether_accepted : let s := swap_at Run.w2 Run.hash1 in
  accepts_all (redeemer_of s) (value s) (move Run.this (redeemer_of s) (value s) Run.w2) <> None.
Proof. intros s [=]. Qed.

Definition ether : eth_leg :=
  mkEthLeg Run.this accepts_all Run.w2 Run.hash1 accepts_all_stipend (Run.w2_reachable accepts_all) eq_refl ether_filled ether_accepted.

(** The two redemptions. *)
Definition btc_redemption : MsgTx := Eval vm_compute in
  match (buildRedeem Address.MainNetParams contract (paying contract) Run.secret1 (BtcSim.start [])).1 with Ret (tx, _, _) => tx | _ => NewMsgTx 0 end.
Definition eth_redemption : EthTx.Transaction :=
  NewTransaction 0 Run.this 0 90000 1 (match call_data (CRedeem Run.secret1 Run.hash1) with Ret d => d | _ => [] end).

Lemma bitcoin_taken : btc_taken bitcoin btc_redemption.
Proof.
  split.
  - apply Forall_cons. split; [split; [decided|eexists; vm_compute; reflexivity]|by apply Forall_nil].
  - exists 0%nat. split_and!.
    + unfold accepts. vm_compute. reflexivity.
    + do 3 eexists. split; [reflexivity|]. split; [vm_compute; reflexivity|vm_compute; reflexivity].
    + left. eexists. split; [reflexivity|reflexivity].
Qed.

Lemma ether_taken : eth_taken ether eth_redemption.
Proof.
  split; [decided|]. exists (mkMsg 2 0 120), (CRedeem Run.secret1 Run.hash1).
  eexists. split; [done|]. split; [reflexivity|]. split; [apply Run.ret_get; by vm_compute|by vm_compute].
Qed.
Lemma bitcoin_ether_atomic_witness :
  (exists x s, SwapContract.extractSecret (map SignatureScript (TxIns btc_redemption)) Run.hash1 = Ret x /\ eth_pays ether s)
  /\ (exists x s, EthSwap.extractSecret eth_redemption Run.hash1 = Ret x /\
        btc_pays Address.MainNetParams BtcSim.sim_owns bitcoin s).
Proof.
  destruct (bitcoin_ether_atomic Address.MainNetParams BtcSim.sim_owns bitcoin ether eq_refl) as [H1 H2].
  destruct (H1 _ bitcoin_taken) as (x & s & Hx & Hs & _). destruct (H2 _ ether_taken) as (x' & s' & Hx' & Hs' & _).
  split; [exists x, s; split; [exact Hx|exact Hs]|exists x', s'; split; [exact Hx'|exact Hs']].
Defined.

(** ** Swaps against lumens *)

Import StellarSim.

(** The least network: a signature counts only where it must. *)
Definition counts (env : TransactionEnvelope) (s : HSigner) : Prop :=
  (HType s = KeyType_HashX /\ exists sig, sig ∈ Signatures env /\ Decode VersionByteHashX (HKey s) = Ret (sha256 (Signature sig)))
  \/ (HType s = KeyType_HashTx /\ Decode VersionByteHashTx (HKey s) = HashTransaction (Tx env) sim_network)
  \/ (HType s = KeyType_AccountID /\ exists kp h sig, keypair_Address kp = Ret (HKey s) /\ HashTransaction (Tx env) sim_network = Ret h /\
        SignDecorated kp h = Ret sig /\ sig ∈ Signatures env).

#[export, program] Instance sim_stellar : StellarNetwork sim_network := {| satisfies := counts |}.
Next Obligation. intros env w key [(_ & H)|[(H & _)|(H & _)]]; [exact H|discriminate H..]. Qed.
Next Obligation. intros env w key [(H & _)|[(_ & H)|(H & _)]]; [discriminate H|exact H|discriminate H]. Qed.
Next Obligation. intros env w key s H Hd. left. split; [done|]. eexists. split; [exact H|exact Hd]. Qed.
Next Obligation. intros env w kp key h sig H1 H2 H3 H4. right. right. split; [done|]. by exists kp, h, sig. Qed.

(** The account of [StellarSim] for the hash of [Run.secret1]. *)
Definition lumens_account : HAccount :=
  mkHAccount (address (public_of 7)) (dec_nat 42) swap_thresholds [] (contract_signers (public_of 2) Run.hash1 sim_hash (public_of 7)).
Definition lumens_audit : audited := mkAudited (address (public_of 2)) Run.hash1 5 (address (public_of 1)).
Lemma lumens_keyed : Forall keyed (Signers lumens_account).
Proof. decided. Qed.
Lemma lumens_audited : audit_account sim_network lumens_account (address (public_of 7)) sim_refund = Ret lumens_audit.
Proof. vm_compute. reflexivity. Qed.
Definition lumens : stellar_leg sim_network :=
  mkStellarLeg sim_network lumens_account (address (public_of 7)) sim_refund lumens_audit lumens_keyed lumens_audited.

Lemma taken_pays_lumens_witness :
  (exists x s, SwapContract.extractSecret (map SignatureScript (TxIns btc_redemption)) Run.hash1 = Ret x /\ stellar_pays sim_network lumens s)
  /\ (exists x s, EthSwap.extractSecret eth_redemption Run.hash1 = Ret x /\ stellar_pays sim_network lumens s).
Proof.
  destruct (taken_pays_lumens Address.MainNetParams BtcSim.sim_owns sim_network lumens) as [H1 H2].
  destruct (H1 bitcoin _ eq_refl bitcoin_taken) as (x & s & Hx & Hs & _). destruct (H2 ether _ eq_refl ether_taken) as (x' & s' & Hx' & Hs' & _).
  split; [exists x, s; split; [exact Hx|exact Hs]|exists x', s'; split; [exact Hx'|exact Hs']].
Defined.

(** The redemption of the account, in its history. *)
Definition lumens_text : bytes := Eval vm_compute in
  match build_redeem sim_network lumens_account (seed_of 2) Run.secret1 with Ret text => text | _ => [] end.
Lemma lumens_text_built : build_redeem sim_network lumens_account (seed_of 2) Run.secret1 = Ret lumens_text.
Proof. vm_compute. reflexivity. Qed.

Lemma lumens_other : match TransactionFromXDR lumens_text with
  | Ret tx => HashTransaction (xdrTransaction tx) sim_network <> HashTransaction sim_xdr sim_network
  | _ => False
  end.
Proof. vm_compute. discriminate. Qed.

Lemma lumens_env : exists env, authorised sim_network lumens_account env /\ Forall (wf c_DecoratedSignature) (Signatures env) /\
  Forall readable (HSignatures (in_history env)) /\ HashTransaction (Tx env) sim_network <> HashTransaction sim_xdr sim_network.
Proof.
  destruct (stellar_secret_pays sim_network lumens Run.secret1 ltac:(decided) eq_refl (public_of 7) (seed_of 2) lumens_text (public_key_ok 7))
    as (tx & env & Hx & He & Ha); [reflexivity|split; [simpl; lia|constructor]|reflexivity|exact lumens_text_built|].
  destruct (redeem_read_back sim_network lumens_account (public_of 7) (seed_of 2) Run.secret1 lumens_text (public_key_ok 7))
    as (tx' & env' & _ & _ & Hx' & He' & Ht & _ & _ & Hwf & _ & _); [reflexivity|split; [simpl; lia|constructor]|decided|exact lumens_text_built|].
  assert (tx' = tx) as -> by congruence. assert (env' = env) as -> by congruence.
  exists env. split; [exact Ha|]. split; [exact Hwf|]. split; [by apply history_readable|].
  rewrite Ht. pose proof lumens_other as H. rewrite Hx in H. exact H.
Qed.

Lemma lumens_taken_witness : exists txs x s, stellar_taken sim_network lumens txs /\
  stellar_published txs Run.hash1 = Ret x /\ sha256 s = Run.hash1 /\
  (zlen s = 32 -> btc_pays Address.MainNetParams BtcSim.sim_owns bitcoin s /\ eth_pays ether s).
Proof.
  destruct lumens_env as (env & Ha & Hwf & Hr & Hne). exists [in_history env].
  assert (stellar_taken sim_network lumens [in_history env]) as Ht.
  { split; [cbn [flat_map]; rewrite app_nil_r; exact Hr|]. exists env. split; [by left|]. split; [exact Hwf|]. split; [exact Ha|exact Hne]. }
  destruct (lumens_taken Address.MainNetParams BtcSim.sim_owns sim_network lumens [in_history env] Ht) as (x & s & Hx & _ & Hs & _ & H32 & _).
  exists x, s. split; [exact Ht|]. split; [exact Hx|]. split; [exact Hs|]. intros Hl. destruct (H32 Hl) as [Hb He].
  split; [exact (Hb bitcoin eq_refl)|exact (He ether eq_refl)].
Defined.

(** The account of [StellarSim] hides a secret of one byte: it is redeemed with
    it, and no Bitcoin contract and no swap of the Solidity contract is. *)
Definition short_secret : stellar_leg sim_network :=
  mkStellarLeg sim_network sim_contract (address (public_of 7)) sim_refund sim_audited sim_keyed sim_audits.

Lemma short_redeemed : is_Ret (build_redeem sim_network sim_contract (seed_of 2) [1]) = true.
Proof. vm_compute. reflexivity. Qed.

Lemma long_secret_strands_witness :
  (exists text tx env, build_redeem sim_network sim_contract (seed_of 2) [1] = Ret text /\ TransactionFromXDR text = Ret tx /\
     xdrEnvelope tx = Some env /\ authorised sim_network sim_contract env)
  /\ stranded (sha256 [1]) [1].
Proof.
  destruct (long_secret_strands sim_network short_secret [1]) as (H1 & H2); [decided|done|done|reflexivity|].
  split; [|exact H2]. destruct (Ret_of _ short_redeemed) as [text Ht].
  destruct (H1 (public_of 7) (seed_of 2) text (public_key_ok 7)) as (tx & env & Hx & He & Ha); [reflexivity|split; [simpl; lia|constructor]|reflexivity|exact Ht|].
  exists text, tx, env. split; [exact Ht|]. split; [exact Hx|]. split; [exact He|exact Ha].
Defined.
End SwapSim.
